(* ===== verification/_CoqProject ===== *)
-Q . S2P
Prelude.v
CLang.v
Wp.v
Libc.v
Common.v
Pktgen.v
CommonSocket.v
Scripted.v
CommonProps.v
Getopt.v
Tame.v
UdpFlood.v
UdpFloodSpec.v
UdpFloodMmsg.v
UdpFloodMain.v
UdpFloodProps.v
CheckPkt.v
CheckPktSpec.v
FloodSink.v
CheckProps.v
Cmsg.v
CmsgSpec.v
UdpSink.v
CmsgCheck.v
UdpSinkSpec.v
UdpSinkMsg.v
UdpSinkMmsg.v
UdpSinkMain.v
UdpSinkProps.v
FloodToSink.v
UdpPacer.v
UdpPacerSpec.v
UdpPacerProps.v
PacerThreads.v
ArrayCompare.v
ArrayCompareProps.v
TcpSink.v
TcpSinkProps.v
TcpSinkMain.v
TcpClient.v
TcpClientProps.v
UdpEcho.v
UdpEchoSpec.v
UdpEchoServe.v
UdpEchoProps.v
UdpClientEcho.v
UdpClientEchoProps.v
NicDriver.v
NicDriverProps.v
MicroBench.v
MicroBenchProps.v
SmallTools.v
SmallToolsProps.v
Pcap.v
PcapProps.v
MpRq.v
MpRqProps.v
