(* ===== verification/Prelude.v ===== *)
(** * The network testing tools: a verification library

    The repository holds small C programs that measure the network stack of
    Linux: senders and receivers of UDP packets, TCP servers and a client, echo
    programs, a packet pacer, micro benchmarks, and examples over libpcap and
    libibverbs.  This development models them as programs of a monad and proves
    what they compute, which calls they make and what can go wrong.

    ** The programs and how they work together

    - [common.c], [common.h], [global.h]: time measurement, the report of a
      run, the payload buffer, the exit codes.  [common_socket.c]: socket
      addresses, wrappers that end the program on failure, allocation of
      message headers.  The network tools are built on them.
    - [udp_flood.c] sends a number of UDP packets with five system calls in
      turn; with [--pktgen-header] it stamps each packet with a magic number,
      a sequence number and a time, repeated over the whole packet.
    - [udp_sink.c] receives with five system calls; with [--check-pktgen] it
      checks the stamps, over packets scattered in an I/O vector.
    - [udp_pacer.c] sends a packet at a fixed interval from a thread, and
      keeps statistics of how late the thread woke up.
    - [udp_echo.c] and its predecessor [udp_example02.c] send every datagram
      back from the address it arrived at, by returning the control data that
      came with it; [udp_client_echo.c] sends one packet, waits for an answer
      and says whether as many bytes came back as it sent.
    - [tcp_sink.c] and [tcp_sink_epoll.c] accept connections and close them, in
      a blocking loop or in a loop around [epoll_wait];
      [tcp_sink_client.c] connects to them again and again, with retries.
    - [get_nic_driver.c] asks the kernel which driver an interface has.
      [udp_snd.c], [qdisc_bypass_test.c], [cpu_dma_latency.c] and
      [ipv6_example01.c] show one call each.
    - [array_compare01.c], [overhead_cmpxchg.c] (with [asm_x86.h]),
      [syscall_overhead.c], [compiler_test01.c] and [burn_cpu.c] time pieces of
      code.
    - [pcap_timeread.c], [pcap_read.c], [pcap_dump.c] and
      [pcap_write_sample.c] read and write captures; [rdma/mp_rq.c] keeps a ring
      of receive buffers posted to a network card.

    ** The execution model (CLang, Wp, Tame)

    [CLang] is the machine: [M S A] is the type of a computation over a
    [world] with the memory (a finite map from block numbers to lists of bytes,
    an indeterminate byte being [None]), the log of the calls to the system with
    their replies, the output, the variable [verbose] of common.c and a record
    [S] of the static variables of the program.  A computation returns, ends
    the process with a code, reaches undefined behaviour ([ub]), or runs out of
    fuel.  The operating system and the libraries are the parameter [Kernel]: an
    arbitrary state machine that answers calls; what a theorem needs of it (a
    receive returns no more than it was given room for) is a named hypothesis or
    a class.  The functions of libpcap and libibverbs are calls by name
    ([CLib]).  Integers are [Z]; the conversions between the C types are
    written out with [u32], [i32], [u64], ... of this file, and signed overflow
    and division by zero are undefined behaviour.

    [Wp] is the weakest precondition calculus: [wp m Q X w] says that [m] run
    from [w] terminates without undefined behaviour, with [Q] of the value and
    the world when it returns, [X] of the code and the world when it exits.
    [ends] is the same with a third postcondition, for the runs that reach
    undefined behaviour.
    [Tame] derives a simpler judgement for whole programs (no undefined
    behaviour, exit codes from a list), where a function is only known by what
    it preserves.  [Libc] has the constants of the system headers and the
    string functions; [Getopt] the options, as the list of the answers of
    [getopt_long]; [Scripted] a kernel that answers from a list, used by the
    examples and witnesses.

    ** The files

    A program has a file with its functions, named as in the C code, and files
    with their specifications; the names ending in [Props] (and [TcpSinkMain],
    [CmsgCheck], [FloodToSink], [PacerThreads]) hold the properties.

    - [Common], [CommonSocket], [Pktgen]: common.c, common_socket.c and
      [struct pktgen_hdr]; [CommonProps] their properties.
    - [UdpFlood]: the whole of udp_flood.c.  [UdpFloodSpec] and
      [UdpFloodMmsg] give the functional specification of the send loops in
      terms of the log; [UdpFloodMain] the safety of [main]; [UdpFloodProps]
      the properties.
    - [CheckPkt]: [__check_pkt] of udp_sink.c.  [CheckPktSpec] specifies it on
      a packet scattered over adjacent buffers by [check_flat], which sees the
      packet as one list of bytes; [CheckProps] the properties.  [FloodSink]
      has the facts about a sink that checks the packets of a flood.
    - [Cmsg], [UdpSink]: the rest of udp_sink.c.  [CmsgSpec] describes control
      data by the list of its messages, which the traversal visits in order;
      [CmsgCheck] is the verdict on them.  [UdpSinkSpec], [UdpSinkMsg] and
      [UdpSinkMmsg] specify the receive functions; [UdpSinkMain] the safety of
      [main]; [UdpSinkProps] the properties.  [FloodToSink] puts udp_flood and
      udp_sink together, through two classes: [StampingSender] (the payloads a
      sender stamps) and [CheckingReceiver] (the payloads a receiver checks),
      with the functions of the two programs as instances.
    - [UdpPacer]: udp_pacer.c; [UdpPacerSpec] the timer thread,
      [UdpPacerProps] the properties.  [PacerThreads] is the interleaving of
      the timer thread, the end of [main] and the signal handler as a step
      relation on what they share.
    - [UdpEcho]: Module [Echo] is udp_echo.c, Module [Example02] is
      udp_example02.c.  [UdpEchoSpec] has the facts about a received message
      and its packet information, [UdpEchoServe] the rounds of both servers,
      which share the lemma [round_serves], [UdpEchoProps] the properties.
    - [UdpClientEcho]: udp_client_echo.c.  [UdpClientEchoProps] has its
      verdict and its safety, and composes it with udp_echo: the server as a
      function from a datagram to its answer ([server_reply]), the network
      between them as a kernel that hands the client that answer ([via_echo]).
    - [TcpSink]: tcp_sink.c and tcp_sink_epoll.c; [TcpSinkProps] specifies
      the loops over the class [FdTable], the open descriptors of the kernel;
      [TcpSinkMain] the whole programs.  [TcpClient], [TcpClientProps]:
      tcp_sink_client.c.
    - [ArrayCompare], [ArrayCompareProps]: array_compare01.c.
      [NicDriver], [NicDriverProps]: get_nic_driver.c.
    - [MicroBench], [MicroBenchProps]: Modules [Cmpxchg], [Syscall],
      [CompilerTest] and [BurnCpu].  [SmallTools], [SmallToolsProps]: Modules
      [UdpSnd], [QdiscBypass], [DmaLatency] and [Ipv6Example].
    - [Pcap], [PcapProps]: Modules [Timeread], [Read], [Dump] and
      [WriteSample].
    - [MpRq], [MpRqProps]: mp_rq.c; the posted buffers are the step relation
      [ring_step], and the class [Ring] is what the program relies on in the
      library.

    ** What the theorems show

    The floods send exactly the packets asked for, with the right contents,
    and free what they allocate; the sink counts what it received and its
    checks compute the intended verdict whatever the scattering; a sink
    accepts what the flood sent and detects losses, whichever functions send and
    receive.  The pacer does not drift, ends when told to and never uses freed
    memory.  The echo servers answer every message with its payload, to its
    sender, with its control data, and a client behind a server accepts its
    answer exactly when the packet fits the frame of the server.  The TCP
    servers close every connection, the epoll server each of its descriptors
    once; the client makes the connections asked for and retries exactly while
    it may.  The ring of mp_rq never has a descriptor posted twice, and loses
    one only when posting it fails.  The searches of array_compare01 agree with
    the search for the first match where they stay in the array; the micro
    benchmarks report what they ran.  [main] is free of undefined behaviour, for
    every command line in range, in udp_flood, udp_sink, udp_echo,
    udp_client_echo, the TCP programs, get_nic_driver, and in pcap_timeread but
    for its [%ld] of a 32-bit length.  Each theorem says what is in range: an
    argument for every option that needs one, counts and sizes that do not
    overflow and that nothing is divided by when they are 0, and for udp_flood a
    [--pmtu] that has a name in its table or is the default -1.

    Where the code does not do what it means to, the theorem states what it
    does: the receive count of recvMmsg, the byte count of sendMmsg, the
    statistics of the pacer after an early wakeup, the packet of 8 to 15
    bytes, the searches of array_compare01 that read beyond the array, the
    failed accept that the TCP servers count as a connection, the windows of
    pcap_timeread, which look at the microseconds alone, the error
    get_nic_driver reports as success.

    ** Bounds and fuel

    Loops are [iter fuel body]: [body] starts with the test of the C loop.  For
    the counting loops the fuel is the number of rounds plus one, and total
    correctness ([wp]) shows it is enough.  The loops that can run forever (the
    receive loop of recvmmsg, the timer thread, the servers, the loop of mp_rq)
    have their fuel as an argument; a theorem about one of them states the fuel
    that is enough where the loop ends, or speaks of every prefix of the run.

    ** Not modelled

    The size of the stack: the arrays of variable length of udp_sink are
    blocks like any other.  The text [inet_ntop] renders, [strerror] and the
    error texts of the libraries, which messages show; [double] is IEEE binary64
    as in [SpecFloat].  The addresses of [msg_name] in sendmsg are values carried by
    the call, not memory.  What hardware writes into the ring of mp_rq, and the
    contents of a capture file, appear only as replies to calls.  What
    [printf] does with an argument of the wrong type is a parameter of the pcap
    programs ([ld]: nothing, for undefined behaviour, or the number printed).
    The time a piece of code takes is what the clock calls answer.  The assembly
    of asm_x86.h is its effect on memory and flags.  The scripts (shell, Python,
    Perl), the build files and the documentation are outside of the
    development. *)
From stdpp Require Import base list gmap strings.
From Stdlib Require Import ZArith Lia.

Create Rewrite HintDb mach.

Declare Scope c_scope.
Delimit Scope c_scope with c.

#[local] Open Scope Z_scope.

(** ** Machine integers

    The code is compiled for x86-64 Linux (LP64): [int] is 32 bits, [long]
    and [size_t] 64.  Values are integers; a conversion to an unsigned type
    wraps, a conversion to a signed type keeps the low bits (two's
    complement), which is what the compilers of the Makefile do. *)
Definition u16 (z : Z) : Z := z mod 2 ^ 16.
Definition u32 (z : Z) : Z := z mod 2 ^ 32.
Definition u64 (z : Z) : Z := z mod 2 ^ 64.
Definition i32 (z : Z) : Z := (z + 2 ^ 31) mod 2 ^ 32 - 2 ^ 31.
Definition i64 (z : Z) : Z := (z + 2 ^ 63) mod 2 ^ 64 - 2 ^ 63.

Definition INT_MIN : Z := - 2 ^ 31.
Definition INT_MAX : Z := 2 ^ 31 - 1.
Definition UINT32_MAX : Z := 2 ^ 32 - 1.

Definition is_i32 (z : Z) : Prop := - 2 ^ 31 <= z < 2 ^ 31.
Definition is_u32 (z : Z) : Prop := 0 <= z < 2 ^ 32.
Definition is_u64 (z : Z) : Prop := 0 <= z < 2 ^ 64.

(** The truth value of a C condition. *)
Definition truth (z : Z) : bool := negb (z =? 0).
Definition of_bool (b : bool) : Z := if b then 1 else 0.

(** [mach] closes goals about the conversions by unfolding them to
    euclidean division. *)
Ltac mach :=
  unfold is_i32, is_u32, is_u64, u16, u32, u64, i32, i64, INT_MIN, INT_MAX, UINT32_MAX in *;
  Z.to_euclidean_division_equations; lia.

Lemma u16_range z : 0 <= u16 z < 2 ^ 16.
Proof. unfold u16. apply Z.mod_pos_bound. lia. Qed.

Lemma u32_range z : 0 <= u32 z < 2 ^ 32.
Proof. unfold u32. apply Z.mod_pos_bound. lia. Qed.

Lemma u64_range z : 0 <= u64 z < 2 ^ 64.
Proof. unfold u64. apply Z.mod_pos_bound. lia. Qed.

Lemma i32_range z : is_i32 (i32 z).
Proof.
  unfold is_i32, i32. pose proof (Z.mod_pos_bound (z + 2 ^ 31) (2 ^ 32)). lia.
Qed.

Lemma u16_id z : 0 <= z < 2 ^ 16 -> u16 z = z.
Proof. intros H. unfold u16. apply Z.mod_small, H. Qed.

Lemma u32_id z : 0 <= z < 2 ^ 32 -> u32 z = z.
Proof. intros H. unfold u32. apply Z.mod_small, H. Qed.

Lemma u64_id z : 0 <= z < 2 ^ 64 -> u64 z = z.
Proof. intros H. unfold u64. apply Z.mod_small, H. Qed.

Lemma i32_id z : - 2 ^ 31 <= z < 2 ^ 31 -> i32 z = z.
Proof. intros H. unfold i32. rewrite Z.mod_small; lia. Qed.

Lemma i64_id z : - 2 ^ 63 <= z < 2 ^ 63 -> i64 z = z.
Proof. intros H. unfold i64. rewrite Z.mod_small; lia. Qed.

Lemma u64_u64 z : u64 (u64 z) = u64 z.
Proof. apply u64_id, u64_range. Qed.

Lemma u32_u32 z : u32 (u32 z) = u32 z.
Proof. apply u32_id, u32_range. Qed.

Lemma u64_add_l a b : u64 (u64 a + b) = u64 (a + b).
Proof. unfold u64. apply Zplus_mod_idemp_l. Qed.

Lemma u64_add_r a b : u64 (a + u64 b) = u64 (a + b).
Proof. unfold u64. apply Zplus_mod_idemp_r. Qed.

Lemma u64_sub_r a b : u64 (a - u64 b) = u64 (a - b).
Proof. unfold u64. apply Zminus_mod_idemp_r. Qed.

Lemma u32_add_l a b : u32 (u32 a + b) = u32 (a + b).
Proof. unfold u32. apply Zplus_mod_idemp_l. Qed.

Lemma i32_u64 z : i32 (u64 z) = i32 z.
Proof.
  unfold i32, u64. f_equal.
  rewrite <- (Zplus_mod_idemp_l (z mod 2 ^ 64)), <- (Zplus_mod_idemp_l z).
  do 2 f_equal. apply Z.mod_mod_divide. by exists (2 ^ 32).
Qed.

#[export] Hint Rewrite u64_u64 u32_u32 u64_add_l u64_add_r u64_sub_r u32_add_l i32_u64 : mach.

Lemma truth_true z : truth z = true <-> z <> 0.
Proof. unfold truth. destruct (Z.eqb_spec z 0); simpl; intuition congruence. Qed.

Lemma truth_false z : truth z = false <-> z = 0.
Proof. unfold truth. destruct (Z.eqb_spec z 0); simpl; intuition congruence. Qed.

(** ** Bytes in little-endian order *)
Definition is_byte (z : Z) : Prop := 0 <= z < 256.

Fixpoint le_bytes (n : nat) (z : Z) : list Z :=
  match n with
  | O => []
  | S n' => z mod 256 :: le_bytes n' (z / 256)
  end.

Fixpoint le_val (l : list Z) : Z :=
  match l with
  | [] => 0
  | b :: t => b + 256 * le_val t
  end.

Lemma length_le_bytes n z : length (le_bytes n z) = n.
Proof. revert z. induction n as [|n IH]; intros z; simpl; [done|]. by rewrite IH. Qed.

Lemma le_bytes_byte n z : Forall is_byte (le_bytes n z).
Proof.
  revert z. induction n as [|n IH]; intros z; simpl; constructor; [|done].
  apply Z.mod_pos_bound. lia.
Qed.

Lemma le_val_bytes n z : le_val (le_bytes n z) = z mod 256 ^ Z.of_nat n.
Proof.
  revert z. induction n as [|n IH]; intros z.
  - simpl. by rewrite Z.mod_1_r.
  - cbn [le_bytes le_val]. rewrite IH, Nat2Z.inj_succ, Z.pow_succ_r by lia.
    rewrite Z.rem_mul_r; lia.
Qed.

Lemma le_bytes_val l : Forall is_byte l -> le_bytes (length l) (le_val l) = l.
Proof.
  induction 1 as [|b l Hb _ IH]; cbn [le_bytes le_val length]; [done|].
  unfold is_byte in Hb. rewrite (Z.mul_comm 256).
  rewrite Z.mod_add, Z.div_add, Z.mod_small, Z.div_small by lia.
  by rewrite Z.add_0_l, IH.
Qed.

Lemma le_val_range l : Forall is_byte l -> 0 <= le_val l < 256 ^ Z.of_nat (length l).
Proof.
  induction 1 as [|b l Hb _ IH]; cbn [le_val length]; [lia|].
  rewrite Nat2Z.inj_succ, Z.pow_succ_r by lia. unfold is_byte in Hb. lia.
Qed.

Lemma le_val_bytes4 z : le_val (le_bytes 4 z) = u32 z.
Proof. rewrite le_val_bytes. reflexivity. Qed.

(** Byte swaps: [htonl], [ntohl] and [htons] on a little-endian machine. *)
Definition htonl (z : Z) : Z := le_val (rev (le_bytes 4 z)).
Definition ntohl (z : Z) : Z := htonl z.
Definition htons (z : Z) : Z := le_val (rev (le_bytes 2 z)).

Lemma htonl_range z : 0 <= htonl z < 2 ^ 32.
Proof.
  unfold htonl.
  pose proof (le_val_range (rev (le_bytes 4 z))) as H.
  rewrite length_rev, length_le_bytes in H. apply H.
  apply Forall_rev, le_bytes_byte.
Qed.

Lemma ntohl_htonl z : ntohl (htonl z) = u32 z.
Proof.
  unfold ntohl, htonl at 1. unfold htonl.
  pose proof (le_bytes_val (rev (le_bytes 4 z))) as H.
  rewrite length_rev, length_le_bytes in H. rewrite H.
  - rewrite rev_involutive. apply le_val_bytes4.
  - apply Forall_rev, le_bytes_byte.
Qed.

(** ** Reading and overwriting a range of a list *)
Definition load_range {A} (off n : nat) (l : list A) : option (list A) :=
  if (off + n <=? length l)%nat then Some (take n (drop off l)) else None.

Definition store_range {A} (off : nat) (bs l : list A) : option (list A) :=
  if (off + length bs <=? length l)%nat
  then Some (take off l ++ bs ++ drop (off + length bs) l) else None.

Section Ranges.
Context {A : Type}.
Implicit Types (l bs : list A) (off n : nat).

Lemma load_range_Some off n l r :
  load_range off n l = Some r <-> (off + n <= length l)%nat /\ r = take n (drop off l).
Proof.
  unfold load_range. destruct (Nat.leb_spec (off + n) (length l)); split; intros; intuition (congruence || lia).
Qed.

Lemma load_range_length off n l r : load_range off n l = Some r -> length r = n.
Proof. intros [H ->]%load_range_Some. rewrite length_take, length_drop. lia. Qed.

Lemma store_range_length off bs l l' : store_range off bs l = Some l' -> length l' = length l.
Proof.
  unfold store_range. destruct (Nat.leb_spec (off + length bs) (length l)); [|done].
  intros [= <-]. rewrite !length_app, length_take, length_drop. lia.
Qed.

Lemma store_range_ok off bs l :
  (off + length bs <= length l)%nat ->
  store_range off bs l = Some (take off l ++ bs ++ drop (off + length bs) l).
Proof. intros H. unfold store_range. by destruct (Nat.leb_spec (off + length bs) (length l)); [|lia]. Qed.

Lemma load_range_ok off n l :
  (off + n <= length l)%nat -> load_range off n l = Some (take n (drop off l)).
Proof. intros H. by apply load_range_Some. Qed.

Lemma load_store_same off bs l l' :
  store_range off bs l = Some l' -> load_range off (length bs) l' = Some bs.
Proof.
  intros Hs. pose proof (store_range_length _ _ _ _ Hs) as Hl. revert Hs.
  unfold store_range. destruct (Nat.leb_spec (off + length bs) (length l)); [|done].
  intros [= <-]. apply load_range_Some. split; [lia|].
  rewrite drop_app_ge by (rewrite length_take; lia).
  rewrite length_take, Nat.min_l, Nat.sub_diag by lia. simpl.
  symmetry. apply take_app_length.
Qed.

Lemma take_store_range off bs l l' :
  store_range off bs l = Some l' -> take (off + length bs) l' = take off l ++ bs.
Proof.
  unfold store_range. destruct (Nat.leb_spec (off + length bs) (length l)); [|done].
  intros [= <-]. rewrite app_assoc, take_app_le.
  - apply take_ge. rewrite length_app, length_take. lia.
  - rewrite length_app, length_take. lia.
Qed.
End Ranges.

(** ** Sums *)
Fixpoint sumZ (l : list Z) : Z :=
  match l with [] => 0 | x :: t => x + sumZ t end.

Lemma sumZ_app l1 l2 : sumZ (l1 ++ l2) = sumZ l1 + sumZ l2.
Proof. induction l1 as [|x l1 IH]; simpl; lia. Qed.

(** ** Overwriting part of a fixed-size object *)
Definition put_bytes {A} (off : nat) (bs l : list A) : list A :=
  take off l ++ bs ++ drop (off + length bs) l.

Definition get_bytes {A} (off n : nat) (l : list A) : list A := take n (drop off l).

Section PutBytes.
Context {A : Type}.
Implicit Types (bs cs l : list A).

Lemma length_put_bytes off bs l :
  (off + length bs <= length l)%nat -> length (put_bytes off bs l) = length l.
Proof. intros H. unfold put_bytes. rewrite !length_app, length_take, length_drop. lia. Qed.

Lemma fits_put m off bs l :
  (m <= length l)%nat -> (off + length bs <= length l)%nat -> (m <= length (put_bytes off bs l))%nat.
Proof. intros. by rewrite length_put_bytes. Qed.

Lemma get_put_same off bs l :
  (off + length bs <= length l)%nat -> get_bytes off (length bs) (put_bytes off bs l) = bs.
Proof.
  intros H. unfold get_bytes, put_bytes.
  rewrite drop_app_ge by (rewrite length_take; lia).
  rewrite length_take, Nat.min_l, Nat.sub_diag by lia. cbn. apply take_app_length.
Qed.

Lemma lookup_put_other off bs l i :
  (off + length bs <= length l)%nat -> (i < off \/ off + length bs <= i)%nat ->
  put_bytes off bs l !! i = l !! i.
Proof.
  intros H Hi. unfold put_bytes. destruct Hi as [Hi|Hi].
  - rewrite lookup_app_l by (rewrite length_take; lia). by rewrite lookup_take_lt.
  - rewrite lookup_app_r by (rewrite length_take; lia).
    rewrite length_take, Nat.min_l by lia.
    rewrite lookup_app_r by lia. rewrite lookup_drop. f_equal. lia.
Qed.

Lemma get_put_other off off' n bs l :
  (off + length bs <= length l)%nat -> (off' + n <= off \/ off + length bs <= off')%nat ->
  get_bytes off' n (put_bytes off bs l) = get_bytes off' n l.
Proof.
  intros H Ho. unfold get_bytes. apply list_eq. intros i.
  destruct (decide (i < n)%nat) as [Hi|Hi].
  - rewrite !lookup_take_lt, !lookup_drop by done. apply lookup_put_other; lia.
  - rewrite !lookup_ge_None_2; [done| |]; rewrite length_take; lia.
Qed.

(** A part of a part. *)
Lemma get_bytes_sub base m off n l :
  (off + n <= m)%nat -> get_bytes off n (get_bytes base m l) = get_bytes (base + off) n l.
Proof.
  intros H. unfold get_bytes.
  by rewrite skipn_firstn_comm, take_take, drop_drop, Nat.min_l by lia.
Qed.

Lemma get_bytes_split off n m l :
  get_bytes off (n + m) l = get_bytes off n l ++ get_bytes (off + n) m l.
Proof. unfold get_bytes. by rewrite <- take_take_drop, drop_drop. Qed.

Lemma length_get_bytes off n l : (off + n <= length l)%nat -> length (get_bytes off n l) = n.
Proof. intros H. unfold get_bytes. rewrite length_take, length_drop. lia. Qed.

Lemma put_bytes_nil off l : put_bytes off [] l = l.
Proof. unfold put_bytes. cbn. by rewrite Nat.add_0_r, take_drop. Qed.

Lemma put_bytes_all bs l : length bs = length l -> put_bytes 0 bs l = bs.
Proof. intros H. unfold put_bytes. cbn. by rewrite drop_ge, app_nil_r by lia. Qed.

(** Writing the continuation of what was just written. *)
Lemma put_bytes_app off bs cs l :
  (off + length bs + length cs <= length l)%nat ->
  put_bytes (off + length bs) cs (put_bytes off bs l) = put_bytes off (bs ++ cs) l.
Proof.
  intros H. unfold put_bytes at 1.
  assert (take (off + length bs) (put_bytes off bs l) = take off l ++ bs) as ->.
  { unfold put_bytes. rewrite app_assoc, take_app_le; [apply take_ge|];
      rewrite length_app, length_take; lia. }
  assert (drop (off + length bs + length cs) (put_bytes off bs l) =
          drop (off + length (bs ++ cs)) l) as ->.
  { unfold put_bytes. rewrite app_assoc, drop_app_ge; rewrite length_app, length_take; [|lia].
    rewrite drop_drop, length_app. f_equal. lia. }
  unfold put_bytes. by rewrite <- !app_assoc.
Qed.

Lemma store_range_put off bs l :
  (off + length bs <= length l)%nat -> store_range off bs l = Some (put_bytes off bs l).
Proof. apply store_range_ok. Qed.

Lemma load_range_get off n l :
  (off + n <= length l)%nat -> load_range off n l = Some (get_bytes off n l).
Proof. apply load_range_ok. Qed.

Lemma put_bytes_overwrite off bs cs l :
  length cs = length bs -> (off + length bs <= length l)%nat ->
  put_bytes off cs (put_bytes off bs l) = put_bytes off cs l.
Proof.
  intros Hl H. unfold put_bytes at 1. rewrite Hl.
  assert (take off (put_bytes off bs l) = take off l) as ->.
  { unfold put_bytes. rewrite take_app_le by (rewrite length_take; lia).
    rewrite take_take. f_equal. lia. }
  assert (drop (off + length bs) (put_bytes off bs l) = drop (off + length bs) l) as ->.
  { unfold put_bytes. rewrite app_assoc, drop_app_ge; rewrite length_app, length_take; [|lia].
    rewrite drop_drop. f_equal. lia. }
  unfold put_bytes. by rewrite Hl.
Qed.
End PutBytes.

Lemma fmap_get_bytes {A B} (f : A -> B) off n l :
  f <$> get_bytes off n l = get_bytes off n (f <$> l).
Proof. unfold get_bytes. by rewrite fmap_take, fmap_drop. Qed.

(** Observations of a trace kept newest first. *)
Lemma rev_omap_cons {A B} (f : A -> option B) x l :
  rev (omap f (x :: l)) = rev (omap f l) ++ option_list (f x).
Proof. cbn. destruct (f x); cbn; by rewrite ?app_nil_r. Qed.

Lemma filter_none {A} (P : A -> Prop) `{forall x, Decision (P x)} l :
  Forall (fun x => ~ P x) l -> filter P l = [].
Proof. induction 1 as [|x l Hx _ IH]; [done|]. by rewrite filter_cons_False. Qed.

(** Freeing all the blocks allocated from [n] on restores the memory. *)
Lemma delete_fresh_blocks {A} (ks : list Z) (m m0 : gmap Z A) n :
  (forall i, n <= i -> m0 !! i = None) -> Forall (Z.le n) ks ->
  (forall i, i ∉ ks -> m !! i = m0 !! i) ->
  foldr delete m ks = m0.
Proof.
  intros H0 Hks Hm. apply map_eq. intros i. destruct (decide (i ∈ ks)) as [Hi|Hi].
  - rewrite lookup_foldr_delete by done. symmetry. apply H0.
    rewrite Forall_forall in Hks. by apply Hks.
  - rewrite lookup_foldr_delete_not_elem_of by done. by apply Hm.
Qed.

(** The goal [delete k1 (... (delete kn m)) = m0], where [m] is [m0] with
    blocks inserted at the deleted keys, fresh by [H]. *)
Ltac deleted_from m := lazymatch m with delete _ ?m' => deleted_from m' | _ => m end.
Ltac deleted_keys m :=
  lazymatch m with
  | delete ?k ?m' => let ks := deleted_keys m' in constr:(k :: ks)
  | _ => constr:(@nil Z)
  end.

Ltac blocks_freed n H :=
  lazymatch goal with
  | |- ?l = ?r =>
      let m := deleted_from l in
      let ks := deleted_keys l in
      apply (delete_fresh_blocks ks m r n)
  end;
  [intros; apply H; lia | repeat (apply List.Forall_cons; [lia|]); apply List.Forall_nil |
   let Hk := fresh "Hk" in
   intros ? Hk; rewrite !not_elem_of_cons in Hk; destruct_and? Hk;
   rewrite ?lookup_insert_ne by lia; done].
