(* ===== verification/CLang.v ===== *)
(** * The execution model of the C programs

    A program runs over a [world]: the memory of its allocated blocks, the
    variables with static storage ([verbose] of common.c, and a record [S] of
    the statics of the program at hand), what it printed, and the calls it
    made to the operating system and C library with the replies it got.  The
    operating system is not part of the repository: it is the parameter
    [Kernel], an arbitrary state machine that answers calls.

    A computation returns, ends the process ([exit]), reaches undefined
    behaviour, or runs out of the fuel of a loop.  [wpg] is the weakest
    precondition for it: no undefined behaviour, and total correctness
    ([wp]) or partial correctness ([wlp]). *)
From stdpp Require Import base list gmap strings.
From Stdlib Require Import ZArith Lia SpecFloat.
From S2P Require Import Prelude.

#[local] Open Scope Z_scope.

(** ** Doubles: IEEE 754 binary64 *)
Definition double : Type := spec_float.
Definition double_of_Z (z : Z) : double := binary_normalize 53 1024 z 0 false.
Definition double_div (a b : double) : double := SFdiv 53 1024 a b.
Definition double_add (a b : double) : double := SFadd 53 1024 a b.
Definition double_zero : double := S754_zero false.

(** ** Data exchanged with the system *)

(** A byte of memory; [None] is an indeterminate (never written) byte. *)
Abbreviation mbyte := (option Z).

Record timespec := Timespec { ts_sec : Z; ts_nsec : Z }.

(** One received message: payload, source address and control data. *)
Record rmsg := RMsg { m_data : list Z; m_name : list Z; m_ctl : list Z }.

(** The reply to a call: its return value, [errno] when it failed, and what
    it wrote through pointer arguments (a time, received messages). *)
Record reply := Reply { r_ret : Z; r_errno : Z; r_ts : timespec; r_msgs : list rmsg }.

Definition no_msg : rmsg := RMsg [] [] [].
Definition r_msg (r : reply) : rmsg := default no_msg (head (r_msgs r)).
Definition reply_of (z : Z) : reply := Reply z 0 (Timespec 0 0) [].

(** The operating-system and C-library services the programs call. *)
Inductive call :=
| CSocket (family type protocol : Z)
| CConnect (fd : Z) (addr : list Z) (addrlen : Z)
| CBind (fd : Z) (addr : list Z) (addrlen : Z)
| CListen (fd backlog : Z)
| CAccept (fd flags : Z)
| CClose (fd : Z)
| CSetsockopt (fd level optname : Z) (optval : list Z)
| CRead (fd cap : Z)
| CRecv (fd cap flags : Z)
| CRecvfrom (fd cap flags : Z) (with_addr : bool)
| CRecvmsg (fd : Z) (caps : list Z) (namelen controllen flags : Z)
| CRecvmmsg (fd : Z) (hdrs : list (list Z * Z * Z)) (flags : Z) (timeout : option timespec)
| CWrite (fd : Z) (data : list mbyte)
| CSend (fd : Z) (data : list mbyte) (flags : Z)
| CSendto (fd : Z) (data : list mbyte) (flags : Z) (addr : list Z) (addrlen : Z)
| CSendmsg (fd : Z) (data : list mbyte) (addr : list Z) (control : list Z) (flags : Z)
| CSendmmsg (fd : Z) (msgs : list (list mbyte)) (addr : list Z) (flags : Z)
| CClockGettime (clock : Z)
| CClockNanosleep (clock flags : Z) (until : timespec)
| CRdtsc
| CMalloc (size : Z)
| CGetpid
| CGetuid
| CEpollCreate (flags : Z)
| CEpollCtl (epfd op fd events : Z)
| CEpollWait (epfd maxevents timeout : Z)
| CFopen (path : string)
| CFgets (size : Z)
| CFclose
| CInetPton (family : Z) (src : string)
| CInetNtop (family : Z) (src : list Z)
| CSchedSetscheduler (policy prio : Z)
| CIoctl (fd request : Z) (ifname : list Z) (cmd : Z)
| CIfNametoindex (ifname : list Z)
| COpen (path : string) (flags : Z)
| CSleep (seconds : Z)
| CRand
| CSigaction (signum : Z)
| CPthreadAttrInit
| CPthreadCreate
(** A function of another library (libpcap, libibverbs), by its name, with the
    arguments that matter. *)
| CLib (func : string) (args : list Z)
(** Not a call of the program: a point where the system may run a signal
    handler (the reply is not 0 when it does). *)
| CSignalPoint.

(** The operating system: a state machine answering calls. *)
Class Kernel := { kst : Type; kstep : call -> kst -> reply * kst }.

(** ** Output *)
Inductive arg :=
| AInt (z : Z)
| AStr (s : string)
| ADbl (d : double).

(** One [printf] ([o_err = false]) or [fprintf(stderr, ...)]: the format
    string and its arguments. *)
Record out := Out { o_err : bool; o_fmt : string; o_args : list arg }.

(** ** Pointers *)
Record ptr := Ptr { p_block : Z; p_off : Z }.
Definition NULL : ptr := Ptr 0 0.
Definition ptr_add (p : ptr) (n : Z) : ptr := Ptr (p_block p) (p_off p + n).
Definition is_null (p : ptr) : bool := p_block p =? 0.

(** ** The world and the outcomes of a computation *)
Inductive ub :=
| DivByZero
| Overflow
| OutOfBounds
| NullDeref
| Indeterminate
| BadFree
(** A conversion of [printf] that does not fit its argument. *)
| BadFormat.

Record world {K : Kernel} (S : Type) := World {
  w_k : kst;
  w_mem : gmap Z (list mbyte);
  w_next : Z;
  w_log : list (call * reply);
  w_out : list out;
  w_verbose : Z;
  w_st : S
}.
Arguments World {K S}.
Arguments w_k {K S}.
Arguments w_mem {K S}.
Arguments w_next {K S}.
Arguments w_log {K S}.
Arguments w_out {K S}.
Arguments w_verbose {K S}.
Arguments w_st {K S}.

Inductive outcome (W A : Type) :=
| Ret (a : A) (w : W)
| Exit (code : Z) (w : W)
| Undef (u : ub) (w : W)
| NoFuel.
Arguments Ret {W A}.
Arguments Exit {W A}.
Arguments Undef {W A}.
Arguments NoFuel {W A}.

Section Monad.
Context {K : Kernel} {S : Type}.
#[local] Abbreviation W := (world S).

Definition M (A : Type) : Type := W -> outcome W A.

Definition ret {A} (a : A) : M A := fun w => Ret a w.

Definition bind {A B} (m : M A) (f : A -> M B) : M B :=
  fun w =>
    match m w with
    | Ret a w' => f a w'
    | Exit c w' => Exit c w'
    | Undef u w' => Undef u w'
    | NoFuel => NoFuel
    end.

Definition exit {A} (code : Z) : M A := fun w => Exit code w.
Definition undefined {A} (u : ub) : M A := fun w => Undef u w.
Definition out_of_fuel {A} : M A := fun _ => NoFuel.

(** World updates. *)
Definition w_call (c : call) (r : reply) (k' : kst) (w : W) : W :=
  World k' (w_mem w) (w_next w) ((c, r) :: w_log w) (w_out w) (w_verbose w) (w_st w).
Definition w_print (o : out) (w : W) : W :=
  World (w_k w) (w_mem w) (w_next w) (w_log w) (w_out w ++ [o]) (w_verbose w) (w_st w).
Definition w_set_mem (m : gmap Z (list mbyte)) (w : W) : W :=
  World (w_k w) m (w_next w) (w_log w) (w_out w) (w_verbose w) (w_st w).
Definition w_alloc (b : list mbyte) (w : W) : W :=
  World (w_k w) (<[w_next w := b]> (w_mem w)) (w_next w + 1) (w_log w) (w_out w)
    (w_verbose w) (w_st w).
Definition w_set_verbose (v : Z) (w : W) : W :=
  World (w_k w) (w_mem w) (w_next w) (w_log w) (w_out w) v (w_st w).
Definition w_set_st (s : S) (w : W) : W :=
  World (w_k w) (w_mem w) (w_next w) (w_log w) (w_out w) (w_verbose w) s.

(** A call to the operating system. *)
Definition ask (c : call) : M reply :=
  fun w => let '(r, k') := kstep c (w_k w) in Ret r (w_call c r k' w).

Definition print (o : out) : M unit := fun w => Ret tt (w_print o w).
Definition printf (fmt : string) (args : list arg) : M unit := print (Out false fmt args).
Definition eprintf (fmt : string) (args : list arg) : M unit := print (Out true fmt args).
Definition perror (msg : string) : M unit := print (Out true msg []).

Definition get_verbose : M Z := fun w => Ret (w_verbose w) w.
Definition put_verbose (v : Z) : M unit := fun w => Ret tt (w_set_verbose v w).
Definition get_st : M S := fun w => Ret (w_st w) w.
Definition put_st (s : S) : M unit := fun w => Ret tt (w_set_st s w).

Definition when (b : bool) (m : M unit) : M unit := if b then m else ret tt.

(** ** Memory *)

(** A block of [n] indeterminate bytes: storage of a local variable, or a
    successful [malloc]. *)
Definition new_block (n : Z) : M ptr :=
  fun w => Ret (Ptr (w_next w) 0) (w_alloc (replicate (Z.to_nat n) None) w).

(** [malloc]: the system decides whether the request can be served. *)
Definition malloc (n : Z) : M ptr :=
  bind (ask (CMalloc n)) (fun r => if r_ret r =? 0 then ret NULL else new_block n).

Definition load_block (b off : Z) (n : nat) (m : gmap Z (list mbyte)) : option (list mbyte) :=
  if off <? 0 then None else
  match m !! b with
  | Some l => load_range (Z.to_nat off) n l
  | None => None
  end.

Definition store_block (b off : Z) (bs : list mbyte) (m : gmap Z (list mbyte)) :
  option (gmap Z (list mbyte)) :=
  if off <? 0 then None else
  match m !! b with
  | Some l => (fun l' => <[b := l']> m) <$> store_range (Z.to_nat off) bs l
  | None => None
  end.

(** The bytes of a region, determinate or not (what a [send] transmits). *)
Definition peek (p : ptr) (n : Z) : M (list mbyte) :=
  fun w =>
    match load_block (p_block p) (p_off p) (Z.to_nat n) (w_mem w) with
    | Some l => Ret l w
    | None => Undef OutOfBounds w
    end.

(** Reading values: every byte must have been written. *)
Definition load (p : ptr) (n : Z) : M (list Z) :=
  bind (peek p n) (fun l =>
    match mapM id l with
    | Some bs => ret bs
    | None => undefined Indeterminate
    end).

Definition store (p : ptr) (bs : list Z) : M unit :=
  fun w =>
    match store_block (p_block p) (p_off p) (Some <$> bs) (w_mem w) with
    | Some m' => Ret tt (w_set_mem m' w)
    | None => Undef OutOfBounds w
    end.

(** Writing bytes that may be indeterminate. *)
Definition poke (p : ptr) (l : list mbyte) : M unit :=
  fun w =>
    match store_block (p_block p) (p_off p) l (w_mem w) with
    | Some m' => Ret tt (w_set_mem m' w)
    | None => Undef OutOfBounds w
    end.

Definition memcpy (dst src : ptr) (n : Z) : M unit := bind (peek src n) (poke dst).

Definition free (p : ptr) : M unit :=
  fun w =>
    if is_null p then Ret tt w
    else match w_mem w !! p_block p with
         | Some _ => if p_off p =? 0 then Ret tt (w_set_mem (delete (p_block p) (w_mem w)) w)
                     else Undef BadFree w
         | None => Undef BadFree w
         end.

(** ** Loops

    [iter fuel body a] runs [body] from the loop state [a] until it answers
    [inr]; the guard of the C loop is the first thing [body] tests. *)
Fixpoint iter {A B} (fuel : nat) (body : A -> M (A + B)) (a : A) : M B :=
  match fuel with
  | O => out_of_fuel
  | Datatypes.S n =>
      bind (body a) (fun r => match r with inl a' => iter n body a' | inr b => ret b end)
  end.

(** Signed arithmetic that overflows is undefined. *)
Definition int_check (z : Z) : M Z :=
  if (INT_MIN <=? z) && (z <=? INT_MAX) then ret z else undefined Overflow.

Definition long_check (z : Z) : M Z :=
  if (- 2 ^ 63 <=? z) && (z <? 2 ^ 63) then ret z else undefined Overflow.

(** Integer division, C99: truncation towards zero. *)
Definition int_div (a b : Z) : M Z :=
  if b =? 0 then undefined DivByZero else int_check (Z.quot a b).

(** [for (x in l) f x], collecting the results. *)
Fixpoint forM {A B} (l : list A) (f : A -> M B) : M (list B) :=
  match l with
  | [] => ret []
  | x :: l' => bind (f x) (fun y => bind (forM l' f) (fun ys => ret (y :: ys)))
  end.
End Monad.

Arguments M {K} S A.

Notation "x <- m ;; k" := (bind m (fun x => k))
  (at level 100, m at next level, right associativity) : c_scope.
Notation "m ;; k" := (bind m (fun _ => k))
  (at level 100, right associativity) : c_scope.
