(* ===== verification/Wp.v ===== *)
(** * Weakest preconditions for the execution model

    [wpg F m Q X w]: from the world [w] the computation [m] never reaches
    undefined behaviour; when it returns, [Q] holds of the value and the
    world; when it ends the process, [X] holds of the exit code and the
    world; it runs out of fuel only if [F].  [wp] is total correctness
    ([F = False]), [wlp] partial correctness ([F = True]). *)
From stdpp Require Import base list gmap strings.
From Stdlib Require Import ZArith Lia Morphisms.
From S2P Require Import Prelude CLang.

#[local] Open Scope Z_scope.
#[local] Open Scope c_scope.

Create HintDb wp discriminated.

Section Wp.
Context {K : Kernel} {S : Type}.
#[local] Abbreviation W := (world S).

Definition wpg (F : Prop) {A} (m : M S A) (Q : A -> W -> Prop) (X : Z -> W -> Prop) (w : W) : Prop :=
  match m w with
  | Ret a w' => Q a w'
  | Exit c w' => X c w'
  | Undef _ _ => False
  | NoFuel => F
  end.

Definition wp {A} := @wpg False A.
Definition wlp {A} := @wpg True A.

Section Rules.
Context {F : Prop} {A : Type}.
Implicit Types (m : M S A) (Q : A -> W -> Prop) (X : Z -> W -> Prop) (w : W).

Lemma wp_mono m Q Q' X X' w :
  wpg F m Q X w -> (forall a w', Q a w' -> Q' a w') -> (forall c w', X c w' -> X' c w') ->
  wpg F m Q' X' w.
Proof. unfold wpg. destruct (m w); naive_solver. Qed.

Lemma wp_post m Q Q' X w :
  wpg F m Q X w -> (forall a w', Q a w' -> Q' a w') -> wpg F m Q' X w.
Proof. intros H HQ. eapply wp_mono; eauto. Qed.

Lemma wp_conj m Q Q' X w :
  wpg F m Q X w -> wpg F m Q' X w -> wpg F m (fun a w' => Q a w' /\ Q' a w') X w.
Proof. unfold wpg. destruct (m w); naive_solver. Qed.

Lemma wp_ret a Q X w : Q a w -> wpg F (ret a) Q X w.
Proof. done. Qed.

Lemma wp_exit c Q X w : X c w -> wpg F (exit c) Q X w.
Proof. done. Qed.

#[global] Instance wpg_proper m :
  Proper (pointwise_relation A (pointwise_relation W iff) ==>
          pointwise_relation Z (pointwise_relation W iff) ==> eq ==> iff) (wpg F m).
Proof.
  intros Q Q' HQ X X' HX w ? <-. unfold wpg, pointwise_relation in *.
  destruct (m w); auto.
Qed.
End Rules.

Section Effects.
Context {F : Prop}.
Implicit Types (X : Z -> W -> Prop) (w : W).

Lemma wp_bind {A B} (m : M S A) (f : A -> M S B) Q X w :
  wpg F m (fun a w' => wpg F (f a) Q X w') X w -> wpg F (bind m f) Q X w.
Proof. unfold wpg, bind. by destruct (m w). Qed.

Lemma wp_assoc {A B C} (m : M S A) (f : A -> M S B) (g : B -> M S C) Q X w :
  wpg F (bind (bind m f) g) Q X w -> wpg F (bind m (fun a => bind (f a) g)) Q X w.
Proof. unfold wpg, bind. by destruct (m w). Qed.

Lemma wp_ask c (Q : reply -> W -> Prop) X w :
  (forall r k', kstep c (w_k w) = (r, k') -> Q r (w_call c r k' w)) ->
  wpg F (ask c) Q X w.
Proof. unfold wpg, ask. destruct (kstep c (w_k w)) as [r k'] eqn:E. eauto. Qed.

Lemma wp_print o (Q : unit -> W -> Prop) X w : Q tt (w_print o w) -> wpg F (print o) Q X w.
Proof. done. Qed.

Lemma wp_get_verbose (Q : Z -> W -> Prop) X w :
  Q (w_verbose w) w -> wpg F get_verbose Q X w.
Proof. done. Qed.

Lemma wp_put_verbose v (Q : unit -> W -> Prop) X w :
  Q tt (w_set_verbose v w) -> wpg F (put_verbose v) Q X w.
Proof. done. Qed.

Lemma wp_get_st (Q : S -> W -> Prop) X w : Q (w_st w) w -> wpg F get_st Q X w.
Proof. done. Qed.

Lemma wp_put_st s (Q : unit -> W -> Prop) X w : Q tt (w_set_st s w) -> wpg F (put_st s) Q X w.
Proof. done. Qed.

Lemma wp_when b (m : M S unit) Q X w :
  (b = true -> wpg F m Q X w) -> (b = false -> Q tt w) -> wpg F (when b m) Q X w.
Proof. destruct b; naive_solver. Qed.

Lemma wp_new_block n (Q : ptr -> W -> Prop) X w :
  Q (Ptr (w_next w) 0) (w_alloc (replicate (Z.to_nat n) None) w) ->
  wpg F (new_block n) Q X w.
Proof. done. Qed.

(** [malloc] either fails, or returns a fresh block. *)
Lemma wp_malloc n (Q : ptr -> W -> Prop) X w :
  (forall r k', kstep (CMalloc n) (w_k w) = (r, k') ->
     let w' := w_call (CMalloc n) r k' w in
     (r_ret r = 0 -> Q NULL w') /\
     (r_ret r <> 0 -> Q (Ptr (w_next w) 0) (w_alloc (replicate (Z.to_nat n) None) w'))) ->
  wpg F (malloc n) Q X w.
Proof.
  intros H. apply wp_bind, wp_ask. intros r k' E. destruct (H r k' E) as [H0 H1].
  destruct (Z.eqb_spec (r_ret r) 0); [by apply wp_ret, H0|by apply wp_new_block, H1].
Qed.

Lemma wp_int_check z (Q : Z -> W -> Prop) X w :
  is_i32 z -> Q z w -> wpg F (int_check z) Q X w.
Proof.
  unfold int_check, is_i32, INT_MIN, INT_MAX. intros Hz HQ.
  rewrite (proj2 (Z.leb_le _ _)), (proj2 (Z.leb_le _ _)) by lia. done.
Qed.

Lemma wp_long_check z (Q : Z -> W -> Prop) X w :
  - 2 ^ 63 <= z < 2 ^ 63 -> Q z w -> wpg F (long_check z) Q X w.
Proof.
  unfold long_check. intros Hz HQ.
  rewrite (proj2 (Z.leb_le _ _)), (proj2 (Z.ltb_lt _ _)) by lia. done.
Qed.

Lemma wp_int_div a b (Q : Z -> W -> Prop) X w :
  b <> 0 -> is_i32 (Z.quot a b) -> Q (Z.quot a b) w -> wpg F (int_div a b) Q X w.
Proof. unfold int_div. intros Hb Hi HQ. destruct (Z.eqb_spec b 0); [done|]. by apply wp_int_check. Qed.

(** [I done results world] holds between the rounds of a [forM]. *)
Lemma wp_forM {A B} (I : list A -> list B -> W -> Prop) (l : list A) (f : A -> M S B) (Q : list B -> W -> Prop) X w :
  I [] [] w ->
  (forall done x rest ys w', l = done ++ x :: rest -> I done ys w' ->
     wpg F (f x) (fun y w'' => I (done ++ [x]) (ys ++ [y]) w'') X w') ->
  (forall ys w', I l ys w' -> Q ys w') ->
  wpg F (forM l f) Q X w.
Proof.
  intros HI HS HQ.
  cut (forall done rest ys w', l = done ++ rest -> I done ys w' ->
    wpg F (forM rest f) (fun zs w'' => I l (ys ++ zs) w'') X w').
  { intros H. eapply wp_post; [by apply (H [] l [])|]. cbn. auto. }
  intros done rest. revert done. induction rest as [|x rest IH]; intros done ys w' -> HI'; cbn [forM].
  - rewrite app_nil_r. apply wp_ret. by rewrite app_nil_r.
  - apply wp_bind. eapply wp_post; [by eapply HS|]. cbn. intros y w'' HI''.
    apply wp_bind. eapply wp_post.
    + eapply (IH (done ++ [x]) (ys ++ [y])); [by rewrite <- app_assoc|done].
    + cbn. intros zs w3 H. by rewrite <- app_assoc in H.
Qed.

(** The loop rule: [I n a w] is the invariant of the loop state [a] with [n]
    rounds of fuel left; total correctness needs an invariant that cannot
    hold with no fuel left. *)
Lemma wp_iter {A B} (I : nat -> A -> W -> Prop) (fuel : nat) (body : A -> M S (A + B)) a Q X w :
  I fuel a w ->
  (forall a' w', I O a' w' -> F) ->
  (forall n a' w', I (Datatypes.S n) a' w' ->
     wpg F (body a') (fun r w'' => match r with inl a'' => I n a'' w'' | inr b => Q b w'' end) X w') ->
  wpg F (iter fuel body a) Q X w.
Proof.
  intros HI HO HS. revert a w HI.
  induction fuel as [|n IH]; intros a w HI; cbn [iter].
  - eapply HO, HI.
  - apply wp_bind. eapply wp_post; [by apply HS|].
    intros [a'|b] w'; [apply IH|]. by intros HQ.
Qed.

Lemma iter_S {A B} fuel (body : A -> M S (A + B)) a :
  iter (Datatypes.S fuel) body a =
  bind (body a) (fun r => match r with inl a' => iter fuel body a' | inr b => ret b end).
Proof. done. Qed.

Lemma wp_peek p n (Q : list mbyte -> W -> Prop) X w l :
  load_block (p_block p) (p_off p) (Z.to_nat n) (w_mem w) = Some l ->
  Q l w -> wpg F (peek p n) Q X w.
Proof. unfold wpg, peek. by intros ->. Qed.

Lemma wp_load p n bs (Q : list Z -> W -> Prop) X w :
  load_block (p_block p) (p_off p) (Z.to_nat n) (w_mem w) = Some (Some <$> bs) ->
  Q bs w -> wpg F (load p n) Q X w.
Proof.
  intros Hl HQ. apply wp_bind. eapply wp_peek; [exact Hl|].
  assert (mapM id (Some <$> bs) = Some bs) as ->; [|by apply wp_ret].
  clear. induction bs as [|b bs IH]; [done|]. cbn. by rewrite IH.
Qed.

Lemma wp_store p bs m' (Q : unit -> W -> Prop) X w :
  store_block (p_block p) (p_off p) (Some <$> bs) (w_mem w) = Some m' ->
  Q tt (w_set_mem m' w) -> wpg F (store p bs) Q X w.
Proof. unfold wpg, store. by intros ->. Qed.

Lemma wp_free b l (Q : unit -> W -> Prop) X w :
  w_mem w !! b = Some l -> b <> 0 ->
  Q tt (w_set_mem (delete b (w_mem w)) w) -> wpg F (free (Ptr b 0)) Q X w.
Proof.
  unfold wpg, free, is_null. cbn. intros Hl Hb HQ.
  destruct (Z.eqb_spec b 0); [done|]. by rewrite Hl.
Qed.
End Effects.
End Wp.

Arguments wpg {K S} F {A} m Q X w : simpl never.

(** ** Outcomes

    [ends m Q X U w] says how [m] ends when undefined behaviour is one of the
    ways, characterised by [U]. *)
Section Ends.
Context {K : Kernel} {S : Type} (U : ub -> world S -> Prop).
#[local] Abbreviation W := (world S).

Definition ends {A} (m : M S A) (Q : A -> W -> Prop) (X : Z -> W -> Prop) (w : W) : Prop :=
  match m w with
  | Ret a w' => Q a w'
  | Exit c w' => X c w'
  | Undef u w' => U u w'
  | NoFuel => False
  end.

Lemma ends_wp {A} (m : M S A) Q X w : wpg False m Q X w -> ends m Q X w.
Proof. unfold wpg, ends. by destruct (m w). Qed.

Lemma ends_bind {A B} (m : M S A) (f : A -> M S B) Q X w :
  ends m (fun a w' => ends (f a) Q X w') X w -> ends (bind m f) Q X w.
Proof. unfold ends, bind. by destruct (m w). Qed.

(** The start of a computation that is always defined. *)
Lemma ends_seq {A B} (m : M S A) (f : A -> M S B) Q X w :
  wpg False m (fun a w' => ends (f a) Q X w') X w -> ends (bind m f) Q X w.
Proof. intros H. by apply ends_bind, ends_wp. Qed.
End Ends.

(** ** Stores to a block *)
Lemma store_block_mem {b off} {bs l : list mbyte} {m} :
  m !! b = Some l -> 0 <= off -> (Z.to_nat off + length bs <= length l)%nat ->
  exists l', store_block b off bs m = Some (<[b := l']> m) /\
    store_range (Z.to_nat off) bs l = Some l'.
Proof.
  intros Hl Ho Hlen. unfold store_block. rewrite Hl, (proj2 (Z.ltb_ge _ _)) by lia.
  rewrite store_range_ok by done. eexists; split; reflexivity.
Qed.

(** [wp_step] takes one step of symbolic execution; [wp_steps] as many as
    need no proof of a side condition. *)
Ltac wp_step :=
  lazymatch goal with
  | |- wp _ _ _ _ => unfold wp
  | |- wlp _ _ _ _ => unfold wlp
  | |- wpg _ (bind _ _) _ _ _ => apply wp_bind
  | |- wpg _ (ret _) _ _ _ => apply wp_ret
  | |- wpg _ (exit _) _ _ _ => apply wp_exit
  | |- wpg _ (print _) _ _ _ => apply wp_print
  | |- wpg _ (printf _ _) _ _ _ => apply wp_print
  | |- wpg _ (eprintf _ _) _ _ _ => apply wp_print
  | |- wpg _ (perror _) _ _ _ => apply wp_print
  | |- wpg _ get_verbose _ _ _ => apply wp_get_verbose
  | |- wpg _ (put_verbose _) _ _ _ => apply wp_put_verbose
  | |- wpg _ get_st _ _ _ => apply wp_get_st
  | |- wpg _ (put_st _) _ _ _ => apply wp_put_st
  | |- wpg _ (new_block _) _ _ _ => apply wp_new_block
  | |- wpg _ (when _ _) _ _ _ => apply wp_when; intros ?
  | |- wpg _ (if true then _ else _) _ _ _ => cbv iota
  | |- wpg _ (if false then _ else _) _ _ _ => cbv iota
  | |- wpg _ (if negb true then _ else _) _ _ _ => cbn [negb]; cbv iota
  | |- wpg _ (if negb false then _ else _) _ _ _ => cbn [negb]; cbv iota
  | |- wpg _ (if ?b then _ else _) _ _ _ => let E := fresh "E" in destruct b eqn:E
  | |- wpg _ _ _ _ _ => progress cbv beta iota zeta
  end; cbn beta.

Ltac wp_ask r k E :=
  lazymatch goal with
  | |- wpg _ (ask _) _ _ _ => apply wp_ask; intros r k E
  | |- wpg _ (malloc _) _ _ _ => apply wp_malloc; intros r k E
  end.

Ltac wp_steps := repeat wp_step.
