(* ===== verification/Libc.v ===== *)
(** * Constants and pure functions of the C library and the Linux ABI

    The values of the constants the sources take from the system headers
    (x86-64 Linux), and the pure string functions the programs use: [atoi],
    [sscanf] with ["%u"], [strlen], [strncpy]. *)
From stdpp Require Import base list strings.
From Stdlib Require Import ZArith Lia Ascii String.
From S2P Require Import Prelude.

#[local] Open Scope Z_scope.

(** ** Constants of the system headers *)
Definition AF_UNSPEC : Z := 0.
Definition AF_INET : Z := 2.
Definition AF_INET6 : Z := 10.
Definition PF_PACKET : Z := 17.
Definition SOCK_STREAM : Z := 1.
Definition SOCK_DGRAM : Z := 2.
Definition SOCK_RAW : Z := 3.
Definition SOCK_NONBLOCK : Z := 2048.
Definition IPPROTO_IP : Z := 0.
Definition IPPROTO_TCP : Z := 6.
Definition IPPROTO_UDP : Z := 17.
Definition IPPROTO_IPV6 : Z := 41.
Definition IPPROTO_UDPLITE : Z := 136.
Definition SOL_IP : Z := 0.
Definition SOL_SOCKET : Z := 1.
Definition SOL_PACKET : Z := 263.
Definition SO_REUSEADDR : Z := 2.
Definition SO_REUSEPORT : Z := 15.
Definition SO_RCVTIMEO : Z := 20.
Definition SO_ATTACH_REUSEPORT_CBPF : Z := 51.
Definition IP_TTL : Z := 2.
Definition IP_PKTINFO : Z := 8.
Definition IP_MTU_DISCOVER : Z := 10.
Definition IP_RECVTTL : Z := 12.
Definition IP_RECVTOS : Z := 13.
Definition IPV6_MTU_DISCOVER : Z := 23.
Definition IPV6_RECVPKTINFO : Z := 49.
Definition IPV6_PKTINFO : Z := 50.
Definition PACKET_VERSION : Z := 10.
Definition MSG_DONTWAIT : Z := 64.
Definition MSG_WAITFORONE : Z := 65536.
Definition EPERM : Z := 1.
Definition EINTR : Z := 4.
Definition EAGAIN : Z := 11.
Definition EADDRNOTAVAIL : Z := 99.
Definition ECONNRESET : Z := 104.
Definition ENOPROTOOPT : Z := 92.
Definition CLOCK_REALTIME : Z := 0.
Definition CLOCK_MONOTONIC : Z := 1.
Definition CLOCK_REALTIME_COARSE : Z := 5.
Definition TIMER_ABSTIME : Z := 1.
Definition SCHED_OTHER : Z := 0.
Definition SCHED_FIFO : Z := 1.
Definition EPOLLIN : Z := 1.
Definition EPOLLET : Z := 2 ^ 31.
Definition EPOLL_CTL_ADD : Z := 1.
Definition EXIT_FAILURE : Z := 1.
Definition INET6_ADDRSTRLEN : Z := 46.
Definition IFNAMSIZ : Z := 16.
Definition EOF : Z := -1.

(** Sizes of the structures of the ABI. *)
Definition sizeof_sockaddr_in : Z := 16.
Definition sizeof_sockaddr_in6 : Z := 28.
Definition sizeof_sockaddr_storage : Z := 128.
Definition sizeof_msghdr : Z := 56.
Definition sizeof_mmsghdr : Z := 64.
Definition sizeof_iovec : Z := 16.
Definition sizeof_cmsghdr : Z := 16.
Definition sizeof_in_pktinfo : Z := 12.
Definition sizeof_in6_pktinfo : Z := 20.
Definition sizeof_int : Z := 4.
Definition sizeof_ptr : Z := 8.

(** ** Strings as bytes *)

(** The double quote, for the format strings that hold one. *)
Definition dquote : string := String (ascii_of_nat 34) EmptyString.

Fixpoint bytes_of_string (s : string) : list Z :=
  match s with
  | EmptyString => []
  | String a s' => Z.of_nat (nat_of_ascii a) :: bytes_of_string s'
  end.

Definition strlen (s : string) : Z := Z.of_nat (String.length s).

(** [strncpy(dst, s, n)]: the first [n] bytes of [s], zero padded. *)
Definition strncpy_bytes (s : string) (n : nat) : list Z := resize n 0 (bytes_of_string s).

(** The characters before the terminating NUL. *)
Fixpoint c_string (l : list Z) : list Z :=
  match l with
  | [] => []
  | c :: l' => if c =? 0 then [] else c :: c_string l'
  end.

(** The code of a character, as in ['c']. *)
Definition ch (a : ascii) : Z := Z.of_nat (nat_of_ascii a).

(** ** Decimal numbers *)
Definition is_space (c : Z) : bool := (c =? 32) || ((9 <=? c) && (c <=? 13)).
Definition is_digit (c : Z) : bool := (48 <=? c) && (c <=? 57).

Fixpoint skip_spaces (l : list Z) : list Z :=
  match l with
  | c :: l' => if is_space c then skip_spaces l' else l
  | [] => []
  end.

Fixpoint digits (acc : Z) (l : list Z) : Z :=
  match l with
  | c :: l' => if is_digit c then digits (10 * acc + (c - 48)) l' else acc
  | [] => acc
  end.

Definition sign (l : list Z) : Z * list Z :=
  match l with
  | c :: l' => if c =? 45 then (-1, l') else if c =? 43 then (1, l') else (1, l)
  | [] => (1, [])
  end.

(** [strtol] in base 10, saturating at the bounds of [long]; [atoi] is its
    conversion to [int]. *)
Definition strtol (l : list Z) : Z :=
  let '(s, d) := sign (skip_spaces l) in
  Z.max (- 2 ^ 63) (Z.min (2 ^ 63 - 1) (s * digits 0 d)).

Definition atoi (s : string) : Z := i32 (strtol (bytes_of_string s)).

(** [sscanf(buf, "%u", &value)]: the number of conversions made ([EOF] when
    the input ends before one) and the value stored in the [int]. *)
Definition sscanf_u (buf : list Z) : Z * Z :=
  let l := skip_spaces (c_string buf) in
  match l with
  | [] => (EOF, 0)
  | _ :: _ =>
      let '(s, d) := sign l in
      match d with
      | c :: _ =>
          if is_digit c then (1, i32 (u32 (s * Z.min (digits 0 d) (2 ^ 64 - 1)))) else (0, 0)
      | [] => (EOF, 0)
      end
  end.

(** The decimal digits of a natural number below [10 ^ fuel], and the
    conversions ["%d"] and ["%5d"] of an [int]. *)
Fixpoint decimal_digits (fuel : nat) (n : Z) : list Z :=
  match fuel with
  | O => []
  | S fuel' => if n <? 10 then [48 + n] else (decimal_digits fuel' (n / 10) ++ [48 + n mod 10])%list
  end.

Definition format_d (n : Z) : list Z :=
  if n <? 0 then 45 :: decimal_digits 20 (- n) else decimal_digits 20 n.

Definition format_5d (n : Z) : list Z := (replicate (5 - List.length (format_d n)) 32 ++ format_d n)%list.

(** [inet_ntoa]: an IPv4 address as a dotted quad. *)
Fixpoint string_of_bytes (l : list Z) : string :=
  match l with
  | [] => EmptyString
  | c :: l' => String (ascii_of_nat (Z.to_nat c)) (string_of_bytes l')
  end.

Fixpoint inet_ntoa_bytes (addr : list Z) : list Z :=
  match addr with
  | [] => []
  | [b] => format_d b
  | b :: addr' => (format_d b ++ 46 :: inet_ntoa_bytes addr')%list
  end.

Definition inet_ntoa (addr : list Z) : string := string_of_bytes (inet_ntoa_bytes addr).

Lemma atoi_range s : is_i32 (atoi s).
Proof. apply i32_range. Qed.

Example atoi_1 : atoi "  -42xyz" = -42.
Proof. reflexivity. Qed.

Example atoi_2 : atoi "4294967297" = 1.
Proof. reflexivity. Qed.

Example sscanf_u_1 : sscanf_u [49; 10; 0] = (1, 1).
Proof. reflexivity. Qed.

Example format_5d_1 : format_5d 42 = bytes_of_string "   42".
Proof. reflexivity. Qed.

Example format_d_1 : format_d (-2147483648) = bytes_of_string "-2147483648".
Proof. reflexivity. Qed.

Example inet_ntoa_1 : inet_ntoa [192; 168; 0; 1] = "192.168.0.1"%string.
Proof. reflexivity. Qed.
