(* ===== verification/Common.v ===== *)
(** * common.c, common.h and global.h: exit codes, time measurement, the
    payload buffer, and the report of a run. *)
From stdpp Require Import base list gmap strings.
From Stdlib Require Import ZArith Lia SpecFloat.
From S2P Require Import Prelude.
From S2P Require Import CLang.
From S2P Require Import Wp.
From S2P Require Import Libc.

#[local] Open Scope Z_scope.
#[local] Open Scope c_scope.

(** ** global.h *)
Definition EXIT_OK : Z := 0.
Definition EXIT_FAIL_MEM : Z := 1.
Definition EXIT_FAIL_OPTION : Z := 2.
Definition EXIT_FAIL_TIME : Z := 3.
Definition EXIT_FAIL_SOCK : Z := 100.
Definition EXIT_FAIL_SOCKOPT : Z := 101.
Definition EXIT_FAIL_IP : Z := 102.
Definition EXIT_FAIL_SEND : Z := 103.
Definition EXIT_FAIL_RECV : Z := 104.
Definition EXIT_FAIL_REUSEPORT : Z := 105.
Definition EXIT_FAIL_FILEACCESS : Z := 106.
Definition EXIT_FAIL_PTHREAD : Z := 107.
Definition NANOSEC_PER_SEC : Z := 1000000000.

(** ** common.h *)
Record time_bench_record := TimeBenchRecord {
  packets : Z;
  bytes : Z;
  tsc_start : Z;
  tsc_stop : Z;
  time_start : Z;
  time_stop : Z;
  try_again : Z;
  tsc_interval : Z;
  time_interval : Z;
  tsc_cycles : Z;
  payload_pktsz : Z;
  pps : double;
  ns_per_pkt : double;
  timesec : double;
  ip_early_demux : Z
}.

Record params_common := ParamsCommon { connect : Z }.

(** [struct time_bench_record rec = {0}] *)
Definition zero_record : time_bench_record :=
  TimeBenchRecord 0 0 0 0 0 0 0 0 0 0 0 double_zero double_zero double_zero 0.

Definition set_packets (v : Z) (r : time_bench_record) : time_bench_record :=
  TimeBenchRecord v (bytes r) (tsc_start r) (tsc_stop r) (time_start r) (time_stop r)
    (try_again r) (tsc_interval r) (time_interval r) (tsc_cycles r) (payload_pktsz r)
    (pps r) (ns_per_pkt r) (timesec r) (ip_early_demux r).
Definition set_bytes (v : Z) (r : time_bench_record) : time_bench_record :=
  TimeBenchRecord (packets r) v (tsc_start r) (tsc_stop r) (time_start r) (time_stop r)
    (try_again r) (tsc_interval r) (time_interval r) (tsc_cycles r) (payload_pktsz r)
    (pps r) (ns_per_pkt r) (timesec r) (ip_early_demux r).
Definition set_start (time tsc : Z) (r : time_bench_record) : time_bench_record :=
  TimeBenchRecord (packets r) (bytes r) tsc (tsc_stop r) time (time_stop r)
    (try_again r) (tsc_interval r) (time_interval r) (tsc_cycles r) (payload_pktsz r)
    (pps r) (ns_per_pkt r) (timesec r) (ip_early_demux r).
Definition set_stop (time tsc : Z) (r : time_bench_record) : time_bench_record :=
  TimeBenchRecord (packets r) (bytes r) (tsc_start r) tsc (time_start r) time
    (try_again r) (tsc_interval r) (time_interval r) (tsc_cycles r) (payload_pktsz r)
    (pps r) (ns_per_pkt r) (timesec r) (ip_early_demux r).
(** [r->try_again++] *)
Definition inc_try_again (r : time_bench_record) : time_bench_record :=
  TimeBenchRecord (packets r) (bytes r) (tsc_start r) (tsc_stop r) (time_start r) (time_stop r)
    (u64 (try_again r + 1)) (tsc_interval r) (time_interval r) (tsc_cycles r) (payload_pktsz r)
    (pps r) (ns_per_pkt r) (timesec r) (ip_early_demux r).

Section Common.
Context {K : Kernel} {S : Type}.

(** The counter is the pair edx:eax of the instruction. *)
Definition rdtsc : M S Z :=
  r <- ask CRdtsc ;;
  let low := u32 (r_ret r) in
  let high := u32 (r_ret r / 2 ^ 32) in
  ret (Z.lor low (Z.shiftl high 32)).

Definition gettime : M S Z :=
  r <- ask (CClockGettime CLOCK_MONOTONIC) ;;
  if r_ret r <? 0 then
    eprintf "error with gettimeofday! (%i)\n" [AInt (r_ret r)] ;;
    exit EXIT_FAIL_TIME
  else
    ret (u64 (u64 (ts_sec (r_ts r)) * NANOSEC_PER_SEC + ts_nsec (r_ts r))).

Definition time_bench_start (r : time_bench_record) : M S time_bench_record :=
  t <- gettime ;;
  c <- rdtsc ;;
  ret (set_start t c r).

Definition time_bench_stop (r : time_bench_record) : M S time_bench_record :=
  c <- rdtsc ;;
  t <- gettime ;;
  ret (set_stop t c r).

(** Unsigned 64-bit division; the divisor is an [int64_t] converted to
    [uint64_t]. *)
Definition u64_div (a b : Z) : M S Z :=
  if u64 b =? 0 then undefined DivByZero else ret (a / u64 b).

Definition time_bench_calc_stats (r : time_bench_record) : M S time_bench_record :=
  let tsc_iv := u64 (tsc_stop r - tsc_start r) in
  let time_iv := u64 (time_stop r - time_start r) in
  let v_pps := double_div (double_of_Z (packets r))
                 (double_div (double_of_Z time_iv) (double_of_Z NANOSEC_PER_SEC)) in
  cycles <- u64_div tsc_iv (packets r) ;;
  let v_ns := double_div (double_of_Z time_iv) (double_of_Z (packets r)) in
  let v_sec := double_div (double_of_Z time_iv) (double_of_Z NANOSEC_PER_SEC) in
  pktsz <- u64_div (bytes r) (packets r) ;;
  ret (TimeBenchRecord (packets r) (bytes r) (tsc_start r) (tsc_stop r) (time_start r)
         (time_stop r) (try_again r) tsc_iv time_iv cycles pktsz v_pps v_ns v_sec
         (ip_early_demux r)).

(** [memset(p, 0, n)] *)
Definition memset0 (p : ptr) (n : Z) : M S unit := store p (replicate (Z.to_nat n) 0).

Definition malloc_payload_buffer (msg_sz : Z) : M S ptr :=
  msg_buf <- malloc (u64 msg_sz) ;;
  if is_null msg_buf then
    eprintf "ERROR: %s() failed in malloc() (caller: 0x%p)\n" [AStr "malloc_payload_buffer"] ;;
    exit EXIT_FAIL_MEM
  else
    memset0 msg_buf (u64 msg_sz) ;;
    verbose <- get_verbose ;;
    when (3 <=? verbose) (eprintf " - malloc(msg_buf) = %d bytes\n" [AInt msg_sz]) ;;
    ret msg_buf.

(** The markers a timed loop reports through its pointer arguments. *)
Record markers := Markers { m_tsc_begin : Z; m_tsc_end : Z; m_time_begin : Z; m_time_end : Z }.

(** The shape of the functions that are timed: a loop with readings of the
    clocks around it; the rounds made and the last state. *)
Definition timed_loop {A} (loops : Z) (body : Z -> A -> M S A) (s0 : A) : M S (Z * A * markers) :=
  time_begin <- gettime ;;
  tsc_begin <- rdtsc ;;
  out <- iter (Datatypes.S (Z.to_nat loops))
           (fun '(j, s) =>
              if j <? loops then
                s' <- body j s ;;
                ret (inl (j + 1, s'))
              else ret (inr (j, s)))
           (0, s0) ;;
  tsc_end <- rdtsc ;;
  time_end <- gettime ;;
  ret (out, Markers tsc_begin tsc_end time_begin time_end).

Definition time_func (loops : Z) (func : Z -> M S (Z * markers)) : M S Z :=
  r <- func loops ;;
  let '(loops_cnt, m) := r in
  let tsc_iv := u64 (m_tsc_end m - m_tsc_begin m) in
  let time_iv := u64 (m_time_end m - m_time_begin m) in
  when (negb (loops =? loops_cnt))
    (printf " WARNING: Loop count(%d) not equal to loops(%d)\n" [AInt loops_cnt; AInt loops]) ;;
  let calls_per_sec := double_div (double_of_Z loops_cnt)
                         (double_div (double_of_Z time_iv) (double_of_Z NANOSEC_PER_SEC)) in
  cycles <- u64_div tsc_iv loops_cnt ;;
  let ns_per_call := double_div (double_of_Z time_iv) (double_of_Z loops_cnt) in
  let timesec := double_div (double_of_Z time_iv) (double_of_Z NANOSEC_PER_SEC) in
  printf " Per call: %lu cycles(tsc) %.2f ns\n  - %.2f calls per sec (measurement periode time:%.2f sec)\n  - (loop count:%d tsc_interval:%lu)\n"
    [AInt cycles; ADbl ns_per_call; ADbl calls_per_sec; ADbl timesec; AInt loops_cnt; AInt tsc_iv] ;;
  ret 0.

Definition read_ip_early_demux : M S Z :=
  file <- ask (CFopen "/proc/sys/net/ipv4/ip_early_demux") ;;
  if r_ret file =? 0 then
    eprintf "WARN: cannot read ip_early_demux errno(%d) " [AInt (r_errno file)] ;;
    perror "- fopen" ;;
    ret 0
  else
    line <- ask (CFgets 20) ;;
    if r_ret line =? 0 then
      perror "fgets" ;;
      ask CFclose ;;
      exit EXIT_FAIL_FILEACCESS
    else
      let '(res, value) := sscanf_u (m_data (r_msg line)) in
      if negb (res =? 1) then
        eprintf "ERROR: cannot parse ip_early_demux errno(%d) " [AInt (r_errno line)] ;;
        when (res =? EOF) (perror "sscanf") ;;
        ask CFclose ;;
        exit EXIT_FAIL_FILEACCESS
      else
        ask CFclose ;;
        ret value.

Definition time_bench_record_setting (r : time_bench_record) : M S time_bench_record :=
  v <- read_ip_early_demux ;;
  ret (TimeBenchRecord 0 0 0 0 0 0 0 0 0 0 0 double_zero double_zero double_zero v).

Definition time_bench_print_stats (r : time_bench_record) (c : params_common) : M S unit :=
  verbose <- get_verbose ;;
  if truth verbose then
    printf " - Per packet: %lu cycles(tsc) %.2f ns, %.2f pps (time:%.2f sec)\n   (packet count:%ld payload pkt-size:%lu)\n"
      [AInt (tsc_cycles r); ADbl (ns_per_pkt r); ADbl (pps r); ADbl (timesec r);
       AInt (packets r); AInt (payload_pktsz r)]
  else
    printf "%8lu\t%.2f\t%.2f\t%lu\t%lu\t"
      [AInt (packets r); ADbl (ns_per_pkt r); ADbl (pps r); AInt (tsc_cycles r);
       AInt (payload_pktsz r)] ;;
    when (truth (ip_early_demux r)) (printf " demux:%d" [AInt (ip_early_demux r)]) ;;
    when (truth (connect c)) (printf " c:%d" [AInt (connect c)]) ;;
    when (truth (try_again r)) (printf " emptyq:%lu" [AInt (try_again r)]) ;;
    printf "\n" [].

Definition print_header (fct : string) (batch : Z) : M S unit :=
  verbose <- get_verbose ;;
  if truth verbose && truth batch then
    printf "\nPerformance of: %s, batch size: %d\n" [AStr fct; AInt batch]
  else if truth verbose then
    printf "\nPerformance of: %s\n" [AStr fct]
  else if truth batch then
    printf "%s/%-4d\t" [AStr fct; AInt batch]
  else
    printf "%-10s\t" [AStr fct].
End Common.
