(* ===== verification/Pktgen.v ===== *)
(** * The pktgen header (common.h) and the packets filled with it

    [struct pktgen_hdr] is four 32-bit fields in the byte order of the
    machine.  A packet is filled by repeating the header over its whole
    length, the last copy cut where the packet ends: [pattern]. *)
From stdpp Require Import base list.
From Stdlib Require Import ZArith Lia.
From S2P Require Import Prelude.

#[local] Open Scope Z_scope.

Definition PKTGEN_MAGIC : Z := 3202992469. (* 0xbe9be955 *)
Definition sizeof_pktgen_hdr : Z := 16.

(** The fields as the machine loads them (no byte swap applied). *)
Record pktgen_hdr := PktgenHdr {
  pgh_magic : Z;
  seq_num : Z;
  tv_sec : Z;
  tv_usec : Z
}.

#[export] Instance pktgen_hdr_eq_dec : EqDecision pktgen_hdr.
Proof. solve_decision. Defined.

Definition hdr_zero : pktgen_hdr := PktgenHdr 0 0 0 0.

(** The sixteen bytes of a header in memory, and back. *)
Definition hdr_bytes (h : pktgen_hdr) : list Z :=
  le_bytes 4 (pgh_magic h) ++ le_bytes 4 (seq_num h) ++
  le_bytes 4 (tv_sec h) ++ le_bytes 4 (tv_usec h).

Definition hdr_of_bytes (l : list Z) : pktgen_hdr :=
  PktgenHdr (le_val (take 4 l)) (le_val (take 4 (drop 4 l)))
    (le_val (take 4 (drop 8 l))) (le_val (take 4 (drop 12 l))).

(** The fields of a header that memory can hold. *)
Definition hdr_wf (h : pktgen_hdr) : Prop :=
  is_u32 (pgh_magic h) /\ is_u32 (seq_num h) /\ is_u32 (tv_sec h) /\ is_u32 (tv_usec h).

Lemma length_hdr_bytes h : length (hdr_bytes h) = 16%nat.
Proof. reflexivity. Qed.

Lemma hdr_bytes_byte h : Forall is_byte (hdr_bytes h).
Proof. unfold hdr_bytes. repeat apply Forall_app_2; apply le_bytes_byte. Qed.

Lemma hdr_of_bytes_bytes h : hdr_wf h -> hdr_of_bytes (hdr_bytes h) = h.
Proof.
  destruct h as [m s t u]. intros (Hm & Hs & Ht & Hu). cbn in Hm, Hs, Ht, Hu.
  unfold hdr_of_bytes, hdr_bytes. cbn [pgh_magic seq_num tv_sec tv_usec].
  rewrite drop_app_ge, (drop_app_ge _ _ 8), (drop_app_ge _ _ 12) by (rewrite length_le_bytes; lia).
  rewrite !length_le_bytes. cbn [Nat.sub].
  rewrite drop_0, (drop_app_ge _ _ 4), (drop_app_ge _ _ 8) by (rewrite length_le_bytes; lia).
  rewrite !length_le_bytes. cbn [Nat.sub].
  rewrite drop_0, (drop_app_ge _ _ 4), length_le_bytes by (rewrite length_le_bytes; lia).
  cbn [Nat.sub]. rewrite drop_0.
  rewrite !take_app_le, !take_ge by (rewrite length_le_bytes; lia).
  rewrite !le_val_bytes4, !u32_id by done. reflexivity.
Qed.

Lemma le_bytes4_val l : length l = 4%nat -> Forall is_byte l -> le_bytes 4 (le_val l) = l.
Proof. intros <-. apply le_bytes_val. Qed.

Lemma hdr_bytes_of_bytes l :
  length l = 16%nat -> Forall is_byte l -> hdr_bytes (hdr_of_bytes l) = l.
Proof.
  intros Hl Hb. unfold hdr_bytes, hdr_of_bytes. cbn [pgh_magic seq_num tv_sec tv_usec].
  rewrite !le_bytes4_val
    by (rewrite ?length_take, ?length_drop; lia || (apply Forall_take, Forall_drop; done) ||
        (apply Forall_take; done)).
  rewrite (take_ge (drop 12 l)) by (rewrite length_drop; lia).
  replace (drop 12 l) with (drop 4 (drop 8 l)) by (by rewrite drop_drop).
  rewrite take_drop.
  replace (drop 8 l) with (drop 4 (drop 4 l)) by (by rewrite drop_drop).
  by rewrite !take_drop.
Qed.

(** [n] bytes repeating [bs]. *)
Definition pattern (bs : list Z) (n : nat) : list Z :=
  (fun i => nth (i mod length bs) bs 0) <$> seq 0 n.

Lemma length_pattern bs n : length (pattern bs n) = n.
Proof. unfold pattern. by rewrite length_fmap, length_seq. Qed.

Lemma pattern_lookup bs n i :
  (i < n)%nat -> pattern bs n !! i = Some (nth (i mod length bs) bs 0).
Proof. intros Hi. unfold pattern. rewrite list_lookup_fmap, lookup_seq_lt by done. done. Qed.

Lemma pattern_byte bs n : Forall is_byte bs -> Forall is_byte (pattern bs n).
Proof.
  intros Hb. unfold pattern. apply Forall_fmap, Forall_true. intros i. cbn.
  destruct (nth_in_or_default (i mod length bs) bs 0) as [Hin| ->].
  - rewrite Forall_forall in Hb. by apply Hb, list_elem_of_In.
  - unfold is_byte. lia.
Qed.

(** Every complete chunk of the pattern is the repeated list. *)
Lemma pattern_chunk bs n k :
  (0 < length bs)%nat -> (k * length bs + length bs <= n)%nat ->
  take (length bs) (drop (k * length bs) (pattern bs n)) = bs.
Proof.
  intros H0 Hn. apply list_eq. intros i.
  destruct (decide (i < length bs)%nat) as [Hi|Hi].
  - rewrite lookup_take_lt, lookup_drop, pattern_lookup by lia.
    rewrite Nat.add_comm, Nat.Div0.mod_add, Nat.mod_small by lia.
    symmetry. destruct (lookup_lt_is_Some_2 bs i Hi) as [x Hx].
    rewrite Hx. f_equal. symmetry. by apply nth_lookup_Some.
  - rewrite !lookup_ge_None_2; [done|lia|].
    rewrite length_take. lia.
Qed.

(** Extending a pattern by one copy of the list, cut at [m]. *)
Lemma pattern_extend bs k m :
  (0 < length bs)%nat -> (m <= length bs)%nat ->
  pattern bs (k * length bs) ++ take m bs = pattern bs (k * length bs + m).
Proof.
  intros H0 Hm. unfold pattern. rewrite seq_app, fmap_app. f_equal. cbn.
  apply list_eq. intros i. rewrite list_lookup_fmap.
  destruct (decide (i < m)%nat) as [Hi|Hi].
  - rewrite lookup_take_lt, lookup_seq_lt by lia. cbn.
    rewrite Nat.add_comm, Nat.Div0.mod_add, Nat.mod_small by lia.
    destruct (lookup_lt_is_Some_2 bs i) as [x Hx]; [lia|].
    rewrite Hx. f_equal. symmetry. by apply nth_lookup_Some.
  - rewrite lookup_seq_ge by lia. apply lookup_ge_None_2. rewrite length_take. lia.
Qed.

Arguments hdr_bytes : simpl never.
Arguments hdr_of_bytes : simpl never.
Arguments pattern : simpl never.
