(* ===== verification/CommonSocket.v ===== *)
(** * common_socket.c: socket addresses, the checked wrappers of the socket
    calls, and the allocation of message headers and I/O vectors. *)
From stdpp Require Import base list gmap strings.
From Stdlib Require Import ZArith Lia.
From S2P Require Import Prelude.
From S2P Require Import CLang.
From S2P Require Import Wp.
From S2P Require Import Libc.
From S2P Require Import Common.

#[local] Open Scope Z_scope.
#[local] Open Scope c_scope.

(** ** struct sockaddr_storage

    A byte array of 128 bytes, seen through [sockaddr_in] (family at 0, port
    at 2, address at 4) and [sockaddr_in6] (family at 0, port at 2, address
    at 8).  The port is stored in network byte order. *)
Definition ss_family (a : list Z) : Z := le_val (get_bytes 0 2 a).
Definition sin_port (a : list Z) : Z := le_val (get_bytes 2 2 a).
Definition sin_addr (a : list Z) : list Z := get_bytes 4 4 a.
Definition sin6_addr (a : list Z) : list Z := get_bytes 8 16 a.

Definition set_family (f : Z) (a : list Z) : list Z := put_bytes 0 (le_bytes 2 f) a.
Definition set_port (v : Z) (a : list Z) : list Z := put_bytes 2 (le_bytes 2 v) a.
Definition set_sin_addr (bs : list Z) (a : list Z) : list Z := put_bytes 4 (resize 4 0 bs) a.
Definition set_sin6_addr (bs : list Z) (a : list Z) : list Z := put_bytes 8 (resize 16 0 bs) a.

Definition zero_sockaddr : list Z := replicate 128 0.

(** ** Message headers *)
Record iovec := Iovec { iov_base : ptr; iov_len : Z }.

Record msghdr := Msghdr {
  msg_name : ptr;
  msg_namelen : Z;
  msg_iov : list iovec;
  msg_iovlen : Z;
  msg_control : ptr;
  msg_controllen : Z;
  msg_flags : Z
}.

Record mmsghdr := Mmsghdr { msg_hdr : msghdr; msg_len : Z }.

Definition zero_iovec : iovec := Iovec NULL 0.
Definition zero_msghdr : msghdr := Msghdr NULL 0 [] 0 NULL 0 0.
Definition zero_mmsghdr : mmsghdr := Mmsghdr zero_msghdr 0.

Section CommonSocket.
Context {K : Kernel} {S : Type}.

Definition setup_sockaddr (addr_family : Z) (addr : list Z) (ip_string : string) (port : Z) :
  M S (list Z) :=
  r <- (if addr_family =? AF_INET6 then
          let addr_v6 := set_port (htons port) (set_family addr_family addr) in
          res <- ask (CInetPton AF_INET6 ip_string) ;;
          ret (r_ret res,
               if 0 <? r_ret res then set_sin6_addr (m_data (r_msg res)) addr_v6 else addr_v6)
        else if addr_family =? AF_INET then
          let addr_v4 := set_port (htons port) (set_family addr_family addr) in
          res <- ask (CInetPton AF_INET ip_string) ;;
          ret (r_ret res,
               if 0 <? r_ret res then set_sin_addr (m_data (r_msg res)) addr_v4 else addr_v4)
        else
          eprintf "ERROR: Unsupported addr_family\n" [] ;;
          exit EXIT_FAIL_OPTION) ;;
  let '(res, addr') := r in
  if res <=? 0 then
    (if res =? 0 then
       eprintf ("ERROR: IP%s " +:+ dquote +:+ "%s" +:+ dquote +:+ " not in presentation format\n")
         [AStr (if addr_family =? AF_INET6 then "v6" else "v4"); AStr ip_string]
     else perror "inet_pton") ;;
    exit EXIT_FAIL_IP
  else ret addr'.

Definition sockaddr_len (sockaddr : list Z) : M S Z :=
  if ss_family sockaddr =? AF_INET then ret sizeof_sockaddr_in
  else if ss_family sockaddr =? AF_INET6 then ret sizeof_sockaddr_in6
  else
    eprintf "ERROR: %s(): Cannot determine lenght of addr_family(%d)"
      [AStr "sockaddr_len"; AInt (ss_family sockaddr)] ;;
    exit EXIT_FAIL_SOCK.

Definition Socket (addr_family type protocol : Z) : M S Z :=
  r <- ask (CSocket addr_family type protocol) ;;
  if r_ret r <? 0 then
    perror "- socket" ;;
    exit EXIT_FAIL_SOCK
  else ret (r_ret r).

(** The message of a failed wrapper. *)
Definition wrapper_failed (func : string) (r : reply) (msg : string) : M S unit :=
  eprintf "ERROR: %s() failed (%d) errno(%d) " [AStr func; AInt (r_ret r); AInt (r_errno r)] ;;
  perror msg.

Definition Connect (sockfd : Z) (addr : list Z) (addrlen : Z) : M S Z :=
  res <- ask (CConnect sockfd addr addrlen) ;;
  if r_ret res <? 0 then
    wrapper_failed "Connect" res "- connect" ;;
    ask (CClose sockfd) ;;
    exit EXIT_FAIL_SOCK
  else ret (r_ret res).

Definition Close (sockfd : Z) : M S Z :=
  res <- ask (CClose sockfd) ;;
  if r_ret res <? 0 then
    wrapper_failed "Close" res "- close" ;;
    exit EXIT_FAIL_SOCK
  else ret (r_ret res).

Definition Setsockopt (fd level optname : Z) (optval : list Z) : M S Z :=
  res <- ask (CSetsockopt fd level optname optval) ;;
  if r_ret res <? 0 then
    wrapper_failed "Setsockopt" res "- setsockopt" ;;
    exit EXIT_FAIL_SOCKOPT
  else ret (r_ret res).

Definition Bind (sockfd : Z) (addr : list Z) : M S Z :=
  addrlen <- sockaddr_len addr ;;
  res <- ask (CBind sockfd addr addrlen) ;;
  if r_ret res <? 0 then
    wrapper_failed "Bind" res "- bind" ;;
    ask (CClose sockfd) ;;
    exit EXIT_FAIL_SOCK
  else ret (r_ret res).

(** ** Memory allocation

    The byte size of an array is computed as an [unsigned int]. *)
Definition malloc_zeroed (func : string) (memsz : Z) (msg : M S unit) : M S ptr :=
  p <- malloc memsz ;;
  if is_null p then
    eprintf "ERROR: %s() failed in malloc() (caller: 0x%p)\n" [AStr func] ;;
    exit EXIT_FAIL_MEM
  else
    memset0 p memsz ;;
    verbose <- get_verbose ;;
    when (truth verbose) msg ;;
    ret p.

Definition malloc_msghdr : M S ptr :=
  let msg_hdr_sz := u32 sizeof_msghdr in
  malloc_zeroed "malloc_msghdr" msg_hdr_sz
    (eprintf " - malloc(msg_hdr) = %d bytes\n" [AInt msg_hdr_sz]).

Definition malloc_mmsghdr (array_elems : Z) : M S ptr :=
  let memsz := u32 (sizeof_mmsghdr * array_elems) in
  malloc_zeroed "malloc_mmsghdr" memsz
    (eprintf " - malloc(mmsghdr[%d]) = %d bytes\n" [AInt (i32 array_elems); AInt (i32 memsz)]).

Definition malloc_iovec (iov_array_elems : Z) : M S ptr :=
  let msg_iov_memsz := u32 (sizeof_iovec * iov_array_elems) in
  malloc_zeroed "malloc_iovec" msg_iov_memsz
    (eprintf " - malloc(msg_iov[%d]) = %d bytes\n"
       [AInt (i32 iov_array_elems); AInt (i32 msg_iov_memsz)]).

(** A write to element [i] of an array of structures of [sz] bytes: the
    element must lie in the block; its value is kept beside it. *)
Definition check_elem (p : ptr) (sz i : Z) : M S unit :=
  x <- peek (ptr_add p (sz * i)) sz ;;
  ret tt.
End CommonSocket.

(** ** What the operations do *)

(** An address of a family the programs know, and the length of its structure. *)
Definition known_family (a : list Z) : Prop := ss_family a = AF_INET \/ ss_family a = AF_INET6.

Definition addr_len (a : list Z) : Z :=
  if ss_family a =? AF_INET then sizeof_sockaddr_in else sizeof_sockaddr_in6.

(** The world after [w] differs only in the calls made, the output, and the
    memory [m], next block [n]. *)
Section Facts.
Context {K : Kernel} {S : Type}.
Implicit Types w : world S.

(** [extends w w']: same static variables and [verbose], more calls. *)
Definition extends (w w' : world S) : Prop :=
  w_st w' = w_st w /\ w_verbose w' = w_verbose w /\ exists tr, w_log w' = tr ++ w_log w.

(** Every block lies below the next one to be allocated. *)
Definition mem_wf (w : world S) : Prop :=
  0 < w_next w /\ forall b, w_next w <= b \/ b <= 0 -> w_mem w !! b = None.

Lemma extends_refl w : extends w w.
Proof. repeat split. by exists []. Qed.

Lemma extends_trans w1 w2 w3 : extends w1 w2 -> extends w2 w3 -> extends w1 w3.
Proof.
  intros (H1 & H2 & tr1 & H3) (H1' & H2' & tr2 & H3'). repeat split; try congruence.
  exists (tr2 ++ tr1). by rewrite H3', H3, app_assoc.
Qed.

Lemma extends_call c r k w w' : extends w w' -> extends w (w_call c r k w').
Proof.
  intros (H1 & H2 & tr & H3). repeat split; try done. exists ((c, r) :: tr). cbn. by rewrite H3.
Qed.

Lemma extends_print o w w' : extends w w' -> extends w (w_print o w').
Proof. by intros. Qed.

Lemma extends_mem m w w' : extends w w' -> extends w (w_set_mem m w').
Proof. by intros. Qed.

Lemma extends_alloc b w w' : extends w w' -> extends w (w_alloc b w').
Proof. by intros. Qed.

#[local] Hint Resolve extends_refl extends_call extends_print extends_mem extends_alloc : wp.

Lemma store_spec F b off bs l (Q : unit -> world S -> Prop) X w :
  w_mem w !! b = Some l -> 0 <= off -> (Z.to_nat off + length bs <= length l)%nat ->
  Q tt (w_set_mem (<[b := put_bytes (Z.to_nat off) (Some <$> bs) l]> (w_mem w)) w) ->
  wpg F (store (Ptr b off) bs) Q X w.
Proof.
  intros Hb Ho Hl HQ. eapply wp_store; [|exact HQ]. cbn [p_block p_off]. unfold store_block.
  rewrite (proj2 (Z.ltb_ge _ _)) by lia. rewrite Hb, store_range_put; [done|].
  by rewrite length_fmap.
Qed.

Lemma peek_spec F b off n l (Q : list mbyte -> world S -> Prop) X w :
  w_mem w !! b = Some l -> 0 <= off -> (Z.to_nat off + Z.to_nat n <= length l)%nat ->
  Q (get_bytes (Z.to_nat off) (Z.to_nat n) l) w ->
  wpg F (peek (Ptr b off) n) Q X w.
Proof.
  intros Hb Ho Hl HQ. eapply wp_peek; [|exact HQ]. cbn [p_block p_off]. unfold load_block.
  rewrite (proj2 (Z.ltb_ge _ _)) by lia. by rewrite Hb, load_range_get.
Qed.

Lemma load_spec F b off n l bs (Q : list Z -> world S -> Prop) X w :
  w_mem w !! b = Some l -> 0 <= off -> (Z.to_nat off + Z.to_nat n <= length l)%nat ->
  get_bytes (Z.to_nat off) (Z.to_nat n) l = Some <$> bs ->
  Q bs w -> wpg F (load (Ptr b off) n) Q X w.
Proof.
  intros Hb Ho Hl Hbs HQ. eapply wp_load; [|exact HQ]. cbn [p_block p_off]. unfold load_block.
  rewrite (proj2 (Z.ltb_ge _ _)) by lia. by rewrite Hb, load_range_get, Hbs.
Qed.

Lemma memset0_spec F b n l (Q : unit -> world S -> Prop) X w :
  w_mem w !! b = Some l -> length l = Z.to_nat n ->
  Q tt (w_set_mem (<[b := replicate (Z.to_nat n) (Some 0)]> (w_mem w)) w) ->
  wpg F (memset0 (Ptr b 0) n) Q X w.
Proof.
  intros Hb Hl HQ. eapply store_spec; [done|lia|rewrite length_replicate; lia|].
  rewrite put_bytes_all by (rewrite length_fmap, length_replicate; lia).
  by rewrite fmap_replicate.
Qed.

(** A successful allocation of [n] zeroed bytes: one more block and one more
    call. *)
Definition allocated (n : Z) (w w' : world S) : Prop :=
  w_st w' = w_st w /\ w_verbose w' = w_verbose w /\
  w_next w' = w_next w + 1 /\
  w_mem w' = <[w_next w := replicate (Z.to_nat n) (Some 0)]> (w_mem w) /\
  exists r, w_log w' = (CMalloc n, r) :: w_log w.

Lemma malloc_zeroed_spec F func n (msg : M S unit) (Q : ptr -> world S -> Prop) X w :
  0 < w_next w ->
  (forall w1, exists o, msg w1 = Ret tt (w_print o w1)) ->
  (forall w', allocated n w w' -> Q (Ptr (w_next w) 0) w') ->
  (forall w', extends w w' -> X EXIT_FAIL_MEM w') ->
  wpg F (malloc_zeroed func n msg) Q X w.
Proof.
  intros Hn Hmsg HQ HX. unfold malloc_zeroed. wp_step. wp_ask r k Hk. cbn zeta. split; intros _.
  - change (is_null NULL) with true. repeat wp_step. apply HX. auto with wp.
  - unfold is_null. cbn [p_block w_call w_next]. destruct (Z.eqb_spec (w_next w) 0); [lia|].
    wp_step. eapply memset0_spec.
    + cbn. apply lookup_insert_eq.
    + by rewrite length_replicate.
    + repeat wp_step; [|apply HQ; repeat split; cbn; rewrite ?insert_insert_eq; eauto].
      unfold wpg. edestruct Hmsg as [o ->]. apply HQ.
      repeat split; cbn; rewrite ?insert_insert_eq; eauto.
Qed.

Lemma malloc_payload_buffer_spec F sz (Q : ptr -> world S -> Prop) X w :
  0 < w_next w ->
  (forall w', allocated (u64 sz) w w' -> Q (Ptr (w_next w) 0) w') ->
  (forall w', extends w w' -> X EXIT_FAIL_MEM w') ->
  wpg F (malloc_payload_buffer sz) Q X w.
Proof.
  intros Hn HQ HX. unfold malloc_payload_buffer. wp_step. wp_ask r k Hk. cbn zeta. split; intros _.
  - change (is_null NULL) with true. repeat wp_step. apply HX. auto with wp.
  - unfold is_null. cbn [p_block w_call w_next]. destruct (Z.eqb_spec (w_next w) 0); [lia|].
    wp_step. eapply memset0_spec.
    + cbn. apply lookup_insert_eq.
    + by rewrite length_replicate.
    + repeat wp_step; apply HQ; repeat split; cbn; rewrite ?insert_insert_eq; eauto.
Qed.

(** Allocations made after a well-formed world stay fresh. *)
Lemma allocated_wf n w w' : mem_wf w -> allocated n w w' -> mem_wf w'.
Proof.
  intros [Hn Hm] (_ & _ & Hn' & Hm' & _). split; [lia|]. intros b Hb.
  rewrite Hm', lookup_insert_ne by lia. apply Hm. lia.
Qed.

Lemma allocated_lookup n w w' :
  allocated n w w' -> w_mem w' !! w_next w = Some (replicate (Z.to_nat n) (Some 0)).
Proof. intros (_ & _ & _ & -> & _). apply lookup_insert_eq. Qed.

Lemma allocated_extends n w w' : allocated n w w' -> extends w w'.
Proof. intros (? & ? & _ & _ & r & Hl). repeat split; try done. by exists [(CMalloc n, r)]. Qed.

Lemma sockaddr_len_spec F a (Q : Z -> world S -> Prop) X w :
  (ss_family a = AF_INET -> Q sizeof_sockaddr_in w) ->
  (ss_family a = AF_INET6 -> Q sizeof_sockaddr_in6 w) ->
  (ss_family a <> AF_INET -> ss_family a <> AF_INET6 ->
   forall w', extends w w' -> w_mem w' = w_mem w -> X EXIT_FAIL_SOCK w') ->
  wpg F (sockaddr_len a) Q X w.
Proof.
  intros H4 H6 HX. unfold sockaddr_len.
  destruct (Z.eqb_spec (ss_family a) AF_INET); [by wp_step; auto|].
  destruct (Z.eqb_spec (ss_family a) AF_INET6); [by wp_step; auto|].
  repeat wp_step. apply HX; auto with wp.
Qed.

Lemma len_known F a (Q : Z -> world S -> Prop) X w :
  known_family a -> Q (addr_len a) w -> wpg F (sockaddr_len a) Q X w.
Proof.
  intros Hf HQ. unfold addr_len in HQ. apply sockaddr_len_spec.
  - intros E. by rewrite E in HQ.
  - intros E. by rewrite E in HQ.
  - intros H4 H6. by destruct Hf.
Qed.
End Facts.
#[export] Hint Resolve extends_refl extends_call extends_print extends_mem extends_alloc : wp.
