(* ===== verification/Scripted.v ===== *)
(** * A concrete operating system: scripted replies

    The kernel the concrete examples run on.  [malloc] always succeeds,
    [sendmmsg] takes every message, and every other call is answered by the
    next reply of a script (by 0 once the script is exhausted). *)
From stdpp Require Import base list gmap strings.
From Stdlib Require Import ZArith Lia.
From S2P Require Import Prelude.
From S2P Require Import CLang.
From S2P Require Import Wp.
From S2P Require Import CommonSocket.

#[local] Open Scope Z_scope.

Definition scripted_step (c : call) (k : list reply) : reply * list reply :=
  match c with
  | CMalloc _ => (reply_of 1, k)
  | CSendmmsg _ msgs _ _ => (reply_of (Z.of_nat (length msgs)), k)
  | _ => match k with
         | [] => (reply_of 0, [])
         | r :: k' => (r, k')
         end
  end.

Definition scripted : Kernel := {| kst := list reply; kstep := scripted_step |}.

(** A process that starts with the static variables [s]. *)
Definition start {S} (script : list reply) (s : S) : @world scripted S :=
  @World scripted S script ∅ 1 [] [] 0 s.

Lemma start_wf {S} script (s : S) : mem_wf (start script s).
Proof. split; [done|]. intros b _. apply lookup_empty. Qed.
