(* ===== verification/CommonProps.v ===== *)
(** * The shared helpers: properties *)
From stdpp Require Import base list gmap strings.
From Stdlib Require Import ZArith Lia Ascii.
From S2P Require Import Prelude.
From S2P Require Import CLang.
From S2P Require Import Wp.
From S2P Require Import Libc.
From S2P Require Import Common.
From S2P Require Import CommonSocket.
From S2P Require Import Scripted.
From S2P Require Import Pktgen.

#[local] Open Scope Z_scope.
#[local] Open Scope c_scope.

(** The sixteen bytes of [struct pktgen_hdr] and its fields determine each
    other: writing a header of 32-bit fields and reading it back gives it, and
    any sixteen bytes read as a header are written back as they were. *)
Theorem pktgen_hdr_roundtrip :
  (forall h, hdr_wf h -> hdr_of_bytes (hdr_bytes h) = h) /\
  (forall l, length l = 16%nat -> Forall is_byte l -> hdr_bytes (hdr_of_bytes l) = l).
Proof. split; [apply hdr_of_bytes_bytes|apply hdr_bytes_of_bytes]. Qed.

(** ** setup_sockaddr *)
Lemma htons_involutive v : 0 <= v < 2 ^ 16 -> htons (htons v) = v.
Proof.
  intros Hv. unfold htons at 1. unfold htons.
  pose proof (le_bytes_val (rev (le_bytes 2 v))) as H.
  rewrite length_rev, length_le_bytes in H. rewrite H by apply Forall_rev, le_bytes_byte.
  rewrite rev_involutive, le_val_bytes. apply Z.mod_small. lia.
Qed.

Lemma htons_range v : 0 <= htons v < 2 ^ 16.
Proof.
  unfold htons. pose proof (le_val_range (rev (le_bytes 2 v))) as H.
  rewrite length_rev, length_le_bytes in H. apply H, Forall_rev, le_bytes_byte.
Qed.

(** An address family and a port written into an address. *)
Lemma family_port a fam port :
  length a = 128%nat -> 0 <= fam < 2 ^ 16 -> 0 <= port < 2 ^ 16 ->
  let a' := set_port (htons port) (set_family fam a) in
  length a' = 128%nat /\ ss_family a' = fam /\ htons (sin_port a') = port.
Proof.
  intros Ha Hf Hp. unfold set_port, set_family. cbn zeta.
  assert (H1 : length (put_bytes 0 (le_bytes 2 fam) a) = 128%nat).
  { rewrite length_put_bytes; [done|]. rewrite length_le_bytes. lia. }
  split_and!.
  - rewrite length_put_bytes; [done|]. rewrite H1, length_le_bytes. lia.
  - unfold ss_family. rewrite get_put_other by (rewrite ?H1, length_le_bytes; lia).
    pose proof (get_put_same 0 (le_bytes 2 fam) a) as H. rewrite length_le_bytes in H.
    rewrite H by lia. rewrite le_val_bytes. apply Z.mod_small. lia.
  - unfold sin_port.
    pose proof (get_put_same 2 (le_bytes 2 (htons port)) (put_bytes 0 (le_bytes 2 fam) a)) as H.
    rewrite length_le_bytes in H. rewrite H by (rewrite H1; lia). rewrite le_val_bytes.
    pose proof (htons_range port). rewrite Z.mod_small by lia. by apply htons_involutive.
Qed.

(** Writing the IP address leaves the family and the port. *)
Lemma addr_after_port off bs a :
  length a = 128%nat -> (4 <= off /\ off + length bs <= 128)%nat ->
  let a' := put_bytes off bs a in
  length a' = 128%nat /\ ss_family a' = ss_family a /\ sin_port a' = sin_port a /\
  get_bytes off (length bs) a' = bs.
Proof.
  intros Ha Hoff. cbn zeta. unfold ss_family, sin_port.
  rewrite length_put_bytes, !get_put_other, get_put_same by lia. done.
Qed.

(** The reply of [inet_pton] that [setup_sockaddr] used: the address bytes. *)
Definition pton_addr (fam : Z) (a : list Z) : list Z :=
  if fam =? AF_INET6 then sin6_addr a else sin_addr a.

(** C39: [setup_sockaddr] either returns an address with the family asked for,
    the port (in network byte order) and the bytes [inet_pton] gave for the
    string, the last call made; or it ends the program: with EXIT_FAIL_OPTION
    for an unknown family, with EXIT_FAIL_IP when [inet_pton] returns 0 or
    less. *)
Theorem setup_sockaddr_correct (K : Kernel) (S : Type) (fam port : Z) (addr : list Z) (ip : string)
  (w : world S)
  (pton_size : forall f s k, let r := (kstep (CInetPton f s) k).1 in
     0 < r_ret r -> length (m_data (r_msg r)) = if (f =? AF_INET6)%Z then 16%nat else 4%nat) :
  length addr = 128%nat -> 0 <= fam < 2 ^ 16 -> 0 <= port < 2 ^ 16 ->
  wp (setup_sockaddr fam addr ip port)
    (fun a w' => (fam = AF_INET \/ fam = AF_INET6) /\ length a = 128%nat /\ ss_family a = fam /\
       htons (sin_port a) = port /\
       exists r, w_log w' = (CInetPton fam ip, r) :: w_log w /\ 0 < r_ret r /\
         pton_addr fam a = m_data (r_msg r))
    (fun code w' =>
       (code = EXIT_FAIL_OPTION /\ fam <> AF_INET /\ fam <> AF_INET6) \/
       (code = EXIT_FAIL_IP /\
        exists r, w_log w' = (CInetPton fam ip, r) :: w_log w /\ r_ret r <= 0)) w.
Proof.
  intros Ha Hf Hp. pose proof (family_port addr fam port Ha Hf Hp) as (Hl & Hfam & Hport).
  unfold setup_sockaddr. wp_step.
  destruct (Z.eqb_spec fam AF_INET6) as [E6|E6]; [|destruct (Z.eqb_spec fam AF_INET) as [E4|E4]].
  - do 2 wp_step. wp_ask r k E. wp_step. destruct (Z.leb_spec (r_ret r) 0) as [Hr|Hr].
    + do 2 wp_step; repeat wp_step; (right; split; [done|]; exists r; subst fam; done).
    + rewrite (proj2 (Z.ltb_lt _ _)) by done. wp_step. 
      pose proof (pton_size AF_INET6 ip (w_k w)) as Hsz. cbv zeta in Hsz. rewrite E in Hsz. cbn [fst] in Hsz. specialize (Hsz Hr).
      change (AF_INET6 =? AF_INET6) with true in Hsz. cbv iota in Hsz.
      unfold set_sin6_addr. assert (resize 16 0 (m_data (r_msg r)) = m_data (r_msg r)) as -> by (apply resize_all_alt; done).
      destruct (addr_after_port 8 (m_data (r_msg r)) _ Hl) as (Hl' & Hfam' & Hport' & Hb); [rewrite Hsz; lia|].
      split_and!; [by right|done|by rewrite Hfam'|by rewrite Hport'|].
      exists r. split_and!; [by subst fam|done|]. unfold pton_addr. rewrite E6.
      change (AF_INET6 =? AF_INET6) with true. unfold sin6_addr. by rewrite Hsz in Hb.
  - do 2 wp_step. wp_ask r k E. wp_step. destruct (Z.leb_spec (r_ret r) 0) as [Hr|Hr].
    + do 2 wp_step; repeat wp_step; (right; split; [done|]; exists r; subst fam; done).
    + rewrite (proj2 (Z.ltb_lt _ _)) by done. wp_step.
      pose proof (pton_size AF_INET ip (w_k w)) as Hsz. cbv zeta in Hsz. rewrite E in Hsz. cbn [fst] in Hsz. specialize (Hsz Hr).
      change (AF_INET =? AF_INET6) with false in Hsz. cbv iota in Hsz.
      unfold set_sin_addr. assert (resize 4 0 (m_data (r_msg r)) = m_data (r_msg r)) as -> by (apply resize_all_alt; done).
      destruct (addr_after_port 4 (m_data (r_msg r)) _ Hl) as (Hl' & Hfam' & Hport' & Hb); [rewrite Hsz; lia|].
      split_and!; [by left|done|by rewrite Hfam'|by rewrite Hport'|].
      exists r. split_and!; [by subst fam|done|]. unfold pton_addr. rewrite E4.
      change (AF_INET =? AF_INET6) with false. unfold sin_addr. by rewrite Hsz in Hb.
  - repeat wp_step. by left.
Qed.

(** [inet_pton] answers 127.0.0.1 or its IPv6 counterpart. *)
Definition loopback_step (c : call) (k : unit) : reply * unit :=
  match c with
  | CInetPton f _ =>
      (Reply 1 0 (Timespec 0 0)
         [RMsg (if f =? AF_INET6 then replicate 15 0 ++ [1] else [127; 0; 0; 1]) [] []], k)
  | _ => (reply_of 0, k)
  end.

Definition loopback : Kernel := {| kst := unit; kstep := loopback_step |}.

Lemma setup_sockaddr_correct_witness :
  let w := @World loopback unit tt ∅ 1 [] [] 0 tt in
  wp (setup_sockaddr AF_INET zero_sockaddr "127.0.0.1" 6666)
    (fun a w' => (AF_INET = AF_INET \/ AF_INET = AF_INET6) /\ length a = 128%nat /\ ss_family a = AF_INET /\
       htons (sin_port a) = 6666 /\
       exists r, w_log w' = (CInetPton AF_INET "127.0.0.1", r) :: w_log w /\ 0 < r_ret r /\
         pton_addr AF_INET a = m_data (r_msg r))
    (fun code w' =>
       (code = EXIT_FAIL_OPTION /\ AF_INET <> AF_INET /\ AF_INET <> AF_INET6) \/
       (code = EXIT_FAIL_IP /\
        exists r, w_log w' = (CInetPton AF_INET "127.0.0.1", r) :: w_log w /\ r_ret r <= 0)) w.
Proof.
  apply (setup_sockaddr_correct loopback unit AF_INET 6666 zero_sockaddr "127.0.0.1"
    (@World loopback unit tt ∅ 1 [] [] 0 tt)).
  - intros f s k r _. subst r. cbn [kstep loopback loopback_step fst]. unfold r_msg. cbn. by destruct (f =? AF_INET6).
  - reflexivity.
  - split; [discriminate|reflexivity].
  - split; [discriminate|reflexivity].
Defined.

(** ** The array allocations *)

(** C40: [malloc_mmsghdr] and [malloc_iovec] return a zeroed block, or exit with
    EXIT_FAIL_MEM; the block holds all the elements exactly when their number is
    below [2 ^ 26] (message headers) and [2 ^ 28] (vector elements): the size is
    computed as an [unsigned int]. *)
Theorem malloc_array_size (K : Kernel) (S : Type) (n : Z) (w : world S) :
  0 <= n < 2 ^ 32 -> mem_wf w ->
  wp (malloc_mmsghdr n)
    (fun p w' => p = Ptr (w_next w) 0 /\ exists size, allocated size w w' /\
       (size = sizeof_mmsghdr * n <-> n < 2 ^ 26)) (fun code _ => code = EXIT_FAIL_MEM) w /\
  wp (malloc_iovec n)
    (fun p w' => p = Ptr (w_next w) 0 /\ exists size, allocated size w w' /\
       (size = sizeof_iovec * n <-> n < 2 ^ 28)) (fun code _ => code = EXIT_FAIL_MEM) w.
Proof.
  intros Hn [Hpos _]. split.
  - apply malloc_zeroed_spec; [done|intros; by eexists| |done].
    intros w' Hal. split; [done|]. eexists. split; [exact Hal|].
    unfold sizeof_mmsghdr. split.
    + intros H. pose proof (u32_range (64 * n)). lia.
    + intros H. apply u32_id. lia.
  - apply malloc_zeroed_spec; [done|intros; by eexists| |done].
    intros w' Hal. split; [done|]. eexists. split; [exact Hal|].
    unfold sizeof_iovec. split.
    + intros H. pose proof (u32_range (16 * n)). lia.
    + intros H. apply u32_id. lia.
Qed.

Lemma malloc_array_size_witness :
  let w := @start unit [] tt in
  wp (malloc_mmsghdr (2 ^ 26))
    (fun p w' => p = Ptr (w_next w) 0 /\ exists size, allocated size w w' /\
       (size = sizeof_mmsghdr * 2 ^ 26 <-> 2 ^ 26 < 2 ^ 26)) (fun code _ => code = EXIT_FAIL_MEM) w /\
  wp (malloc_iovec (2 ^ 26))
    (fun p w' => p = Ptr (w_next w) 0 /\ exists size, allocated size w w' /\
       (size = sizeof_iovec * 2 ^ 26 <-> 2 ^ 26 < 2 ^ 28)) (fun code _ => code = EXIT_FAIL_MEM) w.
Proof.
  apply (malloc_array_size scripted unit (2 ^ 26) (start [] tt)).
  - split; [discriminate|reflexivity].
  - apply start_wf.
Defined.
