(* ===== verification/Getopt.v ===== *)
(** * Command-line options

    A program sees its command line through [getopt_long]: a list of answers,
    each the code of an option, its index in the long options, and its
    argument.  The tables of options are data. *)
From stdpp Require Import base list strings.
From Stdlib Require Import ZArith Lia Ascii.
From S2P Require Import Prelude.
From S2P Require Import CLang.
From S2P Require Import Libc.

#[local] Open Scope Z_scope.

Definition no_argument : Z := 0.
Definition required_argument : Z := 1.
Definition optional_argument : Z := 2.

(** [struct option] of an option that returns [val]. *)
Record option_ := Option_ { opt_name : string; has_arg : Z; opt_val : Z }.

(** An answer of [getopt_long]. *)
Record optev := Optev { o_c : Z; o_longindex : nat; o_arg : option string }.

(** Is [c] an option character of the option string, and does it take an
    argument? *)
Fixpoint short_option (c : Z) (l : list Z) : option bool :=
  match l with
  | [] => None
  | x :: l' =>
      if (x =? c) && negb (x =? 58)
      then Some (match l' with y :: _ => y =? 58 | [] => false end)
      else short_option c l'
  end.

Section Getopt.
Context {K : Kernel} {S : Type}.

(** [atoi(optarg)] *)
Definition atoi_optarg (e : optev) : M S Z :=
  match o_arg e with
  | Some s => ret (atoi s)
  | None => undefined NullDeref
  end.

(** [optarg ? atoi(optarg) : 1] *)
Definition atoi_or_1 (e : optev) : Z :=
  match o_arg e with Some s => atoi s | None => 1 end.

(** The [while ((c = getopt_long(...)) != -1)] loop: [step] handles one
    answer, and may end the loop with a result. *)
Fixpoint getopt_loop {A B} (step : A -> optev -> M S (A + B)) (a : A) (evs : list optev) :
  M S (A + B) :=
  match evs with
  | [] => ret (inl a)
  | e :: evs' =>
      bind (step a e) (fun r =>
        match r with inl a' => getopt_loop step a' evs' | inr b => ret (inr b) end)
  end.
End Getopt.
