(* ===== verification/Tame.v ===== *)
(** * Safety of whole programs

    [tame F I codes m Q]: from a world where the invariant [I] holds, [m]
    never reaches undefined behaviour; it returns a value that satisfies [Q]
    with the invariant restored, or ends the process with one of [codes].
    The rules compose along the program text. *)
From stdpp Require Import base list gmap strings.
From Stdlib Require Import ZArith Lia.
From S2P Require Import Prelude.
From S2P Require Import CLang.
From S2P Require Import Wp.
From S2P Require Import Libc.
From S2P Require Import Common.
From S2P Require Import CommonSocket.
From S2P Require Import Getopt.

#[local] Open Scope Z_scope.
#[local] Open Scope c_scope.

Create HintDb tame discriminated.

(** Invariants that calls, output and [verbose] do not disturb. *)
Class Stable {K : Kernel} {S : Type} (I : world S -> Prop) := {
  stable_call c r k w : I w -> I (w_call c r k w);
  stable_print o w : I w -> I (w_print o w);
  stable_verbose v w : I w -> I (w_set_verbose v w)
}.

(** An option whose argument is a number from [lo] to [hi]. *)
Definition arg_in (lo hi : Z) (e : optev) : Prop :=
  exists s, o_arg e = Some s /\ lo <= atoi s <= hi.

Section Tame.
Context {K : Kernel} {S : Type} (F : Prop) (I : world S -> Prop) (codes : list Z) `{!Stable I}.

Definition tame {A} (m : M S A) (Q : A -> Prop) : Prop :=
  forall w, I w -> wpg F m (fun a w' => I w' /\ Q a) (fun code _ => In code codes) w.

Lemma tame_mono {A} (m : M S A) (Q Q' : A -> Prop) :
  tame m Q -> (forall a, Q a -> Q' a) -> tame m Q'.
Proof. intros H HQ w Hw. eapply wp_post; [by apply H|]. intros a w' [? ?]. auto. Qed.

Lemma tame_any {A} (m : M S A) Q : tame m Q -> tame m (fun _ => True).
Proof. intros H. by eapply tame_mono. Qed.

Lemma tame_ret {A} (a : A) (Q : A -> Prop) : Q a -> tame (ret a) Q.
Proof. intros H w Hw. by apply wp_ret. Qed.

Lemma tame_bind {A B} (m : M S A) (f : A -> M S B) P Q :
  tame m P -> (forall a, P a -> tame (f a) Q) -> tame (bind m f) Q.
Proof.
  intros Hm Hf w Hw. apply wp_bind. eapply wp_post; [by apply Hm|].
  cbn. intros a w' [Hw' HP]. by apply Hf.
Qed.

Lemma tame_seq {A B} (m : M S A) (f : A -> M S B) Q :
  tame m (fun _ => True) -> (forall a, tame (f a) Q) -> tame (bind m f) Q.
Proof. intros Hm Hf. eapply tame_bind; eauto. Qed.

Lemma tame_exit {A} code (Q : A -> Prop) : In code codes -> tame (exit code) Q.
Proof. intros H w _. by apply wp_exit. Qed.

Lemma tame_ask c : tame (ask c) (fun _ => True).
Proof. intros w Hw. apply wp_ask. intros r k _. split; [by apply stable_call|done]. Qed.

Lemma tame_print o : tame (print o) (fun _ => True).
Proof. intros w Hw. apply wp_print. split; [by apply stable_print|done]. Qed.

Lemma tame_printf f a : tame (printf f a) (fun _ => True).
Proof. apply tame_print. Qed.

Lemma tame_eprintf f a : tame (eprintf f a) (fun _ => True).
Proof. apply tame_print. Qed.

Lemma tame_perror m : tame (perror m) (fun _ => True).
Proof. apply tame_print. Qed.

Lemma tame_get_verbose : tame get_verbose (fun _ => True).
Proof. intros w Hw. by apply wp_get_verbose. Qed.

Lemma tame_put_verbose v : tame (put_verbose v) (fun _ => True).
Proof. intros w Hw. apply wp_put_verbose. split; [by apply stable_verbose|done]. Qed.

Lemma tame_when b m : (b = true -> tame m (fun _ => True)) -> tame (when b m) (fun _ => True).
Proof. intros Hm w Hw. apply wp_when; intros E; [by apply Hm|done]. Qed.

Lemma tame_if {A} (b : bool) (m1 m2 : M S A) Q :
  (b = true -> tame m1 Q) -> (b = false -> tame m2 Q) -> tame (if b then m1 else m2) Q.
Proof. destruct b; auto. Qed.

Lemma tame_forM {A B} (l : list A) (f : A -> M S B) :
  (forall x, x ∈ l -> tame (f x) (fun _ => True)) -> tame (forM l f) (fun _ => True).
Proof.
  induction l as [|x l IH]; intros Hf; cbn [forM]; [by apply tame_ret|].
  eapply tame_seq; [apply Hf; constructor|]. intros y.
  eapply tame_seq; [apply IH; intros; apply Hf; by constructor|]. intros ys. by apply tame_ret.
Qed.

(** A loop whose state has a measure that every round decreases. *)
Lemma tame_iter {A B} (P : A -> Prop) (measure : A -> nat) fuel (body : A -> M S (A + B)) a Q :
  P a -> (measure a < fuel)%nat ->
  (forall a, P a ->
     tame (body a) (fun r => match r with inl a' => P a' /\ (measure a' < measure a)%nat | inr b => Q b end)) ->
  tame (iter fuel body a) Q.
Proof.
  intros HP Hm Hb w Hw.
  apply (wp_iter (fun n a w => I w /\ P a /\ (measure a < n)%nat)); [done| |].
  - intros a' w' (_ & _ & ?). lia.
  - intros n a' w' (HI & HP' & Hn). eapply wp_post; [by apply Hb|].
    intros [a2|b] w2 [HI2 HQ]; [|done]. destruct HQ. split_and!; try done. lia.
Qed.

(** The option loop: [P] holds of the options seen so far. *)
Lemma tame_getopt {A B} (P : A -> Prop) (ok : optev -> Prop) (step : A -> optev -> M S (A + B)) evs a
  (Q : B -> Prop) :
  P a -> Forall ok evs ->
  (forall a e, P a -> ok e -> tame (step a e) (fun r => match r with inl a' => P a' | inr b => Q b end)) ->
  tame (getopt_loop step a evs) (fun r => match r with inl a' => P a' | inr b => Q b end).
Proof.
  intros HP Hok Hs. revert a HP. induction Hok as [|e evs He _ IH]; intros a HP; cbn [getopt_loop].
  - by apply tame_ret.
  - eapply tame_bind; [by apply Hs|]. intros [a'|b] H; [by apply IH|by apply tame_ret].
Qed.

Lemma tame_atoi (e : optev) lo hi : arg_in lo hi e -> tame (atoi_optarg e) (fun v => lo <= v <= hi).
Proof. intros (s & Hs & Hv). unfold atoi_optarg. rewrite Hs. by apply tame_ret. Qed.

Lemma tame_atoi_any (e : optev) : is_Some (o_arg e) -> tame (atoi_optarg e) (fun _ => True).
Proof. intros [s Hs]. unfold atoi_optarg. rewrite Hs. by apply tame_ret. Qed.

(** ** The functions of common.c and common_socket.c *)
Lemma tame_gettime : In EXIT_FAIL_TIME codes -> tame gettime (fun t => is_u64 t).
Proof.
  intros HX. unfold gettime. eapply tame_seq; [apply tame_ask|]. intros r.
  apply tame_if; intros _.
  - eapply tame_seq; [apply tame_eprintf|]. intros _. by apply tame_exit.
  - apply tame_ret. unfold is_u64. apply u64_range.
Qed.

Lemma tame_rdtsc : tame rdtsc (fun _ => True).
Proof. unfold rdtsc. eapply tame_seq; [apply tame_ask|]. intros r. by apply tame_ret. Qed.

Lemma tame_start r : In EXIT_FAIL_TIME codes -> tame (time_bench_start r) (fun _ => True).
Proof.
  intros HX. unfold time_bench_start. eapply tame_bind; [by apply tame_gettime|]. intros t _.
  eapply tame_seq; [apply tame_rdtsc|]. intros c. by apply tame_ret.
Qed.

Lemma tame_stop r : In EXIT_FAIL_TIME codes -> tame (time_bench_stop r) (fun _ => True).
Proof.
  intros HX. unfold time_bench_stop. eapply tame_seq; [apply tame_rdtsc|]. intros c.
  eapply tame_bind; [by apply tame_gettime|]. intros t _. by apply tame_ret.
Qed.

Lemma tame_u64_div a b : 0 < b < 2 ^ 64 -> tame (u64_div a b) (fun _ => True).
Proof.
  intros Hb. unfold u64_div. rewrite u64_id, (proj2 (Z.eqb_neq _ _)) by lia. by apply tame_ret.
Qed.

Lemma tame_calc_stats r : 0 < packets r < 2 ^ 64 -> tame (time_bench_calc_stats r) (fun _ => True).
Proof.
  intros Hr. unfold time_bench_calc_stats.
  eapply tame_seq; [by apply tame_u64_div|]. intros c.
  eapply tame_seq; [by apply tame_u64_div|]. intros s. by apply tame_ret.
Qed.

(** A timed function that makes the loops asked for. *)
Lemma tame_time_func loops func :
  0 < loops < 2 ^ 64 -> tame (func loops) (fun out => out.1 = loops) ->
  tame (time_func loops func) (fun _ => True).
Proof.
  intros Hl Hf. unfold time_func. eapply tame_bind; [apply Hf|]. intros [cnt m] Hcnt. cbn in Hcnt. subst cnt.
  eapply tame_seq; [apply tame_when; intros; apply tame_printf|]. intros _.
  eapply tame_seq; [by apply tame_u64_div|]. intros c.
  eapply tame_seq; [apply tame_printf|]. intros _. by apply tame_ret.
Qed.

Lemma tame_print_stats r c : tame (time_bench_print_stats r c) (fun _ => True).
Proof.
  unfold time_bench_print_stats. eapply tame_seq; [apply tame_get_verbose|]. intros v.
  apply tame_if; intros _; [apply tame_printf|].
  repeat (eapply tame_seq; [by (apply tame_when; intros _; apply tame_printf) || apply tame_printf|intros _]).
  apply tame_printf.
Qed.

Lemma tame_print_header f b : tame (print_header f b) (fun _ => True).
Proof.
  unfold print_header. eapply tame_seq; [apply tame_get_verbose|]. intros v.
  repeat (apply tame_if; intros _); apply tame_printf.
Qed.

Lemma tame_Socket f t pr : In EXIT_FAIL_SOCK codes -> tame (Socket f t pr) (fun fd => 0 <= fd).
Proof.
  intros HX. unfold Socket. eapply tame_seq; [apply tame_ask|]. intros r.
  destruct (Z.ltb_spec (r_ret r) 0); [|by apply tame_ret].
  eapply tame_seq; [apply tame_perror|]. intros _. by apply tame_exit.
Qed.

Lemma tame_sockaddr_len a :
  In EXIT_FAIL_SOCK codes -> tame (sockaddr_len a) (fun n => n = sizeof_sockaddr_in \/ n = sizeof_sockaddr_in6).
Proof.
  intros HX. unfold sockaddr_len. repeat (apply tame_if; intros _); [apply tame_ret; auto..|].
  eapply tame_seq; [apply tame_eprintf|]. intros _. by apply tame_exit.
Qed.

(** A wrapper's failed call ends the program. *)
Lemma tame_failed {A} f r m (k : unit -> M S A) Q :
  (forall u, tame (k u) Q) -> tame (bind (wrapper_failed f r m) k) Q.
Proof.
  intros Hk. eapply tame_seq; [|done]. unfold wrapper_failed.
  eapply tame_seq; [apply tame_eprintf|]. intros _. apply tame_perror.
Qed.

Lemma tame_Connect fd a n : In EXIT_FAIL_SOCK codes -> tame (Connect fd a n) (fun _ => True).
Proof.
  intros HX. unfold Connect. eapply tame_seq; [apply tame_ask|]. intros r.
  apply tame_if; intros _; [|by apply tame_ret]. apply tame_failed. intros _.
  eapply tame_seq; [apply tame_ask|]. intros _. by apply tame_exit.
Qed.

Lemma tame_Close fd : In EXIT_FAIL_SOCK codes -> tame (Close fd) (fun _ => True).
Proof.
  intros HX. unfold Close. eapply tame_seq; [apply tame_ask|]. intros r.
  apply tame_if; intros _; [|by apply tame_ret]. apply tame_failed. intros _. by apply tame_exit.
Qed.

Lemma tame_Setsockopt fd l o v : In EXIT_FAIL_SOCKOPT codes -> tame (Setsockopt fd l o v) (fun _ => True).
Proof.
  intros HX. unfold Setsockopt. eapply tame_seq; [apply tame_ask|]. intros r.
  apply tame_if; intros _; [|by apply tame_ret]. apply tame_failed. intros _. by apply tame_exit.
Qed.

Lemma tame_Bind fd a : In EXIT_FAIL_SOCK codes -> tame (Bind fd a) (fun _ => True).
Proof.
  intros HX. unfold Bind. eapply tame_bind; [by apply tame_sockaddr_len|]. intros n _.
  eapply tame_seq; [apply tame_ask|]. intros r.
  apply tame_if; intros _; [|by apply tame_ret]. apply tame_failed. intros _.
  eapply tame_seq; [apply tame_ask|]. intros _. by apply tame_exit.
Qed.

Lemma tame_setup_sockaddr f a ip port :
  In EXIT_FAIL_OPTION codes -> In EXIT_FAIL_IP codes ->
  tame (setup_sockaddr f a ip port) (fun _ => True).
Proof.
  intros HO HI. unfold setup_sockaddr. eapply tame_seq.
  - repeat (apply tame_if; intros _).
    1,2: eapply tame_seq; [apply tame_ask|]; intros r; by apply tame_ret.
    eapply tame_seq; [apply tame_eprintf|]. intros _. by apply tame_exit.
  - intros [res addr']. apply tame_if; intros _; [|by apply tame_ret].
    eapply tame_seq; [apply tame_if; intros _; [apply tame_eprintf|apply tame_perror]|].
    intros _. by apply tame_exit.
Qed.
End Tame.

#[export] Hint Resolve tame_ask tame_printf tame_eprintf tame_perror tame_get_verbose tame_put_verbose
  tame_rdtsc tame_print_stats tame_print_header : tame.
#[export] Hint Resolve tame_exit tame_start tame_stop tame_sockaddr_len tame_Connect
  tame_Close tame_Setsockopt tame_Bind tame_setup_sockaddr : tame.
#[export] Hint Extern 1 (In _ _) => (vm_compute; tauto) : tame.

(** One step along the program text; what the hints do not close is left. *)
Ltac tame_step :=
  lazymatch goal with
  | |- tame _ _ _ (bind _ _) _ =>
      first [eapply tame_seq; [solve [eauto with tame typeclass_instances]|] | eapply tame_bind; [solve [eauto with tame typeclass_instances]|]]; intros
  | |- tame _ _ _ (when _ _) _ => apply tame_when; intros ?
  | |- tame _ _ _ (ret _) _ => apply tame_ret
  | |- tame _ _ _ (if ?b then _ else _) _ => apply tame_if; intros ?
  | |- tame _ _ _ _ _ => solve [eauto with tame typeclass_instances]
  end; cbv beta zeta.

(** An address set up for a family the programs know. *)
Section DestAddr.
Context {K : Kernel} {S : Type} (F : Prop) (I : world S -> Prop) (codes : list Z) `{!Stable I}.

Lemma tame_dest_addr family ip port :
  family = AF_INET \/ family = AF_INET6 -> In EXIT_FAIL_IP codes ->
  tame F I codes (setup_sockaddr family zero_sockaddr ip port) known_family.
Proof.
  intros Hf HX. unfold setup_sockaddr.
  eapply (tame_bind _ _ _ _ _ (fun r : Z * list Z => 0 < r.1 -> known_family r.2)).
  { destruct Hf as [-> | ->];
      [change (AF_INET =? AF_INET6) with false; change (AF_INET =? AF_INET) with true
      |change (AF_INET6 =? AF_INET6) with true]; cbv iota;
      (tame_step; apply tame_ret; cbn [fst snd]; intros Hr; rewrite (proj2 (Z.ltb_lt _ _)) by done;
       first [left; reflexivity|right; reflexivity]). }
  intros [res a] Ha. cbn in Ha. destruct (Z.leb_spec res 0).
  - eapply tame_seq; [repeat tame_step|]. intros _. tame_step.
  - apply tame_ret. by apply Ha.
Qed.
End DestAddr.

(** A timed loop makes its rounds and keeps an invariant of its state. *)
Section TimedLoop.
Context {K : Kernel} {S : Type} (F : Prop) (I : world S -> Prop) (codes : list Z) `{!Stable I}.

Lemma tame_timed_loop {A} loops (body : Z -> A -> M S A) s0 (P : A -> Prop) :
  In EXIT_FAIL_TIME codes -> 0 <= loops -> P s0 -> (forall j s, P s -> tame F I codes (body j s) P) ->
  tame F I codes (timed_loop loops body s0) (fun out => out.1.1 = loops /\ P out.1.2).
Proof.
  intros HX Hl H0 Hb. unfold timed_loop.
  eapply tame_seq; [eapply tame_any, tame_gettime; auto with tame typeclass_instances|]. intros t0. tame_step.
  eapply (tame_bind _ _ _ _ _ (fun out => out.1 = loops /\ P out.2)).
  { apply (tame_iter _ _ _ (fun '(j, s) => 0 <= j <= loops /\ P s) (fun '(j, s) => Z.to_nat (loops - j)));
      [split; [lia|done]|lia|].
    intros [j s] [Hj Hs]. destruct (Z.ltb_spec j loops); [|apply tame_ret; cbn; split; [lia|done]].
    eapply tame_bind; [by apply Hb|]. intros s' Hs'. apply tame_ret. split_and!; try done; lia. }
  intros out Hout. tame_step.
  eapply tame_seq; [eapply tame_any, tame_gettime; auto with tame typeclass_instances|]. intros t1.
  by apply tame_ret.
Qed.
End TimedLoop.
