(* ===== verification/UdpFlood.v ===== *)
(** * udp_flood.c: sending a flood of UDP packets with five system calls *)
From stdpp Require Import base list gmap strings.
From Stdlib Require Import ZArith Lia Ascii.
From S2P Require Import Prelude.
From S2P Require Import CLang.
From S2P Require Import Wp.
From S2P Require Import Libc.
From S2P Require Import Getopt.
From S2P Require Import Common.
From S2P Require Import CommonSocket.
From S2P Require Import Pktgen.

#[local] Open Scope Z_scope.
#[local] Open Scope c_scope.

Definition RUN_SENDMSG : Z := 1.
Definition RUN_SENDMMSG : Z := 2.
Definition RUN_SENDTO : Z := 4.
Definition RUN_WRITE : Z := 8.
Definition RUN_SEND : Z := 16.
Definition RUN_ALL : Z :=
  Z.lor (Z.lor (Z.lor (Z.lor RUN_SENDMSG RUN_SENDMMSG) RUN_SENDTO) RUN_WRITE) RUN_SEND.

Record flood_params := FloodParams {
  c : params_common;
  lite : Z;
  batch : Z;
  count : Z;
  msg_sz : Z;
  pmtu : Z;
  pktgen_hdr : Z;
  dest_addr : list Z
}.

(** The static variable [sequence] of [fill_buf]. *)
Record statics := Statics { sequence : Z }.

Definition long_options : list option_ := [
  Option_ "help" no_argument (ch "h");
  Option_ "ipv4" no_argument (ch "4");
  Option_ "ipv6" no_argument (ch "6");
  Option_ "lite" no_argument (ch "L");
  Option_ "pktgen-header" no_argument (ch "P");
  Option_ "sendmsg" no_argument (ch "u");
  Option_ "sendmmsg" no_argument (ch "U");
  Option_ "sendto" no_argument (ch "t");
  Option_ "write" no_argument (ch "T");
  Option_ "send" no_argument (ch "S");
  Option_ "batch" required_argument (ch "b");
  Option_ "count" required_argument (ch "c");
  Option_ "port" required_argument (ch "p");
  Option_ "payload" required_argument (ch "m");
  Option_ "pmtu" required_argument (ch "d");
  Option_ "verbose" optional_argument (ch "v")
].

Definition optstring : string := "hc:p:m:64PLv:tTuUb:".

Definition IP_PMTUDISC_DONT : Z := 0.
Definition IP_PMTUDISC_OMIT : Z := 5.
Definition IP_PMTUDISC_MAX : Z := IP_PMTUDISC_OMIT + 1.

Definition ip_mtu_discover_names : list string := [
  "IP_PMTUDISC_DONT"; "IP_PMTUDISC_WANT"; "IP_PMTUDISC_DO"; "IP_PMTUDISC_PROBE";
  "IP_PMTUDISC_INTERFACE"; "IP_PMTUDISC_OMIT"
].

Definition DEFAULT_COUNT : Z := 1000000.

Definition init_params : flood_params :=
  FloodParams (ParamsCommon 0) 0 32 DEFAULT_COUNT 18 (-1) 0 zero_sockaddr.

Section UdpFlood.
Context {K : Kernel}.
#[local] Abbreviation M := (M statics).

Definition pmtu_to_string (v : Z) : M (option string) :=
  if v <? IP_PMTUDISC_MAX then
    if v <? 0 then undefined OutOfBounds
    else ret (ip_mtu_discover_names !! Z.to_nat v)
  else ret None.

(** The name as an argument for ["%s"]: a NULL pointer is undefined there. *)
Definition pmtu_arg (v : Z) : M arg :=
  name <- pmtu_to_string v ;;
  match name with
  | Some name => ret (AStr name)
  | None => undefined NullDeref
  end.

(** One round of the copy loop of [fill_buf]; [l] is the offset. *)
Definition fill_buf_body (hdr : Pktgen.pktgen_hdr) (buf : ptr) (len l : Z) : M (Z + unit) :=
  if l <? len then
    let cur_len := if u64 (len - l) <? sizeof_pktgen_hdr then len - l else sizeof_pktgen_hdr in
    store (ptr_add buf l) (take (Z.to_nat cur_len) (hdr_bytes hdr)) ;;
    ret (inl (i32 (l + sizeof_pktgen_hdr)))
  else ret (inr tt).

Definition fill_buf (p : flood_params) (buf : ptr) (len : Z) : M unit :=
  if negb (truth (pktgen_hdr p)) then ret tt
  else
    t <- ask (CClockGettime CLOCK_REALTIME_COARSE) ;;
    st <- get_st ;;
    let hdr := PktgenHdr (htonl PKTGEN_MAGIC) (sequence st) (u32 (ts_sec (r_ts t)))
                 (u32 (Z.quot (ts_nsec (r_ts t)) 1000)) in
    put_st (Statics (u32 (sequence st + 1))) ;;
    iter (Datatypes.S (Z.to_nat len)) (fill_buf_body hdr buf len) 0.

(** The flood loop the [sendto], [send], [write] and [sendmsg] variants
    share: [fill] prepares the packet, [xmit] sends it. The result is the
    value the function returns and the record. *)
Definition flood_loop (p : flood_params) (fill : M unit) (xmit : M reply) (err : string)
  (r : time_bench_record) : M (Z * time_bench_record) :=
  iter (Datatypes.S (Z.to_nat (count p)))
    (fun '(cnt, total) =>
       if cnt <? count p then
         fill ;;
         res <- xmit ;;
         if r_ret res <? 0 then
           eprintf "Managed to send %d packets\n" [AInt cnt] ;;
           perror err ;;
           ret (inr (r_ret res, r))
         else ret (inl (cnt + 1, u64 (total + r_ret res)))
       else ret (inr (cnt, set_bytes total r)))
    (0, 0).

Definition flood_with_sendto (sockfd : Z) (p : flood_params) (r : time_bench_record) :
  M (Z * time_bench_record) :=
  addrlen <- sockaddr_len (dest_addr p) ;;
  msg_buf <- malloc_payload_buffer (msg_sz p) ;;
  res <- flood_loop p (fill_buf p msg_buf (msg_sz p))
           (data <- peek msg_buf (u64 (msg_sz p)) ;;
            ask (CSendto sockfd data 0 (dest_addr p) addrlen))
           "- sendto" r ;;
  free msg_buf ;;
  ret res.

Definition flood_with_send (sockfd : Z) (p : flood_params) (r : time_bench_record) :
  M (Z * time_bench_record) :=
  msg_buf <- malloc_payload_buffer (msg_sz p) ;;
  res <- flood_loop p (ret tt)
           (data <- peek msg_buf (u64 (msg_sz p)) ;; ask (CSend sockfd data 0))
           "- send" r ;;
  free msg_buf ;;
  ret res.

Definition flood_with_write (sockfd : Z) (p : flood_params) (r : time_bench_record) :
  M (Z * time_bench_record) :=
  msg_buf <- malloc_payload_buffer (msg_sz p) ;;
  res <- flood_loop p (fill_buf p msg_buf (msg_sz p))
           (data <- peek msg_buf (u64 (msg_sz p)) ;; ask (CWrite sockfd data))
           "- write" r ;;
  free msg_buf ;;
  ret res.

(** The bytes a gathering send transmits. *)
Definition gather (iov : list iovec) : M (list mbyte) :=
  ls <- forM iov (fun v => peek (iov_base v) (iov_len v)) ;;
  ret (concat ls).

Definition iov_array_elems : Z := 1.

Definition flood_with_sendmsg (sockfd : Z) (p : flood_params) (r : time_bench_record) :
  M (Z * time_bench_record) :=
  addrlen <- sockaddr_len (dest_addr p) ;;
  msg_buf <- malloc_payload_buffer (msg_sz p) ;;
  msg_hdr <- malloc_msghdr ;;
  msg_iov <- malloc_iovec iov_array_elems ;;
  let len := u32 (msg_sz p) / iov_array_elems in
  iov0 <- (check_elem msg_iov sizeof_iovec 0 ;; ret (Iovec msg_buf len)) ;;
  iovs <- forM (seqZ 1 (iov_array_elems - 1)) (fun i =>
            check_elem msg_iov sizeof_iovec i ;;
            ret (Iovec (ptr_add msg_buf (len * i)) len)) ;;
  res <- flood_loop p (fill_buf p msg_buf (msg_sz p))
           (data <- gather (iov0 :: iovs) ;;
            ask (CSendmsg sockfd data (take (Z.to_nat addrlen) (dest_addr p)) [] 0))
           "- sendmsg" r ;;
  free msg_iov ;;
  free msg_hdr ;;
  free msg_buf ;;
  ret res.

(** [for (pkt = 0; pkt < p->batch; pkt++) fill_buf(...)], when asked for. *)
Definition fill_batch (p : flood_params) (msg_buf : ptr) : M unit :=
  if truth (pktgen_hdr p) then
    forM (seqZ 0 (batch p)) (fun pkt =>
      fill_buf p (ptr_add msg_buf (pkt * msg_sz p)) (msg_sz p)) ;;
    ret tt
  else ret tt.

(** [syscall(__NR_sendmmsg, sockfd, mmsg_hdr, vlen, 0)]: [vlen] is taken as
    an [unsigned int]; the system reads that many headers. *)
Definition sendmmsg (sockfd : Z) (hdrs : list mmsghdr) (addr : list Z) (vlen : Z) : M reply :=
  if Z.of_nat (length hdrs) <? u32 vlen then undefined OutOfBounds
  else
    msgs <- forM (take (Z.to_nat (u32 vlen)) hdrs) (fun h => gather (msg_iov (msg_hdr h))) ;;
    ask (CSendmmsg sockfd msgs addr 0).

(** The failed end of [flood_with_sendMmsg]: its messages and result. *)
Definition sendMmsg_error (cnt : Z) (res : reply) (r : time_bench_record) :
  M (Z * time_bench_record) :=
  eprintf "Managed to send %d packets\n" [AInt cnt] ;;
  perror "- sendMmsg" ;;
  ret (r_ret res, r).

(** The flood loop of [flood_with_sendMmsg]: [inl] the total of bytes and
    the count of batches, [inr] the reply of the failed call. *)
Definition sendMmsg_loop (sockfd : Z) (p : flood_params) (batches : Z) (msg_buf : ptr)
  (hdrs : list mmsghdr) (addr : list Z) : M (Z * Z + Z * reply) :=
  iter (Datatypes.S (Z.to_nat batches))
    (fun '(cnt, total) =>
       if cnt <? batches then
         fill_batch p msg_buf ;;
         res <- sendmmsg sockfd hdrs addr (batch p) ;;
         if r_ret res <? 0 then ret (inr (inr (cnt, res)))
         else
           sz <- int_check (r_ret res * msg_sz p) ;;
           ret (inl (cnt + 1, u64 (total + sz)))
       else ret (inr (inl (cnt, total))))
    (0, 0).

(** The destination address is not an object of the modelled memory: the
    headers keep [msg_name] null, and the call carries the address bytes. *)
Definition flood_with_sendMmsg (sockfd : Z) (p : flood_params) (r : time_bench_record) :
  M (Z * time_bench_record) :=
  total_size <- int_check (batch p * msg_sz p) ;;
  batches <- int_div (count p) (batch p) ;;
  let last := count p - batches * batch p in
  addrlen <- sockaddr_len (dest_addr p) ;;
  verbose <- get_verbose ;;
  when (0 <? verbose) (eprintf " - batching %d packets in sendmmsg\n" [AInt (batch p)]) ;;
  msg_buf <- malloc_payload_buffer total_size ;;
  mmsg_hdr <- malloc_mmsghdr (u32 (batch p)) ;;
  msg_iov <- malloc_iovec (u32 (iov_array_elems * batch p)) ;;
  hdrs <- forM (seqZ 0 (batch p)) (fun pkt =>
    let base := ptr_add msg_buf (pkt * msg_sz p) in
    let incr := i32 (u32 (msg_sz p) / iov_array_elems) in
    let iov_idx := i32 (pkt * iov_array_elems) in
    iovs <- forM (seqZ 0 iov_array_elems) (fun i =>
      check_elem msg_iov sizeof_iovec (iov_idx + i) ;;
      ret (Iovec (ptr_add base (i * incr)) (u64 incr))) ;;
    check_elem mmsg_hdr sizeof_mmsghdr pkt ;;
    ret (Mmsghdr (Msghdr NULL addrlen iovs iov_array_elems NULL 0 0) 0)) ;;
  let addr := take (Z.to_nat addrlen) (dest_addr p) in
  out <- sendMmsg_loop sockfd p batches msg_buf hdrs addr ;;
  res <- (match out with
          | inr (cnt, e) => sendMmsg_error cnt e r
          | inl (cnt, total) =>
              let r' := set_bytes total r in
              if truth last then
                fill_batch p msg_buf ;;
                e <- sendmmsg sockfd hdrs addr last ;;
                if r_ret e <? 0 then sendMmsg_error cnt e r' else ret (count p, r')
              else ret (count p, r')
          end) ;;
  free msg_iov ;;
  free mmsg_hdr ;;
  free msg_buf ;;
  ret res.

Definition time_function (sockfd : Z) (p : flood_params)
  (func : Z -> flood_params -> time_bench_record -> M (Z * time_bench_record)) : M unit :=
  rec <- time_bench_start zero_record ;;
  out <- func sockfd p rec ;;
  let '(cnt_send, rec) := out in
  rec <- time_bench_stop rec ;;
  if cnt_send <? 0 then
    eprintf "ERROR: failed to send packets\n" [] ;;
    ask (CClose sockfd) ;;
    exit EXIT_FAIL_SEND
  else
    rec <- time_bench_calc_stats (set_packets cnt_send rec) ;;
    time_bench_print_stats rec (c p).

(** ** Options and [main] *)
Definition set_c (v : params_common) (p : flood_params) : flood_params :=
  FloodParams v (lite p) (batch p) (count p) (msg_sz p) (pmtu p) (pktgen_hdr p) (dest_addr p).
Definition set_lite (v : Z) (p : flood_params) : flood_params :=
  FloodParams (c p) v (batch p) (count p) (msg_sz p) (pmtu p) (pktgen_hdr p) (dest_addr p).
Definition set_batch (v : Z) (p : flood_params) : flood_params :=
  FloodParams (c p) (lite p) v (count p) (msg_sz p) (pmtu p) (pktgen_hdr p) (dest_addr p).
Definition set_count (v : Z) (p : flood_params) : flood_params :=
  FloodParams (c p) (lite p) (batch p) v (msg_sz p) (pmtu p) (pktgen_hdr p) (dest_addr p).
Definition set_msg_sz (v : Z) (p : flood_params) : flood_params :=
  FloodParams (c p) (lite p) (batch p) (count p) v (pmtu p) (pktgen_hdr p) (dest_addr p).
Definition set_pmtu (v : Z) (p : flood_params) : flood_params :=
  FloodParams (c p) (lite p) (batch p) (count p) (msg_sz p) v (pktgen_hdr p) (dest_addr p).
Definition set_pktgen_hdr (v : Z) (p : flood_params) : flood_params :=
  FloodParams (c p) (lite p) (batch p) (count p) (msg_sz p) (pmtu p) v (dest_addr p).
Definition set_dest_addr (v : list Z) (p : flood_params) : flood_params :=
  FloodParams (c p) (lite p) (batch p) (count p) (msg_sz p) (pmtu p) (pktgen_hdr p) v.

Definition doc : string := " This tool is a UDP flood that measures the outgoing packet rate.\n Default cycles through tests with different send system calls.\n What function-call to invoke can also be specified as a command\n line option (see below).\n".

Definition usage (argv0 : string) : M Z :=
  printf "\nDOCUMENTATION:\n%s\n" [AStr doc] ;;
  printf " Default transmit %d packets per test, adjust via --count\n" [AInt DEFAULT_COUNT] ;;
  printf "\n" [] ;;
  printf " Usage: %s (options-see-below) IPADDR\n" [AStr argv0] ;;
  printf " Listing options:\n" [] ;;
  forM long_options (fun o =>
    printf " --%-12s" [AStr (opt_name o)] ;;
    printf " short-option: -%c" [AInt (opt_val o)] ;;
    printf "\n" []) ;;
  printf "\n Multiple tests can be selected:\n" [] ;;
  printf "     default: all tests\n" [] ;;
  printf "     -u -U -t -T -S: run any combination of sendmsg/sendmmsg/sendto/write/send\n" [] ;;
  printf "\n" [] ;;
  printf "Option --pmtu <N>  for Path MTU discover socket option IP_MTU_DISCOVER\n This affects the DF(Don't-Fragment) bit setting.\n Following values are selectable:\n" [] ;;
  forM (seqZ 0 IP_PMTUDISC_MAX) (fun i =>
    name <- pmtu_arg i ;;
    printf "  %d = %s\n" [AInt i; name]) ;;
  printf " Documentation see under IP_MTU_DISCOVER in 'man 7 ip'\n" [] ;;
  printf "\n" [] ;;
  ret EXIT_FAIL_OPTION.

(** The local variables of [main] that the options set. *)
Record main_opts := MainOpts {
  o_p : flood_params;
  o_addr_family : Z;
  o_dest_port : Z;
  o_run_flag : Z
}.

Definition upd_p (f : flood_params -> flood_params) (o : main_opts) : main_opts :=
  MainOpts (f (o_p o)) (o_addr_family o) (o_dest_port o) (o_run_flag o).
Definition upd_family (v : Z) (o : main_opts) : main_opts :=
  MainOpts (o_p o) v (o_dest_port o) (o_run_flag o).
Definition upd_port (v : Z) (o : main_opts) : main_opts :=
  MainOpts (o_p o) (o_addr_family o) v (o_run_flag o).
Definition upd_run_flag (v : Z) (o : main_opts) : main_opts :=
  MainOpts (o_p o) (o_addr_family o) (o_dest_port o) (Z.lor (o_run_flag o) v).

Definition main_option (argv0 : string) (o : main_opts) (e : optev) : M (main_opts + Z) :=
  let c := o_c e in
  if c =? ch "c" then v <- atoi_optarg e ;; ret (inl (upd_p (set_count v) o))
  else if c =? ch "p" then v <- atoi_optarg e ;; ret (inl (upd_port (u16 v) o))
  else if c =? ch "m" then v <- atoi_optarg e ;; ret (inl (upd_p (set_msg_sz v) o))
  else if c =? ch "b" then v <- atoi_optarg e ;; ret (inl (upd_p (set_batch v) o))
  else if c =? ch "P" then ret (inl (upd_p (set_pktgen_hdr 1) o))
  else if c =? ch "4" then ret (inl (upd_family AF_INET o))
  else if c =? ch "6" then ret (inl (upd_family AF_INET6 o))
  else if c =? ch "d" then v <- atoi_optarg e ;; ret (inl (upd_p (set_pmtu v) o))
  else if c =? ch "L" then ret (inl (upd_p (set_lite 1) o))
  else if c =? ch "v" then put_verbose (atoi_or_1 e) ;; ret (inl o)
  else if c =? ch "u" then ret (inl (upd_run_flag RUN_SENDMSG o))
  else if c =? ch "U" then ret (inl (upd_run_flag RUN_SENDMMSG o))
  else if c =? ch "t" then ret (inl (upd_run_flag RUN_SENDTO o))
  else if c =? ch "T" then ret (inl (upd_run_flag RUN_WRITE o))
  else if c =? ch "S" then ret (inl (upd_run_flag RUN_SEND o))
  else if (c =? ch "h") || (c =? ch "?") then u <- usage argv0 ;; ret (inr u)
  else ret (inl o).

Definition run_test (run_flag flag : Z) (name : string) (b sockfd : Z) (p : flood_params)
  (func : Z -> flood_params -> time_bench_record -> M (Z * time_bench_record)) : M unit :=
  when (truth (Z.land run_flag flag)) (print_header name b ;; time_function sockfd p func).

(** [main], from the answers of [getopt_long] and the first non-option
    argument. *)
Definition main (argv0 : string) (evs : list optev) (dest_ip : option string) : M Z :=
  o <- getopt_loop (main_option argv0) (MainOpts init_params AF_INET 6666 0) evs ;;
  match o with
  | inr u => ret u
  | inl o =>
    match dest_ip with
    | None =>
        eprintf "Expected dest IP-address (IPv6 or IPv4) argument after options\n" [] ;;
        usage argv0
    | Some dest_ip =>
        verbose <- get_verbose ;;
        when (0 <? verbose)
          (printf "Destination IP:%s port:%d\n" [AStr dest_ip; AInt (o_dest_port o)]) ;;
        let run_flag := if o_run_flag o =? 0 then RUN_ALL else o_run_flag o in
        let p := o_p o in
        sockfd <- Socket (o_addr_family o) SOCK_DGRAM
                    (if truth (lite p) then IPPROTO_UDPLITE else IPPROTO_UDP) ;;
        when (negb (pmtu p =? -1))
          (when (0 <? verbose)
             (name <- pmtu_arg (pmtu p) ;;
              printf "setsockopt IP_MTU_DISCOVER: %s(%d)\n" [name; AInt (pmtu p)]) ;;
           ask (CSetsockopt sockfd SOL_IP IP_MTU_DISCOVER [pmtu p]) ;;
           ret tt) ;;
        addr <- setup_sockaddr (o_addr_family o) (dest_addr p) dest_ip (o_dest_port o) ;;
        addrlen <- sockaddr_len addr ;;
        Connect sockfd addr addrlen ;;
        let p := set_c (ParamsCommon 1) (set_dest_addr addr p) in
        when (negb (truth verbose))
          (printf "%-14s\t packets \tns/pkt\tpps\t\tcycles\tpayload\n" [AStr EmptyString]) ;;
        run_test run_flag RUN_SEND "send" 0 sockfd p flood_with_send ;;
        run_test run_flag RUN_SENDTO "sendto" 0 sockfd p flood_with_sendto ;;
        run_test run_flag RUN_SENDMSG "sendmsg" 0 sockfd p flood_with_sendmsg ;;
        run_test run_flag RUN_SENDMMSG "sendMmsg" (batch p) sockfd p flood_with_sendMmsg ;;
        run_test run_flag RUN_WRITE "write" 0 sockfd p flood_with_write ;;
        ask (CClose sockfd) ;;
        ret 0
    end
  end.
End UdpFlood.
