(* ===== verification/UdpFloodSpec.v ===== *)
(** * What the flood functions of udp_flood.c do

    The trace of a flood: the packets handed to the system, the time stamps
    they carry, the return values of the sends; and the specification of the
    five flood functions in terms of it. *)
From stdpp Require Import base list gmap strings.
From Stdlib Require Import ZArith Lia.
From S2P Require Import Prelude.
From S2P Require Import CLang.
From S2P Require Import Wp.
From S2P Require Import Libc.
From S2P Require Import Common.
From S2P Require Import CommonSocket.
From S2P Require Import Pktgen.
From S2P Require Import UdpFlood.

#[local] Open Scope Z_scope.
#[local] Open Scope c_scope.

(** ** The trace of a flood (the log holds the newest call first) *)
Definition sent_payload (e : call * reply) : option (list mbyte) :=
  match e.1 with
  | CWrite _ d => Some d
  | CSend _ d _ => Some d
  | CSendto _ d _ _ _ => Some d
  | CSendmsg _ d _ _ _ => Some d
  | _ => None
  end.

Definition sent_ret (e : call * reply) : option Z :=
  match sent_payload e with Some _ => Some (r_ret e.2) | None => None end.

Definition coarse_time (e : call * reply) : option timespec :=
  match e.1 with
  | CClockGettime clk => if clk =? CLOCK_REALTIME_COARSE then Some (r_ts e.2) else None
  | _ => None
  end.

Definition sent_packets (tr : list (call * reply)) : list (list mbyte) := rev (omap sent_payload tr).
Definition sent_rets (tr : list (call * reply)) : list Z := rev (omap sent_ret tr).
Definition coarse_times (tr : list (call * reply)) : list timespec := rev (omap coarse_time tr).

Arguments sent_packets : simpl never.
Arguments sent_rets : simpl never.
Arguments coarse_times : simpl never.

(** The header of the packet with sequence number [s] stamped at [t], and the
    [n] bytes of the packet filled with it. *)
Definition flood_hdr (s : Z) (t : timespec) : Pktgen.pktgen_hdr :=
  PktgenHdr (htonl PKTGEN_MAGIC) s (u32 (ts_sec t)) (u32 (Z.quot (ts_nsec t) 1000)).

Definition flood_packet (n : Z) (s : Z) (t : timespec) : list mbyte :=
  Some <$> pattern (hdr_bytes (flood_hdr s t)) (Z.to_nat n).

(** The packets of a flood that starts at sequence number [s0]. *)
Definition flood_packets (n s0 : Z) (ts : list timespec) : list (list mbyte) :=
  imap (fun i t => flood_packet n (u32 (s0 + Z.of_nat i)) t) ts.

Lemma flood_packets_snoc n s0 ts t :
  flood_packets n s0 (ts ++ [t]) =
  flood_packets n s0 ts ++ [flood_packet n (u32 (s0 + Z.of_nat (length ts))) t].
Proof. unfold flood_packets. rewrite imap_app. cbn. by rewrite Nat.add_0_r. Qed.

Section Spec.
Context {K : Kernel}.
#[local] Abbreviation W := (world statics).
Implicit Types (w : W) (p : flood_params).

Lemma w_set_mem_id w : w_set_mem (w_mem w) w = w.
Proof. by destruct w. Qed.

(** ** fill_buf *)
Lemma fill_loop_spec F hdr b off len l (Q : unit -> W -> Prop) X w :
  w_mem w !! b = Some l -> 0 <= off -> 0 <= len <= 2 ^ 31 - 16 ->
  (Z.to_nat off + Z.to_nat len <= length l)%nat ->
  Q tt (w_set_mem (<[b := put_bytes (Z.to_nat off)
          (Some <$> pattern (hdr_bytes hdr) (Z.to_nat len)) l]> (w_mem w)) w) ->
  wpg F (iter (Datatypes.S (Z.to_nat len)) (fill_buf_body hdr (Ptr b off) len) 0) Q X w.
Proof.
  intros Hb Ho Hlen Hl HQ.
  set (upto x := w_set_mem (<[b := put_bytes (Z.to_nat off)
        (Some <$> pattern (hdr_bytes hdr) (Z.to_nat x)) l]> (w_mem w)) w).
  apply (wp_iter (fun n x w' => exists k : nat, x = 16 * Z.of_nat k /\ x < len + 16 /\
     (n + k = Datatypes.S (Z.to_nat len))%nat /\ w' = upto (Z.min x len))).
  - exists 0%nat. split; [done|]. split; [lia|]. split; [lia|].
    unfold upto. rewrite Z.min_l by lia.
    replace (Some <$> pattern (hdr_bytes hdr) (Z.to_nat 0)) with (@nil mbyte) by done.
    rewrite put_bytes_nil, insert_id by done.
    by rewrite w_set_mem_id.
  - intros a' w' (k & ? & ? & ? & _). lia.
  - intros n x w' (k & -> & Hx & Hn & ->). unfold fill_buf_body.
    destruct (Z.ltb_spec (16 * Z.of_nat k) len) as [Hlt|Hge].
    2: { wp_step. rewrite Z.min_r by lia. exact HQ. }
    set (m := Z.min 16 (len - 16 * Z.of_nat k)).
    assert ((if u64 (len - 16 * Z.of_nat k) <? sizeof_pktgen_hdr
             then len - 16 * Z.of_nat k else sizeof_pktgen_hdr) = m) as ->.
    { unfold sizeof_pktgen_hdr. rewrite u64_id by lia.
      destruct (Z.ltb_spec (len - 16 * Z.of_nat k) 16); lia. }
    rewrite Z.min_l by lia.
    wp_step. unfold ptr_add. cbn [p_block p_off]. eapply store_spec.
    + cbn. apply lookup_insert_eq.
    + lia.
    + rewrite length_put_bytes by (rewrite length_fmap, length_pattern; lia).
      rewrite length_take, length_hdr_bytes. lia.
    + wp_step. exists (Datatypes.S k). split.
      { unfold sizeof_pktgen_hdr. rewrite i32_id; lia. }
      split; [unfold sizeof_pktgen_hdr; rewrite i32_id; lia|]. split; [lia|].
      unfold upto. cbn [w_mem w_set_mem]. rewrite insert_insert_eq.
      assert (put_bytes (Z.to_nat (off + 16 * Z.of_nat k)) (Some <$> take (Z.to_nat m) (hdr_bytes hdr))
        (put_bytes (Z.to_nat off) (Some <$> pattern (hdr_bytes hdr) (Z.to_nat (16 * Z.of_nat k))) l) =
        put_bytes (Z.to_nat off) (Some <$> pattern (hdr_bytes hdr)
          (Z.to_nat (Z.min (i32 (16 * Z.of_nat k + sizeof_pktgen_hdr)) len))) l) as ->; [|done].
      replace (Z.to_nat (off + 16 * Z.of_nat k)) with
        (Z.to_nat off + length (Some <$> pattern (hdr_bytes hdr) (Z.to_nat (16 * Z.of_nat k))))%nat
        by (rewrite length_fmap, length_pattern; lia).
      rewrite put_bytes_app
        by (rewrite !length_fmap, length_take, length_pattern, length_hdr_bytes; lia).
      rewrite <- fmap_app. do 2 f_equal.
      replace (Z.to_nat (16 * Z.of_nat k)) with (k * length (hdr_bytes hdr))%nat
        by (rewrite length_hdr_bytes; lia).
      rewrite pattern_extend by (rewrite length_hdr_bytes; lia). f_equal.
      unfold sizeof_pktgen_hdr. rewrite length_hdr_bytes, i32_id; lia.
Qed.

(** The effect of [fill_buf] with [--pktgen-header]: one reading of the coarse
    clock, the next sequence number, and the whole packet overwritten. *)
Lemma fill_buf_spec F p b off len l (Q : unit -> W -> Prop) X w :
  w_mem w !! b = Some l -> 0 <= off -> 0 <= len <= 2 ^ 31 - 16 ->
  (Z.to_nat off + Z.to_nat len <= length l)%nat ->
  (pktgen_hdr p = 0 -> Q tt w) ->
  (pktgen_hdr p <> 0 -> forall r k,
     Q tt (w_set_mem (<[b := put_bytes (Z.to_nat off)
             (flood_packet len (sequence (w_st w)) (r_ts r)) l]> (w_mem w))
           (w_set_st (Statics (u32 (sequence (w_st w) + 1)))
             (w_call (CClockGettime CLOCK_REALTIME_COARSE) r k w)))) ->
  wpg F (fill_buf p (Ptr b off) len) Q X w.
Proof.
  intros Hb Ho Hlen Hl H0 H1. unfold fill_buf, truth.
  destruct (Z.eqb_spec (pktgen_hdr p) 0) as [E|E]; cbn [negb]; [by wp_step; auto|].
  wp_step. wp_ask r k Hk. repeat wp_step.
  eapply fill_loop_spec; try done. cbn [w_mem w_set_st w_call w_st]. by apply H1.
Qed.

(** ** The flood loop

    [fills]: every packet is stamped and numbered; otherwise the packets are
    the zeroed buffer. *)
Definition packets_ok (fills : bool) p (s0 : Z) (tr : list (call * reply)) (s1 : Z) : Prop :=
  if fills then
    sent_packets tr = flood_packets (msg_sz p) s0 (coarse_times tr) /\
    s1 = u32 (s0 + Z.of_nat (length (coarse_times tr)))
  else
    Forall (fun d => d = replicate (Z.to_nat (msg_sz p)) (Some 0)) (sent_packets tr) /\ s1 = s0.

(** What the flood returns: the number of packets, with the record updated,
    when every send succeeded; else the value of the first that failed. *)
Definition flood_result p (r : time_bench_record) (rets : list Z) (out : Z * time_bench_record) : Prop :=
  (out = (Z.max 0 (count p), set_bytes (u64 (sumZ rets)) r) /\
   Z.of_nat (length rets) = Z.max 0 (count p) /\ Forall (Z.le 0) rets) \/
  (exists rets0 e, rets = rets0 ++ [e] /\ e < 0 /\ out = (e, r) /\
   Forall (Z.le 0) rets0 /\ Z.of_nat (length rets) <= count p).

Lemma sent_cons e tr :
  sent_packets (e :: tr) = sent_packets tr ++ option_list (sent_payload e) /\
  sent_rets (e :: tr) = sent_rets tr ++ option_list (sent_ret e) /\
  coarse_times (e :: tr) = coarse_times tr ++ option_list (coarse_time e).
Proof. unfold sent_packets, sent_rets, coarse_times. by rewrite !rev_omap_cons. Qed.

(** A packet was handed to the system by the call [c]. *)
Definition transmits (c : call) (d : list mbyte) : Prop :=
  forall r, sent_payload (c, r) = Some d /\ coarse_time (c, r) = None.

Lemma transmits_trace c d r tr :
  transmits c d ->
  sent_packets ((c, r) :: tr) = sent_packets tr ++ [d] /\
  sent_rets ((c, r) :: tr) = sent_rets tr ++ [r_ret r] /\
  coarse_times ((c, r) :: tr) = coarse_times tr.
Proof.
  intros H. destruct (sent_cons (c, r) tr) as (-> & -> & ->). unfold sent_ret.
  destruct (H r) as [-> ->]. cbn. by rewrite app_nil_r.
Qed.

(** The state between two rounds of the loop started in [w0] with the packet
    buffer [b]. *)
Definition flood_inv (fills : bool) p w0 b (cnt total : Z) w : Prop :=
  exists tr l,
    w_log w = tr ++ w_log w0 /\ w_next w = w_next w0 /\ w_verbose w = w_verbose w0 /\
    w_mem w = <[b := l]> (w_mem w0) /\ length l = Z.to_nat (msg_sz p) /\
    (fills = false -> l = replicate (Z.to_nat (msg_sz p)) (Some 0)) /\
    Z.of_nat (length (sent_rets tr)) = cnt /\ Forall (Z.le 0) (sent_rets tr) /\
    total = u64 (sumZ (sent_rets tr)) /\
    packets_ok fills p (sequence (w_st w0)) tr (sequence (w_st w)).

(** The trace of one more round: the clock reading (if any) and the send. *)
Lemma packets_ok_round fills p s0 tr s1 c r t l :
  packets_ok fills p s0 tr s1 ->
  transmits c (if fills then flood_packet (msg_sz p) s1 (r_ts t) else l) ->
  (fills = false -> l = replicate (Z.to_nat (msg_sz p)) (Some 0)) ->
  let tr' := if fills then (CClockGettime CLOCK_REALTIME_COARSE, t) :: tr else tr in
  packets_ok fills p s0 ((c, r) :: tr') (if fills then u32 (s1 + 1) else s1) /\
  sent_rets ((c, r) :: tr') = sent_rets tr ++ [r_ret r].
Proof.
  intros Hok Hc Hl. destruct fills; cbn zeta.
  - destruct Hok as [Hp ->].
    destruct (transmits_trace _ _ r ((CClockGettime CLOCK_REALTIME_COARSE, t) :: tr) Hc) as (Hp' & Hr' & Hc').
    destruct (sent_cons (CClockGettime CLOCK_REALTIME_COARSE, t) tr) as (Hp2 & Hr2 & Hc2).
    cbn in Hp2, Hr2, Hc2. rewrite app_nil_r in Hp2, Hr2.
    unfold packets_ok. rewrite Hr', Hr2, Hp', Hp2, Hc', Hc2, Hp, flood_packets_snoc, length_app.
    cbn [length]. repeat split. rewrite u32_add_l. f_equal. lia.
  - destruct Hok as [Hp ->].
    destruct (transmits_trace _ _ r tr Hc) as (Hp' & Hr' & Hc').
    unfold packets_ok. rewrite Hp', Hr'. repeat split.
    apply Forall_app. split; [done|]. constructor; [|constructor]. by apply Hl.
Qed.

Lemma flood_result_ok p r rets cnt total :
  (cnt < 0 -> False) -> Z.of_nat (length rets) = cnt -> cnt <= Z.max 0 (count p) ->
  count p <= cnt -> Forall (Z.le 0) rets -> total = u64 (sumZ rets) ->
  flood_result p r rets (cnt, set_bytes total r).
Proof.
  intros H1 H2 H3 H4 H5 ->. left. assert (cnt = Z.max 0 (count p)) as -> by lia. done.
Qed.

Section Loop.
Variables (F : Prop) (fills : bool) (p : flood_params) (b : Z) (mk : list mbyte -> call).
Variables (fill : M statics unit) (xmit : M statics reply).
Hypothesis Hmk : forall l, transmits (mk l) l.
Hypothesis Hfill : forall w l (Q : unit -> W -> Prop) X,
  w_mem w !! b = Some l -> length l = Z.to_nat (msg_sz p) ->
  (fills = false -> Q tt w) ->
  (fills = true -> forall r k,
     Q tt (w_set_mem (<[b := flood_packet (msg_sz p) (sequence (w_st w)) (r_ts r)]> (w_mem w))
           (w_set_st (Statics (u32 (sequence (w_st w) + 1)))
             (w_call (CClockGettime CLOCK_REALTIME_COARSE) r k w)))) ->
  wpg F fill Q X w.
Hypothesis Hxmit : forall w l (Q : reply -> W -> Prop) X,
  w_mem w !! b = Some l -> length l = Z.to_nat (msg_sz p) ->
  (forall r k, Q r (w_call (mk l) r k w)) -> wpg F xmit Q X w.

(** One round: prepare the packet and send it. *)
Lemma flood_round w0 cnt total w (Q : reply -> W -> Prop) X :
  flood_inv fills p w0 b cnt total w ->
  (forall r w', 
     (exists tr, w_log w' = tr ++ w_log w0 /\ w_next w' = w_next w0 /\ w_verbose w' = w_verbose w0 /\
       (exists l, w_mem w' = <[b := l]> (w_mem w0) /\ length l = Z.to_nat (msg_sz p) /\
         (fills = false -> l = replicate (Z.to_nat (msg_sz p)) (Some 0))) /\
       (exists rets, sent_rets tr = rets ++ [r_ret r] /\ Z.of_nat (length rets) = cnt /\
         Forall (Z.le 0) rets /\ total = u64 (sumZ rets)) /\
       packets_ok fills p (sequence (w_st w0)) tr (sequence (w_st w'))) ->
     Q r w') ->
  wpg F (fill ;; xmit)%c Q X w.
Proof.
  intros (tr & l & Hlog & Hnx & Hv & Hm & Hl & Hz & Hc & Hpos & Ht & Hok) HQ.
  wp_step. eapply Hfill; [rewrite Hm; apply lookup_insert_eq|done| |].
  - intros Hf. eapply Hxmit; [rewrite Hm; apply lookup_insert_eq|done|].
    intros r k. apply HQ. exists ((mk l, r) :: tr).
    destruct (packets_ok_round fills p _ tr _ (mk l) r r l Hok) as [H1 H2].
    { rewrite Hf. apply Hmk. }
    { done. }
    rewrite Hf in H1, H2. cbn [w_log w_call w_next w_verbose w_mem w_st]. rewrite Hlog.
    split_and!; [done|done|done| | |by rewrite Hf].
    + exists l. by rewrite Hm.
    + eexists. split; [exact H2|done].
  - intros Hf r1 k1. eapply Hxmit.
    { cbn. apply lookup_insert_eq. }
    { unfold flood_packet. by rewrite length_fmap, length_pattern. }
    intros r k. apply HQ. set (d := flood_packet _ _ _).
    exists ((mk d, r) :: (CClockGettime CLOCK_REALTIME_COARSE, r1) :: tr).
    destruct (packets_ok_round fills p _ tr _ (mk d) r r1 l Hok) as [H1 H2].
    { rewrite Hf. apply Hmk. }
    { done. }
    rewrite Hf in H1, H2. cbn [w_log w_call w_next w_verbose w_mem w_st w_set_mem w_set_st].
    rewrite Hlog. split_and!; [done|done|done| | |by rewrite Hf].
    + exists d. rewrite Hm, insert_insert_eq. split_and!; [done| |by rewrite Hf].
      unfold d, flood_packet. by rewrite length_fmap, length_pattern.
    + eexists. split; [exact H2|done].
Qed.

(** What holds when the loop ends: [w_mem] still has the buffer. *)
Lemma flood_loop_spec err r w0 l0 X :
  w_mem w0 !! b = Some l0 -> length l0 = Z.to_nat (msg_sz p) ->
  l0 = replicate (Z.to_nat (msg_sz p)) (Some 0) -> is_u32 (sequence (w_st w0)) ->
  wpg F (flood_loop p fill xmit err r)
    (fun out w => exists tr l, w_log w = tr ++ w_log w0 /\ w_next w = w_next w0 /\
       w_verbose w = w_verbose w0 /\ w_mem w = <[b := l]> (w_mem w0) /\
       packets_ok fills p (sequence (w_st w0)) tr (sequence (w_st w)) /\
       flood_result p r (sent_rets tr) out) X w0.
Proof using Hmk Hfill Hxmit.
  intros Hb Hl Hz Hs. unfold flood_loop.
  apply (wp_iter (fun n '(cnt, total) w => flood_inv fills p w0 b cnt total w /\
     cnt <= Z.max 0 (count p) /\ Z.max 0 (count p) - cnt < Z.of_nat n)).
  - split; [|lia]. exists [], l0. split_and!; try done.
    + by rewrite insert_id.
    + destruct fills; (split; [done|]); cbn; [rewrite Z.add_0_r, u32_id; done|done].
  - intros [cnt total] w (_ & ? & ?). lia.
  - intros n [cnt total] w (Hinv & Hle & Hn). destruct (Z.ltb_spec cnt (count p)) as [Hlt|Hge].
    + apply (wp_assoc fill (fun _ => xmit)), wp_bind. eapply flood_round; [exact Hinv|].
      intros res w' (tr & Hlog & Hnx & Hv & (l & Hm & Hl' & Hz') & (rets & Hr & Hc & Hpos & Ht) & Hok).
      destruct (Z.ltb_spec (r_ret res) 0) as [Hneg|Hnn].
      * repeat wp_step. exists tr, l. split_and!; try done. right. exists rets, (r_ret res).
        split_and!; try done. rewrite Hr, length_app. cbn. lia.
      * wp_step. split; [|lia]. exists tr, l. split_and!; try done.
        -- rewrite Hr, length_app. cbn. lia.
        -- rewrite Hr. apply Forall_app. split; [done|]. by constructor.
        -- rewrite Hr, sumZ_app, Ht, u64_add_l. f_equal. cbn. lia.
    + wp_step. destruct Hinv as (tr & l & Hlog & Hnx & Hv & Hm & Hl' & Hz' & Hc & Hpos & Ht & Hok).
      exists tr, l. split_and!; try done. apply flood_result_ok; try done; lia.
Qed.
End Loop.

(** ** The four single-packet flood functions *)
Inductive variant := VSendto | VSend | VWrite | VSendmsg.

Definition flood_with (v : variant) :
  Z -> flood_params -> time_bench_record -> M statics (Z * time_bench_record) :=
  match v with
  | VSendto => flood_with_sendto
  | VSend => flood_with_send
  | VWrite => flood_with_write
  | VSendmsg => flood_with_sendmsg
  end.

(** Only [flood_with_send] never stamps its packets. *)
Definition fills_of (v : variant) p : bool :=
  match v with VSend => false | _ => truth (pktgen_hdr p) end.

Definition uses_addr (v : variant) : bool :=
  match v with VSendto | VSendmsg => true | _ => false end.

Definition flood_post (fills : bool) p r w (out : Z * time_bench_record) w' : Prop :=
  w_mem w' = w_mem w /\ w_verbose w' = w_verbose w /\ w_next w <= w_next w' /\
  exists tr, w_log w' = tr ++ w_log w /\
    packets_ok fills p (sequence (w_st w)) tr (sequence (w_st w')) /\
    flood_result p r (sent_rets tr) out.

(** Events that neither send nor read the coarse clock. *)
Definition quiet (e : call * reply) : Prop := sent_payload e = None /\ coarse_time e = None.

Lemma quiet_trace evs tr :
  Forall quiet evs ->
  sent_packets (tr ++ evs) = sent_packets tr /\ sent_rets (tr ++ evs) = sent_rets tr /\
  coarse_times (tr ++ evs) = coarse_times tr.
Proof.
  intros H. unfold sent_packets, sent_rets, coarse_times. rewrite !omap_app, !rev_app_distr.
  assert (omap sent_payload evs = [] /\ omap sent_ret evs = [] /\ omap coarse_time evs = []) as (-> & -> & ->).
  { induction H as [|e evs [He1 He2] _ (IH1 & IH2 & IH3)]; [done|].
    cbn. unfold sent_ret at 1. by rewrite He1, He2, IH1, IH2, IH3. }
  done.
Qed.

(** From the end of the loop to the end of the function. *)
Lemma flood_post_intro fills p r w0 evs out w' tr :
  Forall quiet evs -> w_log w' = tr ++ evs ++ w_log w0 ->
  w_mem w' = w_mem w0 -> w_verbose w' = w_verbose w0 -> w_next w0 <= w_next w' ->
  packets_ok fills p (sequence (w_st w0)) tr (sequence (w_st w')) ->
  flood_result p r (sent_rets tr) out -> flood_post fills p r w0 out w'.
Proof.
  intros Hq Hlog Hm Hv Hn Hok Hr. split_and!; [done..|]. exists (tr ++ evs).
  destruct (quiet_trace evs tr Hq) as (H1 & H2 & H3). split_and!.
  - by rewrite Hlog, app_assoc.
  - unfold packets_ok in *. destruct fills; by rewrite H1, ?H3.
  - by rewrite H2.
Qed.

Lemma quiet_malloc n r : quiet (CMalloc n, r).
Proof. done. Qed.

Lemma delete_fresh {A} (m : gmap Z A) b x y :
  m !! b = None -> delete b (<[b := x]> (<[b := y]> m)) = m.
Proof. intros H. rewrite !delete_insert_eq. by apply delete_id. Qed.

Section Variants.
Variables (p : flood_params) (fd : Z) (r : time_bench_record) (w : W).
Hypothesis Hsz : 0 <= msg_sz p <= 2 ^ 31 - 16.
Hypothesis Hseq : is_u32 (sequence (w_st w)).
Hypothesis Hwf : mem_wf w.

(** [fill_buf] and no filling, as the loop lemmas want them. *)
Lemma fill_buf_hyp F b w1 l (Q : unit -> W -> Prop) X :
  w_mem w1 !! b = Some l -> length l = Z.to_nat (msg_sz p) ->
  (truth (pktgen_hdr p) = false -> Q tt w1) ->
  (truth (pktgen_hdr p) = true -> forall r k,
     Q tt (w_set_mem (<[b := flood_packet (msg_sz p) (sequence (w_st w1)) (r_ts r)]> (w_mem w1))
           (w_set_st (Statics (u32 (sequence (w_st w1) + 1)))
             (w_call (CClockGettime CLOCK_REALTIME_COARSE) r k w1)))) ->
  wpg F (fill_buf p (Ptr b 0) (msg_sz p)) Q X w1.
Proof using Hsz.
  intros Hb Hl H0 H1. eapply fill_buf_spec; [done|lia|done|rewrite Hl; cbn; lia| |].
  - intros E. by apply H0, truth_false.
  - intros E r0 k. rewrite put_bytes_all.
    + by apply H1, truth_true.
    + unfold flood_packet. by rewrite length_fmap, length_pattern.
Qed.

Lemma peek_xmit F b (mk : list mbyte -> call) w1 l (Q : reply -> W -> Prop) X :
  w_mem w1 !! b = Some l -> length l = Z.to_nat (msg_sz p) ->
  (forall r k, Q r (w_call (mk l) r k w1)) ->
  wpg F (data <- peek (Ptr b 0) (u64 (msg_sz p)) ;; ask (mk data))%c Q X w1.
Proof using Hsz.
  intros Hb Hl HQ. wp_step. rewrite u64_id by lia.
  eapply peek_spec; [done|lia|rewrite Hl; cbn; lia|].
  unfold get_bytes. change (Z.to_nat 0) with 0%nat. rewrite drop_0, take_ge by lia. wp_ask r0 k E. apply HQ.
Qed.

(** A function that allocates the packet buffer, floods and frees. *)
Lemma flood_simple F (fills : bool) fill (mk : list mbyte -> call) err X :
  (forall l, transmits (mk l) l) ->
  (forall b w1 l (Q : unit -> W -> Prop) X,
    w_mem w1 !! b = Some l -> length l = Z.to_nat (msg_sz p) ->
    (fills = false -> Q tt w1) ->
    (fills = true -> forall r k,
       Q tt (w_set_mem (<[b := flood_packet (msg_sz p) (sequence (w_st w1)) (r_ts r)]> (w_mem w1))
             (w_set_st (Statics (u32 (sequence (w_st w1) + 1)))
               (w_call (CClockGettime CLOCK_REALTIME_COARSE) r k w1)))) ->
    wpg F (fill (Ptr b 0)) Q X w1) ->
  (forall w', extends w w' -> X EXIT_FAIL_MEM w') ->
  wpg F (msg_buf <- malloc_payload_buffer (msg_sz p) ;;
         res <- flood_loop p (fill msg_buf)
                  (data <- peek msg_buf (u64 (msg_sz p)) ;; ask (mk data)) err r ;;
         free msg_buf ;; ret res)%c (flood_post fills p r w) X w.
Proof using Hsz Hseq Hwf.
  intros Hmk Hfill HX. destruct Hwf as [Hpos Hfresh]. wp_step.
  apply malloc_payload_buffer_spec; [done| |done].
  intros w1 Hal. pose proof (allocated_lookup _ _ _ Hal) as Hb.
  destruct Hal as (Hst & Hv & Hnx & Hm & ra & Hlog). rewrite u64_id in Hm, Hlog, Hb by lia.
  wp_step. eapply wp_post.
  - eapply flood_loop_spec with (fills := fills) (mk := mk); try done.
    + intros. by eapply Hfill.
    + intros. by eapply peek_xmit.
    + by rewrite length_replicate.
    + by rewrite Hst.
  - intros out w2 (tr & l & Hlog2 & Hnx2 & Hv2 & Hm2 & Hok & Hres).
    wp_step. eapply wp_free; [rewrite Hm2; apply lookup_insert_eq|lia|]. wp_step.
    eapply (flood_post_intro fills p r w [(CMalloc (msg_sz p), ra)]); try done.
    + constructor; [apply quiet_malloc|constructor].
    + cbn. rewrite Hlog2, Hlog. done.
    + cbn. rewrite Hm2, Hm. apply delete_fresh, Hfresh. lia.
    + cbn. by rewrite Hv2.
    + cbn. lia.
    + cbn. by rewrite <- Hst.
Qed.

(** The gathering send of the single element covering the buffer. *)
Lemma gather_xmit F b (mk : list mbyte -> call) w1 l (Q : reply -> W -> Prop) X :
  w_mem w1 !! b = Some l -> length l = Z.to_nat (msg_sz p) ->
  (forall r k, Q r (w_call (mk l) r k w1)) ->
  wpg F (data <- gather [Iovec (Ptr b 0) (msg_sz p)] ;; ask (mk data))%c Q X w1.
Proof using Hsz.
  intros Hb Hl HQ. unfold gather. cbn [forM iov_base iov_len]. do 3 wp_step.
  eapply peek_spec; [done|lia|rewrite Hl; cbn; lia|].
  unfold get_bytes. change (Z.to_nat 0) with 0%nat. rewrite drop_0, take_ge by lia.
  repeat wp_step. cbn [concat]. rewrite app_nil_r. wp_ask r0 k E. apply HQ.
Qed.

Lemma flood_sendmsg F X :
  (forall w', ss_family (dest_addr p) <> AF_INET -> ss_family (dest_addr p) <> AF_INET6 ->
     X EXIT_FAIL_SOCK w') ->
  (forall w', X EXIT_FAIL_MEM w') ->
  wpg F (flood_with_sendmsg fd p r) (flood_post (truth (pktgen_hdr p)) p r w) X w.
Proof using Hsz Hseq Hwf.
  intros HXs HX. destruct Hwf as [Hpos Hfresh]. unfold flood_with_sendmsg. wp_step.
  lazymatch goal with |- wpg _ _ ?Q _ _ => enough (H : forall addrlen, Q addrlen w) end.
  { apply sockaddr_len_spec; intros; [apply H|apply H|by apply HXs]. }
  intros addrlen. wp_step. apply malloc_payload_buffer_spec; [done| |done].
  intros w1 Hal. pose proof (allocated_wf _ _ _ Hwf Hal) as [Hpos1 Hfresh1].
  destruct Hal as (Hst & Hv & Hnx & Hm & ra & Hlog). rewrite u64_id in Hm, Hlog by lia.
  wp_step. apply malloc_zeroed_spec; [done|intros; eexists; reflexivity| |done].
  intros w2 (Hst2 & Hv2 & Hnx2 & Hm2 & ra2 & Hlog2).
  wp_step. apply malloc_zeroed_spec; [lia|intros; eexists; reflexivity| |done].
  intros w3 (Hst3 & Hv3 & Hnx3 & Hm3 & ra3 & Hlog3).
  unfold check_elem, iov_array_elems. repeat wp_step.
  eapply peek_spec; [rewrite Hm3; apply lookup_insert_eq|done|reflexivity|].
  repeat wp_step. cbn [seqZ]. change (seqZ 1 (1 - 1)) with (@nil Z). cbn [forM]. repeat wp_step.
  rewrite Z.div_1_r, u32_id by lia.
  eapply wp_post.
  - eapply flood_loop_spec with (fills := truth (pktgen_hdr p)) (b := w_next w)
      (mk := fun data => CSendmsg fd data (take (Z.to_nat addrlen) (dest_addr p)) [] 0); try done.
    + intros. by eapply fill_buf_hyp.
    + intros. by eapply gather_xmit.
    + rewrite Hm3, Hm2, Hm, !lookup_insert_ne, lookup_insert_eq by lia. done.
    + by rewrite length_replicate.
    + by rewrite Hst3, Hst2, Hst.
  - intros out w4 (tr & l & Hlog4 & Hnx4 & Hv4 & Hm4 & Hok & Hres).
    rewrite Hm3, Hm2, Hm in Hm4.
    wp_step. eapply wp_free; [rewrite Hm4, lookup_insert_ne, lookup_insert_eq by lia; done|lia|].
    wp_step. eapply wp_free; [cbn; rewrite Hm4, lookup_delete_ne, !lookup_insert_ne, lookup_insert_eq by lia; done|lia|].
    wp_step. eapply wp_free; [cbn; rewrite Hm4, !lookup_delete_ne, lookup_insert_eq by lia; done|lia|].
    wp_step.
    eapply (flood_post_intro _ p r w
      [(CMalloc (u32 (sizeof_iovec * 1)), ra3); (CMalloc (u32 sizeof_msghdr), ra2); (CMalloc (msg_sz p), ra)]);
      try done.
    + repeat constructor.
    + cbn. by rewrite Hlog4, Hlog3, Hlog2, Hlog.
    + cbn. rewrite Hm4. blocks_freed (w_next w) Hfresh.
    + cbn. congruence.
    + cbn. lia.
    + cbn. by rewrite <- Hst, <- Hst2, <- Hst3.
Qed.
End Variants.

(** The exit codes of the single-packet flood functions. *)
Definition flood_exit (v : variant) p (code : Z) : Prop :=
  code = EXIT_FAIL_MEM \/
  (uses_addr v = true /\ ss_family (dest_addr p) <> AF_INET /\ ss_family (dest_addr p) <> AF_INET6 /\
   code = EXIT_FAIL_SOCK).

Lemma flood_correct F v p fd r w :
  0 <= msg_sz p <= 2 ^ 31 - 16 -> is_u32 (sequence (w_st w)) -> mem_wf w ->
  wpg F (flood_with v fd p r) (flood_post (fills_of v p) p r w) (fun c _ => flood_exit v p c) w.
Proof.
  intros Hsz Hseq Hwf. unfold flood_exit. destruct v; cbn [flood_with fills_of uses_addr].
  - unfold flood_with_sendto. wp_step.
    apply sockaddr_len_spec; [intros _|intros _|by intros; right].
    all: apply flood_simple with (fill := fun b => fill_buf p b (msg_sz p))
      (mk := fun d => CSendto fd d 0 (dest_addr p) _); [done..|by intros; eapply fill_buf_hyp|by left].
  - apply flood_simple with (fill := fun _ => ret tt) (mk := fun d => CSend fd d 0);
      [done..| |by left].
    intros. wp_step. auto.
  - apply flood_simple with (fill := fun b => fill_buf p b (msg_sz p)) (mk := fun d => CWrite fd d);
      [done..|by intros; eapply fill_buf_hyp|by left].
  - apply flood_sendmsg; [done..|by intros; right|by left].
Qed.
End Spec.
