(* ===== verification/UdpFloodMmsg.v ===== *)
(** * What [flood_with_sendMmsg] of udp_flood.c does

    Batches of packets sent with one system call each; the last batch may be
    shorter. *)
From stdpp Require Import base list gmap strings.
From Stdlib Require Import ZArith Lia.
From S2P Require Import Prelude.
From S2P Require Import CLang.
From S2P Require Import Wp.
From S2P Require Import Libc.
From S2P Require Import Common.
From S2P Require Import CommonSocket.
From S2P Require Import Pktgen.
From S2P Require Import UdpFlood.
From S2P Require Import UdpFloodSpec.

#[local] Open Scope Z_scope.
#[local] Open Scope c_scope.

(** ** The trace: the batches handed to the system *)
Definition sent_batch (e : call * reply) : option (list (list mbyte)) :=
  match e.1 with CSendmmsg _ ms _ _ => Some ms | _ => None end.

Definition batch_ret (e : call * reply) : option Z :=
  match sent_batch e with Some _ => Some (r_ret e.2) | None => None end.

Definition sent_batches (tr : list (call * reply)) : list (list (list mbyte)) :=
  rev (omap sent_batch tr).
Definition batch_rets (tr : list (call * reply)) : list Z := rev (omap batch_ret tr).

Arguments sent_batches : simpl never.
Arguments batch_rets : simpl never.

(** The readings of the coarse clock that fill one batch. *)
Definition clock_events (rs : list reply) : list (call * reply) :=
  rev ((fun r => (CClockGettime CLOCK_REALTIME_COARSE, r)) <$> rs).

Lemma clock_events_snoc rs r :
  clock_events (rs ++ [r]) = (CClockGettime CLOCK_REALTIME_COARSE, r) :: clock_events rs.
Proof. unfold clock_events. by rewrite fmap_app, rev_app_distr. Qed.

Lemma clock_events_trace rs tr :
  sent_batches (clock_events rs ++ tr) = sent_batches tr /\
  batch_rets (clock_events rs ++ tr) = batch_rets tr /\
  coarse_times (clock_events rs ++ tr) = coarse_times tr ++ (r_ts <$> rs).
Proof.
  induction rs as [|r rs (IH1 & IH2 & IH3)] using rev_ind.
  - by rewrite app_nil_r.
  - rewrite clock_events_snoc. cbn [app]. unfold sent_batches, batch_rets, coarse_times in *.
    rewrite !rev_omap_cons, IH1, IH2, IH3, fmap_app, app_assoc. cbn. by rewrite !app_nil_r.
Qed.

Lemma send_trace fd ms a fl r tr :
  let e := (CSendmmsg fd ms a fl, r) in
  sent_batches (e :: tr) = sent_batches tr ++ [ms] /\
  batch_rets (e :: tr) = batch_rets tr ++ [r_ret r] /\
  coarse_times (e :: tr) = coarse_times tr.
Proof.
  cbn zeta. unfold sent_batches, batch_rets, coarse_times. rewrite !rev_omap_cons.
  cbn. by rewrite app_nil_r.
Qed.

(** ** Packets of equal size, one after the other *)
Lemma length_flood_packet n s t : length (flood_packet n s t) = Z.to_nat n.
Proof. unfold flood_packet. by rewrite length_fmap, length_pattern. Qed.

Lemma flood_packets_sizes n s ts : Forall (fun d => length d = Z.to_nat n) (flood_packets n s ts).
Proof.
  unfold flood_packets. apply Forall_lookup. intros i d Hi.
  rewrite list_lookup_imap in Hi. destruct (ts !! i); [|done]. injection Hi as <-.
  apply length_flood_packet.
Qed.

Lemma length_flood_packets n s ts : length (flood_packets n s ts) = length ts.
Proof. apply length_imap. Qed.

Lemma length_concat_sizes {A} k (ds : list (list A)) :
  Forall (fun d => length d = k) ds -> length (concat ds) = (length ds * k)%nat.
Proof. induction 1 as [|d ds Hd _ IH]; [done|]. cbn. rewrite length_app, Hd, IH. lia. Qed.

Lemma get_concat {A} k (ds : list (list A)) i d :
  Forall (fun d => length d = k) ds -> ds !! i = Some d -> get_bytes (i * k) k (concat ds) = d.
Proof.
  intros H. revert i. induction H as [|d' ds Hd Hds IH]; intros i Hi; [done|].
  destruct i as [|i]; cbn in Hi |- *; unfold get_bytes in *.
  - injection Hi as ->. rewrite drop_0, take_app_le, take_ge; [done|lia|lia].
  - rewrite drop_app_ge by lia. rewrite Hd. replace (k + i * k - k)%nat with (i * k)%nat by lia.
    by apply IH.
Qed.

Lemma get_zeros k m n (x : mbyte) :
  (k + m <= n)%nat -> get_bytes k m (replicate n x) = replicate m x.
Proof. intros H. unfold get_bytes. rewrite drop_replicate, take_replicate. f_equal. lia. Qed.

(** Continuing a flood at the next sequence number. *)
Lemma flood_packets_app n s ts ts' :
  flood_packets n s (ts ++ ts') =
  flood_packets n s ts ++ flood_packets n (u32 (s + Z.of_nat (length ts))) ts'.
Proof.
  unfold flood_packets. rewrite imap_app. f_equal. apply imap_ext. intros i t _. cbn.
  rewrite u32_add_l. do 2 f_equal. lia.
Qed.

(** The messages of a batch read from the buffer [l]: [k] of [sz] bytes. *)
Definition slices (sz : Z) (k : nat) (l : list mbyte) : list (list mbyte) :=
  (fun i => get_bytes (i * Z.to_nat sz) (Z.to_nat sz) l) <$> seq 0 k.

Lemma slices_concat sz k ds :
  Forall (fun d => length d = Z.to_nat sz) ds -> (k <= length ds)%nat ->
  slices sz k (concat ds) = take k ds.
Proof.
  intros Hds Hk. unfold slices. apply list_eq. intros i. rewrite list_lookup_fmap.
  destruct (decide (i < k)%nat) as [Hi|Hi].
  - rewrite lookup_seq_lt, lookup_take_lt by done. cbn.
    destruct (lookup_lt_is_Some_2 ds i) as [d Hd]; [lia|]. rewrite Hd. f_equal.
    by apply get_concat.
  - rewrite lookup_seq_ge by lia. symmetry. apply lookup_ge_None_2. rewrite length_take. lia.
Qed.

Lemma slices_zeros sz k n :
  (k * Z.to_nat sz <= n)%nat ->
  slices sz k (replicate n (Some 0)) = replicate k (replicate (Z.to_nat sz) (Some 0)).
Proof.
  intros H. unfold slices. apply list_eq. intros i. rewrite list_lookup_fmap.
  destruct (decide (i < k)%nat) as [Hi|Hi].
  - rewrite lookup_seq_lt, lookup_replicate_2 by done. cbn. by rewrite get_zeros by nia.
  - rewrite lookup_seq_ge by lia. symmetry. apply lookup_ge_None_2. rewrite length_replicate. lia.
Qed.

Section Spec.
Context {K : Kernel}.
#[local] Abbreviation W := (world statics).

Section Batch.
Variables (F : Prop) (p : flood_params) (b : Z).
Hypothesis Hsz : 0 <= msg_sz p <= 2 ^ 31 - 16.
Hypothesis Hbatch : 1 <= batch p < 2 ^ 26.
#[local] Abbreviation size := (Z.to_nat (batch p) * Z.to_nat (msg_sz p))%nat.

(** Stamping a whole batch. *)
Lemma fill_batch_spec w l (Q : unit -> W -> Prop) X :
  w_mem w !! b = Some l -> length l = size -> is_u32 (sequence (w_st w)) ->
  (truth (pktgen_hdr p) = false -> Q tt w) ->
  (truth (pktgen_hdr p) = true -> forall rs w',
     length rs = Z.to_nat (batch p) -> w_log w' = clock_events rs ++ w_log w ->
     w_next w' = w_next w -> w_verbose w' = w_verbose w ->
     sequence (w_st w') = u32 (sequence (w_st w) + batch p) ->
     w_mem w' = <[b := concat (flood_packets (msg_sz p) (sequence (w_st w)) (r_ts <$> rs))]> (w_mem w) ->
     Q tt w') ->
  wpg F (fill_batch p (Ptr b 0)) Q X w.
Proof using Hsz Hbatch.
  intros Hb Hl Hs H0 H1. unfold fill_batch. destruct (truth (pktgen_hdr p)) eqn:Ep; [|by wp_step; auto].
  wp_step. apply wp_forM with (I := fun done (_ : list unit) w' => exists rs,
    length rs = length done /\ w_log w' = clock_events rs ++ w_log w /\
    w_next w' = w_next w /\ w_verbose w' = w_verbose w /\
    sequence (w_st w') = u32 (sequence (w_st w) + Z.of_nat (length done)) /\
    w_mem w' = <[b := put_bytes 0
      (concat (flood_packets (msg_sz p) (sequence (w_st w)) (r_ts <$> rs))) l]> (w_mem w)).
  - exists []. split_and!; try done.
    + cbn. by rewrite Z.add_0_r, u32_id.
    + cbn. by rewrite put_bytes_nil, insert_id.
  - intros done x rest ys w' Hall (rs & Hrs & Hlog & Hnx & Hv & Hseq & Hm).
    assert (x = Z.of_nat (length done) /\ (length done < Z.to_nat (batch p))%nat) as [-> Hlt].
    { assert (Hx : seqZ 0 (batch p) !! length done = Some x) by (rewrite Hall, lookup_app_r, Nat.sub_diag; done).
      apply lookup_seqZ in Hx. lia. }
    set (old := flood_packets _ _ _) in Hm.
    assert (Hold : length (concat old) = (length done * Z.to_nat (msg_sz p))%nat).
    { subst old. erewrite length_concat_sizes by apply flood_packets_sizes.
      by rewrite length_flood_packets, length_fmap, Hrs. }
    unfold ptr_add. cbn [p_block p_off].
    eapply fill_buf_spec.
    + rewrite Hm. apply lookup_insert_eq.
    + nia.
    + done.
    + rewrite length_put_bytes by nia. nia.
    + intros E. apply truth_false in E. congruence.
    + intros _ r k. exists (rs ++ [r]).
      cbn [w_log w_set_mem w_set_st w_call w_next w_verbose w_st w_mem sequence].
      rewrite !length_app, clock_events_snoc, Hlog, Hrs. cbn [length app].
      split_and!; try done.
      * rewrite Hseq, u32_add_l. f_equal. lia.
      * rewrite Hm, insert_insert_eq. f_equal.
        replace (Z.to_nat (0 + Z.of_nat (length done) * msg_sz p)) with (0 + length (concat old))%nat
          by (rewrite Hold; nia).
        rewrite put_bytes_app by (rewrite length_flood_packet; nia). f_equal.
        rewrite fmap_app. cbn. rewrite flood_packets_snoc, concat_app. cbn.
        rewrite app_nil_r, length_fmap, Hrs. by rewrite Hseq.
  - intros ys w' (rs & Hrs & Hlog & Hnx & Hv & Hseq & Hm). wp_step.
    rewrite length_seqZ in *. eapply H1; try done.
    + rewrite Hseq. f_equal. lia.
    + rewrite Hm. f_equal. apply put_bytes_all.
      erewrite length_concat_sizes by apply flood_packets_sizes.
      by rewrite length_flood_packets, length_fmap, Hrs.
Qed.

(** One batch handed to the system: the first [vlen] messages. *)
Definition batch_hdrs (addrlen : Z) : list mmsghdr :=
  (fun pkt => Mmsghdr (Msghdr NULL addrlen [Iovec (Ptr b (pkt * msg_sz p)) (msg_sz p)] 1 NULL 0 0) 0)
    <$> seqZ 0 (batch p).

Lemma sendmmsg_spec fd addrlen addr vlen w l (Q : reply -> W -> Prop) X :
  w_mem w !! b = Some l -> length l = size -> 0 <= vlen <= batch p ->
  (forall r k, kstep (CSendmmsg fd (slices (msg_sz p) (Z.to_nat vlen) l) addr 0) (w_k w) = (r, k) ->
     Q r (w_call (CSendmmsg fd (slices (msg_sz p) (Z.to_nat vlen) l) addr 0) r k w)) ->
  wpg F (sendmmsg fd (batch_hdrs addrlen) addr vlen) Q X w.
Proof using Hsz Hbatch.
  intros Hb Hl Hv HQ. unfold sendmmsg.
  assert (length (batch_hdrs addrlen) = Z.to_nat (batch p)) as Hlen.
  { unfold batch_hdrs. by rewrite length_fmap, length_seqZ. }
  rewrite u32_id, Hlen, (proj2 (Z.ltb_ge _ _)) by lia. wp_step.
  apply wp_forM with (I := fun done ys w' => w' = w /\ ys = slices (msg_sz p) (length done) l).
  - done.
  - intros done x rest ys w' Hall [-> ->].
    assert (length done < Z.to_nat vlen)%nat.
    { apply (f_equal length) in Hall. rewrite length_take, length_app in Hall. cbn in Hall. lia. }
    assert (Hx : batch_hdrs addrlen !! length done = Some x).
    { rewrite <- (lookup_take_lt _ (Z.to_nat vlen)) by done. by rewrite Hall, lookup_app_r, Nat.sub_diag. }
    unfold batch_hdrs in Hx. rewrite list_lookup_fmap, lookup_seqZ_lt in Hx by lia.
    injection Hx as <-. cbn [msg_hdr msg_iov]. unfold gather. cbn [forM iov_base iov_len]. do 2 wp_step.
    eapply peek_spec; [done|nia|nia|]. repeat wp_step. split; [done|].
    cbn [concat]. rewrite app_nil_r, length_app. unfold slices. cbn [length].
    rewrite seq_app, fmap_app. cbn. do 3 f_equal. nia.
  - intros ys w' [-> ->].
    rewrite length_take, Hlen, Nat.min_l by lia.
    wp_ask r k E. by apply HQ.
Qed.

(** ** The messages sent so far

    With [--pktgen-header] they are consecutive packets of a flood from
    sequence number [s0]; [s1] is the next sequence number. *)
Definition batches_ok (fills : bool) (s0 : Z) (tr : list (call * reply)) (s1 : Z) : Prop :=
  let ms := concat (sent_batches tr) in
  let ts := coarse_times tr in
  if fills then
    ms = take (length ms) (flood_packets (msg_sz p) s0 ts) /\ (length ms <= length ts)%nat /\
    s1 = u32 (s0 + Z.of_nat (length ts))
  else Forall (fun d => d = replicate (Z.to_nat (msg_sz p)) (Some 0)) ms /\ s1 = s0.

Definition batch_inv (w0 : W) (tr : list (call * reply)) (w : W) : Prop :=
  w_log w = tr ++ w_log w0 /\ w_next w = w_next w0 /\ w_verbose w = w_verbose w0 /\
  (exists l, w_mem w = <[b := l]> (w_mem w0) /\ length l = size /\
    (truth (pktgen_hdr p) = false -> l = replicate size (Some 0))) /\
  batches_ok (truth (pktgen_hdr p)) (sequence (w_st w0)) tr (sequence (w_st w)).

(** Every stamped message was sent. *)
Definition all_sent (tr : list (call * reply)) : Prop :=
  truth (pktgen_hdr p) = true -> length (coarse_times tr) = length (concat (sent_batches tr)).

Lemma batches_ok_filled s0 tr s1 rs vlen fd addr r :
  batches_ok true s0 tr s1 -> length (coarse_times tr) = length (concat (sent_batches tr)) ->
  (vlen <= length rs)%nat ->
  let ms := take vlen (flood_packets (msg_sz p) s1 (r_ts <$> rs)) in
  batches_ok true s0 ((CSendmmsg fd ms addr 0, r) :: clock_events rs ++ tr) 
    (u32 (s1 + Z.of_nat (length rs))).
Proof.
  intros (H1 & H2 & H3) Hall Hv. cbn zeta. set (ms := take _ _). unfold batches_ok.
  destruct (send_trace fd ms addr 0 r (clock_events rs ++ tr)) as (-> & _ & ->).
  destruct (clock_events_trace rs tr) as (-> & _ & ->).
  rewrite concat_app. cbn [concat]. rewrite app_nil_r, !length_app, length_fmap.
  assert (Hms : length ms = vlen).
  { subst ms. rewrite length_take, length_flood_packets, length_fmap. lia. }
  split_and!; [|lia|].
  - rewrite flood_packets_app, <- H3, take_app_ge by (rewrite length_flood_packets; lia).
    rewrite length_flood_packets, Hall, Nat.add_comm, Nat.add_sub, Hms. f_equal.
    rewrite H1 at 1. apply take_ge. rewrite length_flood_packets. lia.
  - rewrite H3, u32_add_l. f_equal. lia.
Qed.

Lemma batches_ok_zero s0 tr s1 vlen fd addr r :
  batches_ok false s0 tr s1 ->
  batches_ok false s0
    ((CSendmmsg fd (replicate vlen (replicate (Z.to_nat (msg_sz p)) (Some 0))) addr 0, r) :: tr) s1.
Proof.
  intros [H1 H2]. unfold batches_ok.
  destruct (send_trace fd (replicate vlen (replicate (Z.to_nat (msg_sz p)) (Some 0))) addr 0 r tr) as (-> & _ & _).
  rewrite concat_app. split; [|done]. apply Forall_app. split; [done|].
  cbn. rewrite app_nil_r. by apply Forall_replicate.
Qed.

(** One round: stamp the batch, send its first [vlen] messages. *)
Lemma batch_round w0 tr w fd addrlen addr vlen (Q : reply -> W -> Prop) X :
  batch_inv w0 tr w -> all_sent tr -> is_u32 (sequence (w_st w)) -> 0 <= vlen <= batch p ->
  (forall r w' tr' ms k, batch_inv w0 tr' w' -> is_u32 (sequence (w_st w')) ->
     sent_batches tr' = sent_batches tr ++ [ms] -> length ms = Z.to_nat vlen ->
     batch_rets tr' = batch_rets tr ++ [r_ret r] ->
     r = (kstep (CSendmmsg fd ms addr 0) k).1 ->
     (vlen = batch p -> all_sent tr') -> Q r w') ->
  wpg F (fill_batch p (Ptr b 0) ;; sendmmsg fd (batch_hdrs addrlen) addr vlen)%c Q X w.
Proof using Hsz Hbatch.
  intros (Hlog & Hnx & Hv & (l & Hm & Hl & Hz) & Hok) Hall Hs Hvl HQ. wp_step.
  eapply fill_batch_spec; [rewrite Hm; apply lookup_insert_eq|done|done| |].
  - intros Hf. specialize (Hz Hf). subst l.
    eapply sendmmsg_spec; [rewrite Hm; apply lookup_insert_eq|done|done|].
    intros r k E. rewrite slices_zeros in E |- * by nia.
    destruct (send_trace fd (replicate (Z.to_nat vlen) (replicate (Z.to_nat (msg_sz p)) (Some 0)))
      addr 0 r tr) as (H1 & H2 & H3).
    eapply HQ; [| |exact H1|apply length_replicate|exact H2|by rewrite E|].
    + split_and!; cbn [w_log w_next w_verbose w_mem w_st w_call]; [by rewrite Hlog|done|done| |].
      * exists (replicate size (Some 0)). by rewrite Hm.
      * rewrite Hf in Hok |- *. by apply batches_ok_zero.
    + done.
    + intros _ Ht. congruence.
  - intros Ht rs w' Hrs Hlog' Hnx' Hv' Hs' Hm'.
    eapply sendmmsg_spec; [rewrite Hm'; apply lookup_insert_eq| |done|].
    { erewrite length_concat_sizes by apply flood_packets_sizes.
      by rewrite length_flood_packets, length_fmap, Hrs. }
    intros r k E. rewrite slices_concat in E |- *
      by (apply flood_packets_sizes || (rewrite length_flood_packets, length_fmap; lia)).
    set (ms := take _ _) in E |- *. rewrite Ht in Hok. specialize (Hall Ht).
    destruct (send_trace fd ms addr 0 r (clock_events rs ++ tr)) as (H1 & H2 & H3).
    destruct (clock_events_trace rs tr) as (H4 & H5 & H6).
    assert (Hms : length ms = Z.to_nat vlen).
    { subst ms. rewrite length_take, length_flood_packets, length_fmap. lia. }
    eapply (HQ r _ ((CSendmmsg fd ms addr 0, r) :: clock_events rs ++ tr) ms); try done.
    + split_and!; cbn [w_log w_next w_verbose w_mem w_st w_call]; [|congruence|congruence| |].
      * by rewrite Hlog', Hlog, app_assoc.
      * eexists. rewrite Hm', Hm, insert_insert_eq. split; [done|].
        split; [|congruence]. erewrite length_concat_sizes by apply flood_packets_sizes.
        by rewrite length_flood_packets, length_fmap, Hrs.
      * rewrite Ht, Hs'. rewrite <- (Z2Nat.id (batch p)), <- Hrs by lia.
        apply batches_ok_filled; [done|done|lia].
    + cbn [w_call w_st]. rewrite Hs'. apply u32_range.
    + by rewrite H1, H4.
    + by rewrite H2, H5.
    + by rewrite E.
    + intros Hfull _. rewrite H3, H6, H1, H4, concat_app, !length_app, Hall, length_fmap. cbn [concat].
      rewrite app_nil_r, Hms. lia.
Qed.

(** ** The loop over the full batches *)
Hypothesis Hbytes : batch p * msg_sz p < 2 ^ 31.
Hypothesis Hker : forall fd ms addr k,
  r_ret (kstep (CSendmmsg fd ms addr 0) k).1 <= Z.of_nat (length ms).

#[local] Abbreviation sizes tr := (length <$> sent_batches tr).

Lemma sendMmsg_loop_spec w0 fd addrlen addr batches l0 X :
  w_mem w0 !! b = Some l0 -> l0 = replicate size (Some 0) -> is_u32 (sequence (w_st w0)) ->
  0 <= batches ->
  wpg F (sendMmsg_loop fd p batches (Ptr b 0) (batch_hdrs addrlen) addr)
    (fun out w => exists tr, batch_inv w0 tr w /\ is_u32 (sequence (w_st w)) /\
       match out with
       | inl (cnt, total) =>
           cnt = batches /\ length (batch_rets tr) = Z.to_nat batches /\
           Forall (Z.le 0) (batch_rets tr) /\ total = u64 (sumZ (batch_rets tr) * msg_sz p) /\
           all_sent tr /\ sizes tr = replicate (Z.to_nat batches) (Z.to_nat (batch p))
       | inr (cnt, res) =>
           r_ret res < 0 /\ exists rets, batch_rets tr = rets ++ [r_ret res] /\
           Forall (Z.le 0) rets /\ (length rets < Z.to_nat batches)%nat /\
           sizes tr = replicate (Datatypes.S (length rets)) (Z.to_nat (batch p))
       end) X w0.
Proof using Hsz Hbatch Hbytes Hker.
  intros Hb Hz Hs Hbt. unfold sendMmsg_loop.
  apply (wp_iter (fun n '(cnt, total) w => exists tr, batch_inv w0 tr w /\ is_u32 (sequence (w_st w)) /\
    Z.of_nat (length (batch_rets tr)) = cnt /\ cnt <= batches /\ batches - cnt < Z.of_nat n /\
    Forall (Z.le 0) (batch_rets tr) /\ total = u64 (sumZ (batch_rets tr) * msg_sz p) /\
    all_sent tr /\ sizes tr = replicate (length (batch_rets tr)) (Z.to_nat (batch p)))).
  - exists []. split_and!; try done; [|cbn; lia].
    split_and!; try done.
    + exists l0. rewrite insert_id by done. split_and!; [done| |by intros].
      by rewrite Hz, length_replicate.
    + unfold batches_ok. cbn. destruct (truth (pktgen_hdr p)); split_and!; try done.
      change (length (coarse_times [])) with 0%nat. by rewrite Z.add_0_r, u32_id.
  - intros [cnt total] w (tr & _ & _ & ? & ? & ? & _). lia.
  - intros n [cnt total] w (tr & Hinv & Hu & Hc & Hle & Hn & Hpos & Ht & Hall & Hsizes).
    destruct (Z.ltb_spec cnt batches) as [Hlt|Hge].
    + apply (wp_assoc (fill_batch p (Ptr b 0))), wp_bind.
      eapply (batch_round w0 tr w); [done..|lia|].
      intros r w' tr' ms k Hinv' Hu' Hsb Hms Hr Hk Hfull.
      assert (Hsizes' : sizes tr' = replicate (Datatypes.S (length (batch_rets tr))) (Z.to_nat (batch p))).
      { rewrite Hsb, fmap_app, Hsizes. cbn. by rewrite Hms, <- replicate_cons_app. }
      destruct (Z.ltb_spec (r_ret r) 0) as [Hneg|Hnn].
      * wp_step. exists tr'. split_and!; try done. exists (batch_rets tr). split_and!; try done. lia.
      * assert (r_ret r <= batch p).
        { rewrite Hk. etrans; [apply Hker|]. lia. }
        wp_step. apply wp_int_check; [unfold is_i32; nia|]. wp_step.
        exists tr'. split_and!; try done.
        -- rewrite Hr, length_app. cbn. lia.
        -- lia.
        -- lia.
        -- rewrite Hr. apply Forall_app. split; [done|]. by constructor.
        -- rewrite Hr, sumZ_app, Ht, u64_add_l. f_equal. cbn. lia.
        -- by apply Hfull.
        -- rewrite Hsizes', Hr, length_app. f_equal. cbn. lia.
    + wp_step. exists tr. assert (cnt = batches) as -> by lia. split_and!; try done.
      * lia.
      * rewrite Hsizes. f_equal. lia.
Qed.
End Batch.

(** ** The whole function *)
Definition full_batches p : nat := Z.to_nat (Z.quot (count p) (batch p)).
Definition last_batch p : Z := count p - Z.quot (count p) (batch p) * batch p.

(** The sizes of the batches: full ones, then the rest. *)
Definition batch_sizes p : list nat :=
  replicate (full_batches p) (Z.to_nat (batch p)) ++
  (if truth (last_batch p) then [Z.to_nat (last_batch p)] else []).

(** Every call succeeded: [p->count] is returned, whatever the calls
    returned, and the bytes are those of the full batches.  Or one failed. *)
Definition mmsg_result p (r : time_bench_record) (tr : list (call * reply))
  (out : Z * time_bench_record) : Prop :=
  let record rets := set_bytes (u64 (sumZ (take (full_batches p) rets) * msg_sz p)) r in
  (Forall (Z.le 0) (batch_rets tr) /\ length <$> sent_batches tr = batch_sizes p /\
   out = (count p, record (batch_rets tr))) \/
  (exists rets e, batch_rets tr = rets ++ [e] /\ Forall (Z.le 0) rets /\ e < 0 /\
   length <$> sent_batches tr = take (Datatypes.S (length rets)) (batch_sizes p) /\
   out = (e, if (length rets <? full_batches p)%nat then r else record rets)).

Definition mmsg_post p (r : time_bench_record) (w : W) (out : Z * time_bench_record) (w' : W) : Prop :=
  w_mem w' = w_mem w /\ w_verbose w' = w_verbose w /\ w_next w <= w_next w' /\
  exists tr, w_log w' = tr ++ w_log w /\
    batches_ok p (truth (pktgen_hdr p)) (sequence (w_st w)) tr (sequence (w_st w')) /\
    mmsg_result p r tr out.

(** The allocations before the loop leave no mark on the trace. *)
Lemma malloc_trace tr evs :
  Forall (fun e => exists n, e.1 = CMalloc n) evs ->
  sent_batches (tr ++ evs) = sent_batches tr /\ batch_rets (tr ++ evs) = batch_rets tr /\
  coarse_times (tr ++ evs) = coarse_times tr.
Proof.
  intros H. unfold sent_batches, batch_rets, coarse_times. rewrite !omap_app, !rev_app_distr.
  assert (omap sent_batch evs = [] /\ omap batch_ret evs = [] /\ omap coarse_time evs = []) as (-> & -> & ->).
  { induction H as [|[c0 r0] evs [n Hn] _ (IH1 & IH2 & IH3)]; [done|].
    cbn in Hn. subst c0. cbn. by rewrite IH1, IH2, IH3. }
  done.
Qed.

Lemma batches_ok_trace p fills s0 tr evs s1 :
  Forall (fun e => exists n, e.1 = CMalloc n) evs ->
  batches_ok p fills s0 tr s1 -> batches_ok p fills s0 (tr ++ evs) s1.
Proof. intros H. unfold batches_ok. by destruct (malloc_trace tr evs H) as (-> & _ & ->). Qed.

Lemma mmsg_result_trace p r tr evs out :
  Forall (fun e => exists n, e.1 = CMalloc n) evs ->
  mmsg_result p r tr out -> mmsg_result p r (tr ++ evs) out.
Proof. intros H. unfold mmsg_result. by destruct (malloc_trace tr evs H) as (-> & -> & _). Qed.

(** The message headers: one element each, adjacent in the buffer. *)
Lemma setup_hdrs_spec F p b bi bh addrlen w li lh (Q : list mmsghdr -> W -> Prop) X :
  0 <= msg_sz p <= 2 ^ 31 - 16 -> 1 <= batch p < 2 ^ 26 ->
  w_mem w !! bi = Some li -> length li = Z.to_nat (16 * batch p) ->
  w_mem w !! bh = Some lh -> length lh = Z.to_nat (64 * batch p) ->
  Q (batch_hdrs p b addrlen) w ->
  wpg F (forM (seqZ 0 (batch p)) (fun pkt =>
    let base := ptr_add (Ptr b 0) (pkt * msg_sz p) in
    let incr := i32 (u32 (msg_sz p) / iov_array_elems) in
    let iov_idx := i32 (pkt * iov_array_elems) in
    iovs <- forM (seqZ 0 iov_array_elems) (fun i =>
      check_elem (Ptr bi 0) sizeof_iovec (iov_idx + i) ;;
      ret (Iovec (ptr_add base (i * incr)) (u64 incr))) ;;
    check_elem (Ptr bh 0) sizeof_mmsghdr pkt ;;
    ret (Mmsghdr (Msghdr NULL addrlen iovs iov_array_elems NULL 0 0) 0)))%c Q X w.
Proof.
  intros Hsz Hbt Hbi Hli Hbh Hlh HQ.
  apply wp_forM with (I := fun done ys w' => w' = w /\
    ys = (fun pkt => Mmsghdr (Msghdr NULL addrlen [Iovec (Ptr b (pkt * msg_sz p)) (msg_sz p)] 1 NULL 0 0) 0)
           <$> done).
  - done.
  - intros done x rest ys w' Hall [-> ->].
    assert (Hx : seqZ 0 (batch p) !! length done = Some x) by (rewrite Hall, lookup_app_r, Nat.sub_diag; done).
    apply lookup_seqZ in Hx as [-> Hlt].
    unfold iov_array_elems, check_elem, ptr_add. cbn [p_block p_off].
    change (seqZ 0 1) with [0]. cbn [forM]. cbv zeta.
    rewrite (i32_id ((0 + Z.of_nat _) * 1)), (Z.div_1_r (u32 (msg_sz p))) by lia.
    rewrite u32_id, i32_id, u64_id by lia. do 4 wp_step.
    eapply peek_spec; [done|unfold sizeof_iovec; lia|unfold sizeof_iovec; lia|].
    do 7 wp_step. eapply peek_spec; [done|unfold sizeof_mmsghdr; lia|unfold sizeof_mmsghdr; lia|].
    repeat wp_step. split; [done|]. rewrite fmap_app. cbn. do 7 f_equal. lia.
  - intros ys w' [-> ->]. exact HQ.
Qed.

Section Function.
Variables (F : Prop) (p : flood_params) (fd : Z) (r : time_bench_record) (w : W).
Hypothesis Hsz : 0 <= msg_sz p <= 2 ^ 31 - 16.
Hypothesis Hbatch : 1 <= batch p < 2 ^ 26.
Hypothesis Hbytes : batch p * msg_sz p < 2 ^ 31.
Hypothesis Hcount : 0 <= count p < 2 ^ 31.
Hypothesis Hker : forall fd ms addr k,
  r_ret (kstep (CSendmmsg fd ms addr 0) k).1 <= Z.of_nat (length ms).
Hypothesis Hseq : is_u32 (sequence (w_st w)).

#[local] Abbreviation batches := (Z.quot (count p) (batch p)).

Lemma last_batch_range : 0 <= last_batch p < batch p /\ 0 <= batches /\ batches * batch p <= count p.
Proof using Hbatch Hcount.
  unfold last_batch. pose proof (Z.quot_rem' (count p) (batch p)).
  pose proof (Z.rem_bound_pos (count p) (batch p)). split_and!; [lia|lia| |lia].
  apply Z.quot_pos; lia.
Qed.

(** The batches, full and last. *)
Lemma mmsg_body b l addrlen addr X :
  w_mem w !! b = Some l -> l = replicate (Z.to_nat (batch p) * Z.to_nat (msg_sz p)) (Some 0) ->
  wpg F (out <- sendMmsg_loop fd p batches (Ptr b 0) (batch_hdrs p b addrlen) addr ;;
         match out with
         | inr (cnt, e) => sendMmsg_error cnt e r
         | inl (cnt, total) =>
             let r' := set_bytes total r in
             if truth (last_batch p) then
               fill_batch p (Ptr b 0) ;;
               e <- sendmmsg fd (batch_hdrs p b addrlen) addr (last_batch p) ;;
               if r_ret e <? 0 then sendMmsg_error cnt e r' else ret (count p, r')
             else ret (count p, r')
         end)%c
    (fun out w' => exists tr, batch_inv p b w tr w' /\ mmsg_result p r tr out) X w.
Proof using Hsz Hbatch Hbytes Hcount Hker Hseq.
  intros Hb Hl. destruct last_batch_range as (Hlast & Hbt & _). wp_step.
  eapply wp_post; [eapply sendMmsg_loop_spec; done|].
  intros [[cnt total]|[cnt e]] w1 (tr & Hinv & Hu & H).
  - destruct H as (-> & Hn & Hpos & -> & Hall & Hsizes). destruct (truth (last_batch p)) eqn:El.
    + apply (wp_assoc (fill_batch p (Ptr b 0))), wp_bind.
      eapply (batch_round F p b Hsz Hbatch w tr w1); [done..|lia|].
      intros e w2 tr2 ms k Hinv2 Hu2 Hsb Hms Hr Hk _.
      assert (Hsizes2 : length <$> sent_batches tr2 = batch_sizes p).
      { rewrite Hsb, fmap_app, Hsizes. unfold batch_sizes, full_batches. rewrite El. cbn. by rewrite Hms. }
      destruct (Z.ltb_spec (r_ret e) 0) as [Hneg|Hnn].
      * repeat wp_step. exists tr2. split; [done|]. right. exists (batch_rets tr), (r_ret e).
        split_and!; try done.
        -- rewrite Hsizes2, take_ge; [done|]. unfold batch_sizes. rewrite El.
           rewrite length_app, length_replicate. cbn. unfold full_batches. lia.
        -- rewrite (proj2 (Nat.ltb_ge _ _)) by (unfold full_batches; lia).
           by rewrite take_ge by (unfold full_batches; lia).
      * wp_step. exists tr2. split; [done|]. left. split_and!; try done.
        -- rewrite Hr. apply Forall_app. split; [done|]. by constructor.
        -- rewrite Hr, take_app_le, take_ge by (unfold full_batches; lia). done.
    + wp_step. exists tr. split; [done|]. left. split_and!; try done.
      * rewrite Hsizes. unfold batch_sizes. by rewrite El, app_nil_r.
      * by rewrite take_ge by (unfold full_batches; lia).
  - destruct H as (Hneg & rets & Hr & Hpos & Hlt & Hsizes). unfold sendMmsg_error. repeat wp_step.
    exists tr. split; [done|]. right. exists rets, (r_ret e). split_and!; try done.
    + rewrite Hsizes. unfold batch_sizes.
      rewrite take_app_le, take_replicate by (rewrite length_replicate; unfold full_batches; lia).
      f_equal. unfold full_batches. lia.
    + by rewrite (proj2 (Nat.ltb_lt _ _)).
Qed.
End Function.

Lemma flood_with_sendMmsg_spec F p fd r w X :
  0 <= msg_sz p <= 2 ^ 31 - 16 -> 1 <= batch p < 2 ^ 26 -> batch p * msg_sz p < 2 ^ 31 ->
  0 <= count p < 2 ^ 31 ->
  (forall fd ms addr k, r_ret (kstep (CSendmmsg fd ms addr 0) k).1 <= Z.of_nat (length ms)) ->
  is_u32 (sequence (w_st w)) -> mem_wf w ->
  (forall w', ss_family (dest_addr p) <> AF_INET -> ss_family (dest_addr p) <> AF_INET6 ->
     X EXIT_FAIL_SOCK w') ->
  (forall w', X EXIT_FAIL_MEM w') ->
  wpg F (flood_with_sendMmsg fd p r) (mmsg_post p r w) X w.
Proof.
  intros Hsz Hbatch Hbytes Hcount Hker Hseq Hwf HXs HX. destruct Hwf as [Hpos Hfresh].
  unfold flood_with_sendMmsg.
  destruct (last_batch_range p Hbatch Hcount) as (Hlast & Hbt & Hle).
  wp_step. apply wp_int_check; [unfold is_i32; nia|]. wp_step.
  apply wp_int_div; [lia|unfold is_i32; nia|]. cbv zeta. wp_step.
  lazymatch goal with |- wpg _ _ ?Q _ _ => enough (H : forall addrlen, Q addrlen w) end.
  { apply sockaddr_len_spec; intros; [apply H|apply H|by apply HXs]. }
  intros addrlen. do 2 wp_step.
  lazymatch goal with |- wpg _ (bind _ ?f) ?Q _ _ =>
    enough (H : forall w0, w_mem w0 = w_mem w -> w_st w0 = w_st w -> w_log w0 = w_log w ->
      w_verbose w0 = w_verbose w -> w_next w0 = w_next w -> wpg F (f tt) Q X w0) end.
  { wp_step. wp_step; [wp_step|]; by apply H. }
  intros w0 Hm0 Hst0 Hlog0 Hv0 Hn0. wp_step. apply malloc_payload_buffer_spec; [lia| |done].
  intros w1 Hal. destruct Hal as (Hst & Hv & Hnx & Hm & ra & Hlog).
  rewrite u64_id in Hm, Hlog by nia.
  wp_step. apply malloc_zeroed_spec; [lia|intros; eexists; reflexivity| |done].
  intros w2 (Hst2 & Hv2 & Hnx2 & Hm2 & ra2 & Hlog2).
  wp_step. apply malloc_zeroed_spec; [lia|intros; eexists; reflexivity| |done].
  intros w3 (Hst3 & Hv3 & Hnx3 & Hm3 & ra3 & Hlog3).
  unfold iov_array_elems in Hm3 at 1, Hlog3 at 1.
  unfold sizeof_iovec, sizeof_mmsghdr in *. rewrite (u32_id (batch p)), (u32_id (64 * _)) in Hm2 by lia.
  rewrite Z.mul_1_l, (u32_id (batch p)), (u32_id (16 * _)) in Hm3 by lia.
  wp_step. eapply setup_hdrs_spec; [done|done| | | | |].
  { rewrite Hm3. apply lookup_insert_eq. }
  { by rewrite length_replicate. }
  { rewrite Hm3, Hm2, lookup_insert_ne, lookup_insert_eq by lia. done. }
  { by rewrite length_replicate. }
  change (count p - Z.quot (count p) (batch p) * batch p) with (last_batch p).
  apply (wp_assoc (sendMmsg_loop _ _ _ _ _ _)), wp_bind. eapply wp_post.
  { eapply mmsg_body; try done.
    { by rewrite Hst3, Hst2, Hst, Hst0. }
    rewrite Hm3, Hm2, Hm, !lookup_insert_ne, lookup_insert_eq by lia. do 2 f_equal. nia. }
  intros out w4 (tr & (Hlog4 & Hnx4 & Hv4 & (l & Hm4 & _ & _) & Hok) & Hres).
  rewrite Hm3, Hm2, Hm in Hm4.
  wp_step. eapply wp_free; [rewrite Hm4, lookup_insert_ne, lookup_insert_eq by lia; done|lia|].
  wp_step. eapply wp_free; [cbn; rewrite Hm4, lookup_delete_ne, !lookup_insert_ne, lookup_insert_eq by lia; done|lia|].
  wp_step. eapply wp_free; [cbn; rewrite Hm4, !lookup_delete_ne, lookup_insert_eq by lia; done|lia|].
  wp_step. split_and!.
  - cbn. rewrite Hm4, Hm0. blocks_freed (w_next w) Hfresh.
  - cbn. congruence.
  - cbn. lia.
  - exists (tr ++ [(CMalloc (u32 (16 * u32 (1 * batch p))), ra3); (CMalloc (u32 (64 * u32 (batch p))), ra2); (CMalloc (batch p * msg_sz p), ra)]).
    assert (Hq : Forall (fun e : call * reply => exists n, e.1 = CMalloc n)
      [(CMalloc (u32 (16 * u32 (1 * batch p))), ra3); (CMalloc (u32 (64 * u32 (batch p))), ra2);
       (CMalloc (batch p * msg_sz p), ra)]).
    { repeat constructor; cbn; eauto. }
    split_and!.
    + cbn. rewrite Hlog4, Hlog3, Hlog2, Hlog, Hlog0, <- app_assoc. done.
    + apply batches_ok_trace; [done|]. rewrite <- Hst0, <- Hst, <- Hst2, <- Hst3. exact Hok.
    + by apply mmsg_result_trace.
Qed.
End Spec.
