(* ===== verification/UdpFloodMain.v ===== *)
(** * udp_flood: the timed runs and [main]

    A run with sane options never reaches undefined behaviour, and ends with
    one of the documented exit codes. *)
From stdpp Require Import base list gmap strings.
From Stdlib Require Import ZArith Lia Ascii.
From S2P Require Import Prelude.
From S2P Require Import CLang.
From S2P Require Import Wp.
From S2P Require Import Libc.
From S2P Require Import Common.
From S2P Require Import CommonSocket.
From S2P Require Import Getopt.
From S2P Require Import Tame.
From S2P Require Import Scripted.
From S2P Require Import UdpFlood.
From S2P Require Import UdpFloodSpec.
From S2P Require Import UdpFloodMmsg.

#[local] Open Scope Z_scope.
#[local] Open Scope c_scope.

(** The parameters the flood functions are safe with. *)
Definition sane_params (p : flood_params) : Prop :=
  1 <= count p < 2 ^ 31 /\ 0 <= msg_sz p <= 65507 /\ 1 <= batch p <= 32767 /\
  -1 <= pmtu p < IP_PMTUDISC_MAX.

(** An answer of [getopt_long] that keeps them so: an option that requires
    an argument has one, the numbers are in range. *)
Definition sane_option (e : optev) : Prop :=
  (o_c e = ch "c" -> arg_in 1 (2 ^ 31 - 1) e) /\ (o_c e = ch "p" -> is_Some (o_arg e)) /\
  (o_c e = ch "m" -> arg_in 0 65507 e) /\ (o_c e = ch "b" -> arg_in 1 32767 e) /\
  (o_c e = ch "d" -> arg_in (-1) (IP_PMTUDISC_MAX - 1) e).

Definition flood_codes : list Z :=
  [EXIT_FAIL_MEM; EXIT_FAIL_OPTION; EXIT_FAIL_TIME; EXIT_FAIL_SOCK; EXIT_FAIL_IP; EXIT_FAIL_SEND].

Section Main.
Context {K : Kernel}.
Variables (F : Prop).
Hypothesis Hker : forall fd ms addr k,
  r_ret (kstep (CSendmmsg fd ms addr 0) k).1 <= Z.of_nat (length ms).

Definition flood_ok (w : world statics) : Prop := mem_wf w /\ is_u32 (sequence (w_st w)).

#[local] Instance flood_ok_stable : Stable flood_ok.
Proof. split; intros; done. Qed.

#[local] Abbreviation tame := (tame F flood_ok flood_codes).

(** What the timed functions promise: the number of packets, or a failure. *)
Definition counts p (out : Z * time_bench_record) : Prop := out.1 < 0 \/ out.1 = count p.

Lemma mem_wf_same (w w' : world statics) :
  mem_wf w -> w_mem w' = w_mem w -> w_next w <= w_next w' -> mem_wf w'.
Proof. intros [H1 H2] Hm Hn. split; [lia|]. intros b Hb. rewrite Hm. apply H2. lia. Qed.

Lemma packets_ok_next fills p s0 tr s1 : is_u32 s0 -> packets_ok fills p s0 tr s1 -> is_u32 s1.
Proof. intros Hs. destruct fills; intros [_ ->]; [apply u32_range|done]. Qed.

Lemma tame_flood v p fd r : sane_params p -> tame (flood_with v fd p r) (counts p).
Proof.
  intros (Hc & Hm & _) w [Hwf Hs]. eapply wp_mono; [apply flood_correct; [lia|done..]| |].
  - intros out w' (Hmem & _ & Hn & tr & _ & Hok & Hres). split; [split|].
    + by eapply mem_wf_same.
    + by eapply packets_ok_next.
    + destruct Hres as [(-> & _)|(rets & e & _ & He & -> & _)]; [right|left]; cbn; lia.
  - intros code _ [->|(_ & _ & _ & ->)]; vm_compute; tauto.
Qed.

Lemma tame_flood_mmsg p fd r : sane_params p -> tame (flood_with_sendMmsg fd p r) (counts p).
Proof using Hker.
  intros (Hc & Hm & Hb & _) w [Hwf Hs]. eapply wp_post; [apply flood_with_sendMmsg_spec; try done; try nia|].
  - intros; vm_compute; tauto.
  - intros; vm_compute; tauto.
  - intros out w' (Hmem & _ & Hn & tr & _ & Hok & Hres). split; [split|].
    + by eapply mem_wf_same.
    + unfold batches_ok in Hok. destruct (truth (pktgen_hdr p)); [destruct Hok as (_ & _ & ->); apply u32_range|].
      by destruct Hok as [_ ->].
    + destruct Hres as [(_ & _ & ->)|(rets & e & _ & _ & He & _ & ->)]; [right|left]; done.
Qed.

Lemma tame_time_function fd p func :
  1 <= count p < 2 ^ 31 -> (forall r, tame (func fd p r) (counts p)) ->
  tame (time_function fd p func) (fun _ => True).
Proof.
  intros Hc Hf. unfold time_function. tame_step.
  eapply tame_bind; [apply Hf|]. intros [cnt rec] Hcnt. cbn in Hcnt. tame_step.
  destruct (Z.ltb_spec cnt 0).
  - repeat tame_step.
  - destruct Hcnt as [?|Hcnt]; [cbn in *; lia|]. cbn in Hcnt. subst cnt.
    eapply tame_seq; [apply tame_calc_stats; cbn; lia|]. intros rec'. tame_step.
Qed.

(** ** Options *)
Lemma tame_pmtu v : 0 <= v < IP_PMTUDISC_MAX -> tame (pmtu_arg v) (fun _ => True).
Proof.
  intros Hv. unfold pmtu_arg, pmtu_to_string.
  rewrite (proj2 (Z.ltb_lt _ _)), (proj2 (Z.ltb_ge _ _)) by lia.
  destruct (lookup_lt_is_Some_2 ip_mtu_discover_names (Z.to_nat v)) as [name Hname].
  { change IP_PMTUDISC_MAX with 6 in Hv. cbn [length ip_mtu_discover_names]. lia. }
  eapply (tame_bind _ _ _ _ _ (fun n => n = Some name)); [by apply tame_ret|].
  intros n ->. by apply tame_ret.
Qed.

Lemma tame_usage argv0 : tame (usage argv0) (fun code => code = EXIT_FAIL_OPTION).
Proof.
  unfold usage. repeat tame_step.
  eapply tame_seq; [apply tame_forM; intros; repeat tame_step|]. intros _. repeat tame_step.
  eapply tame_seq; [apply tame_forM; intros i Hi|intros _; repeat tame_step; done].
  apply elem_of_seqZ in Hi. eapply tame_seq; [apply tame_pmtu; lia|]. intros name. tame_step.
Qed.

Definition sane_opts (o : main_opts) : Prop := sane_params (o_p o).

Lemma tame_main_option argv0 o e :
  sane_opts o -> sane_option e ->
  tame (main_option argv0 o e)
    (fun r => match r with inl o' => sane_opts o' | inr code => code = EXIT_FAIL_OPTION end).
Proof.
  intros Ho (Hc & Hp & Hm & Hb & Hd). destruct o as [p fam port flags].
  unfold sane_opts, sane_params in *. cbn in Ho.
  unfold main_option. cbv zeta.
  repeat lazymatch goal with
  | |- Tame.tame _ _ _ (if _ =? ch ?x then _ else _) _ =>
      destruct (Z.eqb_spec (o_c e) (ch x)) as [E|_]
  end.
  all: try (apply tame_ret; cbn; tauto).
  - eapply tame_bind; [by eapply tame_atoi; auto|]. intros v Hv. cbn in Hv. apply tame_ret. cbn. lia.
  - eapply tame_bind; [by apply tame_atoi_any; auto|]. intros v _. by apply tame_ret.
  - eapply tame_bind; [by eapply tame_atoi; auto|]. intros v Hv. cbn in Hv. apply tame_ret. cbn. lia.
  - eapply tame_bind; [by eapply tame_atoi; auto|]. intros v Hv. cbn in Hv. apply tame_ret. cbn. lia.
  - eapply tame_bind; [by eapply tame_atoi; auto|]. intros v Hv. cbn in Hv. apply tame_ret. cbn. lia.
  - tame_step. by apply tame_ret.
  - tame_step; [|by apply tame_ret].
    eapply tame_bind; [apply tame_usage|]. intros u ->. by apply tame_ret.
Qed.

Lemma tame_run_test flags flag name b fd p func :
  1 <= count p < 2 ^ 31 -> (forall r, tame (func fd p r) (counts p)) ->
  tame (run_test flags flag name b fd p func) (fun _ => True).
Proof. intros Hc Hf. unfold run_test. repeat tame_step. by apply tame_time_function. Qed.

Lemma tame_main argv0 evs dest_ip :
  Forall sane_option evs ->
  tame (main argv0 evs dest_ip) (fun code => code = 0 \/ code = EXIT_FAIL_OPTION).
Proof using Hker.
  intros Hevs. unfold main.
  eapply tame_bind.
  { eapply (tame_getopt _ _ _ sane_opts sane_option); [|done|apply tame_main_option].
    unfold sane_opts, sane_params. cbn. unfold DEFAULT_COUNT, IP_PMTUDISC_MAX, IP_PMTUDISC_OMIT. lia. }
  intros [o|u] Ho; [|apply tame_ret; by right].
  destruct dest_ip as [ip|].
  2: { tame_step. eapply tame_mono; [apply tame_usage|]. by right. }
  tame_step. eapply tame_seq; [repeat tame_step|]. intros _.
  eapply tame_bind; [by apply tame_Socket; auto with tame|]. intros fd Hfd.
  destruct Ho as (Hc & Hm & Hb & Hd).
  eapply tame_seq.
  { apply tame_when. intros Hne%negb_true_iff%Z.eqb_neq.
    eapply tame_seq; [|intros; repeat tame_step; done]. tame_step.
    eapply tame_seq; [apply tame_pmtu; lia|]. intros name. tame_step. }
  intros _. repeat tame_step.
  eapply tame_seq; [repeat tame_step|]. intros _.
  assert (Hp : forall dst, sane_params (set_c (ParamsCommon 1) (set_dest_addr dst (o_p o)))).
  { intros dst. unfold sane_params. cbn -[IP_PMTUDISC_MAX]. lia. }
  repeat (eapply tame_seq; [apply tame_run_test; [done|intros r]|intros _]).
  - by apply (tame_flood VSend).
  - by apply (tame_flood VSendto).
  - by apply (tame_flood VSendmsg).
  - by apply tame_flood_mmsg.
  - by apply (tame_flood VWrite).
  - tame_step. apply tame_ret. by left.
Qed.
End Main.
