(* ===== verification/UdpFloodProps.v ===== *)
(** * udp_flood: the properties

    The theorems about udp_flood.c, each with a concrete instance. *)
From stdpp Require Import base list gmap strings.
From Stdlib Require Import ZArith Lia Ascii.
From S2P Require Import Prelude.
From S2P Require Import CLang.
From S2P Require Import Wp.
From S2P Require Import Libc.
From S2P Require Import Common.
From S2P Require Import CommonSocket.
From S2P Require Import Getopt.
From S2P Require Import Tame.
From S2P Require Import Scripted.
From S2P Require Import Pktgen.
From S2P Require Import UdpFlood.
From S2P Require Import UdpFloodSpec.
From S2P Require Import UdpFloodMmsg.
From S2P Require Import UdpFloodMain.

#[local] Open Scope Z_scope.
#[local] Open Scope c_scope.

(** The parameters of the examples: three stamped packets of 40 bytes to an
    IPv4 address, batches of two. *)
Definition example_params : flood_params :=
  FloodParams (ParamsCommon 1) 0 2 3 40 (-1) 1 (set_family AF_INET zero_sockaddr).

(** A reading of the coarse clock, and a send of 40 bytes. *)
Definition tick (s : Z) : reply := Reply 0 0 (Timespec s 5000) [].
Definition sent40 : reply := reply_of 40.

(** C3: [flood_with_sendto], [flood_with_send], [flood_with_write] and
    [flood_with_sendmsg] terminate without undefined behaviour and free all
    they allocate.  They send exactly [p->count] packets and record the sum of
    the bytes sent, or stop at the first send that fails and return its value.
    With [--pktgen-header] (except [flood_with_send], which ignores it) packet
    [i] is the pktgen header with sequence number [sequence + i] and the time
    read just before, repeated over the whole packet; otherwise every packet is
    zero.  They end the process only when the buffers cannot be allocated or
    the address family is unknown. *)
Theorem flood_single_packet_correct (K : Kernel) (v : variant) (p : flood_params) (fd : Z)
  (r : time_bench_record) (w : world statics) :
  0 <= msg_sz p <= 2 ^ 31 - 16 -> is_u32 (sequence (w_st w)) -> mem_wf w ->
  wp (flood_with v fd p r) (flood_post (fills_of v p) p r w) (fun code _ => flood_exit v p code) w.
Proof. apply flood_correct. Qed.

Lemma flood_single_packet_correct_witness :
  let w := start [tick 7; sent40; tick 7; sent40; tick 8; sent40] (Statics 41) in
  wp (flood_with VSendto 3 example_params zero_record)
    (flood_post true example_params zero_record w) (fun code _ => flood_exit VSendto example_params code) w.
Proof.
  apply (flood_single_packet_correct scripted VSendto example_params 3 zero_record
    (start [tick 7; sent40; tick 7; sent40; tick 8; sent40] (Statics 41))).
  - vm_compute. split; discriminate.
  - vm_compute. split; [discriminate|reflexivity].
  - apply start_wf.
Defined.

(** C4: [flood_with_sendMmsg] terminates without undefined behaviour, for
    batches whose buffer size fits an [int].  When no call fails it returns
    [p->count]; the batches are [count / batch] full ones and the rest; with
    [--pktgen-header] the messages are consecutive packets of the flood, but
    the whole buffer is stamped for the last batch too, so the sequence number
    skips what was not sent; the bytes recorded are [msg_sz] times the messages
    of the full batches only.  When a call fails its value is returned. *)
Theorem flood_sendMmsg_correct (K : Kernel) (p : flood_params) (fd : Z) (r : time_bench_record)
  (w : world statics)
  (send_at_most : forall fd ms addr k,
     r_ret (kstep (CSendmmsg fd ms addr 0) k).1 <= Z.of_nat (length ms)) :
  0 <= msg_sz p <= 2 ^ 31 - 16 -> 1 <= batch p < 2 ^ 26 -> batch p * msg_sz p < 2 ^ 31 ->
  0 <= count p < 2 ^ 31 -> is_u32 (sequence (w_st w)) -> mem_wf w ->
  wp (flood_with_sendMmsg fd p r) (mmsg_post p r w)
    (fun code _ => code = EXIT_FAIL_MEM \/
       (ss_family (dest_addr p) <> AF_INET /\ ss_family (dest_addr p) <> AF_INET6 /\
        code = EXIT_FAIL_SOCK)) w.
Proof. intros. apply flood_with_sendMmsg_spec; auto. Qed.

Lemma flood_sendMmsg_correct_witness :
  let w := start [tick 7; tick 7; tick 8; tick 8] (Statics 41) in
  wp (flood_with_sendMmsg 3 example_params zero_record)
    (mmsg_post example_params zero_record w)
    (fun code _ => code = EXIT_FAIL_MEM \/
       (ss_family (dest_addr example_params) <> AF_INET /\
        ss_family (dest_addr example_params) <> AF_INET6 /\ code = EXIT_FAIL_SOCK)) w.
Proof.
  apply (flood_sendMmsg_correct scripted example_params 3 zero_record
    (start [tick 7; tick 7; tick 8; tick 8] (Statics 41))).
  - intros. cbn. lia.
  - vm_compute. split; discriminate.
  - vm_compute. split; [discriminate|reflexivity].
  - reflexivity.
  - vm_compute. split; [discriminate|reflexivity].
  - vm_compute. split; [discriminate|reflexivity].
  - apply start_wf.
Defined.

(** C5: the whole program [udp_flood]: for every command line whose options
    have their arguments, with a count from 1 to 2^31-1, a size up to 65507, a
    batch from 1 to 32767 and a [--pmtu] from -1 to 5, every operating system
    whose [sendmmsg] sends at most what it was given, and every destination,
    [main] terminates without undefined behaviour; it returns 0 or the usage
    code, or exits with one of the documented codes.  (A verbose
    run with [--pmtu] 6 or -2 is undefined: [verbose_pmtu_undefined].) *)
Theorem udp_flood_main_safe (K : Kernel) (argv0 : string) (evs : list optev)
  (dest_ip : option string) (w : world statics)
  (send_at_most : forall fd ms addr k,
     r_ret (kstep (CSendmmsg fd ms addr 0) k).1 <= Z.of_nat (length ms)) :
  Forall sane_option evs -> mem_wf w -> is_u32 (sequence (w_st w)) ->
  wp (main argv0 evs dest_ip) (fun code _ => code = 0 \/ code = EXIT_FAIL_OPTION)
    (fun code _ => In code flood_codes) w.
Proof.
  intros Hevs Hwf Hs. eapply wp_post; [by apply tame_main|]. by intros code w' [_ H].
Qed.

Lemma udp_flood_main_safe_witness :
  wp (main "udp_flood" [Optev (ch "c") 0 (Some "3"); Optev (ch "P") 0 None] (Some "127.0.0.1"))
    (fun code _ => code = 0 \/ code = EXIT_FAIL_OPTION) (fun code _ => In code flood_codes)
    (start [] (Statics 0)).
Proof.
  apply (udp_flood_main_safe scripted "udp_flood"
    [Optev (ch "c") 0 (Some "3"); Optev (ch "P") 0 None] (Some "127.0.0.1") (start [] (Statics 0))).
  - intros. cbn. lia.
  - repeat constructor; try discriminate.
    intros _. exists "3". vm_compute. split; [reflexivity|]. split; discriminate.
  - apply start_wf.
  - vm_compute. split; [discriminate|reflexivity].
Defined.

(** A verbose run with a [--pmtu] out of range: a NULL name goes to ["%s"], or
    the table of names is indexed out of bounds. *)
Example verbose_pmtu_undefined :
  let run pmtu := main "udp_flood" [Optev (ch "v") 1 None; Optev (ch "d") 0 (Some pmtu)] (Some "127.0.0.1")
                    (start [] (Statics 0)) in
  match run "6" with Undef NullDeref _ => True | _ => False end /\
  match run "-2" with Undef OutOfBounds _ => True | _ => False end.
Proof. vm_compute. by split. Qed.
