(* ===== verification/CheckPkt.v ===== *)
(** * udp_sink.c: the parameters of the sink, and the check of the pktgen
    headers of a received packet ([__check_pkt]). *)
From stdpp Require Import base list gmap strings.
From Stdlib Require Import ZArith Lia.
From S2P Require Import Prelude.
From S2P Require Import CLang.
From S2P Require Import Wp.
From S2P Require Import Libc.
From S2P Require Import Common.
From S2P Require Import CommonSocket.
From S2P Require Import Pktgen.

#[local] Open Scope Z_scope.
#[local] Open Scope c_scope.

Record sink_params := SinkParams {
  c : params_common;
  lite : Z;
  iov_elems : Z;
  batch : Z;
  count : Z;
  repeat : Z;
  waitforone : Z;
  dontwait : Z;
  bad_addr : Z;
  recv_ttl : Z;
  recv_pktinfo : Z;
  sk_timeout : Z;
  timeout : Z;
  check : Z;
  sender_addr : list Z;
  so_reuseport : Z;
  use_bpf : Z;
  buf_sz : Z;
  run_flag : Z;
  run_flag_curr : Z;
  ooo : Z;
  bad_magic : Z;
  bad_repeat : Z
}.

(** The three counters of failed checks, updated together. *)
Definition set_stats (o m b : Z) (p : sink_params) : sink_params :=
  SinkParams (c p) (lite p) (iov_elems p) (batch p) (count p) (repeat p) (waitforone p)
    (dontwait p) (bad_addr p) (recv_ttl p) (recv_pktinfo p) (sk_timeout p) (timeout p)
    (check p) (sender_addr p) (so_reuseport p) (use_bpf p) (buf_sz p) (run_flag p)
    (run_flag_curr p) o m b.

(** The other fields, one at a time. *)
Definition set_c (v : params_common) (p : sink_params) : sink_params :=
  SinkParams v (lite p) (iov_elems p) (batch p) (count p) (repeat p) (waitforone p) (dontwait p)
    (bad_addr p) (recv_ttl p) (recv_pktinfo p) (sk_timeout p) (timeout p) (check p)
    (sender_addr p) (so_reuseport p) (use_bpf p) (buf_sz p) (run_flag p) (run_flag_curr p)
    (ooo p) (bad_magic p) (bad_repeat p).
Definition set_lite (v : Z) (p : sink_params) : sink_params :=
  SinkParams (c p) v (iov_elems p) (batch p) (count p) (repeat p) (waitforone p) (dontwait p)
    (bad_addr p) (recv_ttl p) (recv_pktinfo p) (sk_timeout p) (timeout p) (check p)
    (sender_addr p) (so_reuseport p) (use_bpf p) (buf_sz p) (run_flag p) (run_flag_curr p)
    (ooo p) (bad_magic p) (bad_repeat p).
Definition set_iov_elems (v : Z) (p : sink_params) : sink_params :=
  SinkParams (c p) (lite p) v (batch p) (count p) (repeat p) (waitforone p) (dontwait p)
    (bad_addr p) (recv_ttl p) (recv_pktinfo p) (sk_timeout p) (timeout p) (check p)
    (sender_addr p) (so_reuseport p) (use_bpf p) (buf_sz p) (run_flag p) (run_flag_curr p)
    (ooo p) (bad_magic p) (bad_repeat p).
Definition set_batch (v : Z) (p : sink_params) : sink_params :=
  SinkParams (c p) (lite p) (iov_elems p) v (count p) (repeat p) (waitforone p) (dontwait p)
    (bad_addr p) (recv_ttl p) (recv_pktinfo p) (sk_timeout p) (timeout p) (check p)
    (sender_addr p) (so_reuseport p) (use_bpf p) (buf_sz p) (run_flag p) (run_flag_curr p)
    (ooo p) (bad_magic p) (bad_repeat p).
Definition set_count (v : Z) (p : sink_params) : sink_params :=
  SinkParams (c p) (lite p) (iov_elems p) (batch p) v (repeat p) (waitforone p) (dontwait p)
    (bad_addr p) (recv_ttl p) (recv_pktinfo p) (sk_timeout p) (timeout p) (check p)
    (sender_addr p) (so_reuseport p) (use_bpf p) (buf_sz p) (run_flag p) (run_flag_curr p)
    (ooo p) (bad_magic p) (bad_repeat p).
Definition set_repeat (v : Z) (p : sink_params) : sink_params :=
  SinkParams (c p) (lite p) (iov_elems p) (batch p) (count p) v (waitforone p) (dontwait p)
    (bad_addr p) (recv_ttl p) (recv_pktinfo p) (sk_timeout p) (timeout p) (check p)
    (sender_addr p) (so_reuseport p) (use_bpf p) (buf_sz p) (run_flag p) (run_flag_curr p)
    (ooo p) (bad_magic p) (bad_repeat p).
Definition set_waitforone (v : Z) (p : sink_params) : sink_params :=
  SinkParams (c p) (lite p) (iov_elems p) (batch p) (count p) (repeat p) v (dontwait p)
    (bad_addr p) (recv_ttl p) (recv_pktinfo p) (sk_timeout p) (timeout p) (check p)
    (sender_addr p) (so_reuseport p) (use_bpf p) (buf_sz p) (run_flag p) (run_flag_curr p)
    (ooo p) (bad_magic p) (bad_repeat p).
Definition set_dontwait (v : Z) (p : sink_params) : sink_params :=
  SinkParams (c p) (lite p) (iov_elems p) (batch p) (count p) (repeat p) (waitforone p) v
    (bad_addr p) (recv_ttl p) (recv_pktinfo p) (sk_timeout p) (timeout p) (check p)
    (sender_addr p) (so_reuseport p) (use_bpf p) (buf_sz p) (run_flag p) (run_flag_curr p)
    (ooo p) (bad_magic p) (bad_repeat p).
Definition set_bad_addr (v : Z) (p : sink_params) : sink_params :=
  SinkParams (c p) (lite p) (iov_elems p) (batch p) (count p) (repeat p) (waitforone p)
    (dontwait p) v (recv_ttl p) (recv_pktinfo p) (sk_timeout p) (timeout p) (check p)
    (sender_addr p) (so_reuseport p) (use_bpf p) (buf_sz p) (run_flag p) (run_flag_curr p)
    (ooo p) (bad_magic p) (bad_repeat p).
Definition set_recv_ttl (v : Z) (p : sink_params) : sink_params :=
  SinkParams (c p) (lite p) (iov_elems p) (batch p) (count p) (repeat p) (waitforone p)
    (dontwait p) (bad_addr p) v (recv_pktinfo p) (sk_timeout p) (timeout p) (check p)
    (sender_addr p) (so_reuseport p) (use_bpf p) (buf_sz p) (run_flag p) (run_flag_curr p)
    (ooo p) (bad_magic p) (bad_repeat p).
Definition set_recv_pktinfo (v : Z) (p : sink_params) : sink_params :=
  SinkParams (c p) (lite p) (iov_elems p) (batch p) (count p) (repeat p) (waitforone p)
    (dontwait p) (bad_addr p) (recv_ttl p) v (sk_timeout p) (timeout p) (check p)
    (sender_addr p) (so_reuseport p) (use_bpf p) (buf_sz p) (run_flag p) (run_flag_curr p)
    (ooo p) (bad_magic p) (bad_repeat p).
Definition set_sk_timeout (v : Z) (p : sink_params) : sink_params :=
  SinkParams (c p) (lite p) (iov_elems p) (batch p) (count p) (repeat p) (waitforone p)
    (dontwait p) (bad_addr p) (recv_ttl p) (recv_pktinfo p) v (timeout p) (check p)
    (sender_addr p) (so_reuseport p) (use_bpf p) (buf_sz p) (run_flag p) (run_flag_curr p)
    (ooo p) (bad_magic p) (bad_repeat p).
Definition set_timeout (v : Z) (p : sink_params) : sink_params :=
  SinkParams (c p) (lite p) (iov_elems p) (batch p) (count p) (repeat p) (waitforone p)
    (dontwait p) (bad_addr p) (recv_ttl p) (recv_pktinfo p) (sk_timeout p) v (check p)
    (sender_addr p) (so_reuseport p) (use_bpf p) (buf_sz p) (run_flag p) (run_flag_curr p)
    (ooo p) (bad_magic p) (bad_repeat p).
Definition set_check (v : Z) (p : sink_params) : sink_params :=
  SinkParams (c p) (lite p) (iov_elems p) (batch p) (count p) (repeat p) (waitforone p)
    (dontwait p) (bad_addr p) (recv_ttl p) (recv_pktinfo p) (sk_timeout p) (timeout p) v
    (sender_addr p) (so_reuseport p) (use_bpf p) (buf_sz p) (run_flag p) (run_flag_curr p)
    (ooo p) (bad_magic p) (bad_repeat p).
Definition set_sender_addr (v : list Z) (p : sink_params) : sink_params :=
  SinkParams (c p) (lite p) (iov_elems p) (batch p) (count p) (repeat p) (waitforone p)
    (dontwait p) (bad_addr p) (recv_ttl p) (recv_pktinfo p) (sk_timeout p) (timeout p) (check p)
    v (so_reuseport p) (use_bpf p) (buf_sz p) (run_flag p) (run_flag_curr p) (ooo p)
    (bad_magic p) (bad_repeat p).
Definition set_so_reuseport (v : Z) (p : sink_params) : sink_params :=
  SinkParams (c p) (lite p) (iov_elems p) (batch p) (count p) (repeat p) (waitforone p)
    (dontwait p) (bad_addr p) (recv_ttl p) (recv_pktinfo p) (sk_timeout p) (timeout p) (check p)
    (sender_addr p) v (use_bpf p) (buf_sz p) (run_flag p) (run_flag_curr p) (ooo p)
    (bad_magic p) (bad_repeat p).
Definition set_use_bpf (v : Z) (p : sink_params) : sink_params :=
  SinkParams (c p) (lite p) (iov_elems p) (batch p) (count p) (repeat p) (waitforone p)
    (dontwait p) (bad_addr p) (recv_ttl p) (recv_pktinfo p) (sk_timeout p) (timeout p) (check p)
    (sender_addr p) (so_reuseport p) v (buf_sz p) (run_flag p) (run_flag_curr p) (ooo p)
    (bad_magic p) (bad_repeat p).
Definition set_run_flag (v : Z) (p : sink_params) : sink_params :=
  SinkParams (c p) (lite p) (iov_elems p) (batch p) (count p) (repeat p) (waitforone p)
    (dontwait p) (bad_addr p) (recv_ttl p) (recv_pktinfo p) (sk_timeout p) (timeout p) (check p)
    (sender_addr p) (so_reuseport p) (use_bpf p) (buf_sz p) v (run_flag_curr p) (ooo p)
    (bad_magic p) (bad_repeat p).
Definition set_run_flag_curr (v : Z) (p : sink_params) : sink_params :=
  SinkParams (c p) (lite p) (iov_elems p) (batch p) (count p) (repeat p) (waitforone p)
    (dontwait p) (bad_addr p) (recv_ttl p) (recv_pktinfo p) (sk_timeout p) (timeout p) (check p)
    (sender_addr p) (so_reuseport p) (use_bpf p) (buf_sz p) (run_flag p) v (ooo p) (bad_magic p)
    (bad_repeat p).

Definition inc_ooo (p : sink_params) : sink_params :=
  set_stats (ooo p + 1) (bad_magic p) (bad_repeat p) p.
Definition inc_bad_magic (p : sink_params) : sink_params :=
  set_stats (ooo p) (bad_magic p + 1) (bad_repeat p) p.
Definition inc_bad_repeat (p : sink_params) : sink_params :=
  set_stats (ooo p) (bad_magic p) (bad_repeat p + 1) p.

(** The static variable [last] of [__check_pkt]. *)
Record statics := Statics { last : pktgen_hdr }.

(** [3*1000*1000*1000u] *)
Definition SEQ_WRAP : Z := 3000000000.

(** The packet is older than the last one seen. *)
Definition out_of_order (last pgh : pktgen_hdr) : bool :=
  truth (pgh_magic last) &&
  ((tv_sec pgh <? tv_sec last) ||
   ((tv_sec pgh =? tv_sec last) && (tv_usec pgh <? tv_usec last)) ||
   ((tv_sec pgh =? tv_sec last) && (tv_usec pgh =? tv_usec last) &&
    (seq_num pgh <? seq_num last) && (seq_num last <? SEQ_WRAP))).

(** check-pktgen level 3: the sequence number is not the successor. *)
Definition gap (check : Z) (last pgh : pktgen_hdr) : bool :=
  (2 <? check) && truth (pgh_magic last) && negb (seq_num pgh =? u32 (seq_num last + 1)).

(** What the first header of a packet adds to the counters. *)
Definition first_hdr (last pgh : pktgen_hdr) (p : sink_params) : sink_params :=
  let p := if negb (ntohl (pgh_magic pgh) =? PKTGEN_MAGIC) then inc_bad_magic p else p in
  let p := if out_of_order last pgh then inc_ooo p else p in
  if gap (check p) last pgh then inc_ooo p else p.

(** The local variables of the loop of [__check_pkt]. *)
Record chk := Chk {
  k_i : Z;
  k_offset : Z;
  k_hdr : Z;
  k_len : Z;
  k_cur_len : Z;
  k_current : pktgen_hdr;
  k_p : sink_params
}.

Section CheckPkt.
Context {K : Kernel}.
#[local] Abbreviation M := (M statics).

(** [iov[i]] *)
Definition iov_at (iov : list iovec) (i : Z) : M iovec :=
  if i <? 0 then undefined OutOfBounds
  else match iov !! Z.to_nat i with Some v => ret v | None => undefined OutOfBounds end.

(** [len < iov[i].iov_len ? len : iov[i].iov_len], stored in an [int]. *)
Definition min_len (len iov_len : Z) : Z := i32 (if u64 len <? iov_len then len else iov_len).

(** The header at the current position, possibly across two I/O vector
    elements; [None] when the second element is missing. *)
Definition get_hdr (iov : list iovec) (nr i offset first_chunk : Z) : M (option pktgen_hdr) :=
  v <- iov_at iov i ;;
  if u64 first_chunk <? sizeof_pktgen_hdr then
    part1 <- load (ptr_add (iov_base v) offset) first_chunk ;;
    let second_chunk := sizeof_pktgen_hdr - first_chunk in
    if 0 <? second_chunk then
      if nr <=? i + 1 then ret None
      else
        v1 <- iov_at iov (i + 1) ;;
        part2 <- load (iov_base v1) second_chunk ;;
        ret (Some (hdr_of_bytes (part1 ++ part2)))
    else ret (Some (hdr_of_bytes part1))
  else
    bs <- load (ptr_add (iov_base v) offset) sizeof_pktgen_hdr ;;
    ret (Some (hdr_of_bytes bs)).

(** "move to next chunk": the end of a round. *)
Definition next_chunk (iov : list iovec) (nr : Z) (k : chk) (current : pktgen_hdr)
  (p : sink_params) : M (chk + chk) :=
  let hdr := k_hdr k + 1 in
  let offset := k_offset k + sizeof_pktgen_hdr in
  v <- iov_at iov (k_i k) ;;
  if iov_len v <=? u64 offset then
    let offset := i32 (offset - iov_len v) in
    let i := k_i k + 1 in
    if nr <=? i then ret (inr (Chk i offset hdr (k_len k) (k_cur_len k) current p))
    else
      v <- iov_at iov i ;;
      let cur_len := min_len (k_len k) (iov_len v) in
      ret (inl (Chk i offset hdr (k_len k - cur_len) cur_len current p))
  else ret (inl (Chk (k_i k) offset hdr (k_len k) (k_cur_len k) current p)).

(** One round of the [for (;;)] loop. *)
Definition check_round (iov : list iovec) (nr : Z) (k : chk) : M (chk + chk) :=
  let first_chunk := k_cur_len k - k_offset k in
  if u64 (first_chunk + k_len k) <? sizeof_pktgen_hdr then ret (inr k)
  else
    h <- get_hdr iov nr (k_i k) (k_offset k) first_chunk ;;
    match h with
    | None => ret (inr k)
    | Some pgh =>
        r <- (if k_hdr k =? 0 then
                st <- get_st ;;
                let p := first_hdr (last st) pgh (k_p k) in
                put_st (Statics pgh) ;;
                if check p <? 2 then ret (false, p, k_current k)
                else ret (true, p, pgh)
              else if negb (bool_decide (hdr_bytes (k_current k) = hdr_bytes pgh))
              then ret (true, inc_bad_repeat (k_p k), k_current k)
              else ret (true, k_p k, k_current k)) ;;
        let '(go, p, current) := r in
        if negb go
        then ret (inr (Chk (k_i k) (k_offset k) (k_hdr k) (k_len k) (k_cur_len k) current p))
        else next_chunk iov nr k current p
    end.

Definition stats_failed (p : sink_params) : bool :=
  truth (ooo p) || truth (bad_repeat p) || truth (bad_magic p).

Definition __check_pkt (iov : list iovec) (nr len : Z) (p : sink_params) : M sink_params :=
  v <- iov_at iov 0 ;;
  let cur_len := min_len len (iov_len v) in
  k <- iter (Datatypes.S (Datatypes.S (Z.to_nat len))) (check_round iov nr)
         (Chk 0 0 0 (len - cur_len) cur_len hdr_zero p) ;;
  let p := k_p k in
  if (2 <? check p) && stats_failed p then
    printf "%s with packet len %d iov nr %d\n"
      [AStr (if truth (ooo p) then "OoO"
             else if truth (bad_repeat p) then "bad repeated hdr" else "bad magic");
       AInt len; AInt nr] ;;
    exit EXIT_FAIL_RECV
  else
    when (truth (pgh_magic (k_current k))) (put_st (Statics (k_current k))) ;;
    ret p.

Definition check_pkt (iov : list iovec) (nr len : Z) (p : sink_params) : M sink_params :=
  if negb (truth (check p)) then ret p else __check_pkt iov nr len p.
End CheckPkt.
