(* ===== verification/CheckPktSpec.v ===== *)
(** * [__check_pkt] on a packet scattered over I/O vector elements

    The receive functions give the packet as equal, adjacent chunks of one
    buffer.  Whatever the chunk size, [__check_pkt] sees the packet as a
    sequence of 16-byte headers: [check_flat]. *)
From stdpp Require Import base list gmap strings.
From Stdlib Require Import ZArith Lia.
From S2P Require Import Prelude.
From S2P Require Import CLang.
From S2P Require Import Wp.
From S2P Require Import Libc.
From S2P Require Import Common.
From S2P Require Import CommonSocket.
From S2P Require Import Pktgen.
From S2P Require Import CheckPkt.

#[local] Open Scope Z_scope.
#[local] Open Scope c_scope.

(** ** The specification *)

(** The [k]-th header of the packet [d]. *)
Definition nth_hdr (d : list Z) (k : nat) : pktgen_hdr := hdr_of_bytes (get_bytes (16 * k) 16 d).

(** The number of complete headers in [len] bytes. *)
Definition n_hdrs (len : Z) : nat := Z.to_nat (len / 16).

(** Among the first [k] headers, those that differ from the first. *)
Definition differing (d : list Z) (k : nat) : Z :=
  Z.of_nat (length (filter (fun j => hdr_bytes (nth_hdr d 0) <> hdr_bytes (nth_hdr d j))
                      (seq 1 (k - 1)))).

Definition add_bad_repeat (n : Z) (p : sink_params) : sink_params :=
  set_stats (ooo p) (bad_magic p) (bad_repeat p + n) p.

(** The counters and the remembered header after the first [k] headers. *)
Definition after_hdrs (p : sink_params) (last : pktgen_hdr) (d : list Z) (k : nat) :
  sink_params * pktgen_hdr :=
  match k with
  | O => (p, last)
  | _ => let p1 := first_hdr last (nth_hdr d 0) p in
         (if check p <? 2 then p1 else add_bad_repeat (differing d k) p1, nth_hdr d 0)
  end.

Definition check_flat (p : sink_params) (last : pktgen_hdr) (d : list Z) : sink_params * pktgen_hdr :=
  after_hdrs p last d (n_hdrs (Z.of_nat (length d))).

Lemma check_first_hdr last h p : check (first_hdr last h p) = check p.
Proof. unfold first_hdr. repeat case_match; reflexivity. Qed.

Lemma add_bad_repeat_0 p : add_bad_repeat 0 p = p.
Proof. destruct p. unfold add_bad_repeat, set_stats. cbn. by rewrite Z.add_0_r. Qed.

Lemma differing_step d k :
  (1 <= k)%nat ->
  differing d (Datatypes.S k) =
  differing d k + (if bool_decide (hdr_bytes (nth_hdr d 0) = hdr_bytes (nth_hdr d k)) then 0 else 1).
Proof.
  intros Hk. unfold differing.
  replace (Datatypes.S k - 1)%nat with ((k - 1) + 1)%nat by lia.
  rewrite seq_app, filter_app, length_app. cbn [seq].
  replace (1 + (k - 1))%nat with k by lia.
  rewrite filter_cons, filter_nil. case_decide; case_bool_decide; cbn; try lia; congruence.
Qed.

(** ** The packet in memory *)
Section Spec.
Context {K : Kernel}.
#[local] Abbreviation W := (world statics).

(** [nr] chunks of [L] bytes from [base] in block [b]. *)
Definition chunks (b base L nr : Z) : list iovec :=
  (fun i => Iovec (Ptr b (base + i * L)) L) <$> seqZ 0 nr.

(** The received bytes are in the memory. *)
Definition holds_packet (w : W) (b base : Z) (d : list Z) : Prop :=
  exists l, w_mem w !! b = Some l /\ (Z.to_nat base + length d <= length l)%nat /\
    get_bytes (Z.to_nat base) (length d) l = Some <$> d.

Lemma iov_at_chunks F b base L nr i (Q : iovec -> W -> Prop) X w :
  0 <= i < nr -> Q (Iovec (Ptr b (base + i * L)) L) w ->
  wpg F (iov_at (chunks b base L nr) i) Q X w.
Proof.
  intros Hi HQ. unfold iov_at. rewrite (proj2 (Z.ltb_ge _ _)) by lia.
  unfold chunks. rewrite list_lookup_fmap, lookup_seqZ_lt by lia. cbn.
  rewrite Z2Nat.id by lia. done.
Qed.

(** Reading [n] bytes at position [pos] of the packet. *)
Lemma load_packet F b base d pos n (Q : list Z -> W -> Prop) X w :
  holds_packet w b base d -> 0 <= base -> 0 <= pos -> 0 <= n -> pos + n <= Z.of_nat (length d) ->
  Q (get_bytes (Z.to_nat pos) (Z.to_nat n) d) w ->
  wpg F (load (Ptr b (base + pos)) n) Q X w.
Proof.
  intros (l & Hb & Hl & Hd) Hbase Hpos Hn Hlen HQ.
  eapply load_spec; [done|lia|lia| |exact HQ].
  rewrite fmap_get_bytes, <- Hd, get_bytes_sub by lia. f_equal. lia.
Qed.

Section Check.
Variables (F : Prop) (b base L nr : Z) (d : list Z) (w : W).
#[local] Abbreviation len := (Z.of_nat (length d)).
Hypothesis HL : 0 < L.
Hypothesis Hnr : 0 < nr.
Hypothesis Hbase : 0 <= base.
Hypothesis Hcap : len <= nr * L.
Hypothesis Hmax : nr * L <= 2 ^ 31 - 32.
Hypothesis Hd : holds_packet w b base d.

Let iov := chunks b base L nr.

(** The header at position [16 * k], when it is complete. *)
Lemma get_hdr_spec w1 i offset cur rest k (Q : option pktgen_hdr -> W -> Prop) X :
  w_mem w1 = w_mem w -> 0 <= i < nr -> 0 <= offset ->
  i * L + offset = 16 * Z.of_nat k -> cur = Z.min L (len - i * L) ->
  cur + rest = len - i * L -> 16 * Z.of_nat k + 16 <= len ->
  Q (Some (nth_hdr d k)) w1 ->
  wpg F (get_hdr iov nr i offset (cur - offset)) Q X w1.
Proof using HL Hnr Hbase Hcap Hmax Hd.
  intros Hw Hi Ho Hpos Hcur Hrest Hk HQ.
  assert (Hd1 : holds_packet w1 b base d) by (unfold holds_packet; by rewrite Hw).
  unfold get_hdr, sizeof_pktgen_hdr. wp_step. apply iov_at_chunks; [done|]. cbn [iov_base].
  unfold ptr_add. cbn [p_block p_off].
  replace (base + i * L + offset) with (base + 16 * Z.of_nat k) by lia.
  assert (Hfc : (0 <= cur - offset < 16 /\ u64 (cur - offset) < 16) \/
                (~ 0 <= cur - offset < 16 /\ 16 <= u64 (cur - offset))).
  { destruct (Z.lt_ge_cases (cur - offset) 0) as [Hneg|Hnn].
    - right. split; [lia|]. unfold u64. rewrite <- (Z.mod_add _ 1) by lia.
      rewrite Z.mod_small; nia.
    - rewrite u64_id by nia. lia. }
  destruct Hfc as [[Hfc Hu]|[Hfc Hu]].
  - rewrite (proj2 (Z.ltb_lt _ _)) by done. wp_step.
    eapply load_packet; [exact Hd1|lia|lia|lia|lia|].
    rewrite (proj2 (Z.ltb_lt 0 _)) by lia.
    assert (Hnext : (i + 1) * L = 16 * Z.of_nat k + (cur - offset)) by nia.
    assert (i + 1 < nr) by nia.
    rewrite (proj2 (Z.leb_gt _ _)) by lia.
    wp_step. apply iov_at_chunks; [lia|]. cbn [iov_base]. wp_step. rewrite Hnext.
    eapply load_packet; [exact Hd1|lia|lia|lia|lia|]. wp_step.
    replace (nth_hdr d k) with (hdr_of_bytes
      (get_bytes (Z.to_nat (16 * Z.of_nat k)) (Z.to_nat (cur - offset)) d ++
       get_bytes (Z.to_nat (16 * Z.of_nat k + (cur - offset))) (Z.to_nat (16 - (cur - offset))) d)) in HQ.
    { exact HQ. }
    unfold nth_hdr. f_equal.
    rewrite Z2Nat.inj_add by lia. rewrite <- get_bytes_split. f_equal; lia.
  - rewrite (proj2 (Z.ltb_ge _ _)) by done. wp_step.
    eapply load_packet; [exact Hd1|lia|lia|lia|lia|]. wp_step.
    replace (Z.to_nat (16 * Z.of_nat k)) with (16 * k)%nat by lia. exact HQ.
Qed.

Variables (p : sink_params).
#[local] Abbreviation last0 := (last (w_st w)).
#[local] Abbreviation n := (n_hdrs len).

(** The state after [k] rounds, and at the end of the loop. *)
Definition at_round (k : nat) (c : chk) (w1 : W) : Prop :=
  0 <= k_i c < nr /\ 0 <= k_offset c /\ k_i c * L + k_offset c = 16 * Z.of_nat k /\
  k_cur_len c = Z.min L (len - k_i c * L) /\ k_cur_len c + k_len c = len - k_i c * L /\
  k_hdr c = Z.of_nat k /\ 16 * Z.of_nat k <= len /\
  (k = O -> k_current c = hdr_zero) /\
  ((0 < k)%nat -> k_current c = nth_hdr d 0 /\ 2 <= check p) /\
  (k_p c, last (w_st w1)) = after_hdrs p last0 d k /\ w1 = w_set_st (w_st w1) w.

Definition at_end (c : chk) (w1 : W) : Prop :=
  (k_p c, last (w_st w1)) = after_hdrs p last0 d n /\
  (k_current c = hdr_zero \/ k_current c = last (w_st w1)) /\ w1 = w_set_st (w_st w1) w.

(** What one header does, once read. *)
Lemma after_hdrs_step k p1 last1 :
  (p1, last1) = after_hdrs p last0 d k -> ((0 < k)%nat -> 2 <= check p) -> 2 <= check p ->
  (if k_hdr (Chk 0 0 (Z.of_nat k) 0 0 hdr_zero p) =? 0
   then (first_hdr last1 (nth_hdr d k) p1, nth_hdr d k)
   else (if bool_decide (hdr_bytes (nth_hdr d 0) = hdr_bytes (nth_hdr d k)) then p1
         else inc_bad_repeat p1, last1)) = after_hdrs p last0 d (Datatypes.S k).
Proof.
  intros Hp Hk Hc. cbn [k_hdr]. destruct k as [|k].
  - injection Hp as -> ->. cbn. rewrite (proj2 (Z.ltb_ge _ _)) by done.
    unfold differing. cbn. by rewrite add_bad_repeat_0.
  - rewrite (proj2 (Z.eqb_neq _ _)) by lia. cbn [after_hdrs] in *.
    rewrite (proj2 (Z.ltb_ge _ _)) in * by done. injection Hp as -> ->.
    rewrite (differing_step d (Datatypes.S k)) by lia.
    case_bool_decide; [by rewrite Z.add_0_r|].
    unfold inc_bad_repeat, add_bad_repeat, set_stats. cbn. do 2 f_equal. lia.
Qed.

Lemma n_hdrs_eq k : 16 * Z.of_nat k <= len -> len < 16 * Z.of_nat k + 16 -> n = k.
Proof.
  intros H1 H2. unfold n_hdrs. replace (len / 16) with (Z.of_nat k); [lia|].
  apply Z.div_unique with (len - 16 * Z.of_nat k); lia.
Qed.

(** Moving on: the position of the next header. *)
Lemma next_round k c p1 current1 w1 :
  at_round k c w1 -> 16 * Z.of_nat k + 16 <= len -> 2 <= check p ->
  current1 = nth_hdr d 0 -> forall w2,
  (p1, last (w_st w2)) = after_hdrs p last0 d (Datatypes.S k) -> w2 = w_set_st (w_st w2) w ->
  wpg F (next_chunk iov nr c current1 p1)
    (fun r w' => match r with inl c' => at_round (Datatypes.S k) c' w' | inr c' => at_end c' w' end)
    (fun _ _ => False) w2.
Proof using HL Hnr Hbase Hcap Hmax Hd.
  intros (Hi & Ho & Hpos & Hcur & Hrest & Hhdr & _ & _ & _ & _ & _) Hk Hc -> w2 Hp Hw2.
  unfold next_chunk, sizeof_pktgen_hdr. cbn zeta.
  wp_step. apply iov_at_chunks; [done|]. cbn [iov_len iov_base].
  assert (k_offset c + 16 < 2 ^ 31) by nia.
  rewrite u64_id by lia. cbn zeta.
  destruct (Z.leb_spec L (k_offset c + 16)) as [Hmove|Hstay].
  - rewrite i32_id by nia. assert (Hfull : k_cur_len c = L) by lia.
    destruct (Z.leb_spec nr (k_i c + 1)) as [Hend|Hgo].
    + wp_step. split; [|split; [by right; injection Hp as _ ->|done]].
      cbn [k_p]. rewrite (n_hdrs_eq (Datatypes.S k)); [done|nia|nia].
    + wp_step. apply iov_at_chunks; [lia|]. cbn [iov_len iov_base]. wp_step.
      assert (min_len (k_len c) L = Z.min L (k_len c)) as ->.
      { unfold min_len. rewrite u64_id by nia. destruct (Z.ltb_spec (k_len c) L); rewrite i32_id; nia. }
      unfold at_round. cbn. split_and!; try done; try nia.
  - wp_step. unfold at_round. cbn. split_and!; try done; try nia.
Qed.

Lemma check_round_spec k c w1 :
  at_round k c w1 ->
  wpg F (check_round iov nr c)
    (fun r w' => match r with inl c' => at_round (Datatypes.S k) c' w' | inr c' => at_end c' w' end)
    (fun _ _ => False) w1.
Proof using HL Hnr Hbase Hcap Hmax Hd.
  intros Hr. pose proof Hr as (Hi & Ho & Hpos & Hcur & Hrest & Hhdr & Hle & Hz & Hc & Hp & Hw).
  unfold check_round. cbn zeta.
  replace (k_cur_len c - k_offset c + k_len c) with (len - 16 * Z.of_nat k) by lia.
  rewrite u64_id by nia. unfold sizeof_pktgen_hdr at 1.
  destruct (Z.ltb_spec (len - 16 * Z.of_nat k) 16) as [Hend|Hgo].
  { wp_step. split; [by rewrite (n_hdrs_eq k) by lia|]. split; [|done].
    destruct k as [|k]; [left; auto|right]. destruct Hc as [-> _]; [lia|]. by injection Hp as _ ->. }
  wp_step. eapply get_hdr_spec; try done; [by rewrite Hw|lia|].
  wp_step. destruct (Z.eqb_spec (k_hdr c) 0) as [E|E].
  - assert (k = O) as -> by lia. injection Hp as Hp1 Hp2. do 4 wp_step.
    rewrite check_first_hdr, Hp1. destruct (Z.ltb_spec (check p) 2) as [Hlow|Hhigh].
    + repeat wp_step. split; [|split; [left; cbn; auto|by rewrite Hw]].
      cbn. rewrite Hp2. unfold n_hdrs.
      destruct (Z.to_nat (len / 16)) as [|m] eqn:Em; [|cbn; by rewrite (proj2 (Z.ltb_lt _ _))].
      assert (1 <= len / 16) by (apply Z.div_le_lower_bound; lia). lia.
    + repeat wp_step. eapply next_round; [exact Hr|lia|done|done| |by rewrite Hw].
      pose proof (after_hdrs_step 0 p last0 eq_refl) as Hs. cbn in Hs. cbn.
      rewrite Hp2. by apply Hs.
  - destruct Hc as [Hcur0 Hcheck]; [lia|]. rewrite Hcur0.
    pose proof (after_hdrs_step k _ _ Hp (fun _ => Hcheck) Hcheck) as Hs. cbn [k_hdr] in Hs.
    rewrite (proj2 (Z.eqb_neq _ _)) in Hs by lia.
    destruct (bool_decide _) eqn:Eb; cbn [negb]; repeat wp_step.
    all: eapply next_round; [exact Hr|lia|done|done|exact Hs|done].
Qed.

(** The whole check: the counters of [check_flat], or the end of the process
    when a check failed at level 3. *)
Lemma check_pkt_spec_aux (Q : sink_params -> W -> Prop) (X : Z -> W -> Prop) :
  let '(p', last') := check_flat p last0 d in
  ((check p <= 2 \/ stats_failed p' = false) -> Q p' (w_set_st (Statics last') w)) ->
  (2 < check p -> stats_failed p' = true -> forall o, X EXIT_FAIL_RECV (w_print o (w_set_st (Statics last') w))) ->
  wpg F (__check_pkt iov nr len p) Q X w.
Proof using HL Hnr Hbase Hcap Hmax Hd.
  destruct (check_flat p last0 d) as [p' last'] eqn:Ef. intros HQ HX.
  unfold __check_pkt. wp_step. apply iov_at_chunks; [lia|]. cbn [iov_len]. wp_step.
  assert (min_len len L = Z.min L len) as ->.
  { unfold min_len. rewrite u64_id by nia. destruct (Z.ltb_spec len L); rewrite i32_id; nia. }
  apply (wp_iter (fun m c w1 => exists k, at_round k c w1 /\ (m + k = Datatypes.S (Datatypes.S (Z.to_nat len)))%nat)).
  - exists O. split; [|lia]. unfold at_round. cbn. split_and!; try done; try lia. by destruct w as [? ? ? ? ? ? []].
  - intros c w1 (k & (_ & _ & _ & _ & _ & _ & Hle & _) & Hm). lia.
  - intros m c w1 (k & Hk & Hm). eapply wp_mono; [by apply check_round_spec| |done].
    intros [c'|c'] w' H; [exists (Datatypes.S k); split; [done|lia]|].
    destruct H as (Hp & Hcur & Hw). fold (check_flat p last0 d) in Hp. rewrite Ef in Hp.
    injection Hp as Hp1 Hp2. assert (w' = w_set_st (Statics last') w) as ->.
    { rewrite Hw, <- Hp2. f_equal. by destruct (w_st w'). }
    assert (Hchk : check (k_p c') = check p).
    { rewrite Hp1. change p' with (p', last').1. rewrite <- Ef. unfold check_flat, after_hdrs.
      destruct (n_hdrs _); [done|]. cbn. case_match; cbn; by rewrite ?check_first_hdr. }
    rewrite Hchk, Hp1. destruct (Z.ltb_spec 2 (check p)) as [Hlt|Hge]; cbn [andb].
    + destruct (stats_failed p') eqn:Es.
      * repeat wp_step. by apply HX.
      * do 2 wp_step; wp_steps; try (apply HQ; by right).
        destruct Hcur as [Hcur|Hcur]; [by rewrite Hcur in *|]. rewrite Hcur. cbn. apply HQ. by right.
    + do 2 wp_step; wp_steps; try (apply HQ; by left).
      destruct Hcur as [Hcur|Hcur]; [by rewrite Hcur in *|]. rewrite Hcur. cbn. apply HQ. by left.
Qed.
End Check.
End Spec.
