(* ===== verification/FloodSink.v ===== *)
(** * udp_flood meets udp_sink: the packets of a flood under the check of the
    sink.

    [sink_checks] is the sink checking a sequence of packets; the packets of
    [udp_flood --pktgen-header] pass, whatever the level; a missing packet is
    detected at level 3, a damaged one at level 2. *)
From stdpp Require Import base list gmap strings.
From Stdlib Require Import ZArith Lia.
From S2P Require Import Prelude.
From S2P Require Import CLang.
From S2P Require Import Wp.
From S2P Require Import Libc.
From S2P Require Import Common.
From S2P Require Import CommonSocket.
From S2P Require Import Scripted.
From S2P Require Import Pktgen.
From S2P Require Import UdpFloodSpec.
From S2P Require Import CheckPkt.
From S2P Require Import CheckPktSpec.

#[local] Open Scope Z_scope.
#[local] Open Scope c_scope.

(** The sink after the packets [ds]: counters and last header. *)
Fixpoint sink_checks (p : sink_params) (last : pktgen_hdr) (ds : list (list Z)) :
  sink_params * pktgen_hdr :=
  match ds with
  | [] => (p, last)
  | d :: ds' => let '(p', last') := check_flat p last d in sink_checks p' last' ds'
  end.

(** The bytes of the packets of [flood_packets]. *)
Definition flood_bytes (n s : Z) (t : timespec) : list Z :=
  pattern (hdr_bytes (flood_hdr s t)) (Z.to_nat n).

Definition flood_stream (n s0 : Z) (ts : list timespec) : list (list Z) :=
  imap (fun i t => flood_bytes n (u32 (s0 + Z.of_nat i)) t) ts.

Lemma flood_stream_packets n s0 ts :
  flood_packets n s0 ts = map (fun d : list Z => map Some d) (flood_stream n s0 ts).
Proof.
  symmetry. apply fmap_imap.
Qed.

(** A time whose fields a header can hold, and the order of times. *)
Definition time_ok (t : timespec) : Prop := 0 <= ts_sec t < 2 ^ 32 /\ 0 <= ts_nsec t < 10 ^ 9.
Definition time_le (t1 t2 : timespec) : Prop :=
  ts_sec t1 < ts_sec t2 \/ (ts_sec t1 = ts_sec t2 /\ ts_nsec t1 <= ts_nsec t2).

Lemma flood_hdr_wf s t : is_u32 s -> hdr_wf (flood_hdr s t).
Proof.
  intros Hs. unfold hdr_wf, flood_hdr. cbn. split_and!; try apply u32_range; [|done].
  apply htonl_range.
Qed.

(** Every complete header of a flood packet is the packet's header. *)
Lemma nth_hdr_flood n s t k :
  is_u32 s -> (16 * k + 16 <= Z.to_nat n)%nat -> nth_hdr (flood_bytes n s t) k = flood_hdr s t.
Proof.
  intros Hs Hk. unfold nth_hdr, flood_bytes, get_bytes.
  pose proof (pattern_chunk (hdr_bytes (flood_hdr s t)) (Z.to_nat n) k) as H.
  rewrite length_hdr_bytes in H. replace (16 * k)%nat with (k * 16)%nat by lia.
  rewrite H by lia. apply hdr_of_bytes_bytes, flood_hdr_wf, Hs.
Qed.

Lemma differing_flood n s t k :
  is_u32 s -> (16 * k <= Z.to_nat n)%nat -> differing (flood_bytes n s t) k = 0.
Proof.
  intros Hs Hk. unfold differing.
  assert (filter (fun j => hdr_bytes (nth_hdr (flood_bytes n s t) 0) <>
      hdr_bytes (nth_hdr (flood_bytes n s t) j)) (seq 1 (k - 1)) = []) as ->; [|done].
  apply filter_none, Forall_forall. intros j Hj%elem_of_seq Hne. apply Hne.
  by rewrite !nth_hdr_flood by (done || lia).
Qed.

Definition with_first_hdr (last h : pktgen_hdr) (p : sink_params) : sink_params * pktgen_hdr :=
  (first_hdr last h p, h).

Lemma check_flat_flood p last n s t :
  is_u32 s -> 16 <= n -> check_flat p last (flood_bytes n s t) = with_first_hdr last (flood_hdr s t) p.
Proof.
  intros Hs Hn. unfold check_flat, after_hdrs, with_first_hdr.
  assert (Hlen : length (flood_bytes n s t) = Z.to_nat n) by apply length_pattern.
  rewrite Hlen, Z2Nat.id by lia.
  assert (Hk : (1 <= n_hdrs n /\ 16 * n_hdrs n <= Z.to_nat n)%nat).
  { unfold n_hdrs. pose proof (Z.div_mod n 16). pose proof (Z.mod_pos_bound n 16).
    assert (1 <= n / 16) by (apply Z.div_le_lower_bound; lia). lia. }
  destruct (n_hdrs n) as [|k] eqn:Ek; [lia|].
  rewrite nth_hdr_flood by (done || lia). case_match; [done|].
  rewrite differing_flood by (done || lia). by rewrite add_bad_repeat_0.
Qed.

(** The magic number of a flood passes. *)
Lemma first_hdr_flood last s t p :
  first_hdr last (flood_hdr s t) p =
  (let p := if out_of_order last (flood_hdr s t) then inc_ooo p else p in
   if gap (check p) last (flood_hdr s t) then inc_ooo p else p).
Proof.
  unfold first_hdr. cbn [flood_hdr pgh_magic]. rewrite ntohl_htonl.
  by replace (u32 PKTGEN_MAGIC =? PKTGEN_MAGIC) with true.
Qed.

Lemma usec_mono a b : 0 <= a <= b -> b < 10 ^ 9 -> u32 (Z.quot a 1000) <= u32 (Z.quot b 1000).
Proof.
  intros Hab Hb. rewrite !Z.quot_div_nonneg by lia.
  pose proof (Z.div_le_mono a b 1000). pose proof (Z.div_pos a 1000).
  assert (b / 1000 < 2 ^ 32) by (apply Z.div_lt_upper_bound; lia).
  rewrite !u32_id; lia.
Qed.

(** Successive packets of a flood are in order, also where the sequence
    number wraps. *)
Lemma flood_in_order s t1 t2 :
  is_u32 s -> time_ok t1 -> time_ok t2 -> time_le t1 t2 ->
  out_of_order (flood_hdr s t1) (flood_hdr (u32 (s + 1)) t2) = false.
Proof.
  intros Hs [H1 H1'] [H2 H2'] Hle. unfold out_of_order, flood_hdr. cbn.
  rewrite !u32_id with (z := ts_sec _) by lia.
  assert (Hu : ts_sec t1 = ts_sec t2 -> u32 (Z.quot (ts_nsec t1) 1000) <= u32 (Z.quot (ts_nsec t2) 1000)).
  { intros E. apply usec_mono; [|lia]. unfold time_le in Hle. lia. }
  assert (Hw : (u32 (s + 1) <? s) && (s <? SEQ_WRAP) = false).
  { unfold SEQ_WRAP, is_u32 in *. destruct (Z.eq_dec s (2 ^ 32 - 1)) as [->|].
    - reflexivity.
    - rewrite u32_id by lia. rewrite (proj2 (Z.ltb_ge _ _)) by lia. done. }
  destruct (truth _); [|done]. cbn [andb].
  rewrite (proj2 (Z.ltb_ge (ts_sec t2) (ts_sec t1))) by (unfold time_le in Hle; lia). cbn [orb].
  destruct (Z.eqb_spec (ts_sec t2) (ts_sec t1)) as [E|]; [|done]. cbn [andb].
  rewrite (proj2 (Z.ltb_ge _ _)) by (apply Hu; lia). cbn [orb].
  by rewrite <- andb_assoc, Hw, andb_false_r.
Qed.

Lemma gap_flood c s s' t1 t2 :
  is_u32 s ->
  gap c (flood_hdr s t1) (flood_hdr s' t2) = (2 <? c) && negb (s' =? u32 (s + 1)).
Proof.
  intros _. unfold gap. cbn [flood_hdr pgh_magic seq_num].
  replace (truth (htonl PKTGEN_MAGIC)) with true by reflexivity. by rewrite andb_true_r.
Qed.

(** The state before the first packet: nothing seen, or the packet before. *)
Definition ready (last : pktgen_hdr) (s0 : Z) (ts : list timespec) : Prop :=
  pgh_magic last = 0 \/
  exists s t, is_u32 s /\ time_ok t /\ last = flood_hdr s t /\ s0 = u32 (s + 1) /\
    from_option (time_le t) True (head ts).

Lemma sink_accepts_aux n s0 ts p last :
  16 <= n -> is_u32 s0 -> Forall time_ok ts ->
  (forall i t1 t2, ts !! i = Some t1 -> ts !! S i = Some t2 -> time_le t1 t2) ->
  ready last s0 ts -> (sink_checks p last (flood_stream n s0 ts)).1 = p.
Proof.
  intros Hn. revert s0 last. induction ts as [|t ts IH]; intros s0 last Hs Hok Hmono Hr; [done|].
  unfold flood_stream. rewrite imap_cons. cbn [sink_checks]. rewrite Z.add_0_r, u32_id by done.
  rewrite check_flat_flood by done. unfold with_first_hdr.
  inversion Hok as [|? ? Ht Hts]; subst.
  assert (first_hdr last (flood_hdr s0 t) p = p) as ->.
  { rewrite first_hdr_flood. cbv zeta. destruct Hr as [Hz|(s & t0 & Hs' & Ht0 & -> & -> & Hle)].
    - unfold out_of_order, gap. by rewrite Hz, andb_false_r.
    - rewrite flood_in_order by done. rewrite gap_flood by done. by rewrite Z.eqb_refl, andb_false_r. }
  erewrite imap_ext; [apply (IH (u32 (s0 + 1)) (flood_hdr s0 t))|].
  - apply u32_range.
  - done.
  - intros i t1 t2 H1 H2. by apply (Hmono (S i)).
  - right. exists s0, t. split_and!; try done. destruct ts as [|t' ts]; [done|]. by apply (Hmono 0%nat).
  - intros i t' _. cbn. rewrite u32_add_l. do 2 f_equal. lia.
Qed.

Lemma flood_packets_stream n s0 ts ds :
  flood_packets n s0 ts = map (map Some) ds -> ds = flood_stream n s0 ts.
Proof.
  rewrite flood_stream_packets. intros H. symmetry in H. revert H.
  change (map (map Some) ds) with ((fun d : list Z => Some <$> d) <$> ds).
  intros H. apply list_eq. intros i. apply (f_equal (.!! i)) in H. revert H.
  change (map ?f ?l) with (f <$> l). rewrite !list_lookup_fmap.
  destruct (ds !! i) as [d|], (flood_stream n s0 ts !! i) as [d'|]; cbn; intros H; try done.
  injection H as H. f_equal. by apply (inj (fmap Some)) in H.
Qed.

Lemma sink_checks_app p last ds1 ds2 :
  sink_checks p last (ds1 ++ ds2) =
  let '(p', last') := sink_checks p last ds1 in sink_checks p' last' ds2.
Proof.
  revert p last. induction ds1 as [|d ds1 IH]; intros p last; [done|].
  cbn. destruct (check_flat p last d). apply IH.
Qed.

(** The last header after a flood. *)
Lemma sink_checks_last n s0 ts t p last :
  16 <= n -> is_u32 s0 ->
  (sink_checks p last (flood_stream n s0 (ts ++ [t]))).2 =
  flood_hdr (u32 (s0 + Z.of_nat (length ts))) t.
Proof.
  intros Hn Hs. unfold flood_stream. rewrite imap_app, sink_checks_app.
  destruct (sink_checks p last _) as [p1 last1]. cbn. rewrite Nat.add_0_r.
  rewrite check_flat_flood by (apply u32_range || done). done.
Qed.

Lemma flood_stream_app n s0 ts ts' :
  flood_stream n s0 (ts ++ ts') =
  flood_stream n s0 ts ++ flood_stream n (u32 (s0 + Z.of_nat (length ts))) ts'.
Proof.
  unfold flood_stream. rewrite imap_app. f_equal. apply imap_ext. intros i t _. cbn.
  rewrite u32_add_l. do 2 f_equal. lia.
Qed.

(** Times in order: every later reading is not before an earlier one. *)
Definition times_sorted (ts : list timespec) : Prop :=
  forall i t1 t2, ts !! i = Some t1 -> ts !! S i = Some t2 -> time_le t1 t2.

Lemma times_sorted_app ts1 ts2 : times_sorted (ts1 ++ ts2) -> times_sorted ts1 /\ times_sorted ts2.
Proof.
  intros H. split; intros i t1 t2 H1 H2.
  - apply (H i); by apply lookup_app_l_Some.
  - apply (H (length ts1 + i)%nat); rewrite lookup_app_r by lia.
    + by replace (length ts1 + i - length ts1)%nat with i by lia.
    + by replace (S (length ts1 + i) - length ts1)%nat with (S i) by lia.
Qed.

Lemma time_le_trans t1 t2 t3 : time_le t1 t2 -> time_le t2 t3 -> time_le t1 t3.
Proof. unfold time_le. lia. Qed.

Lemma times_sorted_le ts i j t1 t2 :
  times_sorted ts -> (i < j)%nat -> ts !! i = Some t1 -> ts !! j = Some t2 -> time_le t1 t2.
Proof.
  intros Hs Hij H1. revert t2. induction Hij as [|j Hij IH]; intros t2 H2; [by apply (Hs i)|].
  destruct (ts !! j) as [t|] eqn:Et.
  - eapply time_le_trans; [by apply IH|by apply (Hs j)].
  - apply lookup_ge_None in Et. apply lookup_lt_Some in H2. lia.
Qed.

(** A jump over [k] packets is in order, but not the successor. *)
Lemma first_hdr_jump s k t1 t2 p :
  is_u32 s -> 1 <= k <= 10 ^ 9 -> time_ok t1 -> time_ok t2 -> time_le t1 t2 ->
  first_hdr (flood_hdr s t1) (flood_hdr (u32 (s + 1 + k)) t2) p =
  if 2 <? check p then inc_ooo p else p.
Proof.
  intros Hs Hk H1 H2 Hle. rewrite first_hdr_flood. cbv zeta.
  assert (out_of_order (flood_hdr s t1) (flood_hdr (u32 (s + 1 + k)) t2) = false) as ->.
  { pose proof (flood_in_order s t1 t2 Hs H1 H2 Hle) as H. revert H.
    unfold out_of_order, flood_hdr. cbn. intros H.
    destruct (truth _); [|done]. cbn [andb] in *.
    apply orb_false_iff in H as [H _]. rewrite H. cbn [orb].
    assert ((u32 (s + 1 + k) <? s) && (s <? SEQ_WRAP) = false) as Hw.
    { unfold SEQ_WRAP, is_u32 in *. destruct (Z.lt_ge_cases (s + 1 + k) (2 ^ 32)).
      - rewrite u32_id by lia. rewrite (proj2 (Z.ltb_ge _ _)) by lia. done.
      - rewrite (proj2 (Z.ltb_ge s _)) by lia. apply andb_false_r. }
    by rewrite <- andb_assoc, Hw, andb_false_r. }
  rewrite gap_flood by done.
  assert (negb (u32 (s + 1 + k) =? u32 (s + 1)) = true) as ->; [|by rewrite andb_true_r].
  destruct (Z.eqb_spec (u32 (s + 1 + k)) (u32 (s + 1))) as [E|]; [|done].
  unfold is_u32 in Hs. mach.
Qed.

(** Some packets in the middle of the flood are missing. *)
Lemma sink_lost_aux n s0 ts1 tl ts2 p last :
  16 <= n -> is_u32 s0 -> Forall time_ok (ts1 ++ tl ++ ts2) -> times_sorted (ts1 ++ tl ++ ts2) ->
  ts1 <> [] -> ts2 <> [] -> 1 <= Z.of_nat (length tl) <= 10 ^ 9 -> pgh_magic last = 0 ->
  (sink_checks p last
     (flood_stream n s0 ts1 ++ flood_stream n (u32 (s0 + Z.of_nat (length (ts1 ++ tl)))) ts2)).1 =
  if 2 <? check p then inc_ooo p else p.
Proof.
  intros Hn Hs Hok Hsort H1 H2 Hl Hz.
  apply Forall_app in Hok as [Hok1 Hok2]. apply Forall_app in Hok2 as [_ Hok2].
  destruct (times_sorted_app _ _ Hsort) as [Hs1 Hs2]. destruct (times_sorted_app _ _ Hs2) as [_ Hs3].
  destruct (exists_last H1) as (ts & u & ->). destruct ts2 as [|v ts2]; [done|].
  pose proof Hok1 as [Hok0 Hoku]%Forall_app. inversion Hoku as [|? ? Hu _]; subst.
  inversion Hok2 as [|? ? Hv Hok3]; subst.
  rewrite sink_checks_app.
  pose proof (sink_accepts_aux n s0 (ts ++ [u]) p last Hn Hs) as Ha.
  pose proof (sink_checks_last n s0 ts u p last Hn Hs) as Hla.
  destruct (sink_checks p last (flood_stream n s0 (ts ++ [u]))) as [p1 last1]. cbn in Ha, Hla.
  rewrite Ha, Hla; [|done|done|by left].
  set (s := u32 (s0 + Z.of_nat (length ts))). set (k := Z.of_nat (length tl)) in *.
  replace (u32 (s0 + Z.of_nat (length ((ts ++ [u]) ++ tl)))) with (u32 (s + 1 + k)).
  2: { subst s k. rewrite <- Z.add_assoc, u32_add_l, !length_app. cbn. f_equal. lia. }
  unfold flood_stream. rewrite imap_cons. cbn [sink_checks]. rewrite Z.add_0_r, u32_u32.
  rewrite check_flat_flood by (apply u32_range || done). unfold with_first_hdr.
  assert (Huv : time_le u v).
  { apply (times_sorted_le _ (length ts) (length ((ts ++ [u]) ++ tl)) u v Hsort).
    - rewrite !length_app. cbn. lia.
    - rewrite lookup_app_l by (rewrite length_app; cbn; lia). by rewrite list_lookup_middle.
    - by rewrite app_assoc, list_lookup_middle. }
  rewrite first_hdr_jump by (apply u32_range || done).
  set (p2 := if 2 <? check p then inc_ooo p else p).
  erewrite imap_ext; [apply (sink_accepts_aux n (u32 (u32 (s + 1 + k) + 1)) ts2 p2)|]; try done.
  - apply u32_range.
  - intros i a b Ha' Hb'. by apply (Hs3 (S i)).
  - right. exists (u32 (s + 1 + k)), v. split_and!; try done; [apply u32_range|].
    destruct ts2 as [|x ts2]; [done|]. by apply (Hs3 0%nat).
  - intros i x _. cbn. rewrite !u32_add_l, <- !Z.add_assoc, !u32_add_l. do 2 f_equal. lia.
Qed.
