(* ===== verification/CheckProps.v ===== *)
(** * The check of received packets: properties *)
From stdpp Require Import base list gmap strings.
From Stdlib Require Import ZArith Lia.
From S2P Require Import Prelude.
From S2P Require Import CLang.
From S2P Require Import Wp.
From S2P Require Import Libc.
From S2P Require Import Common.
From S2P Require Import CommonSocket.
From S2P Require Import Scripted.
From S2P Require Import Pktgen.
From S2P Require Import UdpFloodSpec.
From S2P Require Import CheckPkt.
From S2P Require Import CheckPktSpec.
From S2P Require Import FloodSink.

#[local] Open Scope Z_scope.
#[local] Open Scope c_scope.

(** Parameters of a sink at the check level [level]. *)
Definition level_params (level : Z) : sink_params :=
  SinkParams (ParamsCommon 0) 0 1 32 1000000 1 0 0 0 0 0 (-1) (-1) level zero_sockaddr 0 0 4096
    0 0 0 0 0.

(** ** Damaged packets *)
Lemma hdr_bytes_nth d k :
  Forall is_byte d -> (16 * k + 16 <= length d)%nat ->
  hdr_bytes (nth_hdr d k) = get_bytes (16 * k) 16 d.
Proof.
  intros Hb Hk. unfold nth_hdr. apply hdr_bytes_of_bytes; [by apply length_get_bytes|].
  unfold get_bytes. by apply Forall_take, Forall_drop.
Qed.

Lemma differing_zero d k :
  differing d k = 0 <->
  forall j, (1 <= j < k)%nat -> hdr_bytes (nth_hdr d 0) = hdr_bytes (nth_hdr d j).
Proof.
  unfold differing. split.
  - intros H j Hj. destruct (decide (hdr_bytes (nth_hdr d 0) = hdr_bytes (nth_hdr d j))) as [|Hne]; [done|].
    assert (Hin : j ∈ filter (fun j => hdr_bytes (nth_hdr d 0) <> hdr_bytes (nth_hdr d j)) (seq 1 (k - 1))).
    { apply list_elem_of_filter. split; [done|]. apply elem_of_seq. lia. }
    destruct (filter _ _); [by apply elem_of_nil in Hin|]. cbn in H. lia.
  - intros H. assert (filter (fun j => hdr_bytes (nth_hdr d 0) <> hdr_bytes (nth_hdr d j)) (seq 1 (k - 1)) = []) as ->; [|done].
    apply filter_none, Forall_forall. intros j Hj%elem_of_seq Hne. apply Hne, H. lia.
Qed.

(** All headers equal: the packet repeats its first sixteen bytes. *)
Lemma repeats_pattern d k :
  Forall is_byte d -> (16 * k <= length d)%nat ->
  (forall j, (1 <= j < k)%nat -> hdr_bytes (nth_hdr d 0) = hdr_bytes (nth_hdr d j)) <->
  take (16 * k) d = pattern (take 16 d) (16 * k).
Proof.
  intros Hb Hk. destruct k as [|k]; [split; [done|lia]|].
  assert (H16 : length (take 16 d) = 16%nat) by (rewrite length_take; lia).
  assert (Hget : forall j, (j < S k)%nat -> hdr_bytes (nth_hdr d j) = get_bytes (16 * j) 16 d).
  { intros j Hj. apply hdr_bytes_nth; [done|lia]. }
  split.
  - intros H. apply list_eq. intros i. destruct (decide (i < 16 * S k)%nat) as [Hi|Hi].
    + rewrite lookup_take_lt, pattern_lookup, H16 by done.
      pose proof (Nat.div_mod_eq i 16) as Hdm. pose proof (Nat.mod_upper_bound i 16).
      assert (Hj : get_bytes (16 * (i / 16)) 16 d = take 16 d).
      { destruct (decide (i / 16 = 0)%nat) as [->|]; [done|].
        rewrite <- Hget by lia. rewrite <- H by lia. by rewrite Hget by lia. }
      apply (f_equal (.!! (i mod 16)%nat)) in Hj. unfold get_bytes in Hj.
      rewrite !lookup_take_lt, lookup_drop in Hj by lia.
      rewrite Hdm at 1. rewrite Hj. destruct (d !! (i mod 16)%nat) as [x|] eqn:Ex.
      * f_equal. symmetry. apply nth_lookup_Some. by rewrite lookup_take_lt by lia.
      * apply lookup_ge_None in Ex. lia.
    + rewrite !lookup_ge_None_2; [done|rewrite length_pattern; lia|rewrite length_take; lia].
  - intros H j Hj. rewrite !Hget by lia.
    assert (Hc : forall m, (m < S k)%nat -> get_bytes (16 * m) 16 d = take 16 d).
    { intros m Hm. pose proof (pattern_chunk (take 16 d) (16 * S k) m) as Hp. rewrite H16 in Hp.
      rewrite <- H in Hp. replace (m * 16)%nat with (16 * m)%nat in Hp by lia.
      rewrite <- Hp at 1 by lia. unfold get_bytes. rewrite skipn_firstn_comm, take_take.
      f_equal. lia. }
    rewrite !Hc by lia. done.
Qed.

Lemma bad_repeat_first last h p : bad_repeat (first_hdr last h p) = bad_repeat p.
Proof. unfold first_hdr. by repeat case_match. Qed.

(** [check_flat] finds no bad repetition exactly in the packets that repeat
    their first sixteen bytes over all their complete headers. *)
Lemma flat_repeats (p : sink_params) (last : pktgen_hdr) (d : list Z) :
  Forall is_byte d -> 2 <= check p ->
  bad_repeat (check_flat p last d).1 = bad_repeat p <->
  take (16 * n_hdrs (Z.of_nat (length d))) d =
    pattern (take 16 d) (16 * n_hdrs (Z.of_nat (length d))).
Proof.
  intros Hb Hc. set (k := n_hdrs _).
  assert (Hk : (16 * k <= length d)%nat).
  { subst k. unfold n_hdrs. pose proof (Z.div_mod (Z.of_nat (length d)) 16).
    pose proof (Z.mod_pos_bound (Z.of_nat (length d)) 16). pose proof (Z.div_pos (Z.of_nat (length d)) 16). lia. }
  rewrite <- repeats_pattern, <- differing_zero by done.
  unfold check_flat. fold k. destruct k as [|k']; cbn [after_hdrs]; [done|].
  rewrite (proj2 (Z.ltb_ge _ _)) by done. cbn [fst add_bad_repeat set_stats bad_repeat].
  rewrite bad_repeat_first. lia.
Qed.

Lemma check_flat_wp (K : Kernel) (b base L nr : Z) (d : list Z) (p : sink_params) (w : world statics) :
  0 < L -> 0 < nr -> 0 <= base -> Z.of_nat (length d) <= nr * L -> nr * L <= 2 ^ 31 - 32 ->
  holds_packet w b base d ->
  let r := check_flat p (last (w_st w)) d in
  wp (__check_pkt (chunks b base L nr) nr (Z.of_nat (length d)) p)
    (fun q w' => q = r.1 /\ w' = w_set_st (Statics r.2) w /\ (check p <= 2 \/ stats_failed r.1 = false))
    (fun code w' => code = EXIT_FAIL_RECV /\ 2 < check p /\ stats_failed r.1 = true) w.
Proof.
  intros HL Hnr Hbase Hcap Hmax Hd r.
  pose proof (check_pkt_spec_aux False b base L nr d w HL Hnr Hbase Hcap Hmax Hd p
    (fun q w' => q = r.1 /\ w' = w_set_st (Statics r.2) w /\ (check p <= 2 \/ stats_failed r.1 = false))
    (fun code w' => code = EXIT_FAIL_RECV /\ 2 < check p /\ stats_failed r.1 = true)) as H.
  subst r. destruct (check_flat p (last (w_st w)) d) as [p' last']. by apply H.
Qed.

(** C9: [check_pkt] on a packet received into [nr] adjacent elements of [L]
    bytes: without [--check-pktgen] nothing happens; otherwise, whatever [L] and
    [nr], it terminates without undefined behaviour, the counters and the
    static [last] are those of [check_flat] on the packet's bytes, and the
    program exits with EXIT_FAIL_RECV exactly when the level is above 2 and a
    counter is not zero. *)
Theorem check_pkt_correct (K : Kernel) (b base L nr : Z) (d : list Z) (p : sink_params)
  (w : world statics) :
  0 < L -> 0 < nr -> 0 <= base -> Z.of_nat (length d) <= nr * L -> nr * L <= 2 ^ 31 - 32 ->
  holds_packet w b base d ->
  let '(p', last') := check_flat p (last (w_st w)) d in
  wp (check_pkt (chunks b base L nr) nr (Z.of_nat (length d)) p)
    (fun q w' => if check p =? 0 then q = p /\ w' = w
                 else q = p' /\ w' = w_set_st (Statics last') w /\
                      (check p <= 2 \/ stats_failed p' = false))
    (fun code w' => check p <> 0 /\ code = EXIT_FAIL_RECV /\ 2 < check p /\ stats_failed p' = true) w.
Proof.
  intros HL Hnr Hbase Hcap Hmax Hd.
  pose proof (check_flat_wp K b base L nr d p w HL Hnr Hbase Hcap Hmax Hd) as H. cbv zeta in H.
  destruct (check_flat p (last (w_st w)) d) as [p' last'].
  unfold check_pkt, truth. destruct (Z.eqb_spec (check p) 0) as [Hz|Hz]; cbn [negb]; [by repeat wp_step|].
  eapply wp_mono; [exact H|done|]. intros code w' (-> & ? & ?). done.
Qed.

Lemma check_pkt_correct_witness :
  let d := flood_bytes 40 5 (Timespec 7 9000) in
  let w : @world scripted statics :=
    @World scripted statics [] (<[1 := Some <$> d]> ∅) 2 [] [] 0 (Statics hdr_zero) in
  wp (check_pkt (chunks 1 0 9 5) 5 40 (level_params 3))
    (fun q w' => q = level_params 3 /\ 
       w' = w_set_st (Statics (flood_hdr 5 (Timespec 7 9000))) w /\ (3 <= 2 \/ stats_failed (level_params 3) = false))
    (fun code w' => 3 <> 0 /\ code = EXIT_FAIL_RECV /\ 2 < 3 /\ stats_failed (level_params 3) = true) w.
Proof.
  apply (check_pkt_correct scripted 1 0 9 5 (flood_bytes 40 5 (Timespec 7 9000)) (level_params 3)
    (@World scripted statics [] (<[1 := Some <$> flood_bytes 40 5 (Timespec 7 9000)]> ∅) 2 [] [] 0
       (Statics hdr_zero))); try reflexivity; try (vm_compute; discriminate).
  exists (Some <$> flood_bytes 40 5 (Timespec 7 9000)). split; [reflexivity|].
  split; [vm_compute; lia|reflexivity].
Defined.

(** C10: [check_pkt] at level 2 counts a bad repetition exactly when the packet
    does not repeat its first sixteen bytes over all its complete headers,
    however the packet is scattered; at level 3 the program ends in that case. *)
Theorem check_pkt_repetition (K : Kernel) (b base L nr : Z) (d : list Z) (p : sink_params)
  (w : world statics) :
  0 < L -> 0 < nr -> 0 <= base -> Z.of_nat (length d) <= nr * L -> nr * L <= 2 ^ 31 - 32 ->
  holds_packet w b base d -> Forall is_byte d -> 2 <= check p -> bad_repeat p = 0 ->
  let full := (16 * n_hdrs (Z.of_nat (length d)))%nat in
  wp (check_pkt (chunks b base L nr) nr (Z.of_nat (length d)) p)
    (fun q _ => (bad_repeat q = 0 <-> take full d = pattern (take 16 d) full) /\
                (2 < check p -> bad_repeat q = 0))
    (fun code _ => code = EXIT_FAIL_RECV /\ 2 < check p) w.
Proof.
  intros HL Hnr Hbase Hcap Hmax Hd Hb Hc Hz. cbv zeta.
  pose proof (flat_repeats p (last (w_st w)) d Hb Hc) as Hflat. rewrite Hz in Hflat.
  unfold check_pkt, truth. rewrite (proj2 (Z.eqb_neq _ _)) by lia. cbn [negb].
  eapply wp_mono; [apply (check_flat_wp K b base L nr d p w); done|..].
  - intros q w' (-> & _ & Hs). split; [exact Hflat|]. intros H2. destruct Hs as [|Hs]; [lia|].
    unfold stats_failed, truth in Hs.
    destruct (Z.eqb_spec (bad_repeat (check_flat p (last (w_st w)) d).1) 0); [done|].
    by rewrite orb_true_r in Hs.
  - intros code w' (? & ? & _). done.
Qed.

Lemma check_pkt_repetition_witness :
  let d := flood_bytes 40 5 (Timespec 7 9000) in
  let w : @world scripted statics :=
    @World scripted statics [] (<[1 := Some <$> d]> ∅) 2 [] [] 0 (Statics hdr_zero) in
  wp (check_pkt (chunks 1 0 9 5) 5 40 (level_params 2))
    (fun q _ => (bad_repeat q = 0 <-> take 32 d = pattern (take 16 d) 32) /\ (2 < 2 -> bad_repeat q = 0))
    (fun code _ => code = EXIT_FAIL_RECV /\ 2 < 2) w.
Proof.
  apply (check_pkt_repetition scripted 1 0 9 5 (flood_bytes 40 5 (Timespec 7 9000)) (level_params 2)
    (@World scripted statics [] (<[1 := Some <$> flood_bytes 40 5 (Timespec 7 9000)]> ∅) 2 [] [] 0
       (Statics hdr_zero))); try reflexivity; try (vm_compute; discriminate).
  - exists (Some <$> flood_bytes 40 5 (Timespec 7 9000)). split; [reflexivity|].
    split; [vm_compute; lia|reflexivity].
  - apply pattern_byte, hdr_bytes_byte.
Defined.
