(* ===== verification/Cmsg.v ===== *)
(** * Received messages

    What [recvmsg] writes into the buffers of a header, and the traversal
    macros of <sys/socket.h>:
    [CMSG_FIRSTHDR], [CMSG_NXTHDR] and [CMSG_DATA] over the control buffer of
    a received message.  A control message is a 16-byte header (length,
    level, type) followed by its data, padded to 8 bytes. *)
From stdpp Require Import base list gmap strings.
From Stdlib Require Import ZArith Lia.
From S2P Require Import Prelude.
From S2P Require Import CLang.
From S2P Require Import Wp.
From S2P Require Import Libc.
From S2P Require Import CommonSocket.

#[local] Open Scope Z_scope.
#[local] Open Scope c_scope.

Definition CMSG_ALIGN (n : Z) : Z := 8 * ((n + 7) / 8).

(** A control message seen by a traversal: its header, and where its data
    starts. *)
Record cmsghdr := Cmsghdr {
  cmsg_len : Z;
  cmsg_level : Z;
  cmsg_type : Z;
  cmsg_data : ptr
}.

Section Cmsg.
Context {K : Kernel} {S : Type}.

(** The header at offset [off] of the control buffer. *)
Definition cmsg_at (h : msghdr) (off : Z) : M S cmsghdr :=
  let p := ptr_add (msg_control h) off in
  bs <- load p sizeof_cmsghdr ;;
  ret (Cmsghdr (le_val (get_bytes 0 8 bs)) (i32 (le_val (get_bytes 8 4 bs)))
         (i32 (le_val (get_bytes 12 4 bs))) (ptr_add p sizeof_cmsghdr)).

Definition CMSG_FIRSTHDR (h : msghdr) : option Z :=
  if sizeof_cmsghdr <=? msg_controllen h then Some 0 else None.

(** The offset of the next header. *)
Definition CMSG_NXTHDR (h : msghdr) (off : Z) : M S (option Z) :=
  cm <- cmsg_at h off ;;
  if cmsg_len cm <? sizeof_cmsghdr then ret None
  else
    let next := off + CMSG_ALIGN (cmsg_len cm) in
    if msg_controllen h <? next + sizeof_cmsghdr then ret None
    else
      cm' <- cmsg_at h next ;;
      if msg_controllen h <? next + CMSG_ALIGN (cmsg_len cm') then ret None
      else ret (Some next).

(** [for (c = CMSG_FIRSTHDR(h); c; c = CMSG_NXTHDR(h, c)) body]: [body] folds
    over the headers. Every step moves on by 16 bytes or more, hence the
    fuel. *)
Definition cmsg_fold {A} (h : msghdr) (body : A -> cmsghdr -> M S A) (a : A) : M S A :=
  iter (Datatypes.S (Datatypes.S (Z.to_nat (msg_controllen h / 16))))
    (fun '(a, o) =>
       match o with
       | None => ret (inr a)
       | Some off =>
           cm <- cmsg_at h off ;;
           a' <- body a cm ;;
           next <- CMSG_NXTHDR h off ;;
           ret (inl (a', next))
       end)
    (a, CMSG_FIRSTHDR h).

(** ** Receiving a message *)

(** The kernel scatters a payload over the elements of an I/O vector. *)
Fixpoint scatter (iov : list iovec) (data : list Z) : M S unit :=
  match iov with
  | [] => ret tt
  | v :: iov' =>
      store (iov_base v) (take (Z.to_nat (iov_len v)) data) ;;
      scatter iov' (drop (Z.to_nat (iov_len v)) data)
  end.

(** What the kernel writes for a received message: payload, sender address
    and control data, and the two lengths. *)
Definition deliver (h : msghdr) (m : rmsg) : M S msghdr :=
  scatter (msg_iov h) (m_data m) ;;
  when (negb (is_null (msg_name h)))
    (store (msg_name h) (take (Z.to_nat (msg_namelen h)) (m_name m))) ;;
  when (negb (is_null (msg_control h)))
    (store (msg_control h) (take (Z.to_nat (msg_controllen h)) (m_ctl m))) ;;
  ret (Msghdr (msg_name h)
         (if is_null (msg_name h) then msg_namelen h else Z.of_nat (length (m_name m)))
         (msg_iov h) (msg_iovlen h) (msg_control h)
         (Z.of_nat (length (take (Z.to_nat (msg_controllen h)) (m_ctl m)))) (msg_flags h)).

Definition recvmsg_call (sockfd : Z) (h : msghdr) (flags : Z) : M S (reply * msghdr) :=
  res <- ask (CRecvmsg sockfd (iov_len <$> msg_iov h) (msg_namelen h) (msg_controllen h) flags) ;;
  if r_ret res <? 0 then ret (res, h)
  else h' <- deliver h (r_msg res) ;; ret (res, h').
End Cmsg.
