(* ===== verification/CmsgSpec.v ===== *)
(** * Control messages: what a traversal sees

    A control buffer as the system fills it, [controls l ctl]: each message a
    header, its data, and the padding to a multiple of 8 bytes.  The traversal
    by [CMSG_FIRSTHDR] and [CMSG_NXTHDR] visits exactly the messages of [l], in
    order. *)
From stdpp Require Import base list gmap strings.
From Stdlib Require Import ZArith Lia.
From S2P Require Import Prelude.
From S2P Require Import CLang.
From S2P Require Import Wp.
From S2P Require Import Libc.
From S2P Require Import CommonSocket.
From S2P Require Import Cmsg.

#[local] Open Scope Z_scope.
#[local] Open Scope c_scope.

(** A control message. *)
Record cmsg := Cmsg { c_level : Z; c_type : Z; c_data : list Z }.

Definition cmsg_size (m : cmsg) : Z := sizeof_cmsghdr + Z.of_nat (length (c_data m)).

Definition header_bytes (m : cmsg) : list Z :=
  le_bytes 8 (cmsg_size m) ++ le_bytes 4 (u32 (c_level m)) ++ le_bytes 4 (u32 (c_type m)).

Fixpoint controls (l : list cmsg) (ctl : list Z) : Prop :=
  match l with
  | [] => ctl = []
  | m :: l' => exists pad rest, ctl = header_bytes m ++ c_data m ++ pad ++ rest /\
      cmsg_size m + Z.of_nat (length pad) = CMSG_ALIGN (cmsg_size m) /\ controls l' rest
  end.

Definition cmsg_ok (m : cmsg) : Prop := is_i32 (c_level m) /\ is_i32 (c_type m).

(** The bytes a message takes, padding included. *)
Definition cmsg_space (m : cmsg) : Z := CMSG_ALIGN (cmsg_size m).

(** Where the message after [done] starts. *)
Definition offset_of (done : list cmsg) : Z := sumZ (cmsg_space <$> done).

Lemma length_header_bytes m : length (header_bytes m) = 16%nat.
Proof. unfold header_bytes. rewrite !length_app, !length_le_bytes. done. Qed.

Lemma cmsg_size_space m : sizeof_cmsghdr <= cmsg_size m <= cmsg_space m.
Proof. unfold cmsg_space, CMSG_ALIGN, cmsg_size, sizeof_cmsghdr. Z.to_euclidean_division_equations. lia. Qed.

Lemma offset_snoc done m : offset_of (done ++ [m]) = offset_of done + cmsg_space m.
Proof. unfold offset_of. rewrite fmap_app, sumZ_app. cbn. lia. Qed.

Lemma offset_nonneg done : 0 <= offset_of done.
Proof.
  induction done as [|m done IH]; [done|]. unfold offset_of in *. cbn.
  pose proof (cmsg_size_space m). unfold sizeof_cmsghdr in *. lia.
Qed.

Lemma messages_fit l : (length l <= Z.to_nat (offset_of l / 16))%nat.
Proof.
  induction l as [|m l IH]; [cbn; lia|]. pose proof (offset_nonneg l).
  unfold offset_of in *. cbn. fold (offset_of l) in *. pose proof (cmsg_size_space m).
  unfold sizeof_cmsghdr in *. Z.to_euclidean_division_equations. lia.
Qed.

Lemma controls_length l ctl : controls l ctl -> Z.of_nat (length ctl) = offset_of l.
Proof.
  revert ctl. induction l as [|m l IH]; intros ctl; cbn [controls].
  - by intros ->.
  - intros (pad & rest & -> & Hpad & Hrest). rewrite !length_app, length_header_bytes.
    unfold offset_of. cbn. fold (offset_of l). rewrite <- (IH rest Hrest).
    unfold cmsg_space. rewrite <- Hpad. unfold cmsg_size, sizeof_cmsghdr. lia.
Qed.

(** The buffer from a message on. *)
Lemma controls_drop done rest ctl :
  controls (done ++ rest) ctl -> controls rest (drop (Z.to_nat (offset_of done)) ctl).
Proof.
  revert ctl. induction done as [|m done IH]; intros ctl; cbn [app controls]; [by rewrite drop_0|].
  intros (pad & tl & -> & Hpad & Htl).
  assert (Hlen : length (header_bytes m ++ c_data m ++ pad) = Z.to_nat (cmsg_space m)).
  { rewrite !length_app, length_header_bytes. unfold cmsg_space. rewrite <- Hpad.
    unfold cmsg_size, sizeof_cmsghdr. lia. }
  replace (Z.to_nat (offset_of (m :: done))) with (Z.to_nat (cmsg_space m) + Z.to_nat (offset_of done))%nat.
  2: { unfold offset_of. cbn. fold (offset_of done). pose proof (offset_nonneg done).
       pose proof (cmsg_size_space m). unfold sizeof_cmsghdr in *. lia. }
  rewrite <- drop_drop, <- Hlen. rewrite !app_assoc, drop_app_length. by apply IH.
Qed.

(** The fields of a header. *)
Lemma header_fields m :
  cmsg_ok m -> cmsg_size m < 2 ^ 64 ->
  le_val (get_bytes 0 8 (header_bytes m)) = cmsg_size m /\
  i32 (le_val (get_bytes 8 4 (header_bytes m))) = c_level m /\
  i32 (le_val (get_bytes 12 4 (header_bytes m))) = c_type m.
Proof.
  intros [Hl Ht] Hs. pose proof (cmsg_size_space m) as Hsp. unfold sizeof_cmsghdr in Hsp.
  change (get_bytes 0 8 (header_bytes m)) with (le_bytes 8 (cmsg_size m)).
  change (get_bytes 8 4 (header_bytes m)) with (le_bytes 4 (u32 (c_level m))).
  change (get_bytes 12 4 (header_bytes m)) with (le_bytes 4 (u32 (c_type m))).
  rewrite !le_val_bytes4, le_val_bytes. split_and!; [apply Z.mod_small; lia|mach|mach].
Qed.

Lemma ctl_split l ctl done m rest :
  controls l ctl -> l = done ++ m :: rest ->
  0 <= offset_of done /\ offset_of done + cmsg_space m + offset_of rest = Z.of_nat (length ctl) /\
  get_bytes (Z.to_nat (offset_of done)) 16 ctl = header_bytes m /\
  get_bytes (Z.to_nat (offset_of done) + 16) (length (c_data m)) ctl = c_data m.
Proof.
  intros Hctl Hl. pose proof (controls_length _ _ Hctl) as Hlc. rewrite Hl in Hlc.
  assert (Hsum : offset_of (done ++ m :: rest) = offset_of done + cmsg_space m + offset_of rest).
  { unfold offset_of. rewrite fmap_app, sumZ_app. cbn. lia. }
  pose proof (controls_drop done (m :: rest) ctl) as Hd. rewrite <- Hl in Hd. specialize (Hd Hctl).
  destruct Hd as (pad & tl & Hd & _). pose proof (offset_nonneg done).
  unfold get_bytes. rewrite <- drop_drop, Hd. pose proof (length_header_bytes m) as H16.
  split_and!; [done|lia| |].
  - by rewrite <- H16, take_app_length.
  - rewrite <- H16, drop_app_length, take_app_length. done.
Qed.

(** ** The traversal *)
Section Traversal.
Context {K : Kernel} {S : Type}.
#[local] Abbreviation W := (world S).
Variables (F : Prop) (h : msghdr) (b o : Z) (lb : list mbyte) (l : list cmsg) (ctl : list Z).
Hypothesis Hctl : controls l ctl.
Hypothesis Hok : Forall cmsg_ok l.
Hypothesis Hc : msg_control h = Ptr b o.
Hypothesis Hlen : msg_controllen h = Z.of_nat (length ctl).
Hypothesis Ho : 0 <= o.
Hypothesis Hin : (Z.to_nat o + length ctl <= length lb)%nat.
Hypothesis Hbytes : get_bytes (Z.to_nat o) (length ctl) lb = Some <$> ctl.
Hypothesis Hsize : Z.of_nat (length ctl) < 2 ^ 63.

(** The header a traversal sees for the message after [done]. *)
Definition seen (done : list cmsg) (m : cmsg) : cmsghdr :=
  Cmsghdr (cmsg_size m) (c_level m) (c_type m) (Ptr b (o + offset_of done + sizeof_cmsghdr)).

Lemma control_get off n (bs : list Z) :
  0 <= off -> (Z.to_nat off + n <= length ctl)%nat -> get_bytes (Z.to_nat off) n ctl = bs ->
  get_bytes (Z.to_nat (o + off)) n lb = Some <$> bs.
Proof.
  intros Hoff Hn <-. rewrite fmap_get_bytes, <- Hbytes, get_bytes_sub by lia. f_equal. lia.
Qed.

Lemma cmsg_at_spec done m rest (Q : cmsghdr -> W -> Prop) X w :
  l = done ++ m :: rest -> w_mem w !! b = Some lb -> Q (seen done m) w ->
  wpg F (cmsg_at h (offset_of done)) Q X w.
Proof.
  intros Hl Hb HQ. destruct (ctl_split l ctl done m rest Hctl Hl) as (Hoff & Htot & Hget & _).
  pose proof (cmsg_size_space m) as Hsp. pose proof (offset_nonneg rest). unfold sizeof_cmsghdr in *.
  unfold cmsg_at. rewrite Hc. cbv zeta. unfold ptr_add. cbn [p_block p_off]. wp_step.
  eapply (load_spec F b _ 16 lb (header_bytes m)); [exact Hb|lia|change (Z.to_nat 16) with 16%nat; lia| |].
  - apply control_get; [lia|change (Z.to_nat 16) with 16%nat; lia|exact Hget].
  - wp_step. unfold seen in HQ. rewrite Hl in Hok. apply Forall_app in Hok as [_ Hok'].
    apply Forall_cons in Hok' as [Hm _].
    destruct (header_fields m Hm) as (-> & -> & ->); [lia|]. exact HQ.
Qed.

Lemma next_spec done m rest (Q : option Z -> W -> Prop) X w :
  l = done ++ m :: rest -> w_mem w !! b = Some lb ->
  Q (match rest with [] => None | _ :: _ => Some (offset_of (done ++ [m])) end) w ->
  wpg F (CMSG_NXTHDR h (offset_of done)) Q X w.
Proof.
  intros Hl Hb HQ. destruct (ctl_split l ctl done m rest Hctl Hl) as (Hoff & Htot & _).
  pose proof (cmsg_size_space m) as Hsp. unfold sizeof_cmsghdr in *.
  unfold CMSG_NXTHDR. wp_step. eapply cmsg_at_spec; [exact Hl|exact Hb|].
  cbn [cmsg_len seen]. unfold sizeof_cmsghdr. rewrite (proj2 (Z.ltb_ge _ _)) by lia. cbv zeta.
  change (CMSG_ALIGN (cmsg_size m)) with (cmsg_space m). rewrite Hlen, <- offset_snoc.
  pose proof (offset_snoc done m) as Hs. destruct rest as [|m2 rest].
  - rewrite (proj2 (Z.ltb_lt _ _)); [by wp_step|]. cbn in Htot. lia.
  - assert (Hl2 : l = (done ++ [m]) ++ m2 :: rest) by (by rewrite <- app_assoc).
    destruct (ctl_split l ctl _ m2 rest Hctl Hl2) as (_ & Htot2 & _).
    pose proof (cmsg_size_space m2) as Hsp2. pose proof (offset_nonneg rest). unfold sizeof_cmsghdr in *.
    rewrite (proj2 (Z.ltb_ge _ _)) by lia. wp_step. eapply cmsg_at_spec; [exact Hl2|exact Hb|].
    cbn [cmsg_len seen]. change (CMSG_ALIGN (cmsg_size m2)) with (cmsg_space m2).
    rewrite (proj2 (Z.ltb_ge _ _)) by lia. by wp_step.
Qed.

(** [I done a w] holds when the messages [done] have been visited; the body
    keeps the control buffer. *)
Lemma cmsg_fold_spec {A} (body : A -> cmsghdr -> M S A) (I : list cmsg -> A -> W -> Prop) a
  (Q : A -> W -> Prop) X w :
  (forall done a w, I done a w -> w_mem w !! b = Some lb) ->
  (forall done m rest a w, l = done ++ m :: rest -> I done a w ->
     wpg F (body a (seen done m)) (fun a' w' => I (done ++ [m]) a' w') X w) ->
  I [] a w -> (forall a w, I l a w -> Q a w) ->
  wpg F (cmsg_fold h body a) Q X w.
Proof.
  intros Hmem Hbody HI HQ. unfold cmsg_fold.
  assert (Hfuel : (length l <= Z.to_nat (msg_controllen h / 16))%nat).
  { rewrite Hlen, (controls_length _ _ Hctl). apply messages_fit. }
  assert (Hfirst : CMSG_FIRSTHDR h = match l with [] => None | _ :: _ => Some (offset_of []) end).
  { unfold CMSG_FIRSTHDR. rewrite Hlen, (controls_length _ _ Hctl). destruct l as [|m l']; [done|].
    unfold offset_of. cbn. fold (offset_of l'). pose proof (cmsg_size_space m).
    pose proof (offset_nonneg l'). rewrite (proj2 (Z.leb_le _ _)) by lia. done. }
  rewrite Hfirst.
  apply (wp_iter (fun k '(a, off) w => exists done rest, l = done ++ rest /\ I done a w /\
    off = (match rest with [] => None | _ :: _ => Some (offset_of done) end) /\ (length rest < k)%nat)).
  - exists [], l. split_and!; try done. lia.
  - intros [a' off] w' (done & rest & _ & _ & _ & ?). lia.
  - intros k [a' off] w' (done & rest & Hl & HI' & -> & Hk). destruct rest as [|m rest].
    + wp_step. rewrite app_nil_r in Hl. subst done. by apply HQ.
    + wp_step. eapply cmsg_at_spec; [exact Hl|by eapply Hmem|].
      wp_step. eapply wp_post; [by eapply Hbody|]. intros a2 w2 HI2. cbn beta.
      wp_step. eapply next_spec; [exact Hl|by eapply Hmem|]. wp_step.
      exists (done ++ [m]), rest. split_and!; [by rewrite <- app_assoc|done|done|]. cbn in Hk. lia.
Qed.
End Traversal.
