(* ===== verification/UdpSink.v ===== *)
(** * udp_sink.c: receiving a flood of UDP packets with five system calls *)
From stdpp Require Import base list gmap strings.
From Stdlib Require Import ZArith Lia Ascii.
From S2P Require Import Prelude.
From S2P Require Import CLang.
From S2P Require Import Wp.
From S2P Require Import Libc.
From S2P Require Import Getopt.
From S2P Require Import Common.
From S2P Require Import CommonSocket.
From S2P Require Import Pktgen.
From S2P Require Import Cmsg.
From S2P Require Import CheckPkt.

#[local] Open Scope Z_scope.
#[local] Open Scope c_scope.

Definition RUN_RECVMSG : Z := 1.
Definition RUN_RECVMMSG : Z := 2.
Definition RUN_RECVFROM : Z := 4.
Definition RUN_READ : Z := 8.
Definition RUN_RECV : Z := 16.
Definition RUN_ALL : Z :=
  Z.lor (Z.lor (Z.lor (Z.lor RUN_RECVMSG RUN_RECVMMSG) RUN_RECVFROM) RUN_READ) RUN_RECV.

Definition DEFAULT_COUNT : Z := 1000000.

Definition long_options : list option_ := [
  Option_ "read" no_argument (ch "T");
  Option_ "recvfrom" no_argument (ch "t");
  Option_ "recvmsg" no_argument (ch "u");
  Option_ "recvmmsg" no_argument (ch "U");
  Option_ "recv" no_argument 176;
  Option_ "help" no_argument (ch "h");
  Option_ "ipv4" no_argument (ch "4");
  Option_ "ipv6" no_argument (ch "6");
  Option_ "reuse-port" no_argument (ch "s");
  Option_ "use-bpf" no_argument 0;
  Option_ "waitforone" no_argument (ch "O");
  Option_ "timeout" required_argument (ch "i");
  Option_ "sk-timeout" required_argument (ch "I");
  Option_ "check-pktgen" optional_argument 0;
  Option_ "nr-iovec" required_argument 0;
  Option_ "check-sender" required_argument (ch "S");
  Option_ "lite" no_argument (ch "L");
  Option_ "dontwait" no_argument (ch "d");
  Option_ "use-bad-ptr" required_argument (ch "B");
  Option_ "recv-ttl" no_argument 0;
  Option_ "recv-pktinfo" no_argument 0;
  Option_ "batch" required_argument (ch "b");
  Option_ "count" required_argument (ch "c");
  Option_ "port" required_argument (ch "l");
  Option_ "payload" required_argument (ch "m");
  Option_ "repeat" required_argument (ch "r");
  Option_ "verbose" optional_argument (ch "v");
  Option_ "connect" optional_argument (ch "C")
].

Definition optstring : string := "hc:r:l:64Oi:I:LdsCS:B:v:tTuUb:".

Section UdpSink.
Context {K : Kernel}.
#[local] Abbreviation M := (M statics).

Definition print_check_result (p : sink_params) : M unit :=
  when (truth (check p) && truth (Z.land (run_flag_curr p) (Z.lor RUN_RECVMMSG RUN_RECVMSG)))
    (printf " - Failed pktgen checks OoO %lld wrong magic %lld bad repeat %lld\n"
       [AInt (ooo p); AInt (bad_magic p); AInt (bad_repeat p)]).

(** The kernel copies what it received: [data] into a region of [cap]
    bytes. *)
Definition copy_in (buf : ptr) (cap : Z) (data : list Z) : M unit :=
  store buf (take (Z.to_nat cap) data).

(** The message of a failed receive function, and its end. *)
Definition recv_error {A} (func : string) (res : reply) (msg : string) (frees : M unit)
  (sockfd : Z) : M A :=
  eprintf "ERROR: %s() failed (%d) errno(%d) "
    [AStr func; AInt (r_ret res); AInt (r_errno res)] ;;
  perror msg ;;
  frees ;;
  ask (CClose sockfd) ;;
  exit EXIT_FAIL_SOCK.

(** The receive loop of [sink_with_read], [sink_with_recvfrom] and
    [sink_with_recv]: a failure with [EAGAIN] is counted and skipped, any other
    is the error exit. The result is [i], [total] and the record. *)
Definition recv_loop (p : sink_params) (rcv : M reply) (error : reply -> M (Z * Z * time_bench_record))
  (r : time_bench_record) : M (Z * Z * time_bench_record) :=
  iter (Datatypes.S (Z.to_nat (count p)))
    (fun '(i, total, r) =>
       if i <? count p then
         res <- rcv ;;
         if r_ret res <? 0 then
           if r_errno res =? EAGAIN then ret (inl (i + 1, total, inc_try_again r))
           else out <- error res ;; ret (inr out)
         else ret (inl (i + 1, u64 (total + r_ret res), r))
       else ret (inr (i, total, r)))
    (0, 0, r).

(** A receive call into the payload buffer. *)
Definition recv_call (call : call) (buffer : ptr) (cap : Z) : M reply :=
  res <- ask call ;;
  when (0 <=? r_ret res) (copy_in buffer cap (m_data (r_msg res))) ;;
  ret res.

(** [total / i] where [total] is [uint64_t] and [i] an [int]. *)
Definition avg_payload (total i : Z) : M Z :=
  if i =? 0 then undefined DivByZero else ret (total / u64 i).

(** [return (i - r->try_again)]: computed in [uint64_t], returned as [int]. *)
Definition received (i : Z) (r : time_bench_record) : Z := i32 (u64 (i - try_again r)).

(** The report of [sink_with_read]. *)
Definition report_read (total i : Z) : M unit :=
  verbose <- get_verbose ;;
  when (0 <? verbose) (printf " - read %lu bytes in %d packets\n" [AInt total; AInt i]).

Definition sink_with_read (sockfd : Z) (p : sink_params) (r : time_bench_record) :
  M (Z * sink_params * time_bench_record) :=
  buffer <- malloc_payload_buffer (buf_sz p) ;;
  out <- recv_loop p (recv_call (CRead sockfd (u64 (buf_sz p))) buffer (u64 (buf_sz p)))
           (fun res => recv_error "sink_with_read" res "- read" (free buffer) sockfd) r ;;
  let '(i, total, r) := out in
  let r := set_bytes total r in
  report_read total i ;;
  free buffer ;;
  ret (received i r, p, r).

(** The report of [sink_with_recvfrom], [sink_with_recv], [sink_with_recvmsg]. *)
Definition report_payload (total i : Z) : M unit :=
  verbose <- get_verbose ;;
  when (0 <? verbose)
    (avg <- avg_payload total i ;;
     printf " - read %lu bytes in %d packets = %lu bytes payload\n"
       [AInt total; AInt i; AInt avg]).

Definition sink_with_recvfrom (sockfd : Z) (p : sink_params) (r : time_bench_record) :
  M (Z * sink_params * time_bench_record) :=
  buffer <- malloc_payload_buffer (buf_sz p) ;;
  let flags := if truth (dontwait p) then MSG_DONTWAIT else 0 in
  out <- recv_loop p
           (recv_call (CRecvfrom sockfd (u64 (buf_sz p)) flags false) buffer (u64 (buf_sz p)))
           (fun res => recv_error "sink_with_recvfrom" res "- recvfrom" (free buffer) sockfd) r ;;
  let '(i, total, r) := out in
  let r := set_bytes total r in
  report_payload total i ;;
  free buffer ;;
  ret (received i r, p, r).

Definition sink_with_recv (sockfd : Z) (p : sink_params) (r : time_bench_record) :
  M (Z * sink_params * time_bench_record) :=
  buffer <- malloc_payload_buffer (buf_sz p) ;;
  let flags := if truth (dontwait p) then MSG_DONTWAIT else 0 in
  out <- recv_loop p
           (recv_call (CRecv sockfd (u64 (buf_sz p)) flags) buffer (u64 (buf_sz p)))
           (fun res => recv_error "sink_with_recv" res "- recv" (free buffer) sockfd) r ;;
  let '(i, total, r) := out in
  let r := set_bytes total r in
  report_payload total i ;;
  free buffer ;;
  ret (received i r, p, r).

(** ** Messages (the rendering of addresses by [inet_ntop] is left out) *)
Definition setup_msg_name (h : msghdr) (addr : ptr) (family : Z) : msghdr :=
  if negb (truth family) then
    Msghdr NULL 0 (msg_iov h) (msg_iovlen h) (msg_control h) (msg_controllen h) (msg_flags h)
  else
    Msghdr addr sizeof_sockaddr_storage (msg_iov h) (msg_iovlen h) (msg_control h)
      (msg_controllen h) (msg_flags h).

Definition check_msg_name (h : msghdr) (sender_addr : list Z) : M unit :=
  if negb (truth (ss_family sender_addr)) then ret tt
  else
    let v4 := ss_family sender_addr =? AF_INET in
    let in_ := ptr_add (msg_name h) (if v4 then 4 else 8) in
    let snd := if v4 then sin_addr sender_addr else sin6_addr sender_addr in
    let len := if v4 then 4 else 16 in
    let alen := if v4 then sizeof_sockaddr_in else sizeof_sockaddr_in6 in
    if negb (u32 alen =? msg_namelen h) then
      printf "sender address len %d does not match expected one %d\n"
        [AInt (msg_namelen h); AInt alen] ;;
      exit EXIT_FAIL_SOCK
    else
      bs <- load in_ len ;;
      if negb (bool_decide (snd = bs)) then
        ask (CInetNtop (ss_family sender_addr) bs) ;;
        ask (CInetNtop (ss_family sender_addr) snd) ;;
        printf "sender address %s does not match expected one %s\n" [] ;;
        exit EXIT_FAIL_SOCK
      else ret tt.

(** [CMSG_DLEN] *)
Definition CMSG_DLEN (cm : cmsghdr) : Z := u64 (cmsg_len cm - sizeof_cmsghdr).

(** The three fields of a [struct in_pktinfo] as they are printed. *)
Definition pktinfo_args (q : ptr) : M (list arg) :=
  bs <- load q sizeof_in_pktinfo ;;
  ret [AInt (i32 (le_val (get_bytes 0 4 bs))); AInt (le_val (get_bytes 4 4 bs));
       AInt (le_val (get_bytes 8 4 bs))].

(** One control message: [found_pktinfo] and [found_ttl]. *)
Definition check_cmsg_body (a : option ptr * Z) (cm : cmsghdr) : M (option ptr * Z) :=
  let '(found_pktinfo, found_ttl) := a in
  if (cmsg_level cm =? IPPROTO_IP) && (cmsg_type cm =? IP_PKTINFO) &&
     (CMSG_DLEN cm =? sizeof_in_pktinfo) then
    ret (Some (cmsg_data cm), found_ttl)
  else if (cmsg_level cm =? IPPROTO_IP) && (cmsg_type cm =? IP_TTL) &&
          (CMSG_DLEN cm =? sizeof_int) then
    bs <- load (cmsg_data cm) sizeof_int ;;
    ret (found_pktinfo, i32 (le_val bs))
  else ret (found_pktinfo, found_ttl).

Definition check_cmsg (h : msghdr) (p : sink_params) (max_len : Z) : M unit :=
  if negb (truth (recv_ttl p)) && negb (truth (recv_pktinfo p)) then
    if truth (msg_controllen h) then
      printf "found unrequested cmsg data, len %zd\n" [AInt (msg_controllen h)] ;;
      exit EXIT_FAIL_SOCK
    else ret tt
  else if u64 max_len <? msg_controllen h then
    printf "bad msg len %zd max %d\n" [AInt (msg_controllen h); AInt max_len] ;;
    exit EXIT_FAIL_SOCK
  else
    a <- cmsg_fold h check_cmsg_body (None, 0) ;;
    let '(found_pktinfo, found_ttl) := a in
    if truth (Z.lxor (recv_ttl p) (of_bool (truth found_ttl))) then
      printf "ttl cmsg missmatch, requested %d found %d\n" [AInt (recv_ttl p); AInt found_ttl] ;;
      exit EXIT_FAIL_SOCK
    else if truth (Z.lxor (recv_pktinfo p) (of_bool (bool_decide (is_Some found_pktinfo)))) then
      args <- (match found_pktinfo with
               | Some q => pktinfo_args q
               | None => ret [AInt 0; AInt 0; AInt 0]
               end) ;;
      printf "pktinfo cmsg missmatch, requested %d found %p:%d:%x:%x\n"
        (AInt (recv_pktinfo p) :: args) ;;
      exit EXIT_FAIL_SOCK
    else
      verbose <- get_verbose ;;
      if negb (truth verbose) then ret tt
      else
        (match found_pktinfo with
         | Some q => args <- pktinfo_args q ;; printf "pktinfo: %d:%x:%x\n" args
         | None => ret tt
         end) ;;
        when (truth found_ttl) (printf "ttl: %d\n" [AInt found_ttl]).

Definition want_cmsg (p : sink_params) : bool := truth (recv_ttl p) || truth (recv_pktinfo p).

Definition sizeof_cbuf : Z := 512.

(** Binding the I/O vector, the name and the control buffer to a header. *)
Definition bind_header (p : sink_params) (sender cbuf : ptr) (iov : list iovec) : msghdr :=
  let h := setup_msg_name zero_msghdr sender (ss_family (sender_addr p)) in
  Msghdr (msg_name h) (msg_namelen h) iov (u64 (iov_elems p))
    (if want_cmsg p then cbuf else NULL) (if want_cmsg p then sizeof_cbuf else 0) 0.

(** The local variables of the receive loop of [sink_with_recvmsg]. *)
Record msg_state := MsgState {
  s_i : Z;
  s_total : Z;
  s_p : sink_params;
  s_hdr : msghdr;
  s_r : time_bench_record
}.

Definition recvmsg_round (sockfd flags count : Z) (error : reply -> M msg_state) (s : msg_state) :
  M (msg_state + msg_state) :=
  if s_i s <? count then
    out <- recvmsg_call sockfd (s_hdr s) flags ;;
    let '(res, h) := out in
    if r_ret res <? 0 then
      if r_errno res =? EAGAIN then
        ret (inl (MsgState (s_i s + 1) (s_total s) (s_p s) h (inc_try_again (s_r s))))
      else out <- error res ;; ret (inr out)
    else
      p <- check_pkt (msg_iov h) (iov_elems (s_p s)) (r_ret res) (s_p s) ;;
      check_msg_name h (sender_addr p) ;;
      check_cmsg h p sizeof_cbuf ;;
      ret (inl (MsgState (s_i s + 1) (u64 (s_total s + r_ret res)) p h (s_r s)))
  else ret (inr s).

Definition sink_with_recvmsg (sockfd : Z) (p : sink_params) (r : time_bench_record) :
  M (Z * sink_params * time_bench_record) :=
  buffer <- malloc_payload_buffer (buf_sz p) ;;
  let flags := if truth (dontwait p) then MSG_DONTWAIT else 0 in
  sender <- new_block sizeof_sockaddr_storage ;;
  cbuf <- new_block sizeof_cbuf ;;
  msg_hdr <- malloc_msghdr ;;
  msg_iov <- malloc_iovec (u32 (iov_elems p)) ;;
  size <- (check_elem msg_iov sizeof_iovec 0 ;; int_div (buf_sz p) (iov_elems p)) ;;
  iovs <- forM (seqZ 1 (iov_elems p - 1)) (fun i =>
            check_elem msg_iov sizeof_iovec i ;;
            ret (Iovec (ptr_add buffer (i * u64 size)) (u64 size))) ;;
  let iov := Iovec buffer (u64 size) :: iovs in
  s <- iter (Datatypes.S (Z.to_nat (count p)))
         (recvmsg_round sockfd flags (count p)
            (fun res => recv_error "sink_with_recvmsg" res "- recvmsg" (free buffer) sockfd))
         (MsgState 0 0 p (bind_header p sender cbuf iov) r) ;;
  let r := set_bytes (s_total s) (s_r s) in
  report_payload (s_total s) (s_i s) ;;
  free msg_iov ;;
  free msg_hdr ;;
  free buffer ;;
  free sender ;;
  free cbuf ;;
  ret (received (s_i s) r, s_p s, r).

(** ** recvmmsg *)
Fixpoint deliver_all (hdrs : list mmsghdr) (msgs : list rmsg) : M (list mmsghdr) :=
  match hdrs, msgs with
  | h :: hdrs', m :: msgs' =>
      h' <- deliver (msg_hdr h) m ;;
      rest <- deliver_all hdrs' msgs' ;;
      ret (Mmsghdr h' (Z.of_nat (length (m_data m))) :: rest)
  | _, _ => ret hdrs
  end.

Definition recvmmsg_call (sockfd : Z) (hdrs : list mmsghdr) (flags : Z) (ts : option timespec) :
  M (reply * list mmsghdr) :=
  res <- ask (CRecvmmsg sockfd
    ((fun h => (iov_len <$> msg_iov (msg_hdr h), msg_namelen (msg_hdr h), msg_controllen (msg_hdr h))) <$> hdrs)
    flags ts) ;;
  if r_ret res <? 0 then ret (res, hdrs)
  else hdrs' <- deliver_all hdrs (r_msgs res) ;; ret (res, hdrs').

Record mmsg_state := MmsgState {
  t_cnt : Z;
  t_batches : Z;
  t_total : Z;
  t_p : sink_params;
  t_hdrs : list mmsghdr;
  t_r : time_bench_record
}.

(** The checks of the [res] messages of one batch. *)
Fixpoint check_batch (hdrs : list mmsghdr) (total : Z) (p : sink_params) : M (Z * sink_params) :=
  match hdrs with
  | [] => ret (total, p)
  | h :: hdrs' =>
      p <- check_pkt (msg_iov (msg_hdr h)) (i32 (msg_iovlen (msg_hdr h))) (i32 (msg_len h)) p ;;
      check_msg_name (msg_hdr h) (sender_addr p) ;;
      check_cmsg (msg_hdr h) p sizeof_cbuf ;;
      check_batch hdrs' (u64 (total + msg_len h)) p
  end.

Definition recvmmsg_round (sockfd flags count : Z) (ts : option timespec)
  (error : reply -> M mmsg_state) (s : mmsg_state) : M (mmsg_state + mmsg_state) :=
  if t_cnt s <? count then
    out <- recvmmsg_call sockfd (t_hdrs s) flags ts ;;
    let '(res, hdrs) := out in
    if r_ret res <? 0 then
      if r_errno res =? EAGAIN then
        ret (inl (MmsgState (t_cnt s) (t_batches s) (t_total s) (t_p s) hdrs
                    (inc_try_again (t_r s))))
      else out <- error res ;; ret (inr out)
    else
      out <- check_batch (take (Z.to_nat (r_ret res)) hdrs) (t_total s) (t_p s) ;;
      let '(total, p) := out in
      cnt <- int_check (t_cnt s + r_ret res) ;;
      ret (inl (MmsgState cnt (t_batches s + 1) total p hdrs (t_r s)))
  else ret (inr s).

(** [fuel] bounds the rounds of the receive loop: a round that fails with
    [EAGAIN], or receives nothing, makes no progress. *)
Definition sink_with_recvMmsg (fuel : nat) (sockfd : Z) (p : sink_params) (r : time_bench_record) :
  M (Z * sink_params * time_bench_record) :=
  buffer <- malloc_payload_buffer (buf_sz p) ;;
  let flags := if truth (dontwait p) then MSG_DONTWAIT else 0 in
  if batch p <=? 0 then undefined OutOfBounds
  else
  sender <- new_block (sizeof_sockaddr_storage * batch p) ;;
  cbuf <- new_block (sizeof_cbuf * batch p) ;;
  mmsg_hdr <- malloc_mmsghdr (u32 (batch p)) ;;
  n_iov <- int_check (iov_elems p * batch p) ;;
  msg_iov <- malloc_iovec (u32 n_iov) ;;
  hdrs <- forM (seqZ 0 (batch p)) (fun pkt =>
    size <- int_div (buf_sz p) (iov_elems p) ;;
    buf <- (if truth (bad_addr p) && (pkt =? bad_addr p - 1) then ret NULL
            else malloc (u64 (buf_sz p))) ;;
    iov <- forM (seqZ 0 (iov_elems p)) (fun i =>
             check_elem msg_iov sizeof_iovec (pkt * iov_elems p + i) ;;
             ret (Iovec (ptr_add buf (size * i)) (u64 size))) ;;
    check_elem mmsg_hdr sizeof_mmsghdr pkt ;;
    ret (Mmsghdr (bind_header p (ptr_add sender (sizeof_sockaddr_storage * pkt))
                    (ptr_add cbuf (sizeof_cbuf * pkt)) iov) 0)) ;;
  let ts := if 0 <=? timeout p then Some (Timespec (timeout p) 0) else None in
  let flags := Z.lor flags (if truth (waitforone p) then MSG_WAITFORONE else 0) in
  s <- iter fuel
         (recvmmsg_round sockfd flags (count p) ts
            (fun res => recv_error "sink_with_recvMmsg" res "- recvmsg"
                          (free msg_iov ;; free mmsg_hdr ;; free buffer) sockfd))
         (MmsgState 0 0 0 p hdrs r) ;;
  let packets := u64 (t_cnt s - try_again (t_r s)) in
  let r := set_bytes (t_total s) (t_r s) in
  verbose <- get_verbose ;;
  when (0 <? verbose)
    (printf " - read %lu bytes in %lu packets= %lu bytes payload"
       [AInt (t_total s); AInt packets; AInt (if truth packets then t_total s / packets else 0)] ;;
     when (truth (waitforone p))
       (printf "= %ld avg batch len"
          [AInt (if truth (t_batches s) then packets / u64 (t_batches s) else 0)]) ;;
     printf " (loop %d)\n" [AInt (t_batches s)]) ;;
  forM (t_hdrs s) (fun h => free (default NULL (iov_base <$> head (CommonSocket.msg_iov (msg_hdr h))))) ;;
  free msg_iov ;;
  free mmsg_hdr ;;
  free buffer ;;
  free sender ;;
  free cbuf ;;
  ret (i32 packets, t_p s, r).

(** ** The timing of a test, and [main] *)
Definition init_stats (testrun : Z) (p : sink_params) : sink_params :=
  set_run_flag_curr testrun (set_stats 0 0 0 p).

(** The error exit of [time_function]. *)
Definition socket_error {A} (sockfd : Z) (res : reply) : M A :=
  eprintf "ERROR: %s() failed (%d) errno(%d) "
    [AStr "time_function"; AInt (r_ret res); AInt (r_errno res)] ;;
  ask (CClose sockfd) ;;
  exit EXIT_FAIL_SOCK.

Definition TMPMAX : Z := 4096.

(** The wait for the first packet of the flood. *)
Definition wait_first (sockfd : Z) (p : sink_params) : M unit :=
  buffer <- new_block TMPMAX ;;
  src <- new_block sizeof_sockaddr_storage ;;
  verbose <- get_verbose ;;
  when (truth verbose) (printf " - Waiting on first packet (of expected flood)\n" []) ;;
  res <- recv_call (CRecvfrom sockfd TMPMAX 0 true) buffer TMPMAX ;;
  if r_ret res <? 0 then perror "- read" ;; socket_error sockfd res
  else
    store src (take (Z.to_nat sizeof_sockaddr_storage) (m_name (r_msg res))) ;;
    let addrlen := Z.of_nat (length (m_name (r_msg res))) in
    fam <- load src 2 ;;
    let sa_family := le_val fam in
    port_addr <- (if sa_family =? AF_INET then
                    port <- load (ptr_add src 2) 2 ;;
                    addr <- load (ptr_add src 4) 4 ;;
                    ret (le_val port, addr)
                  else if sa_family =? AF_INET6 then
                    port <- load (ptr_add src 2) 2 ;;
                    addr <- load (ptr_add src 8) 16 ;;
                    ret (le_val port, addr)
                  else
                    eprintf "ERROR: %s() unsupported sa_family(%d) from socket errno(%d)\n"
                      [AStr "time_function"; AInt sa_family; AInt (r_errno res)] ;;
                    ask (CClose sockfd) ;;
                    exit EXIT_FAIL_RECV) ;;
    let '(src_port, addr) := port_addr in
    from_ip <- ask (CInetNtop sa_family addr) ;;
    if r_ret from_ip =? 0 then
      perror "- inet_ntop" ;;
      socket_error sockfd (Reply (r_ret res) (r_errno from_ip) (r_ts res) [])
    else
      when (truth verbose && negb (truth (connect (c p))))
        (printf "  * Got first packet from IP:port %s:%d\n" [AInt (htons src_port)]) ;;
      when (truth (connect (c p)))
        (when (truth verbose)
           (printf "  * Connect UDP sock to src IP:port %s:%d\n" [AInt (htons src_port)]) ;;
         to <- load src addrlen ;;
         Connect sockfd to addrlen ;;
         when (truth verbose) (printf "  * Got first packet (starting timing)\n" [])) ;;
      free buffer ;;
      free src.

(** One test run. *)
Definition time_run (sockfd : Z) (name : string) (j : Z)
  (func : Z -> sink_params -> time_bench_record -> M (Z * sink_params * time_bench_record))
  (p : sink_params) (rec : time_bench_record) : M (sink_params * time_bench_record) :=
  verbose <- get_verbose ;;
  (if truth verbose then
     printf " Test run: %d (expecting to receive %d pkts)\n" [AInt j; AInt (count p)]
   else
     print_header name (if truth (Z.land (run_flag_curr p) RUN_RECVMMSG) then batch p else 0) ;;
     printf "run: %2d\t" [AInt j]) ;;
  rec <- time_bench_record_setting rec ;;
  rec <- time_bench_start rec ;;
  out <- func sockfd p rec ;;
  let '(cnt_recv, p, rec) := out in
  rec <- time_bench_stop rec ;;
  if cnt_recv <? 0 then
    eprintf "ERROR: failed to recv packets\n" [] ;;
    ask (CClose sockfd) ;;
    exit EXIT_FAIL_RECV
  else
    rec <- time_bench_calc_stats (set_packets cnt_recv rec) ;;
    time_bench_print_stats rec (c p) ;;
    print_check_result p ;;
    ret (init_stats (run_flag_curr p) p, rec).

Definition time_function (sockfd : Z) (p : sink_params) (name : string)
  (func : Z -> sink_params -> time_bench_record -> M (Z * sink_params * time_bench_record)) :
  M sink_params :=
  wait_first sockfd p ;;
  iter (Datatypes.S (Z.to_nat (repeat p)))
    (fun '(j, p, rec) =>
       if j <? repeat p then
         out <- time_run sockfd name j func p rec ;;
         ret (inl (j + 1, out.1, out.2))
       else ret (inr p))
    (0, p, zero_record).

Definition BPF_LD : Z := 0.
Definition BPF_W : Z := 0.
Definition BPF_ABS : Z := 32.
Definition BPF_RET : Z := 6.
Definition BPF_A : Z := 16.
Definition SKF_AD_OFF : Z := -4096.
Definition SKF_AD_CPU : Z := 36.

(** [struct sock_filter] of the two instructions: code, jt, jf, k. *)
Definition bpf_code : list Z :=
  [Z.lor (Z.lor BPF_LD BPF_W) BPF_ABS; 0; 0; u32 (SKF_AD_OFF + SKF_AD_CPU);
   Z.lor BPF_RET BPF_A; 0; 0; 0].

Definition enable_bpf (sockfd : Z) : M Z :=
  res <- ask (CSetsockopt sockfd SOL_SOCKET SO_ATTACH_REUSEPORT_CBPF bpf_code) ;;
  if truth (r_ret res) then ret (-1) else ret 0.

(** [memset] to zero, then the defaults. *)
Definition init_params : sink_params :=
  SinkParams (ParamsCommon 0) 0 1 32 1000000 1 0 0 0 0 0 (-1) (-1) 0 zero_sockaddr 0 0 4096 0 0 0 0 0.

Definition doc : string := " This tool is a UDP sink that measures the incoming packet rate,\n it expects a continuous flow of UDP packets (up to --count per test).\n Default it cycles through different ways/function-calls to\n receive packets.  What function-call to invoke can also be\n specified as a command line option (see below)\n".

Definition usage (argv0 : string) : M Z :=
  printf "\nDOCUMENTATION:\n%s\n" [AStr doc] ;;
  printf " Default receives %d packets per test, adjust via --count\n" [AInt DEFAULT_COUNT] ;;
  printf "\n" [] ;;
  printf " Usage: %s (options-see-below)\n" [AStr argv0] ;;
  printf " Listing options:\n" [] ;;
  forM long_options (fun o =>
    printf " --%-12s" [AStr (opt_name o)] ;;
    printf " short-option: -%c" [AInt (opt_val o)] ;;
    printf "\n" []) ;;
  printf "\n Multiple tests can be selected:\n" [] ;;
  printf "     default: all tests\n" [] ;;
  printf "     -u -U -t -T: run any combination of recvmsg/recvmmsg/recvfrom/read\n" [] ;;
  printf "\n" [] ;;
  printf "Hint: Following options takes an optional argument:\n  verbose=N and check-pktgen=N\nNotice must be specified with an equal sign (due to strange choice of getopt_long)\n" [] ;;
  printf "\n" [] ;;
  ret EXIT_FAIL_OPTION.

(** The local variables of [main] that the options set. *)
Record main_opts := MainOpts { o_p : sink_params; o_addr_family : Z; o_listen_port : Z }.

Definition upd_p (f : sink_params -> sink_params) (o : main_opts) : main_opts :=
  MainOpts (f (o_p o)) (o_addr_family o) (o_listen_port o).
Definition upd_run_flag (v : Z) (o : main_opts) : main_opts :=
  upd_p (fun p => set_run_flag (Z.lor (run_flag p) v) p) o.

(** The options without a short version ([c == 0]). *)
Definition long_only_option (name : string) (o : main_opts) (e : optev) : M (main_opts + Z) :=
  if String.eqb name "check-pktgen" then ret (inl (upd_p (set_check (atoi_or_1 e)) o))
  else if String.eqb name "nr-iovec" then
    v <- atoi_optarg e ;; ret (inl (upd_p (set_iov_elems v) o))
  else if String.eqb name "recv-pktinfo" then ret (inl (upd_p (set_recv_pktinfo 1) o))
  else if String.eqb name "use-bpf" then ret (inl (upd_p (set_use_bpf 1) o))
  else if String.eqb name "recv-ttl" then ret (inl (upd_p (set_recv_ttl 1) o))
  else ret (inl o).

Definition main_option (argv0 : string) (o : main_opts) (e : optev) : M (main_opts + Z) :=
  let oc := o_c e in
  if oc =? 0 then
    match long_options !! o_longindex e with
    | Some lo => long_only_option (opt_name lo) o e
    | None => undefined OutOfBounds
    end
  else if oc =? ch "c" then v <- atoi_optarg e ;; ret (inl (upd_p (set_count v) o))
  else if oc =? ch "r" then v <- atoi_optarg e ;; ret (inl (upd_p (set_repeat v) o))
  else if oc =? ch "b" then v <- atoi_optarg e ;; ret (inl (upd_p (set_batch v) o))
  else if oc =? ch "l" then
    v <- atoi_optarg e ;; ret (inl (MainOpts (o_p o) (o_addr_family o) (u16 v)))
  else if oc =? ch "4" then ret (inl (MainOpts (o_p o) AF_INET (o_listen_port o)))
  else if oc =? ch "6" then ret (inl (MainOpts (o_p o) AF_INET6 (o_listen_port o)))
  else if oc =? ch "O" then ret (inl (upd_p (set_waitforone 1) o))
  else if oc =? ch "i" then v <- atoi_optarg e ;; ret (inl (upd_p (set_timeout v) o))
  else if oc =? ch "I" then v <- atoi_optarg e ;; ret (inl (upd_p (set_sk_timeout v) o))
  else if oc =? ch "L" then ret (inl (upd_p (set_lite 1) o))
  else if oc =? ch "d" then ret (inl (upd_p (set_dontwait 1) o))
  else if oc =? ch "B" then v <- atoi_optarg e ;; ret (inl (upd_p (set_bad_addr v) o))
  else if oc =? ch "C" then ret (inl (upd_p (set_c (ParamsCommon 1)) o))
  else if oc =? ch "s" then ret (inl (upd_p (set_so_reuseport 1) o))
  else if oc =? ch "S" then
    match o_arg e with
    | Some ip =>
        addr <- setup_sockaddr (o_addr_family o) (sender_addr (o_p o)) ip 0 ;;
        ret (inl (upd_p (set_sender_addr addr) o))
    | None => undefined NullDeref
    end
  else if oc =? ch "v" then put_verbose (atoi_or_1 e) ;; ret (inl o)
  else if oc =? ch "u" then ret (inl (upd_run_flag RUN_RECVMSG o))
  else if oc =? ch "U" then ret (inl (upd_run_flag RUN_RECVMMSG o))
  else if oc =? ch "t" then ret (inl (upd_run_flag RUN_RECVFROM o))
  else if oc =? ch "T" then ret (inl (upd_run_flag RUN_READ o))
  else if oc =? 176 then ret (inl (upd_run_flag RUN_RECV o))
  else if (oc =? ch "h") || (oc =? ch "?") then u <- usage argv0 ;; ret (inr u)
  else ret (inl o).

(** A socket option whose failure ends the program. *)
Definition sockopt_or_exit (sockfd level optname : Z) (optval : list Z) (err : option string)
  (msg : string) : M unit :=
  res <- ask (CSetsockopt sockfd level optname optval) ;;
  if r_ret res <? 0 then
    (match err with Some e => printf e [] | None => ret tt end) ;;
    perror msg ;;
    exit EXIT_FAIL_SOCKOPT
  else ret tt.

(** [listen_addr] from the address family and the port. *)
Definition listen_addr (addr_family listen_port : Z) : list Z :=
  if (addr_family =? AF_INET) || (addr_family =? AF_INET6)
  then set_port (htons listen_port) (set_family addr_family zero_sockaddr)
  else zero_sockaddr.

Definition run_test (flag : Z) (name : string) (sockfd : Z)
  (func : Z -> sink_params -> time_bench_record -> M (Z * sink_params * time_bench_record))
  (p : sink_params) : M sink_params :=
  if truth (Z.land (run_flag p) flag)
  then time_function sockfd (init_stats flag p) name func
  else ret p.

(** [main], from the answers of [getopt_long]. *)
Definition main (fuel : nat) (argv0 : string) (evs : list optev) : M Z :=
  o <- getopt_loop (main_option argv0) (MainOpts init_params AF_INET 6666) evs ;;
  match o with
  | inr u => ret u
  | inl o =>
    verbose <- get_verbose ;;
    when (0 <? verbose) (printf "Listen port %d\n" [AInt (o_listen_port o)]) ;;
    let p := if run_flag (o_p o) =? 0 then set_run_flag RUN_ALL (o_p o) else o_p o in
    sockfd <- Socket (o_addr_family o) SOCK_DGRAM
                (if truth (lite p) then IPPROTO_UDPLITE else IPPROTO_UDP) ;;
    when (truth (so_reuseport p))
      (sockopt_or_exit sockfd SOL_SOCKET SO_REUSEPORT [so_reuseport p]
         (Some "ERROR: No support for SO_REUSEPORT\n") "- setsockopt(SO_REUSEPORT)") ;;
    when (truth (use_bpf p))
      (e <- enable_bpf sockfd ;;
       when (truth e)
         (printf "ERROR: No support for SO_ATTACH_REUSEPORT_CBPF\n" [] ;;
          perror "- setsockopt(SO_ATTACH_REUSEPORT_CBPF)" ;;
          exit EXIT_FAIL_SOCKOPT)) ;;
    when (truth (recv_pktinfo p))
      (sockopt_or_exit sockfd SOL_IP IP_PKTINFO [1]
         (Some "ERROR: No support for IP_PKTINFO\n") "- setsockopt(IP_PKTINFO)") ;;
    when (truth (recv_ttl p))
      (sockopt_or_exit sockfd SOL_IP IP_RECVTTL [1]
         (Some "ERROR: No support for IP_RECVTTL\n") "- setsockopt(IP_RECVTTL)") ;;
    Bind sockfd (listen_addr (o_addr_family o) (o_listen_port o)) ;;
    when (0 <=? sk_timeout p)
      (sockopt_or_exit sockfd SOL_SOCKET SO_RCVTIMEO [sk_timeout p; 0] None
         "- setsockopt(SO_RCVTIMEO)") ;;
    when (negb (truth verbose))
      (printf "%-10s\t%-8s %-8s\tns/pkt\tpps\t\tcycles\tpayload\n"
         [AStr EmptyString; AStr "run"; AStr "count"]) ;;
    p <- run_test RUN_RECVMMSG "recvMmsg" sockfd (sink_with_recvMmsg fuel) p ;;
    p <- run_test RUN_RECVMSG "recvmsg" sockfd sink_with_recvmsg p ;;
    p <- run_test RUN_READ "read" sockfd sink_with_read p ;;
    p <- run_test RUN_RECVFROM "recvfrom" sockfd sink_with_recvfrom p ;;
    p <- run_test RUN_RECV "recv" sockfd sink_with_recv p ;;
    ask (CClose sockfd) ;;
    ret 0
  end.
End UdpSink.
