(* ===== verification/CmsgCheck.v ===== *)
(** * udp_sink: the verdict on control messages *)
From stdpp Require Import base list gmap strings.
From Stdlib Require Import ZArith Lia.
From S2P Require Import Prelude.
From S2P Require Import CLang.
From S2P Require Import Wp.
From S2P Require Import Libc.
From S2P Require Import Common.
From S2P Require Import CommonSocket.
From S2P Require Import Scripted.
From S2P Require Import Pktgen.
From S2P Require Import CheckPkt.
From S2P Require Import FloodSink.
From S2P Require Import CheckProps.
From S2P Require Import Cmsg.
From S2P Require Import CmsgSpec.
From S2P Require Import UdpSink.

#[local] Open Scope Z_scope.
#[local] Open Scope c_scope.

(** The two messages the sink looks for. *)
Definition is_pktinfo (m : cmsg) : bool :=
  (c_level m =? IPPROTO_IP) && (c_type m =? IP_PKTINFO) && (Z.of_nat (length (c_data m)) =? sizeof_in_pktinfo).
Definition is_ttl (m : cmsg) : bool :=
  (c_level m =? IPPROTO_IP) && (c_type m =? IP_TTL) && (Z.of_nat (length (c_data m)) =? sizeof_int).

Definition ttl_after (t : Z) (m : cmsg) : Z := if is_ttl m then i32 (le_val (c_data m)) else t.
Definition found_ttl (l : list cmsg) : Z := foldl ttl_after 0 l.

(** The verdict: exactly what was requested is there. *)
Definition cmsgs_accepted (p : sink_params) (l : list cmsg) : bool :=
  if negb (truth (recv_ttl p)) && negb (truth (recv_pktinfo p)) then bool_decide (l = [])
  else (recv_ttl p =? of_bool (truth (found_ttl l))) && (recv_pktinfo p =? of_bool (existsb is_pktinfo l)).

Definition is_bit (z : Z) : Prop := z = 0 \/ z = 1.

Lemma lxor_bit a b : is_bit a -> truth (Z.lxor a (of_bool b)) = negb (a =? of_bool b).
Proof. by intros [-> | ->]; destruct b. Qed.

Section Check.
Context {K : Kernel}.
#[local] Abbreviation W := (world statics).
Variables (F : Prop) (h : msghdr) (b o : Z) (lb : list mbyte) (l : list cmsg) (ctl : list Z) (w0 : W).
Hypothesis Hctl : controls l ctl.
Hypothesis Hok : Forall cmsg_ok l.
Hypothesis Hc : msg_control h = Ptr b o.
Hypothesis Hlen : msg_controllen h = Z.of_nat (length ctl).
Hypothesis Ho : 0 <= o.
Hypothesis Hin : (Z.to_nat o + length ctl <= length lb)%nat.
Hypothesis Hbytes : get_bytes (Z.to_nat o) (length ctl) lb = Some <$> ctl.
Hypothesis Hsize : Z.of_nat (length ctl) < 2 ^ 63.
Hypothesis Hmem : w_mem w0 !! b = Some lb.

(** The data of a message can be read. *)
Lemma data_spec done m rest (Q : list Z -> W -> Prop) X w :
  l = done ++ m :: rest -> w_mem w !! b = Some lb -> Q (c_data m) w ->
  wpg F (load (cmsg_data (seen b o done m)) (Z.of_nat (length (c_data m)))) Q X w.
Proof.
  intros Hl Hb HQ. destruct (ctl_split l ctl done m rest Hctl Hl) as (Hoff & Htot & _ & Hd).
  pose proof (cmsg_size_space m) as Hsp. pose proof (offset_nonneg rest).
  unfold cmsg_size, sizeof_cmsghdr in *. unfold seen. cbn [cmsg_data]. unfold sizeof_cmsghdr.
  replace (o + offset_of done + 16) with (o + (offset_of done + 16)) by lia.
  eapply load_spec; [exact Hb|lia|rewrite Nat2Z.id; lia| |exact HQ].
  rewrite Nat2Z.id. apply (control_get o lb ctl); try done; try lia.
  rewrite <- Hd at 2. f_equal. lia.
Qed.

Lemma dlen_seen done m rest :
  l = done ++ m :: rest -> CMSG_DLEN (seen b o done m) = Z.of_nat (length (c_data m)).
Proof.
  intros Hl. destruct (ctl_split l ctl done m rest Hctl Hl) as (Hoff & Htot & _).
  pose proof (cmsg_size_space m) as Hsp. pose proof (offset_nonneg rest).
  unfold cmsg_size, sizeof_cmsghdr in *. unfold CMSG_DLEN, seen, cmsg_size, sizeof_cmsghdr. cbn [cmsg_len].
  replace (16 + Z.of_nat (length (c_data m)) - 16) with (Z.of_nat (length (c_data m))) by lia.
  apply u64_id. lia.
Qed.

(** The messages found among those visited. *)
Definition found (done : list cmsg) (a : option ptr * Z) (w : W) : Prop :=
  w = w0 /\ a.2 = found_ttl done /\
  match a.1 with
  | None => existsb is_pktinfo done = false
  | Some q => existsb is_pktinfo done = true /\
      exists d m rest, l = d ++ m :: rest /\ is_pktinfo m = true /\ q = cmsg_data (seen b o d m)
  end.

Lemma check_cmsg_body_spec done m rest a w X :
  l = done ++ m :: rest -> found done a w ->
  wpg F (check_cmsg_body a (seen b o done m)) (fun a' w' => found (done ++ [m]) a' w') X w.
Proof.
  intros Hl (-> & Ha2 & Ha1). destruct a as [fp ft]. cbn [fst snd] in *. subst ft.
  unfold check_cmsg_body. rewrite (dlen_seen done m rest Hl). cbn [cmsg_level cmsg_type seen].
  assert (Httl : found_ttl (done ++ [m]) = ttl_after (found_ttl done) m).
  { unfold found_ttl. by rewrite foldl_snoc. }
  assert (Hpkt : existsb is_pktinfo (done ++ [m]) = existsb is_pktinfo done || is_pktinfo m).
  { rewrite existsb_app. cbn. by rewrite orb_false_r. }
  fold (is_pktinfo m). fold (is_ttl m). unfold ttl_after in Httl.
  destruct (is_pktinfo m) eqn:Ep; [|destruct (is_ttl m) eqn:Et].
  - assert (is_ttl m = false) as Et.
    { unfold is_pktinfo, is_ttl in *. apply andb_true_iff in Ep as [[_ E%Z.eqb_eq]%andb_true_iff _].
      rewrite E. change (IP_PKTINFO =? IP_TTL) with false. by rewrite andb_false_r. }
    rewrite Et in Httl. wp_step. split_and!; [done|done|]. cbn [fst].
    rewrite Hpkt, orb_true_r. split; [done|]. by exists done, m, rest.
  - wp_step. apply andb_true_iff in Et as [_ E%Z.eqb_eq]. rewrite <- E.
    eapply data_spec; [exact Hl|done|]. wp_step. split_and!; [done|done|]. cbn [fst].
    rewrite Hpkt, orb_false_r. exact Ha1.
  - wp_step. split_and!; [done|done|]. cbn [fst]. rewrite Hpkt, orb_false_r. exact Ha1.
Qed.

Lemma pktinfo_args_spec d m rest (Q : list arg -> W -> Prop) X :
  l = d ++ m :: rest -> is_pktinfo m = true -> (forall args, Q args w0) ->
  wpg F (pktinfo_args (cmsg_data (seen b o d m))) Q X w0.
Proof.
  intros Hl Hp HQ. apply andb_true_iff in Hp as [_ E%Z.eqb_eq]. unfold pktinfo_args.
  wp_step. rewrite <- E. eapply data_spec; [exact Hl|done|]. wp_step. apply HQ.
Qed.

Lemma check_cmsg_spec p max_len :
  is_bit (recv_ttl p) -> is_bit (recv_pktinfo p) -> Z.of_nat (length ctl) <= max_len < 2 ^ 63 ->
  wpg F (check_cmsg h p max_len)
    (fun _ w' => cmsgs_accepted p l = true /\ w_mem w' = w_mem w0 /\ w_st w' = w_st w0 /\ w_log w' = w_log w0)
    (fun code _ => code = EXIT_FAIL_SOCK /\ cmsgs_accepted p l = false) w0.
Proof.
  intros Ht Hp Hmax. unfold check_cmsg, cmsgs_accepted. rewrite Hlen.
  destruct (negb (truth (recv_ttl p)) && negb (truth (recv_pktinfo p))).
  { pose proof (controls_length _ _ Hctl) as Hcl. unfold truth.
    destruct (Z.eqb_spec (Z.of_nat (length ctl)) 0) as [E|E]; cbn [negb].
    - wp_step. split_and!; try done. apply bool_decide_eq_true. rewrite E in Hcl.
      clear - Hcl. destruct l as [|m l']; [done|]. unfold offset_of in Hcl. cbn in Hcl.
      fold (offset_of l') in Hcl. pose proof (cmsg_size_space m). pose proof (offset_nonneg l').
      unfold sizeof_cmsghdr in *. lia.
    - do 3 wp_step. split; [done|]. apply bool_decide_eq_false. intros Hnil.
      rewrite Hnil in Hcl. unfold offset_of in Hcl. cbn in Hcl. lia. }
  rewrite (u64_id max_len) by (unfold is_u64; lia). rewrite (proj2 (Z.ltb_ge _ _)) by lia.
  wp_step. eapply (cmsg_fold_spec F h b o lb l ctl) with (I := found); try done.
  { by intros done a w (-> & _). }
  { intros; by eapply check_cmsg_body_spec. }
  intros [fp ft] w (-> & Ha2 & Ha1). cbn [fst snd] in *. subst ft.
  rewrite (lxor_bit _ (truth _) Ht). destruct (recv_ttl p =? _); cbn [negb andb]; [|by do 3 wp_step].
  assert (Hfp : bool_decide (is_Some fp) = existsb is_pktinfo l).
  { destruct fp as [q|]; [destruct Ha1 as [-> _]|rewrite Ha1]; done. }
  rewrite Hfp, (lxor_bit _ _ Hp). destruct (recv_pktinfo p =? _); cbn [negb].
  - wp_step. wp_step. wp_step; [by wp_step|]. wp_step.
    destruct fp as [q|].
    + destruct Ha1 as (_ & d & m & rest & Hl & Hm & ->). wp_step.
      eapply pktinfo_args_spec; [exact Hl|done|]. intros args. by repeat wp_step.
    + by repeat wp_step.
  - wp_step. destruct fp as [q|].
    + destruct Ha1 as (_ & d & m & rest & Hl & Hm & ->).
      eapply pktinfo_args_spec; [exact Hl|done|]. intros args. by do 3 wp_step.
    + wp_step. by do 3 wp_step.
Qed.
End Check.

(** ** The properties *)

(** C21: [check_cmsg], on a control buffer the system filled with the messages
    [l] (any number, of any levels and types, however padded): it returns, having
    changed nothing, exactly when the packet information is there if and only if
    it was asked for, and a TTL other than 0 if and only if it was asked for
    (with neither asked for, when there is no control data at all); in every
    other case it ends the program with EXIT_FAIL_SOCK.  The traversal never
    reads beyond the messages. *)
Theorem check_cmsg_verdict (K : Kernel) (h : msghdr) (b o : Z) (lb : list mbyte) (l : list cmsg)
  (ctl : list Z) (p : sink_params) (max_len : Z) (w : world statics) :
  controls l ctl -> Forall cmsg_ok l -> msg_control h = Ptr b o ->
  msg_controllen h = Z.of_nat (length ctl) -> 0 <= o -> (Z.to_nat o + length ctl <= length lb)%nat ->
  get_bytes (Z.to_nat o) (length ctl) lb = Some <$> ctl -> w_mem w !! b = Some lb ->
  is_bit (recv_ttl p) -> is_bit (recv_pktinfo p) -> Z.of_nat (length ctl) <= max_len < 2 ^ 63 ->
  wp (check_cmsg h p max_len)
    (fun _ w' => cmsgs_accepted p l = true /\ w_mem w' = w_mem w /\ w_st w' = w_st w /\ w_log w' = w_log w)
    (fun code _ => code = EXIT_FAIL_SOCK /\ cmsgs_accepted p l = false) w.
Proof.
  intros Hctl Hok Hc Hlen Ho Hin Hb Hm Ht Hp Hmax.
  apply (check_cmsg_spec False h b o lb l ctl w); try done. lia.
Qed.

(** A control buffer with packet information and a TTL of 64. *)
Definition example_cmsgs : list cmsg :=
  [Cmsg IPPROTO_IP IP_PKTINFO [1; 0; 0; 0; 10; 0; 0; 1; 10; 0; 0; 1]; Cmsg IPPROTO_IP IP_TTL [64; 0; 0; 0]].

Definition encode (m : cmsg) : list Z :=
  header_bytes m ++ c_data m ++ replicate (Z.to_nat (CMSG_ALIGN (cmsg_size m) - cmsg_size m)) 0.

Definition example_ctl : list Z := concat (encode <$> example_cmsgs).

Definition example_world : @world scripted statics :=
  @World scripted statics [] {[1 := (Some <$> example_ctl) ++ replicate 100 None]} 2 [] [] 0 (Statics hdr_zero).

Definition example_header : msghdr := Msghdr NULL 0 [] 0 (Ptr 1 0) (Z.of_nat (length example_ctl)) 0.

Definition example_wants : sink_params := set_recv_pktinfo 1 (set_recv_ttl 1 (level_params 0)).

Lemma check_cmsg_verdict_witness :
  wp (check_cmsg example_header example_wants 512)
    (fun _ w' => cmsgs_accepted example_wants example_cmsgs = true /\ w_mem w' = w_mem example_world /\
       w_st w' = w_st example_world /\ w_log w' = w_log example_world)
    (fun code _ => code = EXIT_FAIL_SOCK /\ cmsgs_accepted example_wants example_cmsgs = false) example_world.
Proof.
  apply (check_cmsg_verdict scripted example_header 1 0 ((Some <$> example_ctl) ++ replicate 100 None)
    example_cmsgs example_ctl example_wants 512 example_world).
  - exists (replicate 4 0). eexists. split; [reflexivity|]. split; [reflexivity|].
    exists (replicate 4 0), []. split; [reflexivity|]. split; reflexivity.
  - repeat constructor; vm_compute; try discriminate; reflexivity.
  - reflexivity.
  - reflexivity.
  - discriminate.
  - vm_compute. lia.
  - reflexivity.
  - reflexivity.
  - right. reflexivity.
  - right. reflexivity.
  - vm_compute. split; [discriminate|reflexivity].
Defined.
