(* ===== verification/UdpSinkSpec.v ===== *)
(** * What the receive functions of udp_sink.c do

    The trace of a test run: the replies to the receive calls. *)
From stdpp Require Import base list gmap strings.
From Stdlib Require Import ZArith Lia.
From S2P Require Import Prelude.
From S2P Require Import CLang.
From S2P Require Import Wp.
From S2P Require Import Libc.
From S2P Require Import Common.
From S2P Require Import CommonSocket.
From S2P Require Import Pktgen.
From S2P Require Import CheckPkt.
From S2P Require Import UdpSink.

#[local] Open Scope Z_scope.
#[local] Open Scope c_scope.

Definition recv_reply (e : call * reply) : option reply :=
  match e.1 with
  | CRead _ _ | CRecv _ _ _ | CRecvfrom _ _ _ _ | CRecvmsg _ _ _ _ _ => Some e.2
  | _ => None
  end.

Definition recv_replies (tr : list (call * reply)) : list reply := rev (omap recv_reply tr).

Arguments recv_replies : simpl never.

(** A receive that returned data, and one that found the queue empty. *)
Definition got (r : reply) : bool := 0 <=? r_ret r.
Definition empty_queue (r : reply) : bool := (r_ret r <? 0) && (r_errno r =? EAGAIN).

Definition count_if {A} (f : A -> bool) (l : list A) : Z := Z.of_nat (length (List.filter f l)).
Definition bytes_got (rs : list reply) : Z := sumZ (r_ret <$> List.filter got rs).

Lemma count_if_snoc {A} (f : A -> bool) l x :
  count_if f (l ++ [x]) = count_if f l + of_bool (f x).
Proof.
  unfold count_if. rewrite List.filter_app, length_app. cbn. destruct (f x); cbn; lia.
Qed.

Lemma bytes_got_snoc rs r : bytes_got (rs ++ [r]) = bytes_got rs + (if got r then r_ret r else 0).
Proof.
  unfold bytes_got. rewrite List.filter_app, fmap_app, sumZ_app. f_equal. cbn.
  destruct (got r); cbn; lia.
Qed.

(** A reply to a call [f] looks at that the system [K] gave, and that did not
    stop the program: data, or an empty queue. *)
Definition given {K : Kernel} (f : call * reply -> option reply) (x : reply) : Prop :=
  exists c k, f (c, (kstep c k).1) = Some x.

Lemma given_now {K : Kernel} f c k x k' : kstep c k = (x, k') -> f (c, x) = Some x -> given f x.
Proof. intros E H. exists c, k. by rewrite E. Qed.

Definition answered {K : Kernel} (f : call * reply -> option reply) (x : reply) : Prop :=
  got x || empty_queue x = true /\ given f x.

(** The result of a run after the replies [rs]: all of them data or empty
    queue; the bytes and the count of what was received. *)
Definition recv_result {K : Kernel} (p : sink_params) (r : time_bench_record) (rs : list reply)
  (out : Z * sink_params * time_bench_record) : Prop :=
  Z.of_nat (length rs) = Z.max 0 (count p) /\
  Forall (answered recv_reply) rs /\
  let '(cnt, p', r') := out in
  p' = p /\ bytes r' = u64 (bytes_got rs) /\
  try_again r' = u64 (try_again r + count_if empty_queue rs) /\
  (try_again r = 0 -> count p < 2 ^ 31 -> cnt = count_if got rs).

(** Every reply is one or the other. *)
Lemma got_or_empty {K : Kernel} f rs :
  Forall (answered f) rs ->
  count_if got rs + count_if empty_queue rs = Z.of_nat (length rs).
Proof.
  induction rs as [|r rs IH] using rev_ind; [done|].
  intros [H1 H2]%Forall_app. rewrite !count_if_snoc, length_app. cbn.
  inversion H2 as [|? ? [Hr _] _]; subst. specialize (IH H1).
  unfold got, empty_queue in *.
  destruct (Z.leb_spec 0 (r_ret r)), (Z.ltb_spec (r_ret r) 0); cbn in *; try lia.
  rewrite Hr. cbn. lia.
Qed.

Section Spec.
Context {K : Kernel}.
#[local] Abbreviation W := (world statics).
Implicit Types (w : W) (p : sink_params).

Lemma recv_trace c r tr x :
  recv_reply (c, r) = Some x -> recv_replies ((c, r) :: tr) = recv_replies tr ++ [x].
Proof. intros H. unfold recv_replies. rewrite rev_omap_cons. by rewrite H. Qed.

(** A receive into the buffer [b]: its bytes may change, nothing else. *)
Lemma recv_call_spec F c b cap w l (Q : reply -> W -> Prop) X :
  w_mem w !! b = Some l -> length l = Z.to_nat cap ->
  (forall r k l', kstep c (w_k w) = (r, k) -> length l' = length l ->
     Q r (w_set_mem (<[b := l']> (w_mem w)) (w_call c r k w))) ->
  wpg F (recv_call c (Ptr b 0) cap) Q X w.
Proof.
  intros Hb Hl HQ. unfold recv_call. wp_step. wp_ask r k E. do 2 wp_step.
  - unfold copy_in. eapply store_spec; [done|done| |].
    + rewrite length_take. cbn. lia.
    + wp_step. apply HQ; [done|]. rewrite length_put_bytes; [done|].
      rewrite length_fmap, length_take. cbn. lia.
  - wp_step. specialize (HQ r k l E eq_refl). cbn [w_mem w_call] in HQ.
    replace (w_set_mem (<[b := l]> (w_mem w)) (w_call c r k w)) with (w_call c r k w) in HQ; [done|].
    destruct w. unfold w_set_mem, w_call. cbn in *. by rewrite insert_id.
Qed.

Section Loop.
Variables (F : Prop) (p : sink_params) (r0 : time_bench_record) (c : call) (b : Z).
Hypothesis Hc : forall r, recv_reply (c, r) = Some r.

(** Between two rounds. *)
Definition recv_inv w0 (i total : Z) (r : time_bench_record) w : Prop :=
  exists tr l, w_log w = tr ++ w_log w0 /\ w_next w = w_next w0 /\ w_verbose w = w_verbose w0 /\
    w_st w = w_st w0 /\ w_mem w = <[b := l]> (w_mem w0) /\ length l = Z.to_nat (u64 (buf_sz p)) /\
    let rs := recv_replies tr in
    i = Z.of_nat (length rs) /\ Forall (answered recv_reply) rs /\
    total = u64 (bytes_got rs) /\
    try_again r = u64 (try_again r0 + count_if empty_queue rs).

Lemma recv_inv_round w0 i total r w x k l' :
  recv_inv w0 i total r w -> length l' = Z.to_nat (u64 (buf_sz p)) ->
  got x || empty_queue x = true -> kstep c (w_k w) = (x, k) ->
  recv_inv w0 (i + 1) (if got x then u64 (total + r_ret x) else total)
    (if got x then r else inc_try_again r)
    (w_set_mem (<[b := l']> (w_mem w)) (w_call c x k w)).
Proof using Hc.
  intros (tr & l & Hlog & Hnx & Hv & Hst & Hm & Hl & Hi & Hall & Ht & Ha) Hl' Hx Hk.
  exists ((c, x) :: tr), l'. cbn [w_log w_next w_verbose w_st w_mem w_set_mem w_call].
  rewrite (recv_trace _ _ _ x) by apply Hc. cbv zeta.
  rewrite length_app, bytes_got_snoc, count_if_snoc. cbn [length].
  split_and!; try done.
  - by rewrite Hlog.
  - by rewrite Hm, insert_insert_eq.
  - lia.
  - apply Forall_app. split; [done|]. constructor; [|done]. split; [done|].
    by eapply given_now.
  - rewrite Ht. destruct (got x); [by rewrite u64_add_l|]. by rewrite Z.add_0_r.
  - unfold got, empty_queue in *. destruct (Z.leb_spec 0 (r_ret x)); cbn [orb] in Hx.
    + rewrite (proj2 (Z.ltb_ge _ _)) by lia. cbn. by rewrite Z.add_0_r.
    + rewrite Hx. cbn [inc_try_again try_again of_bool]. rewrite Ha, u64_add_l. f_equal. lia.
Qed.

(** The loop: it ends with [recv_inv] for [count] replies, or takes the error
    exit after a failed call. *)
Lemma recv_loop_spec w0 l0 error (X : Z -> W -> Prop) :
  w_mem w0 !! b = Some l0 -> length l0 = Z.to_nat (u64 (buf_sz p)) -> is_u64 (try_again r0) ->
  (forall x w Q, r_ret x < 0 -> r_errno x <> EAGAIN ->
     (exists l, w_mem w = <[b := l]> (w_mem w0)) -> wpg F (error x) Q X w) ->
  wpg F (recv_loop p (recv_call c (Ptr b 0) (u64 (buf_sz p))) error r0)
    (fun '(i, total, r) w => i = Z.max 0 (count p) /\ recv_inv w0 i total r w) X w0.
Proof using Hc.
  intros Hb Hl Hr0 Herr. unfold recv_loop.
  apply (wp_iter (fun n '(i, total, r) w => recv_inv w0 i total r w /\ i <= Z.max 0 (count p) /\
    Z.max 0 (count p) - i < Z.of_nat n)).
  - split; [|lia]. exists [], l0. split_and!; try done.
    + by rewrite insert_id.
    + change (recv_replies []) with (@nil reply). split_and!; try done.
      change (count_if empty_queue []) with 0. by rewrite Z.add_0_r, u64_id.
  - intros [[i total] r] w (_ & ? & ?). lia.
  - intros n [[i total] r] w (Hinv & Hle & Hn). destruct (Z.ltb_spec i (count p)) as [Hlt|Hge].
    + wp_step. pose proof Hinv as (tr & l & _ & _ & _ & _ & Hm & Hll & _).
      eapply recv_call_spec; [rewrite Hm; apply lookup_insert_eq|done|].
      intros x k l' Hk Hl'. rewrite Hll in Hl'.
      destruct (Z.ltb_spec (r_ret x) 0) as [Hneg|Hnn].
      * destruct (Z.eqb_spec (r_errno x) EAGAIN) as [He|He].
        -- wp_step. split; [|lia].
           pose proof (recv_inv_round w0 i total r w x k l' Hinv Hl') as H.
           unfold got, empty_queue in H. rewrite (proj2 (Z.ltb_lt _ _)), He in H by done.
           rewrite (proj2 (Z.leb_gt _ _)) in H by done. by apply H.
        -- wp_step. apply Herr; [done|done|]. exists l'.
           cbn [w_mem w_set_mem w_call]. by rewrite Hm, insert_insert_eq.
      * wp_step. split; [|lia].
        pose proof (recv_inv_round w0 i total r w x k l' Hinv Hl') as H.
        unfold got in H. rewrite (proj2 (Z.leb_le _ _)) in H by done. by apply H.
    + wp_step. split; [|exact Hinv].
      destruct Hinv as (tr & l & _ & _ & _ & _ & _ & _ & Hi & _). lia.
Qed.
End Loop.

(** ** The three functions *)
Inductive receiver := RRead | RRecvfrom | RRecv.

Definition sink_with (v : receiver) :
  Z -> sink_params -> time_bench_record -> M statics (Z * sink_params * time_bench_record) :=
  match v with
  | RRead => sink_with_read
  | RRecvfrom => sink_with_recvfrom
  | RRecv => sink_with_recv
  end.

Definition recv_post p (r : time_bench_record) w (out : Z * sink_params * time_bench_record) w' : Prop :=
  w_mem w' = w_mem w /\ w_verbose w' = w_verbose w /\ w_next w <= w_next w' /\ w_st w' = w_st w /\
  exists tr, w_log w' = tr ++ w_log w /\ recv_result p r (recv_replies tr) out.

(** What remains after the loop. *)
Lemma recv_finish p r w w1 w2 b l tr ra i total r2 :
  recv_inv p r b w1 i total r2 w2 -> i = Z.max 0 (count p) -> is_u64 (try_again r) ->
  w_log w1 = (CMalloc (u64 (buf_sz p)), ra) :: w_log w ->
  w_mem w1 = <[b := l]> (w_mem w) -> w_mem w !! b = None ->
  w_verbose w1 = w_verbose w -> w_next w1 = w_next w + 1 -> w_st w1 = w_st w ->
  tr = w_mem w2 ->
  forall w3, w_mem w3 = delete b tr -> w_log w3 = w_log w2 -> w_verbose w3 = w_verbose w2 ->
    w_next w3 = w_next w2 -> w_st w3 = w_st w2 ->
  recv_post p r w (received i (set_bytes total r2), p, set_bytes total r2) w3.
Proof.
  intros (tr2 & l2 & Hlog & Hnx & Hv & Hst & Hm & Hl & Hi & Hall & Ht & Ha) Hi' Hr Hlog1 Hm1 Hb Hv1 Hn1 Hst1
    -> w3 Hm3 Hlog3 Hv3 Hn3 Hst3.
  split_and!.
  - rewrite Hm3, Hm, Hm1. rewrite insert_insert_eq, delete_insert_eq. by apply delete_id.
  - congruence.
  - lia.
  - congruence.
  - exists (tr2 ++ [(CMalloc (u64 (buf_sz p)), ra)]).
    split; [by rewrite Hlog3, Hlog, Hlog1, <- app_assoc|].
    assert (recv_replies (tr2 ++ [(CMalloc (u64 (buf_sz p)), ra)]) = recv_replies tr2) as ->.
    { unfold recv_replies. rewrite omap_app. cbn. by rewrite app_nil_r. }
    pose proof (got_or_empty _ _ Hall) as Hsum.
    split_and!; [lia|done|done|done|done|].
    intros H0 Hc. unfold received. cbn [try_again set_bytes]. rewrite Ha, H0, Z.add_0_l.
    rewrite u64_sub_r, i32_u64.
    assert (0 <= count_if got (recv_replies tr2)) by (unfold count_if; lia).
    assert (0 <= count_if empty_queue (recv_replies tr2)) by (unfold count_if; lia).
    rewrite i32_id; lia.
Qed.

(** Only the output differs. *)
Definition printed w w' : Prop :=
  w_mem w' = w_mem w /\ w_log w' = w_log w /\ w_verbose w' = w_verbose w /\
  w_next w' = w_next w /\ w_st w' = w_st w.

Lemma recv_error_spec F {A} func x msg b fd l (Q : A -> W -> Prop) (X : Z -> W -> Prop) w :
  w_mem w !! b = Some l -> b <> 0 -> (forall w', X EXIT_FAIL_SOCK w') ->
  wpg F (recv_error func x msg (free (Ptr b 0)) fd) Q X w.
Proof.
  intros Hb H0 HX. unfold recv_error. repeat wp_step.
  eapply wp_free; [exact Hb|done|]. wp_step. wp_ask r k E. wp_step. apply HX.
Qed.

(** A function that allocates the buffer, receives, reports and frees. *)
Lemma sink_simple F p r w fd c func msg (report : Z -> Z -> M statics unit) (X : Z -> W -> Prop) :
  (forall x, recv_reply (c, x) = Some x) -> mem_wf w -> is_u64 (try_again r) ->
  (forall i total w1 (Q : unit -> W -> Prop), i = Z.max 0 (count p) -> w_verbose w1 = w_verbose w ->
     (forall w2, printed w1 w2 -> Q tt w2) -> wpg F (report total i) Q X w1) ->
  (forall w', X EXIT_FAIL_MEM w') -> (forall w', X EXIT_FAIL_SOCK w') ->
  wpg F (buffer <- malloc_payload_buffer (buf_sz p) ;;
         out <- recv_loop p (recv_call c buffer (u64 (buf_sz p)))
                  (fun res => recv_error func res msg (free buffer) fd) r ;;
         let '(i, total, r') := out in
         let r' := set_bytes total r' in
         report total i ;;
         free buffer ;;
         ret (received i r', p, r'))%c (recv_post p r w) X w.
Proof.
  intros Hc [Hpos Hfresh] Hr Hrep HXm HXs. wp_step.
  apply malloc_payload_buffer_spec; [done| |by intros].
  intros w1 (Hst & Hv & Hnx & Hm & ra & Hlog).
  wp_step. eapply wp_post.
  - eapply recv_loop_spec; [exact Hc|rewrite Hm; apply lookup_insert_eq| |done|].
    + by rewrite length_replicate.
    + intros x w2 Q _ _ [l Hl]. eapply recv_error_spec; [rewrite Hl; apply lookup_insert_eq|lia|done].
  - intros [[i total] r2] w2 [Hi Hinv]. cbv zeta.
    pose proof Hinv as (tr2 & l2 & _ & _ & Hv2 & _ & Hm2 & _).
    wp_step. apply Hrep; [done|congruence|]. intros w3 (Hm3 & Hlog3 & Hv3 & Hn3 & Hst3).
    wp_step. eapply wp_free; [rewrite Hm3, Hm2; apply lookup_insert_eq|lia|]. wp_step.
    eapply (recv_finish p r w w1 w2 (w_next w)); try done.
    all: first [apply Hfresh; lia | cbn; by rewrite Hm3].
Qed.

(** [recvfrom] and [recv] compute an average when verbose. *)
Lemma report_payload_spec F p total i w (Q : unit -> W -> Prop) (X : Z -> W -> Prop) :
  i = Z.max 0 (count p) -> count p < 2 ^ 31 -> (0 < w_verbose w -> 0 < count p) ->
  (forall w2, printed w w2 -> Q tt w2) -> wpg F (report_payload total i) Q X w.
Proof.
  intros -> Hc Hv HQ. unfold report_payload. do 3 wp_step; [|by apply HQ].
  assert (0 < w_verbose w) as Hv1 by (by apply Z.ltb_lt). specialize (Hv Hv1).
  unfold avg_payload. rewrite (proj2 (Z.eqb_neq _ _)) by lia. repeat wp_step. by apply HQ.
Qed.

Definition recv_exit (code : Z) : Prop := code = EXIT_FAIL_MEM \/ code = EXIT_FAIL_SOCK.

Lemma sink_with_spec F v p fd r w :
  count p < 2 ^ 31 -> (v <> RRead -> 0 < w_verbose w -> 0 < count p) ->
  mem_wf w -> is_u64 (try_again r) ->
  wpg F (sink_with v fd p r) (recv_post p r w) (fun code _ => recv_exit code) w.
Proof.
  intros Hcnt Hvc Hwf Hr. unfold recv_exit. destruct v; cbn [sink_with].
  - apply (sink_simple F p r w fd (CRead fd (u64 (buf_sz p))) "sink_with_read" "- read" report_read); auto.
    intros i total w1 Q _ _ HQ. unfold report_read. do 3 wp_step; by apply HQ.
  - apply (sink_simple F p r w fd (CRecvfrom fd (u64 (buf_sz p)) _ false) "sink_with_recvfrom" "- recvfrom"
      report_payload); auto.
    intros i total w1 Q Hi Hv HQ. eapply report_payload_spec; eauto. rewrite Hv. by apply Hvc.
  - apply (sink_simple F p r w fd (CRecv fd (u64 (buf_sz p)) _) "sink_with_recv" "- recv"
      report_payload); auto.
    intros i total w1 Q Hi Hv HQ. eapply report_payload_spec; eauto. rewrite Hv. by apply Hvc.
Qed.
End Spec.
