(* ===== verification/UdpSinkMsg.v ===== *)
(** * What [sink_with_recvmsg] of udp_sink.c does

    Every received message is scattered over the I/O vector by the kernel and
    checked; the counters are those of checking the payloads in order. *)
From stdpp Require Import base list gmap strings.
From Stdlib Require Import ZArith Lia.
From S2P Require Import Prelude.
From S2P Require Import CLang.
From S2P Require Import Wp.
From S2P Require Import Libc.
From S2P Require Import Common.
From S2P Require Import CommonSocket.
From S2P Require Import Pktgen.
From S2P Require Import CheckPkt.
From S2P Require Import CheckPktSpec.
From S2P Require Import FloodSink.
From S2P Require Import Cmsg.
From S2P Require Import UdpSink.
From S2P Require Import UdpSinkSpec.

#[local] Open Scope Z_scope.
#[local] Open Scope c_scope.

(** The payloads received, in order. *)
Definition payloads (rs : list reply) : list (list Z) :=
  (fun r => m_data (r_msg r)) <$> List.filter got rs.

Lemma payloads_snoc rs r :
  payloads (rs ++ [r]) = payloads rs ++ (if got r then [m_data (r_msg r)] else []).
Proof. unfold payloads. rewrite List.filter_app, fmap_app. cbn. by destruct (got r). Qed.

(** The counters and the remembered header after the payloads [ds]. *)
Definition checked (p : sink_params) (last : pktgen_hdr) (ds : list (list Z)) :
  sink_params * pktgen_hdr :=
  if check p =? 0 then (p, last) else sink_checks p last ds.

(** [p'] differs from [p] in the counters only. *)
Definition same_config (p p' : sink_params) : Prop := exists o m b, p' = set_stats o m b p.

Lemma same_config_refl p : same_config p p.
Proof. exists (ooo p), (bad_magic p), (bad_repeat p). by destruct p. Qed.

Lemma same_config_trans p1 p2 p3 : same_config p1 p2 -> same_config p2 p3 -> same_config p1 p3.
Proof. intros (o & m & b & ->) (o' & m' & b' & ->). by exists o', m', b'. Qed.

Lemma check_flat_config p last d : same_config p (check_flat p last d).1.
Proof.
  unfold check_flat, after_hdrs. destruct (n_hdrs _); [apply same_config_refl|].
  assert (H : same_config p (first_hdr last (nth_hdr d 0) p)).
  { unfold first_hdr, inc_bad_magic, inc_ooo. unfold same_config.
    repeat case_match; try (by eexists _, _, _); apply same_config_refl. }
  case_match; [done|]. eapply same_config_trans; [exact H|]. by eexists _, _, _.
Qed.

Lemma checked_snoc p last ds d :
  checked p last (ds ++ [d]) =
  let '(p', last') := checked p last ds in
  if check p =? 0 then (p', last') else check_flat p' last' d.
Proof.
  unfold checked. destruct (check p =? 0); [done|].
  rewrite sink_checks_app. destruct (sink_checks p last ds) as [p' last'].
  cbn. by destruct (check_flat p' last' d).
Qed.

(** The contract of [recvmsg]: a message returned fits the I/O vector, and
    its length is the value returned. *)
Definition recvmsg_contract (K : Kernel) : Prop :=
  forall fd caps nl cl fl k, let x := (kstep (CRecvmsg fd caps nl cl fl) k).1 in
  0 <= r_ret x -> r_ret x = Z.of_nat (length (m_data (r_msg x))) /\ r_ret x <= sumZ caps.

Section Spec.
Context {K : Kernel}.
#[local] Abbreviation W := (world statics).
Implicit Types (w : W) (p : sink_params).

(** The kernel's scatter over adjacent elements is a contiguous write. *)
Lemma scatter_spec F b L n k (data : list Z) l w (Q : unit -> W -> Prop) X :
  0 < L -> 0 <= k -> 0 <= n -> w_mem w !! b = Some l -> Z.of_nat (length data) <= n * L ->
  (Z.to_nat ((k + n) * L) <= length l)%nat ->
  Q tt (w_set_mem (<[b := put_bytes (Z.to_nat (k * L)) (Some <$> data) l]> (w_mem w)) w) ->
  wpg F (scatter ((fun i => Iovec (Ptr b (0 + i * L)) L) <$> seqZ k n) data) Q X w.
Proof.
  intros HL Hk Hn. revert k data l w Hk. pattern n. apply natlike_ind; [| |exact Hn].
  - intros k data l w Hk Hb Hd Hl HQ. rewrite seqZ_nil by lia. cbn. wp_step.
    destruct data; [|cbn in Hd; lia]. cbn in HQ. rewrite put_bytes_nil, insert_id in HQ by done.
    by destruct w.
  - clear n Hn. intros n Hn IH k data l w Hk Hb Hd Hl HQ. rewrite seqZ_cons by lia. cbn [fmap list_fmap scatter].
    wp_step. cbn [iov_base iov_len]. rewrite Z.add_0_l.
    assert (Hlen : (length (take (Z.to_nat L) data) <= Z.to_nat L)%nat) by (rewrite length_take; lia).
    eapply store_spec; [done|nia|nia|].
    replace (Z.pred (Z.succ n)) with n by lia.
    set (l1 := put_bytes (Z.to_nat (k * L)) (Some <$> take (Z.to_nat L) data) l).
    assert (Hl1 : length l1 = length l) by (apply length_put_bytes; rewrite length_fmap; nia).
    eapply (IH (Z.succ k) (drop (Z.to_nat L) data) l1).
    + lia.
    + cbn. apply lookup_insert_eq.
    + rewrite length_drop. nia.
    + rewrite Hl1. nia.
    + cbn [w_mem w_set_mem]. rewrite insert_insert_eq.
      assert (put_bytes (Z.to_nat (Z.succ k * L)) (Some <$> drop (Z.to_nat L) data) l1 =
              put_bytes (Z.to_nat (k * L)) (Some <$> data) l) as ->; [|done].
      destruct (Nat.le_gt_cases (length data) (Z.to_nat L)) as [Hs|Hs].
      * rewrite (drop_ge data) by done. cbn [fmap list_fmap]. rewrite put_bytes_nil.
        unfold l1. by rewrite take_ge.
      * unfold l1. replace (Z.to_nat (Z.succ k * L)) with
          (Z.to_nat (k * L) + length (Some <$> take (Z.to_nat L) data))%nat
          by (rewrite length_fmap, length_take; nia).
        rewrite put_bytes_app by (rewrite !length_fmap, length_take, length_drop; nia).
        by rewrite <- fmap_app, take_drop.
Qed.

Lemma sum_caps b L nr : 0 <= nr -> sumZ (iov_len <$> chunks b 0 L nr) = nr * L.
Proof.
  intros Hn. unfold chunks.
  cut (forall k, sumZ (iov_len <$> ((fun i => Iovec (Ptr b (0 + i * L)) L) <$> seqZ k nr)) = nr * L); [auto|].
  pattern nr. apply natlike_ind; [| |exact Hn].
  - intros k. by rewrite seqZ_nil.
  - intros n Hn' IH k. rewrite seqZ_cons by lia. cbn [fmap list_fmap sumZ iov_len].
    replace (Z.pred (Z.succ n)) with n by lia. rewrite IH. lia.
Qed.

(** The header of a sink that asks for neither address nor control data. *)
Definition plain_header b L nr : msghdr := Msghdr NULL 0 (chunks b 0 L nr) (u64 nr) NULL 0 0.

Lemma deliver_spec F b L nr m l w (Q : msghdr -> W -> Prop) X :
  0 < L -> 0 <= nr -> w_mem w !! b = Some l -> Z.of_nat (length (m_data m)) <= nr * L ->
  (Z.to_nat (nr * L) <= length l)%nat ->
  Q (plain_header b L nr)
    (w_set_mem (<[b := put_bytes 0 (Some <$> m_data m) l]> (w_mem w)) w) ->
  wpg F (deliver (plain_header b L nr) m) Q X w.
Proof.
  intros HL Hn Hb Hd Hl HQ. unfold deliver. wp_step. cbn [msg_iov plain_header].
  eapply (scatter_spec F b L nr 0); [done|done|done|exact Hb|done|by rewrite Z.add_0_l|].
  wp_step. cbn [msg_name msg_control is_null NULL p_block negb Z.eqb].
  wp_step; [done|]. do 2 wp_step; [done|]. wp_step. exact HQ.
Qed.

Lemma check_pkt_spec F b L nr d p w (Q : sink_params -> W -> Prop) (X : Z -> W -> Prop) :
  0 < L -> 0 < nr -> Z.of_nat (length d) <= nr * L -> nr * L <= 2 ^ 31 - 32 ->
  holds_packet w b 0 d ->
  (check p = 0 -> Q p w) ->
  (check p <> 0 -> (check p <= 2 \/ stats_failed (check_flat p (last (w_st w)) d).1 = false) ->
     Q (check_flat p (last (w_st w)) d).1
       (w_set_st (Statics (check_flat p (last (w_st w)) d).2) w)) ->
  (2 < check p -> stats_failed (check_flat p (last (w_st w)) d).1 = true ->
     forall w', w_log w' = w_log w -> X EXIT_FAIL_RECV w') ->
  wpg F (check_pkt (chunks b 0 L nr) nr (Z.of_nat (length d)) p) Q X w.
Proof.
  intros HL Hnr Hcap Hmax Hd H0 H1 HX. unfold check_pkt, truth.
  destruct (Z.eqb_spec (check p) 0) as [Hz|Hz]; cbn [negb]; [wp_step; auto|].
  pose proof (check_pkt_spec_aux F b 0 L nr d w HL Hnr (Z.le_refl 0) Hcap Hmax Hd p Q X) as H.
  specialize (H1 Hz). destruct (check_flat p (last (w_st w)) d) as [p' last'].
  apply H; [by intros; apply H1|]. intros. by apply HX.
Qed.

(** The parameters the theorem is about: nothing but payloads asked for. *)
Definition plain_sink p : Prop :=
  ss_family (sender_addr p) = 0 /\ recv_ttl p = 0 /\ recv_pktinfo p = 0.

Lemma check_msg_name_plain F h p w (Q : unit -> W -> Prop) X :
  plain_sink p -> Q tt w -> wpg F (check_msg_name h (sender_addr p)) Q X w.
Proof. intros (Hf & _) HQ. unfold check_msg_name. rewrite Hf. by wp_step. Qed.

Lemma check_cmsg_plain F h p n w (Q : unit -> W -> Prop) X :
  plain_sink p -> msg_controllen h = 0 -> Q tt w -> wpg F (check_cmsg h p n) Q X w.
Proof. intros (_ & Ht & Hp) Hc HQ. unfold check_cmsg. rewrite Ht, Hp, Hc. by wp_step. Qed.

Lemma plain_config p p' : same_config p p' -> plain_sink p -> plain_sink p'.
Proof. by intros (o & m & b & ->). Qed.

(** A failed check above level 2 stops the program after the receive that
    delivered the packet. *)
Definition check_stopped p w0 w : Prop :=
  2 < check p /\ exists tr, w_log w = tr ++ w_log w0 /\
    stats_failed (checked p (last (w_st w0)) (payloads (recv_replies tr))).1 = true.

Section Loop.
Variables (F : Prop) (p : sink_params) (r0 : time_bench_record) (b L : Z) (fd flags : Z) (w0 : W).
#[local] Abbreviation nr := (iov_elems p).
Hypothesis HL : 0 < L.
Hypothesis Hnr : 0 < nr.
Hypothesis Hfit : nr * L <= u64 (buf_sz p).
Hypothesis Hmax : nr * L <= 2 ^ 31 - 32.
Hypothesis Hplain : plain_sink p.
Hypothesis Hker : recvmsg_contract K.
Variable X : Z -> W -> Prop.
Hypothesis HXr : forall w, check_stopped p w0 w -> X EXIT_FAIL_RECV w.

(** The counts of the record and the checks, after the replies [rs]. *)
Definition msg_counts (rs : list reply) (s : msg_state) w : Prop :=
  s_i s = Z.of_nat (length rs) /\ Forall (answered recv_reply) rs /\
  s_total s = u64 (bytes_got rs) /\
  try_again (s_r s) = u64 (try_again r0 + count_if empty_queue rs) /\
  (s_p s, last (w_st w)) = checked p (last (w_st w0)) (payloads rs) /\
  same_config p (s_p s) /\
  (2 < check p -> payloads rs <> [] -> stats_failed (s_p s) = false).

Definition msg_inv (s : msg_state) w : Prop :=
  exists tr l, w_log w = tr ++ w_log w0 /\ w_next w = w_next w0 /\ w_verbose w = w_verbose w0 /\
    w_mem w = <[b := l]> (w_mem w0) /\ length l = Z.to_nat (u64 (buf_sz p)) /\
    s_hdr s = plain_header b L nr /\ msg_counts (recv_replies tr) s w.

Lemma counts_empty rs s w w' x :
  msg_counts rs s w -> empty_queue x = true -> given recv_reply x -> w_st w' = w_st w ->
  msg_counts (rs ++ [x]) (MsgState (s_i s + 1) (s_total s) (s_p s) (s_hdr s) (inc_try_again (s_r s))) w'.
Proof.
  intros (Hi & Hall & Ht & Ha & Hp & Hc & Hf) Hx Hgiv Hst.
  assert (Hg : got x = false).
  { unfold empty_queue, got in *. apply andb_true_iff in Hx as [Hx _].
    apply Z.ltb_lt in Hx. apply Z.leb_gt. lia. }
  unfold msg_counts. cbn [s_i s_total s_p s_r inc_try_again try_again].
  rewrite length_app, bytes_got_snoc, count_if_snoc, payloads_snoc, Hx, Hg, app_nil_r, Hst. cbn.
  split_and!; try done; [lia| | |].
  - apply Forall_app. split; [done|]. constructor; [|done]. split; [by rewrite Hg, Hx|done].
  - by rewrite Z.add_0_r.
  - rewrite Ha, u64_add_l. f_equal. lia.
Qed.

Lemma counts_got rs s w w' x p' last' h :
  msg_counts rs s w -> got x = true -> given recv_reply x ->
  (p', last') = (if check p =? 0 then (s_p s, last (w_st w))
                 else check_flat (s_p s) (last (w_st w)) (m_data (r_msg x))) ->
  last (w_st w') = last' -> (2 < check p -> stats_failed p' = false) ->
  msg_counts (rs ++ [x]) (MsgState (s_i s + 1) (u64 (s_total s + r_ret x)) p' h (s_r s)) w'.
Proof.
  intros (Hi & Hall & Ht & Ha & Hp & Hc & Hf) Hg Hgiv Hp' <- Hpass.
  assert (He : empty_queue x = false).
  { unfold empty_queue, got in *. apply Z.leb_le in Hg. by rewrite (proj2 (Z.ltb_ge _ _)). }
  unfold msg_counts. cbn [s_i s_total s_p s_r].
  rewrite length_app, bytes_got_snoc, count_if_snoc, payloads_snoc, Hg, He, checked_snoc, <- Hp. cbn.
  split_and!; try done.
  - lia.
  - apply Forall_app. split; [done|]. constructor; [|done]. split; [by rewrite Hg|done].
  - by rewrite Ht, u64_add_l.
  - by rewrite Ha, Z.add_0_r.
  - destruct (check p =? 0); [by injection Hp' as -> _|].
    eapply same_config_trans; [exact Hc|].
    pose proof (check_flat_config (s_p s) (last (w_st w)) (m_data (r_msg x))) as H.
    by rewrite <- Hp' in H.
  - intros ? _. by apply Hpass.
Qed.

Definition next_state (s : msg_state) (o : msg_state + msg_state) w : Prop :=
  exists s', o = inl s' /\ msg_inv s' w /\ s_i s' = s_i s + 1.

#[local] Abbreviation the_call := (CRecvmsg fd (iov_len <$> chunks b 0 L nr) 0 0 flags).

(** The end of a round that received [x]: the packet was checked, and sender
    and control messages are looked at. *)
Lemma round_end s w w' tr l l1 x p' last' :
  w_log w = tr ++ w_log w0 -> w_next w = w_next w0 -> w_verbose w = w_verbose w0 ->
  w_mem w = <[b := l]> (w_mem w0) -> length l = Z.to_nat (u64 (buf_sz p)) -> length l1 = length l ->
  msg_counts (recv_replies tr) s w -> given recv_reply x -> 0 <= r_ret x ->
  (p', last') = (if check p =? 0 then (s_p s, last (w_st w))
                 else check_flat (s_p s) (last (w_st w)) (m_data (r_msg x))) ->
  w_log w' = (the_call, x) :: w_log w -> w_next w' = w_next w -> w_verbose w' = w_verbose w ->
  w_mem w' = <[b := l1]> (w_mem w) -> last (w_st w') = last' -> (2 < check p -> stats_failed p' = false) ->
  wpg F (check_msg_name (plain_header b L nr) (sender_addr p') ;;
         check_cmsg (plain_header b L nr) p' sizeof_cbuf ;;
         ret (inl (MsgState (s_i s + 1) (u64 (s_total s + r_ret x)) p' (plain_header b L nr) (s_r s))))%c
    (next_state s) X w'.
Proof using Hplain.
  intros Hlog Hnx Hv Hm Hl Hl1 Hcnt Hgiv Hnn Hp' Hlog' Hnx' Hv' Hm' Hst' Hpass.
  pose proof (counts_got (recv_replies tr) s w w' x p' last' (plain_header b L nr) Hcnt
    (proj2 (Z.leb_le _ _) Hnn) Hgiv Hp' Hst' Hpass) as Hcnt'.
  assert (Hpl : plain_sink p').
  { eapply plain_config; [|exact Hplain]. by destruct Hcnt' as (_ & _ & _ & _ & _ & ? & _). }
  wp_step. apply check_msg_name_plain; [done|]. wp_step.
  apply check_cmsg_plain; [done|done|]. wp_step.
  eexists. split; [done|]. split; [|done]. exists ((the_call, x) :: tr), l1.
  split_and!; [by rewrite Hlog', Hlog|congruence|congruence|by rewrite Hm', Hm, insert_insert_eq|congruence|done|].
  by rewrite (recv_trace the_call x tr x).
Qed.

(** A check that stops the program in such a round. *)
Lemma round_stops s w w' tr x :
  w_log w = tr ++ w_log w0 -> msg_counts (recv_replies tr) s w -> 0 <= r_ret x -> 2 < check p ->
  stats_failed (check_flat (s_p s) (last (w_st w)) (m_data (r_msg x))).1 = true ->
  w_log w' = (the_call, x) :: w_log w -> X EXIT_FAIL_RECV w'.
Proof using HXr.
  intros Hlog (_ & _ & _ & _ & Hp & _) Hnn H2 Hfail Hlog'. apply HXr. split; [done|].
  exists ((the_call, x) :: tr). split; [by rewrite Hlog', Hlog|].
  rewrite (recv_trace the_call x tr x), payloads_snoc by done. unfold got. rewrite (proj2 (Z.leb_le _ _)) by done.
  by rewrite checked_snoc, <- Hp, (proj2 (Z.eqb_neq _ _)) by lia.
Qed.

(** A round whose receive succeeded. *)
Lemma round_received s w tr l x k :
  w_log w = tr ++ w_log w0 -> w_next w = w_next w0 -> w_verbose w = w_verbose w0 ->
  w_mem w = <[b := l]> (w_mem w0) -> length l = Z.to_nat (u64 (buf_sz p)) ->
  msg_counts (recv_replies tr) s w -> kstep the_call (w_k w) = (x, k) -> 0 <= r_ret x ->
  let d := m_data (r_msg x) in
  let w1 := w_set_mem (<[b := put_bytes 0 (Some <$> d) l]> (w_mem w)) (w_call the_call x k w) in
  Z.of_nat (length d) = r_ret x -> Z.of_nat (length d) <= nr * L ->
  wpg F (p' <- check_pkt (msg_iov (plain_header b L nr)) (iov_elems (s_p s)) (r_ret x) (s_p s) ;;
         check_msg_name (plain_header b L nr) (sender_addr p') ;;
         check_cmsg (plain_header b L nr) p' sizeof_cbuf ;;
         ret (inl (MsgState (s_i s + 1) (u64 (s_total s + r_ret x)) p' (plain_header b L nr) (s_r s))))%c
    (next_state s) X w1.
Proof using HL Hnr Hfit Hmax Hplain HXr.
  intros Hlog Hnx Hv Hm Hl Hcnt E Hnn d w1 Hlen Hcap.
  assert (Hgiv : given recv_reply x) by by eapply given_now.
  pose proof Hcnt as (_ & _ & _ & _ & _ & (o & m & br & Hc) & _).
  assert (Hn : iov_elems (s_p s) = nr) by (by rewrite Hc).
  assert (Hck : check (s_p s) = check p) by (by rewrite Hc).
  set (l1 := put_bytes 0 (Some <$> d) l) in *.
  assert (Hl1 : length l1 = length l) by (apply length_put_bytes; rewrite length_fmap; lia).
  wp_step. rewrite Hn. cbn [msg_iov plain_header]. rewrite <- Hlen at 1.
  assert (Hend : forall p' last' w', (p', last') = (if check p =? 0 then (s_p s, last (w_st w))
      else check_flat (s_p s) (last (w_st w)) d) -> _) by
    exact (fun p' last' w' H => round_end s w w' tr l l1 x p' last' Hlog Hnx Hv Hm Hl Hl1 Hcnt Hgiv Hnn H).
  eapply check_pkt_spec; [done|done|lia|done| | | |].
  - exists l1. split_and!; [apply lookup_insert_eq|rewrite Hl1; lia|].
    pose proof (get_put_same 0 (Some <$> d) l) as Hg. rewrite length_fmap in Hg. apply Hg. lia.
  - intros H0. apply (Hend _ (last (w_st w))); try done; rewrite <- Hck, H0; [done|lia].
  - intros H0 Hpass. eapply Hend; try done; rewrite <- Hck.
    + rewrite (proj2 (Z.eqb_neq _ _)) by done. by destruct (check_flat _ _ _).
    + intros H2. destruct Hpass; [lia|done].
  - intros H0 Hfail w' Hlog'. rewrite Hck in H0. by apply (round_stops s w w' tr x).
Qed.

Lemma recvmsg_round_spec error s w :
  msg_inv s w -> s_i s < count p ->
  (forall x w1 (Q : msg_state -> W -> Prop), r_ret x < 0 -> r_errno x <> EAGAIN ->
     (exists l, w_mem w1 = <[b := l]> (w_mem w0)) -> wpg F (error x) Q X w1) ->
  wpg F (recvmsg_round fd flags (count p) error s)
    (next_state s) X w.
Proof using HL Hnr Hfit Hmax Hplain Hker HXr.
  intros (tr & l & Hlog & Hnx & Hv & Hm & Hl & Hh & Hcnt) Hlt Herr.
  unfold recvmsg_round. rewrite (proj2 (Z.ltb_lt _ _)) by done.
  unfold recvmsg_call. do 2 wp_step. rewrite Hh. cbn [plain_header msg_iov msg_namelen msg_controllen].
  wp_ask x k E. destruct (Z.ltb_spec (r_ret x) 0) as [Hneg|Hnn].
  - wp_step. rewrite (proj2 (Z.ltb_lt _ _)) by done. destruct (Z.eqb_spec (r_errno x) EAGAIN) as [He|He].
    + wp_step. eexists. split; [done|]. split; [|done]. exists ((the_call, x) :: tr), l.
      split_and!; try done; [by cbn; rewrite Hlog|]. rewrite (recv_trace the_call x tr x), <- Hh by done.
      apply (counts_empty _ _ w); [done| |by eapply given_now|done]. unfold empty_queue.
      by rewrite (proj2 (Z.ltb_lt _ _)), He by done.
    + wp_step. apply Herr; [done|done|]. exists l. by rewrite <- Hm.
  - pose proof (Hker fd (iov_len <$> chunks b 0 L nr) 0 0 flags (w_k w)) as Hk. cbv zeta in Hk.
    rewrite E in Hk. cbn [fst] in Hk. destruct (Hk Hnn) as [Hlen Hcap]. rewrite sum_caps in Hcap by lia.
    wp_step. eapply deliver_spec; [done|lia|cbn; rewrite Hm; apply lookup_insert_eq|lia|rewrite Hl; lia|].
    wp_step. rewrite (proj2 (Z.ltb_ge _ _)) by done.
    apply (round_received s w tr l x k); try done. lia.
Qed.
End Loop.

Lemma plain_bind p sender cbuf b L :
  plain_sink p -> bind_header p sender cbuf (chunks b 0 L (iov_elems p)) = plain_header b L (iov_elems p).
Proof. intros (Hf & Ht & Hp). unfold bind_header, setup_msg_name, want_cmsg. by rewrite Hf, Ht, Hp. Qed.

(** ** The blocks of the set-up *)
Definition is_malloc (e : call * reply) : Prop := exists n, e.1 = CMalloc n.

(** Five blocks allocated after [w]: buffer, sender, control buffer, message
    headers, I/O vectors. *)
Definition five_blocks (l0 l1 l2 l3 l4 : list mbyte) w w' : Prop :=
  let n := w_next w in
  w_mem w' = <[n + 4 := l4]> (<[n + 3 := l3]> (<[n + 2 := l2]> (<[n + 1 := l1]> (<[n := l0]> (w_mem w))))) /\
  w_next w' = n + 5 /\ w_st w' = w_st w /\ w_verbose w' = w_verbose w /\
  exists evs, w_log w' = evs ++ w_log w /\ Forall is_malloc evs.

Lemma mallocs_no_replies evs tr :
  Forall is_malloc evs -> recv_replies (tr ++ evs) = recv_replies tr.
Proof.
  intros H. unfold recv_replies. rewrite omap_app, rev_app_distr.
  assert (omap recv_reply evs = []) as ->; [|done].
  induction H as [|[c r] evs [n Hn] _ IH]; [done|]. cbn in *. subst c. apply IH.
Qed.

(** The first four of them. *)
Definition four_blocks (l0 l1 l2 l3 : list mbyte) w w' : Prop :=
  let n := w_next w in
  w_mem w' = <[n + 3 := l3]> (<[n + 2 := l2]> (<[n + 1 := l1]> (<[n := l0]> (w_mem w)))) /\
  w_next w' = n + 4 /\ w_st w' = w_st w /\ w_verbose w' = w_verbose w /\
  exists evs, w_log w' = evs ++ w_log w /\ Forall is_malloc evs.

Lemma four_five l0 l1 l2 l3 n w w3 w4 :
  four_blocks l0 l1 l2 l3 w w3 -> allocated n w3 w4 ->
  five_blocks l0 l1 l2 l3 (replicate (Z.to_nat n) (Some 0)) w w4.
Proof.
  intros (Hm & Hn & Hst & Hv & evs & Hlog & Hevs) (Hst' & Hv' & Hn' & Hm' & r & Hlog'). split_and!.
  - by rewrite Hm', Hn, Hm.
  - lia.
  - congruence.
  - congruence.
  - exists ((CMalloc n, r) :: evs). split; [by rewrite Hlog', Hlog|]. constructor; [by eexists|done].
Qed.

(** The start of the set-up: the buffer, two local arrays, the headers. *)
Lemma alloc_four F {A} sz n1 n2 n3 f3 msg3 (k : ptr -> ptr -> ptr -> ptr -> M statics A) w Q (X : Z -> W -> Prop) :
  0 < w_next w -> (forall w1, exists o, msg3 w1 = Ret tt (w_print o w1)) ->
  (forall w', X EXIT_FAIL_MEM w') ->
  (forall w3, four_blocks (replicate (Z.to_nat (u64 sz)) (Some 0)) (replicate (Z.to_nat n1) None)
     (replicate (Z.to_nat n2) None) (replicate (Z.to_nat n3) (Some 0)) w w3 ->
     let b := w_next w in
     wpg F (k (Ptr b 0) (Ptr (b + 1) 0) (Ptr (b + 2) 0) (Ptr (b + 3) 0)) Q X w3) ->
  wpg F (buffer <- malloc_payload_buffer sz ;;
         sender <- new_block n1 ;;
         cbuf <- new_block n2 ;;
         hdr <- malloc_zeroed f3 n3 msg3 ;;
         k buffer sender cbuf hdr)%c Q X w.
Proof.
  intros Hpos Hm3 HX Hk. wp_step. apply malloc_payload_buffer_spec; [done| |by intros].
  intros w1 (Hst1 & Hv1 & Hnx1 & Hmem1 & ra1 & Hlog1).
  do 4 wp_step. set (w2 := w_alloc _ (w_alloc _ w1)).
  assert (Hn2 : w_next w2 = w_next w + 3) by (subst w2; cbn; lia).
  wp_step. apply malloc_zeroed_spec; [lia|done| |by intros].
  intros w3 (Hst3 & Hv3 & Hnx3 & Hmem3 & ra3 & Hlog3).
  rewrite Hn2, Hnx1. cbn [w_next w_alloc]. rewrite Hnx1.
  replace (w_next w + 1 + 1) with (w_next w + 2) by lia.
  apply Hk. split_and!.
  - rewrite Hmem3, Hn2. subst w2. cbn. rewrite Hmem1, Hnx1.
    by replace (w_next w + 1 + 1) with (w_next w + 2) by lia.
  - lia.
  - rewrite Hst3. cbn. by rewrite Hst1.
  - rewrite Hv3. cbn. by rewrite Hv1.
  - exists [(CMalloc n3, ra3); (CMalloc (u64 sz), ra1)]. split.
    + rewrite Hlog3. cbn. by rewrite Hlog1.
    + repeat constructor; by eexists.
Qed.

(** Freeing them. *)
Lemma free_five F {A} (a : A) b m0 l0 l1 l2 l3 l4 w (Q : A -> W -> Prop) X :
  0 < b -> (forall b', b <= b' \/ b' <= 0 -> m0 !! b' = None) ->
  w_mem w = <[b + 4 := l4]> (<[b + 3 := l3]> (<[b + 2 := l2]> (<[b + 1 := l1]> (<[b := l0]> m0)))) ->
  Q a (w_set_mem m0 w) ->
  wpg F (free (Ptr (b + 4) 0) ;; free (Ptr (b + 3) 0) ;; free (Ptr b 0) ;;
         free (Ptr (b + 1) 0) ;; free (Ptr (b + 2) 0) ;; ret a)%c Q X w.
Proof.
  intros Hb Hfresh Hm HQ.
  wp_step. eapply wp_free; [rewrite Hm, lookup_insert_eq by lia; done|lia|].
  wp_step. eapply wp_free; [cbn; rewrite Hm, lookup_delete_ne, !lookup_insert_ne, lookup_insert_eq by lia; done|lia|].
  wp_step. eapply wp_free;
    [cbn; rewrite Hm, !lookup_delete_ne, !lookup_insert_ne, lookup_insert_eq by lia; done|lia|].
  wp_step. eapply wp_free;
    [cbn; rewrite Hm, !lookup_delete_ne, !lookup_insert_ne, lookup_insert_eq by lia; done|lia|].
  wp_step. eapply wp_free;
    [cbn; rewrite Hm, !lookup_delete_ne, !lookup_insert_ne, lookup_insert_eq by lia; done|lia|].
  wp_step. cbn [w_mem w_set_mem] in *. 
  assert (E : delete (b + 2) (delete (b + 1) (delete b (delete (b + 3) (delete (b + 4) (w_mem w))))) = m0);
    [|rewrite E; destruct w; exact HQ].
  rewrite Hm. blocks_freed b Hfresh.
Qed.

(** ** The whole function *)
Definition recvmsg_result p (r : time_bench_record) (last0 : pktgen_hdr) (rs : list reply)
  (out : Z * sink_params * time_bench_record) (last' : pktgen_hdr) : Prop :=
  Z.of_nat (length rs) = Z.max 0 (count p) /\
  Forall (answered recv_reply) rs /\
  let '(cnt, p', r') := out in
  (p', last') = checked p last0 (payloads rs) /\
  (2 < check p -> payloads rs <> [] -> stats_failed p' = false) /\ bytes r' = u64 (bytes_got rs) /\
  try_again r' = u64 (try_again r + count_if empty_queue rs) /\
  (try_again r = 0 -> cnt = count_if got rs).

Definition recvmsg_post p (r : time_bench_record) w (out : Z * sink_params * time_bench_record) w' : Prop :=
  w_mem w' = w_mem w /\ w_verbose w' = w_verbose w /\ w_next w <= w_next w' /\
  exists tr, w_log w' = tr ++ w_log w /\
    recvmsg_result p r (last (w_st w)) (recv_replies tr) out (last (w_st w')).

Lemma msg_loop_spec F p r fd flags L b (w : W) l0 error (X : Z -> W -> Prop) :
  0 < L -> 0 < iov_elems p -> iov_elems p * L <= u64 (buf_sz p) ->
  iov_elems p * L <= 2 ^ 31 - 32 -> plain_sink p ->
  recvmsg_contract K ->
  (forall w', check_stopped p w w' -> X EXIT_FAIL_RECV w') -> is_u64 (try_again r) ->
  w_mem w !! b = Some l0 -> length l0 = Z.to_nat (u64 (buf_sz p)) ->
  (forall x w1 (Q : msg_state -> W -> Prop), r_ret x < 0 -> r_errno x <> EAGAIN ->
     (exists l, w_mem w1 = <[b := l]> (w_mem w)) -> wpg F (error x) Q X w1) ->
  wpg F (iter (Datatypes.S (Z.to_nat (count p))) (recvmsg_round fd flags (count p) error)
           (MsgState 0 0 p (plain_header b L (iov_elems p)) r))
    (fun s w' => msg_inv p r b L w s w' /\ s_i s = Z.max 0 (count p)) X w.
Proof.
  intros HL Hnr Hfit Hmax Hplain Hker HX Hr Hb Hl Herr.
  apply (wp_iter (fun n s w' => msg_inv p r b L w s w' /\ 0 <= s_i s <= Z.max 0 (count p) /\
    Z.max 0 (count p) - s_i s < Z.of_nat n)).
  - split; [|cbn; lia]. exists [], l0. change (recv_replies []) with (@nil reply).
    split_and!; try done; [by rewrite insert_id|]. split_and!; try done.
    + change (count_if empty_queue []) with 0. cbn. by rewrite Z.add_0_r, u64_id.
    + unfold checked. cbn. by destruct (check p =? 0).
    + apply same_config_refl.
  - intros s w' (_ & ? & ?). lia.
  - intros n s w' (Hinv & Hi & Hn). destruct (Z.ltb_spec (s_i s) (count p)) as [Hlt|Hge].
    + eapply wp_post; [apply (recvmsg_round_spec F p r b L fd flags w HL Hnr Hfit Hmax Hplain Hker X HX); auto|].
      intros o w2 (s' & -> & Hinv' & Hi'). cbn. split; [done|]. lia.
    + unfold recvmsg_round. rewrite (proj2 (Z.ltb_ge _ _)) by done. wp_step. split; [done|]. lia.
Qed.

Lemma iov_setup_spec F p b bi L w li (Q : list iovec -> W -> Prop) X :
  0 < iov_elems p -> w_mem w !! bi = Some li -> length li = Z.to_nat (16 * iov_elems p) ->
  (forall iovs, Iovec (Ptr b 0) L :: iovs = chunks b 0 L (iov_elems p) -> Q iovs w) ->
  wpg F (forM (seqZ 1 (iov_elems p - 1)) (fun i =>
           check_elem (Ptr bi 0) sizeof_iovec i ;;
           ret (Iovec (ptr_add (Ptr b 0) (i * L)) L)))%c Q X w.
Proof.
  intros Hn Hb Hl HQ.
  apply wp_forM with (I := fun done ys w' => w' = w /\
    ys = (fun i => Iovec (Ptr b (0 + i * L)) L) <$> done).
  - done.
  - intros done x rest ys w' Hall [-> ->].
    assert (Hx : seqZ 1 (iov_elems p - 1) !! length done = Some x) by (rewrite Hall, lookup_app_r, Nat.sub_diag; done).
    apply lookup_seqZ in Hx as [-> Hlt].
    unfold check_elem, ptr_add. cbn [p_block p_off]. do 2 wp_step.
    eapply peek_spec; [done|unfold sizeof_iovec; lia|unfold sizeof_iovec; lia|].
    repeat wp_step. split; [done|]. by rewrite fmap_app.
  - intros ys w' [-> ->]. apply HQ. unfold chunks.
    rewrite (seqZ_cons 0) by lia. cbn [fmap list_fmap].
    by replace (0 + 0 * L) with 0 by lia.
Qed.

Lemma sink_with_recvmsg_spec F p fd r w (X : Z -> W -> Prop) :
  0 < iov_elems p < 2 ^ 26 -> iov_elems p <= buf_sz p <= 2 ^ 31 - 32 -> count p < 2 ^ 31 ->
  (0 < w_verbose w -> 0 < count p) -> plain_sink p ->
  recvmsg_contract K ->
  mem_wf w -> is_u64 (try_again r) ->
  (forall w', X EXIT_FAIL_MEM w') -> (forall w', X EXIT_FAIL_SOCK w') ->
  (forall w', check_stopped p w w' -> X EXIT_FAIL_RECV w') ->
  wpg F (sink_with_recvmsg fd p r) (recvmsg_post p r w) X w.
Proof.
  intros Hn Hbuf Hcnt Hvc Hplain Hker [Hpos Hfresh] Hr HXm HXs HXr.
  unfold sink_with_recvmsg, malloc_msghdr, malloc_iovec. cbv zeta.
  set (L := Z.quot (buf_sz p) (iov_elems p)).
  assert (HL : 0 < L /\ iov_elems p * L <= buf_sz p).
  { subst L. rewrite Z.quot_div_nonneg by lia. split; [apply Z.div_str_pos; lia|apply Z.mul_div_le; lia]. }
  eapply alloc_four; [done|intros; by eexists|done|]. intros w3 Hfour. cbv zeta. wp_step.
  replace (w_next w + 3) with (w_next w3 - 1) by (destruct Hfour as (_ & -> & _); lia).
  apply malloc_zeroed_spec; [destruct Hfour as (_ & -> & _); lia|intros; by eexists| |by intros].
  rewrite (u32_id (iov_elems p)), (u32_id (sizeof_iovec * _)) by (unfold sizeof_iovec; lia).
  intros w4 Hal. pose proof (four_five _ _ _ _ _ _ _ _ Hfour Hal) as Hfive.
  destruct Hfour as (_ & Hn3 & _). rewrite Hn3. replace (w_next w + 4 - 1) with (w_next w + 3) by lia.
  rewrite (u64_id (buf_sz p)) in Hfive by lia. unfold sizeof_iovec in Hfive.
  destruct Hfive as (Hmem & Hn4 & Hst & Hv & evs & Hlog & Hevs).
  unfold check_elem at 1. do 3 wp_step.
  eapply peek_spec; [rewrite Hmem; apply lookup_insert_eq|done| |].
  { rewrite length_replicate. cbn [p_off]. unfold sizeof_iovec. lia. }
  wp_step. apply wp_int_div; [lia|unfold is_i32; fold L; nia|]. fold L. wp_step.
  rewrite (u64_id L) by nia.
  eapply iov_setup_spec; [lia|rewrite Hmem; apply lookup_insert_eq|by rewrite length_replicate|].
  intros iovs Hiov. wp_step. rewrite Hiov, plain_bind by done. eapply wp_post.
  { eapply (msg_loop_spec F p r fd _ L (w_next w) w4); try done; try lia.
    - rewrite u64_id by lia. lia.
    - intros w' (H2 & tr & Hlog' & Hs). apply HXr. split; [done|]. exists (tr ++ evs).
      rewrite mallocs_no_replies, <- app_assoc, <- Hlog, <- Hst by done. done.
    - rewrite Hmem, !lookup_insert_ne, lookup_insert_eq by lia. reflexivity.
    - by rewrite length_replicate, u64_id by lia.
    - intros x w' Q _ _ [l Hl]. eapply recv_error_spec; [rewrite Hl; apply lookup_insert_eq|lia|done]. }
  intros s w5 [(tr & l & Hlog5 & Hnx5 & Hv5 & Hm5 & Hl5 & Hh & Hcounts) Hi]. wp_step.
  eapply report_payload_spec; [done|done|by rewrite Hv5, Hv|].
  intros w6 (Hm6 & Hlog6 & Hv6 & Hn6 & Hst6).
  eapply (free_five F _ (w_next w) (w_mem w) l); [done|exact Hfresh| |].
  { rewrite Hm6, Hm5, Hmem. rewrite !(insert_insert_ne _ (w_next w)), insert_insert_eq by lia. reflexivity. }
  destruct Hcounts as (Hi' & Hall & Ht & Ha & Hp & Hc & Hpass). split_and!.
  - done.
  - cbn. by rewrite Hv6, Hv5.
  - cbn. lia.
  - exists (tr ++ evs). split; [cbn; by rewrite Hlog6, Hlog5, Hlog, app_assoc|].
    rewrite mallocs_no_replies by done. pose proof (got_or_empty _ _ Hall) as Hsum.
    split_and!; [lia|done| |done|done|done|].
    + cbn [w_st w_set_mem]. by rewrite Hst6, Hp, Hst.
    + intros H0. unfold received. cbn [try_again set_bytes]. rewrite Ha, H0, Z.add_0_l.
      rewrite u64_sub_r, i32_u64.
      assert (0 <= count_if got (recv_replies tr)) by (unfold count_if; lia).
      assert (0 <= count_if empty_queue (recv_replies tr)) by (unfold count_if; lia).
      rewrite i32_id; lia.
Qed.
End Spec.
