(* ===== verification/UdpSinkMmsg.v ===== *)
(** * What [sink_with_recvMmsg] of udp_sink.c does

    Every message of a batch is scattered over the buffer of its header and
    checked; the counters are those of checking the payloads in order. *)
From stdpp Require Import base list gmap strings.
From Stdlib Require Import ZArith Lia.
From S2P Require Import Prelude.
From S2P Require Import CLang.
From S2P Require Import Wp.
From S2P Require Import Libc.
From S2P Require Import Common.
From S2P Require Import CommonSocket.
From S2P Require Import Pktgen.
From S2P Require Import CheckPkt.
From S2P Require Import CheckPktSpec.
From S2P Require Import FloodSink.
From S2P Require Import Cmsg.
From S2P Require Import UdpSink.
From S2P Require Import UdpSinkSpec.
From S2P Require Import UdpSinkMsg.

#[local] Open Scope Z_scope.
#[local] Open Scope c_scope.

(** ** The buffers of a batch: blocks [nb], [nb + 1], ... of [sz] bytes *)
Definition bufs_ok (nb n : Z) (sz : nat) (m0 m : gmap Z (list mbyte)) : Prop :=
  (forall i, 0 <= i < n -> exists l, m !! (nb + i) = Some l /\ length l = sz) /\
  (forall b, b < nb \/ nb + n <= b -> m !! b = m0 !! b).

Lemma bufs_ok_0 nb sz m : bufs_ok nb 0 sz m m.
Proof. split; [lia|done]. Qed.

Lemma bufs_ok_alloc nb n sz m0 m l :
  0 <= n -> bufs_ok nb n sz m0 m -> length l = sz -> bufs_ok nb (n + 1) sz m0 (<[nb + n := l]> m).
Proof.
  intros Hn [H1 H2] Hl. split.
  - intros i Hi. destruct (Z.eq_dec i n) as [->|].
    + rewrite lookup_insert_eq. by eexists.
    + rewrite lookup_insert_ne by lia. apply H1. lia.
  - intros b Hb. rewrite lookup_insert_ne by lia. apply H2. lia.
Qed.

Lemma bufs_ok_update nb n sz m0 m i l :
  0 <= i < n -> bufs_ok nb n sz m0 m -> length l = sz -> bufs_ok nb n sz m0 (<[nb + i := l]> m).
Proof.
  intros Hi [H1 H2] Hl. split.
  - intros j Hj. destruct (Z.eq_dec j i) as [->|].
    + rewrite lookup_insert_eq. by eexists.
    + rewrite lookup_insert_ne by lia. apply H1. lia.
  - intros b Hb. rewrite lookup_insert_ne by lia. apply H2. lia.
Qed.

(** Freed from the first on. *)
Lemma bufs_ok_free nb n sz m0 m :
  bufs_ok nb (n + 1) sz m0 m -> 0 <= n -> m0 !! nb = None ->
  bufs_ok (nb + 1) n sz m0 (delete nb m).
Proof.
  intros [H1 H2] Hn H0. split.
  - intros i Hi. rewrite lookup_delete_ne by lia. replace (nb + 1 + i) with (nb + (i + 1)) by lia.
    apply H1. lia.
  - intros b Hb. destruct (Z.eq_dec b nb) as [->|].
    + by rewrite lookup_delete_eq.
    + rewrite lookup_delete_ne by lia. apply H2. lia.
Qed.

Lemma bufs_ok_trans nb n sz m0 m1 m2 :
  bufs_ok nb n sz m0 m1 -> bufs_ok nb n sz m1 m2 -> bufs_ok nb n sz m0 m2.
Proof. intros [_ H1] [H2 H3]. split; [done|]. intros b Hb. by rewrite H3, H1. Qed.

Lemma bufs_ok_none nb sz m0 m : bufs_ok nb 0 sz m0 m -> m = m0.
Proof. intros [_ H]. apply map_eq. intros b. apply H. lia. Qed.

(** The payloads of the messages of the replies to recvmmsg. *)
Definition mmsg_reply (e : call * reply) : option reply :=
  match e.1 with CRecvmmsg _ _ _ _ => Some e.2 | _ => None end.

Definition mmsg_replies (tr : list (call * reply)) : list reply := rev (omap mmsg_reply tr).
Definition batch_payloads (r : reply) : list (list Z) := if got r then m_data <$> r_msgs r else [].
Definition mmsg_payloads (rs : list reply) : list (list Z) := concat (batch_payloads <$> rs).

Arguments mmsg_replies : simpl never.

Lemma mmsg_payloads_snoc rs r : mmsg_payloads (rs ++ [r]) = mmsg_payloads rs ++ batch_payloads r.
Proof. unfold mmsg_payloads. rewrite fmap_app, concat_app. cbn. by rewrite app_nil_r. Qed.

Definition sum_lengths (ds : list (list Z)) : Z := sumZ ((fun d : list Z => Z.of_nat (length d)) <$> ds).

(** A failed check above level 2 stops the program: [ds] are the payloads
    checked so far. *)
Definition fails_at (p : sink_params) (last0 : pktgen_hdr) (ds : list (list Z)) : Prop :=
  2 < check p /\ exists ds1 ds2, ds = ds1 ++ ds2 /\ stats_failed (checked p last0 ds1).1 = true.

(** What the sink relies on: recvmmsg returns one message or more, no more
    than it has headers, each fitting its I/O vector. *)
Definition recvmmsg_contract (K : Kernel) : Prop :=
  forall fd hdrs fl ts k, let x := (kstep (CRecvmmsg fd hdrs fl ts) k).1 in
  hdrs <> [] -> 0 <= r_ret x ->
  1 <= r_ret x <= Z.of_nat (length hdrs) /\ r_ret x = Z.of_nat (length (r_msgs x)) /\
  forall i m h, r_msgs x !! i = Some m -> hdrs !! i = Some h ->
    Z.of_nat (length (m_data m)) <= sumZ h.1.1.

(** A system that finds the queue empty at most [N] times: [rank] bounds the
    failures with EAGAIN that are still to come. *)
Definition patient (K : Kernel) (rank : kst -> nat) (N : nat) : Prop :=
  (forall k, rank k <= N)%nat /\
  forall c k, (rank (kstep c k).2 <= rank k)%nat /\
    (forall r, mmsg_reply (c, (kstep c k).1) = Some r -> empty_queue r = true ->
       (rank (kstep c k).2 < rank k)%nat).

(** A system in which memory does not run out. *)
Definition malloc_succeeds (K : Kernel) : Prop := forall n k, r_ret (kstep (CMalloc n) k).1 <> 0.

Section Spec.
Context {K : Kernel}.
#[local] Abbreviation W := (world statics).
Implicit Types (w : W) (p : sink_params).

(** The headers of a batch, from message [k] on: payload only. *)
Definition batch_headers (nb L nr k : Z) (hdrs : list mmsghdr) : Prop :=
  forall i h, hdrs !! i = Some h -> msg_hdr h = plain_header (nb + (k + Z.of_nat i)) L nr.

Lemma batch_headers_cons nb L nr k h hdrs :
  batch_headers nb L nr k (h :: hdrs) <->
  msg_hdr h = plain_header (nb + k) L nr /\ batch_headers nb L nr (k + 1) hdrs.
Proof.
  split.
  - intros H. split; [by rewrite (H 0%nat h) by done; f_equal; lia|].
    intros i h' Hi. rewrite (H (S i) h') by done. f_equal. lia.
  - intros [H1 H2] [|i] h' Hi; cbn in Hi; [injection Hi as <-; rewrite H1; f_equal; lia|].
    rewrite (H2 i h' Hi). f_equal. lia.
Qed.

Section Batch.
Variables (F : Prop) (nb n L nr : Z) (sz : nat).
Hypothesis HL : 0 < L.
Hypothesis Hnr : 0 < nr.
Hypothesis Hfit : (Z.to_nat (nr * L) <= sz)%nat.
Hypothesis Hmax : nr * L <= 2 ^ 31 - 32.

(** The message [d] has arrived in the buffer of message [k], and its length
    in the header. *)
Definition arrived (m : gmap Z (list mbyte)) (k : Z) (h : mmsghdr) (d : list Z) : Prop :=
  msg_hdr h = plain_header (nb + k) L nr /\ msg_len h = Z.of_nat (length d) /\
  Z.of_nat (length d) <= nr * L /\
  exists l, m !! (nb + k) = Some l /\ length l = sz /\ get_bytes 0 (length d) l = Some <$> d.

Fixpoint all_arrived (m : gmap Z (list mbyte)) (k : Z) (hdrs : list mmsghdr) (ds : list (list Z)) : Prop :=
  match hdrs, ds with
  | h :: hdrs', d :: ds' => arrived m k h d /\ all_arrived m (k + 1) hdrs' ds'
  | [], [] => True
  | _, _ => False
  end.

Lemma arrived_frame m m' k h d :
  m' !! (nb + k) = m !! (nb + k) -> arrived m k h d -> arrived m' k h d.
Proof. intros Hm (? & ? & ? & l & Hl & ? & ?). split_and!; try done. exists l. by rewrite Hm. Qed.

Lemma deliver_all_spec k hdrs msgs m0 w (Q : list mmsghdr -> W -> Prop) X :
  0 <= k -> k + Z.of_nat (length hdrs) <= n -> batch_headers nb L nr k hdrs ->
  (length msgs <= length hdrs)%nat ->
  Forall (fun x => Z.of_nat (length (m_data x)) <= nr * L) msgs -> bufs_ok nb n sz m0 (w_mem w) ->
  (forall hdrs' m', batch_headers nb L nr k hdrs' -> length hdrs' = length hdrs ->
     bufs_ok nb n sz m0 m' -> (forall b, b < nb + k -> m' !! b = w_mem w !! b) ->
     all_arrived m' k (take (length msgs) hdrs') (m_data <$> msgs) -> Q hdrs' (w_set_mem m' w)) ->
  wpg F (deliver_all hdrs msgs) Q X w.
Proof using HL Hnr Hfit.
  revert k hdrs w Q. induction msgs as [|x msgs IH]; intros k hdrs w Q Hk Hn Hh Hlen Hall Hm HQ.
  - assert (HQ' : Q hdrs w).
    { specialize (HQ hdrs (w_mem w) Hh eq_refl Hm (fun _ _ => eq_refl)).
      destruct w. by apply HQ. }
    destruct hdrs; cbn [deliver_all]; by wp_step.
  - destruct hdrs as [|h hdrs]; [cbn in Hlen; lia|]. cbn [deliver_all length] in *.
    apply batch_headers_cons in Hh as [Hh Hrest].
    inversion Hall as [|? ? Hx Hall']; subst.
    destruct (proj1 Hm k) as (l & Hl & Hlsz); [lia|].
    wp_step. rewrite Hh. eapply deliver_spec; [done|lia|exact Hl|done|lia|].
    set (l1 := put_bytes 0 (Some <$> m_data x) l).
    assert (Hl1 : length l1 = sz).
    { subst l1. rewrite length_put_bytes; [done|]. rewrite length_fmap. lia. }
    wp_step. apply (IH (k + 1)).
    + lia.
    + lia.
    + done.
    + lia.
    + done.
    + cbn [w_mem w_set_mem]. apply bufs_ok_update; [lia|done|done].
    + intros hdrs' m' Hh' Hlen' Hm' Hlow Harr. wp_step.
      specialize (HQ (Mmsghdr (plain_header (nb + k) L nr) (Z.of_nat (length (m_data x))) :: hdrs') m').
      cbn [w_mem w_set_mem] in Hlow. apply HQ.
      * by apply batch_headers_cons.
      * cbn. lia.
      * done.
      * intros b Hb. rewrite Hlow by lia. by rewrite lookup_insert_ne by lia.
      * cbn. split; [|done]. split_and!; try done. exists l1.
        rewrite Hlow, lookup_insert_eq by lia. split_and!; try done.
        subst l1. pose proof (get_put_same 0 (Some <$> m_data x) l) as Hg. rewrite length_fmap in Hg.
        apply Hg. lia.
Qed.

(** The checks of a batch: those of its payloads in order. *)
Lemma check_batch_spec p0 last0 ds0 k hdrs ds total p w (Q : Z * sink_params -> W -> Prop) (X : Z -> W -> Prop) :
  iov_elems p0 = nr -> same_config p0 p -> plain_sink p0 -> all_arrived (w_mem w) k hdrs ds ->
  (p, last (w_st w)) = checked p0 last0 ds0 ->
  (2 < check p0 -> ds0 <> [] -> stats_failed p = false) ->
  (forall p' w', same_config p0 p' -> w' = w_set_st (Statics (last (w_st w'))) w ->
     (p', last (w_st w')) = checked p0 last0 (ds0 ++ ds) ->
     (2 < check p0 -> ds0 ++ ds <> [] -> stats_failed p' = false) ->
     Q (u64 (total + sum_lengths ds), p') w') ->
  (fails_at p0 last0 (ds0 ++ ds) -> forall w', w_log w' = w_log w -> X EXIT_FAIL_RECV w') ->
  is_u64 total ->
  wpg F (check_batch hdrs total p) Q X w.
Proof using HL Hnr Hmax Hfit.
  intros Hnp Hcfg Hpl. revert k hdrs ds0 total p w Hcfg Q.
  induction ds as [|d ds IH]; intros k hdrs ds0 total p w Hcfg Q Harr Hp Hpass HQ HX Htot.
  - destruct hdrs; [|done]. cbn [check_batch]. wp_step.
    assert (Hw : w = w_set_st (Statics (last (w_st w))) w) by (by destruct w as [? ? ? ? ? ? []]).
    rewrite app_nil_r in HQ.
    replace total with (u64 (total + sum_lengths [])) by (unfold sum_lengths; cbn; rewrite Z.add_0_r; by apply u64_id).
    by apply HQ.
  - destruct hdrs as [|h hdrs]; [done|]. cbn [check_batch]. destruct Harr as [Ha Harr].
    destruct Ha as (Hh & Hlen & Hd & l & Hl & Hlsz & Hbytes). rewrite Hh. cbn [plain_header msg_iov msg_iovlen].
    assert (Hc : exists o m b, p = set_stats o m b p0) by done. destruct Hc as (o & mm & bb & Ep).
    assert (Hck : check p = check p0) by (by rewrite Ep).
    set (lastd := (if check p0 =? 0 then (p, last (w_st w)) else check_flat p (last (w_st w)) d).2).
    set (pd := (if check p0 =? 0 then (p, last (w_st w)) else check_flat p (last (w_st w)) d).1).
    assert (Hpd : (pd, lastd) = checked p0 last0 (ds0 ++ [d])).
    { rewrite checked_snoc, <- Hp. subst pd lastd. destruct (check p0 =? 0); [done|]. by destruct (check_flat _ _ _). }
    assert (Hcfg' : same_config p0 pd).
    { subst pd. destruct (check p0 =? 0); [done|]. eapply same_config_trans; [done|]. apply check_flat_config. }
    assert (Hgo : (2 < check p0 -> stats_failed pd = false) -> forall w1,
      w1 = w_set_st (Statics lastd) w ->
      wpg F (check_msg_name (plain_header (nb + k) L nr) (sender_addr pd) ;;
             check_cmsg (plain_header (nb + k) L nr) pd sizeof_cbuf ;;
             check_batch hdrs (u64 (total + Z.of_nat (length d))) pd)%c Q X w1).
    { intros Hpd2 w1 Hw1. wp_step. apply check_msg_name_plain; [by eapply plain_config|].
      wp_step. apply check_cmsg_plain; [by eapply plain_config|done|].
      apply (IH (k + 1) hdrs (ds0 ++ [d])); try done.
      - by rewrite Hw1.
      - by rewrite Hw1.
      - intros H2 _. by apply Hpd2.
      - intros p' w' Hc' Hw' Hp' Hps. rewrite <- app_assoc in Hp', Hps.
        rewrite u64_add_l.
        replace (total + Z.of_nat (length d) + sum_lengths ds) with (total + sum_lengths (d :: ds))
          by (unfold sum_lengths; cbn; lia).
        apply HQ; try done. rewrite Hw', Hw1. done.
      - rewrite <- app_assoc. intros Hf w' Hw'. apply HX; [done|]. by rewrite Hw', Hw1.
      - apply u64_range. }
    wp_step. rewrite Hlen, u64_id, !i32_id by nia.
    eapply check_pkt_spec; [done|done|done|done| | | |].
    + exists l. split_and!; [done|cbn; lia|done].
    + intros H0. assert (E : (check p0 =? 0) = true) by (rewrite <- Hck; by apply Z.eqb_eq).
      subst pd lastd. rewrite E in *. apply Hgo; [rewrite <- Hck; lia|].
      by destruct w as [? ? ? ? ? ? []].
    + intros H0 Hps.
      assert (E : (check p0 =? 0) = false) by (rewrite <- Hck; by apply Z.eqb_neq).
      subst pd lastd. rewrite E in *. apply Hgo; [|done].
      rewrite <- Hck. intros H2. destruct Hps; [lia|done].
    + intros H2 Hf w' Hw'. apply HX; [|done]. split; [by rewrite <- Hck|].
      exists (ds0 ++ [d]), ds. split; [by rewrite <- app_assoc|].
      rewrite <- Hpd. subst pd. rewrite <- Hck, (proj2 (Z.eqb_neq _ _)) by lia. done.
Qed.
End Batch.

Lemma mmsg_trace fd hs fl ts r tr :
  mmsg_replies ((CRecvmmsg fd hs fl ts, r) :: tr) = mmsg_replies tr ++ [r].
Proof. unfold mmsg_replies. by rewrite rev_omap_cons. Qed.

Lemma mallocs_no_mmsg evs tr :
  Forall is_malloc evs -> mmsg_replies (tr ++ evs) = mmsg_replies tr.
Proof.
  intros H. unfold mmsg_replies. rewrite omap_app, rev_app_distr.
  assert (omap mmsg_reply evs = []) as ->; [|done].
  induction H as [|[c r] evs [n Hn] _ IH]; [done|]. cbn in *. subst c. apply IH.
Qed.

(** The record and the checks after the replies [rs] to recvmmsg. *)
Definition mmsg_counts p (r0 : time_bench_record) (last0 : pktgen_hdr) (rs : list reply) (s : mmsg_state)
  (last' : pktgen_hdr) : Prop :=
  Forall (answered mmsg_reply) rs /\
  t_cnt s = bytes_got rs /\ t_batches s = count_if got rs /\
  t_total s = u64 (sum_lengths (mmsg_payloads rs)) /\
  try_again (t_r s) = u64 (try_again r0 + count_if empty_queue rs) /\
  (t_p s, last') = checked p last0 (mmsg_payloads rs) /\
  same_config p (t_p s) /\
  (2 < check p -> mmsg_payloads rs <> [] -> stats_failed (t_p s) = false).

Lemma not_got x : empty_queue x = true -> got x = false.
Proof.
  unfold empty_queue, got. intros [H _]%andb_true_iff. apply Z.ltb_lt in H. apply Z.leb_gt. lia.
Qed.

Lemma not_empty x : got x = true -> empty_queue x = false.
Proof. unfold empty_queue, got. intros H%Z.leb_le. by rewrite (proj2 (Z.ltb_ge _ _)). Qed.

Lemma mmsg_counts_empty p r0 last0 rs s last' x h :
  mmsg_counts p r0 last0 rs s last' -> empty_queue x = true -> given mmsg_reply x ->
  mmsg_counts p r0 last0 (rs ++ [x])
    (MmsgState (t_cnt s) (t_batches s) (t_total s) (t_p s) h (inc_try_again (t_r s))) last'.
Proof.
  intros (Hall & Hc & Hb & Ht & Ha & Hp & Hcfg & Hf) Hx Hgiv. pose proof (not_got x Hx) as Hg.
  unfold mmsg_counts. cbn [t_cnt t_batches t_total t_p t_r inc_try_again try_again].
  rewrite bytes_got_snoc, !count_if_snoc, mmsg_payloads_snoc. unfold batch_payloads.
  rewrite Hg, Hx, app_nil_r. cbn [of_bool]. split_and!; try done; try lia.
  - apply Forall_app. split; [done|]. constructor; [|done]. split; [by rewrite Hg, Hx|done].
  - rewrite Ha, u64_add_l. f_equal. lia.
Qed.

Lemma mmsg_counts_got p r0 last0 rs s last' x p' last2 h :
  mmsg_counts p r0 last0 rs s last' -> got x = true -> given mmsg_reply x -> same_config p p' ->
  (p', last2) = checked p last0 (mmsg_payloads rs ++ batch_payloads x) ->
  (2 < check p -> mmsg_payloads rs ++ batch_payloads x <> [] -> stats_failed p' = false) ->
  mmsg_counts p r0 last0 (rs ++ [x])
    (MmsgState (t_cnt s + r_ret x) (t_batches s + 1)
       (u64 (t_total s + sum_lengths (batch_payloads x))) p' h (t_r s)) last2.
Proof.
  intros (Hall & Hc & Hb & Ht & Ha & Hp & Hcfg & Hf) Hg Hgiv Hcfg' Hp' Hf'. pose proof (not_empty x Hg) as He.
  unfold mmsg_counts. cbn [t_cnt t_batches t_total t_p t_r].
  rewrite bytes_got_snoc, !count_if_snoc, mmsg_payloads_snoc, Hg, He. cbn [of_bool].
  split_and!; try done; try lia.
  - apply Forall_app. split; [done|]. constructor; [|done]. split; [by rewrite Hg|done].
  - rewrite Ht, u64_add_l. f_equal. unfold sum_lengths. by rewrite fmap_app, sumZ_app.
  - rewrite Ha. f_equal. lia.
Qed.

Section Loop.
Variables (F : Prop) (p : sink_params) (r0 : time_bench_record) (nb L : Z) (fd flags : Z)
  (ts : option timespec) (w0 : W) (rank : kst -> nat) (N : nat).
#[local] Abbreviation nr := (iov_elems p).
#[local] Abbreviation sz := (Z.to_nat (buf_sz p)).
Hypothesis HL : 0 < L.
Hypothesis Hnr : 0 < nr.
Hypothesis Hfit : nr * L <= buf_sz p.
Hypothesis Hmax : nr * L <= 2 ^ 31 - 32.
Hypothesis Hplain : plain_sink p.
Hypothesis Hbatch : 0 < batch p.
Hypothesis Hcount : count p + batch p <= 2 ^ 31.
Hypothesis Hker : recvmmsg_contract K.
Hypothesis Hpatient : patient K rank N.
Variable X : Z -> W -> Prop.
Hypothesis HXr : forall tr w, w_log w = tr ++ w_log w0 ->
  fails_at p (last (w_st w0)) (mmsg_payloads (mmsg_replies tr)) -> X EXIT_FAIL_RECV w.

Definition mmsg_inv (s : mmsg_state) w : Prop :=
  exists tr, w_log w = tr ++ w_log w0 /\ w_next w = w_next w0 /\ w_verbose w = w_verbose w0 /\
    bufs_ok nb (batch p) sz (w_mem w0) (w_mem w) /\
    batch_headers nb L nr 0 (t_hdrs s) /\ Z.of_nat (length (t_hdrs s)) = batch p /\
    0 <= t_cnt s < Z.max 0 (count p) + batch p /\
    mmsg_counts p r0 (last (w_st w0)) (mmsg_replies tr) s (last (w_st w)).

(** What the kernel is told about the headers. *)
Definition header_caps (hdrs : list mmsghdr) : list (list Z * Z * Z) :=
  (fun h => (iov_len <$> msg_iov (msg_hdr h), msg_namelen (msg_hdr h), msg_controllen (msg_hdr h))) <$> hdrs.

Lemma header_cap hdrs i h :
  batch_headers nb L nr 0 hdrs -> header_caps hdrs !! i = Some h -> sumZ h.1.1 = nr * L.
Proof using Hnr.
  intros Hh Hi. unfold header_caps in Hi. rewrite list_lookup_fmap in Hi.
  destruct (hdrs !! i) as [x|] eqn:E; [|done]. injection Hi as <-. cbn.
  rewrite (Hh i x E). cbn [plain_header msg_iov]. apply sum_caps. lia.
Qed.

(** The rounds left: the messages still to come, and the empty queues. *)
Definition rounds_left (s : mmsg_state) w : nat := (Z.to_nat (count p - t_cnt s) + rank (w_k w))%nat.

Lemma recvmmsg_round_spec error s w :
  mmsg_inv s w -> t_cnt s < count p ->
  (forall x w1 (Q : mmsg_state -> W -> Prop), r_ret x < 0 -> r_errno x <> EAGAIN ->
     (forall b, b < nb -> w_mem w1 !! b = w_mem w0 !! b) -> wpg F (error x) Q X w1) ->
  wpg F (recvmmsg_round fd flags (count p) ts error s)
    (fun o w' => exists s', o = inl s' /\ mmsg_inv s' w' /\ (rounds_left s' w' < rounds_left s w)%nat) X w.
Proof using HL Hnr Hfit Hmax Hplain Hbatch Hcount Hker Hpatient HXr.
  intros (tr & Hlog & Hnx & Hv & Hm & Hh & Hlen & Hrange & Hcnt) Hlt Herr.
  unfold recvmmsg_round. rewrite (proj2 (Z.ltb_lt _ _)) by done. unfold recvmmsg_call. do 2 wp_step.
  fold (header_caps (t_hdrs s)). set (c := CRecvmmsg fd (header_caps (t_hdrs s)) flags ts).
  wp_ask x k E. assert (Hgiv : given mmsg_reply x) by by eapply given_now.
  pose proof (proj2 Hpatient c (w_k w)) as [Hr Hr']. rewrite E in Hr, Hr'. cbn [fst snd] in Hr, Hr'.
  assert (Htr : mmsg_replies ((c, x) :: tr) = mmsg_replies tr ++ [x]) by apply mmsg_trace.
  destruct (Z.ltb_spec (r_ret x) 0) as [Hneg|Hnn].
  - wp_step. rewrite (proj2 (Z.ltb_lt _ _)) by done. destruct (Z.eqb_spec (r_errno x) EAGAIN) as [He|He].
    + assert (Hq : empty_queue x = true).
      { unfold empty_queue. by rewrite (proj2 (Z.ltb_lt _ _)), He by done. }
      wp_step. eexists. split; [done|]. split.
      * exists ((c, x) :: tr). split_and!; try done; cbn [t_cnt]; try lia.
        -- cbn. by rewrite Hlog.
        -- rewrite Htr. by apply mmsg_counts_empty.
      * unfold rounds_left. cbn [t_cnt w_k w_call]. specialize (Hr' x eq_refl Hq). lia.
    + wp_step. apply Herr; [done|done|]. intros b Hb. apply (proj2 Hm). lia.
  - assert (Hg : got x = true) by (by apply Z.leb_le).
    pose proof (Hker fd (header_caps (t_hdrs s)) flags ts (w_k w)) as Hk. cbv zeta in Hk.
    fold c in Hk. rewrite E in Hk. cbn [fst] in Hk.
    assert (Hcl : length (header_caps (t_hdrs s)) = length (t_hdrs s)) by apply length_fmap.
    destruct Hk as ([H1 Hle] & Hmsgs & Hcap); [intros Hnil; rewrite Hnil in Hcl; cbn in Hcl; lia|done|].
    wp_step. apply (deliver_all_spec F nb (batch p) L nr sz HL Hnr) with (k := 0) (m0 := w_mem w0); try done; try lia.
    { apply Forall_lookup_2. intros i m Hi.
      destruct (header_caps (t_hdrs s) !! i) as [h|] eqn:Eh.
      - rewrite <- (header_cap _ _ _ Hh Eh). by eapply Hcap.
      - apply lookup_ge_None in Eh. apply lookup_lt_Some in Hi. lia. }
    intros hdrs' m' Hh' Hlen' Hm' _ Harr. wp_step. rewrite (proj2 (Z.ltb_ge _ _)) by done.
    pose proof Hcnt as (_ & _ & _ & Ht & _ & Hp & Hcfg & Hf).
    assert (Hbp : batch_payloads x = m_data <$> r_msgs x) by (unfold batch_payloads; by rewrite Hg).
    wp_step. rewrite Hmsgs, Nat2Z.id.
    eapply (check_batch_spec F nb L nr sz HL Hnr) with (k := 0) (p0 := p) (ds := m_data <$> r_msgs x);
      [lia|done|done|done|done|exact Harr|exact Hp|done| | |rewrite Ht; apply u64_range].
    + intros p' w' Hcfg' Hw' Hp' Hf'. wp_step. apply wp_int_check; [unfold is_i32; lia|]. wp_step.
      eexists. split; [done|]. split.
      * exists ((c, x) :: tr). rewrite Hw'. split_and!; try done; cbn [t_cnt t_hdrs]; try lia.
        -- cbn. by rewrite Hlog.
        -- rewrite Htr, <- Hmsgs, <- Hbp. apply (mmsg_counts_got _ _ _ _ _ _ _ _ _ _ Hcnt); try done; by rewrite Hbp.
      * unfold rounds_left. rewrite Hw'. cbn [t_cnt w_k w_set_st w_set_mem w_call]. lia.
    + intros Hfail w' Hw'. apply (HXr ((c, x) :: tr)).
      * rewrite Hw'. cbn. by rewrite Hlog.
      * by rewrite Htr, mmsg_payloads_snoc, Hbp.
Qed.
End Loop.

(** ** The set-up of the headers, and their end *)
Lemma malloc_ok F n (Q : ptr -> W -> Prop) X w :
  malloc_succeeds K ->
  (forall r k, Q (Ptr (w_next w) 0)
     (w_alloc (replicate (Z.to_nat n) None) (w_call (CMalloc n) r k w))) ->
  wpg F (malloc n) Q X w.
Proof.
  intros HK HQ. wp_ask r k E. cbv zeta. split; [|auto]. intros H0. exfalso.
  pose proof (HK n (w_k w)) as Hn. rewrite E in Hn. by apply Hn.
Qed.

Lemma batch_iov_spec F nr L b bi pkt n li w (Q : list iovec -> W -> Prop) X :
  0 < nr -> 0 <= L < 2 ^ 31 -> 0 <= pkt < n -> w_mem w !! bi = Some li ->
  Z.of_nat (length li) = 16 * (nr * n) -> Q (chunks b 0 L nr) w ->
  wpg F (forM (seqZ 0 nr) (fun i =>
           check_elem (Ptr bi 0) sizeof_iovec (pkt * nr + i) ;;
           ret (Iovec (ptr_add (Ptr b 0) (L * i)) (u64 L))))%c Q X w.
Proof.
  intros Hn HL Hpkt Hb Hl HQ. rewrite (u64_id L) by lia.
  apply wp_forM with (I := fun done ys w' => w' = w /\
    ys = (fun i => Iovec (Ptr b (0 + i * L)) L) <$> done).
  - done.
  - intros done x rest ys w' Hall [-> ->].
    assert (Hx : seqZ 0 nr !! length done = Some x) by (rewrite Hall, lookup_app_r, Nat.sub_diag; done).
    apply lookup_seqZ in Hx as [-> Hlt].
    unfold check_elem, ptr_add. cbn [p_block p_off]. do 2 wp_step.
    eapply peek_spec; [done|unfold sizeof_iovec; nia|unfold sizeof_iovec; nia|].
    repeat wp_step. split; [done|]. rewrite fmap_app. cbn. do 4 f_equal. lia.
  - intros ys w' [-> ->]. done.
Qed.

(** What the set-up leaves, after [n] messages. *)
Definition set_up (nb L nr : Z) (sz : nat) (w0 : W) (n : Z) (hdrs : list mmsghdr) w : Prop :=
  bufs_ok nb n sz (w_mem w0) (w_mem w) /\ w_next w = nb + n /\ batch_headers nb L nr 0 hdrs /\
  Z.of_nat (length hdrs) = n /\ w_st w = w_st w0 /\ w_verbose w = w_verbose w0 /\
  exists evs, w_log w = evs ++ w_log w0 /\ mmsg_replies evs = [].

Lemma set_up_round F p nb L bm bi lm li sender cbuf w0 pkt hdrs w (Q : mmsghdr -> W -> Prop) X :
  malloc_succeeds K -> plain_sink p -> bad_addr p = 0 -> 0 < iov_elems p -> 0 <= buf_sz p < 2 ^ 31 ->
  L = Z.quot (buf_sz p) (iov_elems p) -> 0 <= L < 2 ^ 31 -> 0 <= pkt < batch p ->
  w_mem w0 !! bm = Some lm -> Z.of_nat (length lm) = 64 * batch p ->
  w_mem w0 !! bi = Some li -> Z.of_nat (length li) = 16 * (iov_elems p * batch p) -> bm < nb -> bi < nb ->
  set_up nb L (iov_elems p) (Z.to_nat (buf_sz p)) w0 pkt hdrs w ->
  (forall h w', set_up nb L (iov_elems p) (Z.to_nat (buf_sz p)) w0 (pkt + 1) (hdrs ++ [h]) w' -> Q h w') ->
  wpg F (size <- int_div (buf_sz p) (iov_elems p) ;;
         buf <- (if truth (bad_addr p) && (pkt =? bad_addr p - 1) then ret NULL
                 else malloc (u64 (buf_sz p))) ;;
         iov <- forM (seqZ 0 (iov_elems p)) (fun i =>
                  check_elem (Ptr bi 0) sizeof_iovec (pkt * iov_elems p + i) ;;
                  ret (Iovec (ptr_add buf (size * i)) (u64 size))) ;;
         check_elem (Ptr bm 0) sizeof_mmsghdr pkt ;;
         ret (Mmsghdr (bind_header p (ptr_add sender (sizeof_sockaddr_storage * pkt))
                         (ptr_add cbuf (sizeof_cbuf * pkt)) iov) 0))%c Q X w.
Proof.
  intros HK Hpl Hbad Hn Hsz HL HL' Hpkt Hm Hml Hi Hil Hbm Hbi
    (Hbufs & Hnx & Hh & Hlen & Hst & Hv & evs & Hlog & Hevs) HQ.
  wp_step. apply wp_int_div; [lia|rewrite <- HL; unfold is_i32; lia|]. rewrite <- HL.
  wp_step. rewrite Hbad. cbn [truth Z.eqb negb andb]. apply malloc_ok; [done|]. intros ra k.
  cbn [w_next w_call]. rewrite Hnx, (u64_id (buf_sz p)) by lia.
  set (l := replicate (Z.to_nat (buf_sz p)) (@None Z)).
  set (w1 := w_alloc l (w_call (CMalloc (buf_sz p)) ra k w)).
  assert (Hm1 : w_mem w1 = <[nb + pkt := l]> (w_mem w)) by (subst w1; cbn; by rewrite Hnx).
  assert (Hbufs1 : bufs_ok nb (pkt + 1) (Z.to_nat (buf_sz p)) (w_mem w0) (w_mem w1)).
  { rewrite Hm1. apply bufs_ok_alloc; [lia|done|]. subst l. by rewrite length_replicate. }
  wp_step. eapply batch_iov_spec; [lia|lia|exact Hpkt| |exact Hil|].
  { rewrite (proj2 Hbufs1) by lia. exact Hi. }
  rewrite plain_bind by done. unfold check_elem, ptr_add. cbn [p_block p_off]. do 2 wp_step.
  eapply peek_spec; [rewrite (proj2 Hbufs1) by lia; exact Hm|unfold sizeof_mmsghdr; lia|unfold sizeof_mmsghdr; lia|].
  repeat wp_step. apply HQ. split_and!; try done.
  - subst w1. cbn. lia.
  - intros i h Hi'. destruct (decide (i < length hdrs)%nat) as [Hlt|Hge].
    + rewrite lookup_app_l in Hi' by done. by apply Hh.
    + rewrite lookup_app_r in Hi' by lia. destruct (i - length hdrs)%nat eqn:Ei; [|done].
      injection Hi' as <-. cbn. f_equal. lia.
  - rewrite length_app. cbn. lia.
  - exists ((CMalloc (buf_sz p), ra) :: evs). split; [subst w1; cbn; by rewrite Hlog|].
    unfold mmsg_replies in *. rewrite rev_omap_cons. cbn. by rewrite app_nil_r.
Qed.

(** Freeing the buffers of a batch. *)
Lemma free_bufs_spec F nb L nr sz m0 hdrs k w (Q : list unit -> W -> Prop) X :
  0 < nb + k -> 0 < nr -> batch_headers nb L nr k hdrs ->
  bufs_ok (nb + k) (Z.of_nat (length hdrs)) sz m0 (w_mem w) ->
  (forall i, 0 <= i -> m0 !! (nb + k + i) = None) ->
  (forall us, Q us (w_set_mem m0 w)) ->
  wpg F (forM hdrs (fun h => free (default NULL (iov_base <$> head (msg_iov (msg_hdr h)))))) Q X w.
Proof.
  revert k w Q. induction hdrs as [|h hdrs IH]; intros k w Q Hk Hn Hh Hb H0 HQ; cbn [forM].
  - apply bufs_ok_none in Hb. wp_step. specialize (HQ []). destruct w; cbn in *. by rewrite Hb.
  - apply batch_headers_cons in Hh as [Hh Hrest]. wp_step. rewrite Hh. cbn [plain_header msg_iov].
    unfold chunks. rewrite seqZ_cons by lia. cbn [fmap list_fmap head default option_fmap option_map iov_base].
    cbn [length] in Hb. replace (Z.of_nat (S (length hdrs))) with (Z.of_nat (length hdrs) + 1) in Hb by lia.
    destruct (proj1 Hb 0) as (l & Hl & _); [lia|]. rewrite Z.add_0_r in Hl.
    replace (0 + 0 * L) with 0 by lia. cbn. eapply wp_free; [exact Hl|lia|].
    wp_step. eapply (IH (k + 1)); try done; try lia.
    + replace (nb + (k + 1)) with (nb + k + 1) by lia. cbn [w_mem w_set_mem].
      apply bufs_ok_free; [done|lia|]. specialize (H0 0). rewrite Z.add_0_r in H0. apply H0. lia.
    + intros i Hi. replace (nb + (k + 1) + i) with (nb + k + (i + 1)) by lia. apply H0. lia.
    + intros us. wp_step. destruct w. apply HQ.
Qed.

(** ** The whole function *)
Definition batch_result p (r : time_bench_record) (last0 : pktgen_hdr) (rs : list reply)
  (out : Z * sink_params * time_bench_record) (last' : pktgen_hdr) : Prop :=
  Forall (answered mmsg_reply) rs /\
  count p <= bytes_got rs < Z.max 0 (count p) + batch p /\
  let '(cnt, p', r') := out in
  (p', last') = checked p last0 (mmsg_payloads rs) /\
  (2 < check p -> mmsg_payloads rs <> [] -> stats_failed p' = false) /\
  bytes r' = u64 (sum_lengths (mmsg_payloads rs)) /\
  try_again r' = u64 (try_again r + count_if empty_queue rs) /\
  cnt = i32 (bytes_got rs - try_again r').

Definition recvMmsg_post p (r : time_bench_record) w (out : Z * sink_params * time_bench_record) w' : Prop :=
  w_mem w' = w_mem w /\ w_verbose w' = w_verbose w /\ w_next w <= w_next w' /\
  exists tr, w_log w' = tr ++ w_log w /\
    batch_result p r (last (w_st w)) (mmsg_replies tr) out (last (w_st w')).

Definition mmsg_stopped p w0 w : Prop :=
  exists tr, w_log w = tr ++ w_log w0 /\
    fails_at p (last (w_st w0)) (mmsg_payloads (mmsg_replies tr)).

Lemma mmsg_loop_spec F p r fuel fd flags ts L nb (w : W) hdrs error rank N (X : Z -> W -> Prop) :
  0 < L -> 0 < iov_elems p -> iov_elems p * L <= buf_sz p -> iov_elems p * L <= 2 ^ 31 - 32 ->
  plain_sink p -> 0 < batch p -> count p + batch p <= 2 ^ 31 ->
  recvmmsg_contract K -> patient K rank N ->
  (forall w', mmsg_stopped p w w' -> X EXIT_FAIL_RECV w') -> is_u64 (try_again r) ->
  bufs_ok nb (batch p) (Z.to_nat (buf_sz p)) (w_mem w) (w_mem w) ->
  batch_headers nb L (iov_elems p) 0 hdrs -> Z.of_nat (length hdrs) = batch p ->
  (Z.to_nat (count p) + N < fuel)%nat ->
  (forall x w1 (Q : mmsg_state -> W -> Prop), r_ret x < 0 -> r_errno x <> EAGAIN ->
     (forall b, b < nb -> w_mem w1 !! b = w_mem w !! b) -> wpg F (error x) Q X w1) ->
  wpg F (iter fuel (recvmmsg_round fd flags (count p) ts error) (MmsgState 0 0 0 p hdrs r))
    (fun s w' => mmsg_inv p r nb L w s w' /\ count p <= t_cnt s) X w.
Proof.
  intros HL Hnr Hfit Hmax Hplain Hbatch Hcount Hker Hpat HX Hr Hbufs Hh Hlen Hfuel Herr.
  apply (wp_iter (fun n s w' => mmsg_inv p r nb L w s w' /\ (rounds_left p rank s w' < n)%nat)).
  - split; [|unfold rounds_left; cbn [t_cnt]; rewrite Z.sub_0_r; pose proof (proj1 Hpat (w_k w)); lia].
    exists []. change (mmsg_replies []) with (@nil reply).
    split_and!; try done; cbn [t_cnt]; try lia. split_and!; try done.
    + change (count_if empty_queue []) with 0. cbn [t_r]. by rewrite Z.add_0_r, u64_id.
    + unfold checked. cbn. by destruct (check p =? 0).
    + apply same_config_refl.
  - intros s w' [_ ?]. lia.
  - intros n s w' [Hinv Hn]. destruct (Z.ltb_spec (t_cnt s) (count p)) as [Hlt|Hge].
    + eapply wp_post.
      { apply (recvmmsg_round_spec F p r nb L fd flags ts w rank N HL Hnr Hfit Hmax Hplain Hbatch Hcount
          Hker Hpat X); auto. intros tr w2 Hlog Hf. apply HX. by exists tr. }
      intros o w2 (s' & -> & Hinv' & Hless). cbn. split; [done|]. lia.
    + unfold recvmmsg_round. rewrite (proj2 (Z.ltb_ge _ _)) by done. by wp_step.
Qed.

Lemma recvMmsg_error_spec F {A} x fd bm bi bb lm li lb (Q : A -> W -> Prop) (X : Z -> W -> Prop) w :
  w_mem w !! bi = Some li -> w_mem w !! bm = Some lm -> w_mem w !! bb = Some lb ->
  bm <> bi -> bb <> bi -> bb <> bm -> bi <> 0 -> bm <> 0 -> bb <> 0 ->
  (forall w', X EXIT_FAIL_SOCK w') ->
  wpg F (recv_error "sink_with_recvMmsg" x "- recvmsg"
           (free (Ptr bi 0) ;; free (Ptr bm 0) ;; free (Ptr bb 0))%c fd) Q X w.
Proof.
  intros Hi Hm Hb H1 H2 H3 Hi0 Hm0 Hb0 HX. unfold recv_error. do 6 wp_step.
  eapply wp_free; [exact Hi|done|]. wp_step.
  eapply wp_free; [cbn; rewrite lookup_delete_ne by congruence; exact Hm|done|].
  eapply wp_free; [cbn; rewrite !lookup_delete_ne by congruence; exact Hb|done|].
  wp_step. wp_ask r k E. wp_step. apply HX.
Qed.

(** The report only prints. *)
Lemma mmsg_report_spec F (b1 b2 : bool) f1 a1 f2 a2 f3 a3 w (Q : unit -> W -> Prop) X :
  (forall w2, printed w w2 -> Q tt w2) ->
  wpg F (when b1 (printf f1 a1 ;; when b2 (printf f2 a2) ;; printf f3 a3))%c Q X w.
Proof. intros HQ. repeat wp_step; by apply HQ. Qed.

(** The set-up of all the headers. *)
Lemma set_up_spec F p nb L bm bi lm li sender cbuf w0 (Q : list mmsghdr -> W -> Prop) X :
  malloc_succeeds K -> plain_sink p -> bad_addr p = 0 -> 0 < iov_elems p -> 0 <= buf_sz p < 2 ^ 31 ->
  L = Z.quot (buf_sz p) (iov_elems p) -> 0 <= L < 2 ^ 31 -> 0 < batch p ->
  w_mem w0 !! bm = Some lm -> Z.of_nat (length lm) = 64 * batch p ->
  w_mem w0 !! bi = Some li -> Z.of_nat (length li) = 16 * (iov_elems p * batch p) -> bm < nb -> bi < nb ->
  w_next w0 = nb ->
  (forall hdrs w', set_up nb L (iov_elems p) (Z.to_nat (buf_sz p)) w0 (batch p) hdrs w' -> Q hdrs w') ->
  wpg F (forM (seqZ 0 (batch p)) (fun pkt =>
    size <- int_div (buf_sz p) (iov_elems p) ;;
    buf <- (if truth (bad_addr p) && (pkt =? bad_addr p - 1) then ret NULL
            else malloc (u64 (buf_sz p))) ;;
    iov <- forM (seqZ 0 (iov_elems p)) (fun i =>
             check_elem (Ptr bi 0) sizeof_iovec (pkt * iov_elems p + i) ;;
             ret (Iovec (ptr_add buf (size * i)) (u64 size))) ;;
    check_elem (Ptr bm 0) sizeof_mmsghdr pkt ;;
    ret (Mmsghdr (bind_header p (ptr_add sender (sizeof_sockaddr_storage * pkt))
                    (ptr_add cbuf (sizeof_cbuf * pkt)) iov) 0)))%c Q X w0.
Proof.
  intros HK Hpl Hbad Hn Hsz HL HL' Hbatch Hm Hml Hi Hil Hbm Hbi Hnx HQ.
  apply wp_forM with (I := fun done hs w' =>
    set_up nb L (iov_elems p) (Z.to_nat (buf_sz p)) w0 (Z.of_nat (length done)) hs w').
  - split; [apply bufs_ok_0|]. split; [cbn; lia|]. do 4 (split; [done|]). by exists [].
  - intros done x rest ys w' Hall Hset.
    assert (Hx : seqZ 0 (batch p) !! length done = Some x)
      by (rewrite Hall, lookup_app_r, Nat.sub_diag; done).
    apply lookup_seqZ in Hx as [Ex Hlt]. rewrite Z.add_0_l in Ex. subst x.
    eapply set_up_round; try done; [lia|]. intros h w2 H2.
    rewrite length_app. cbn [length]. by rewrite Nat2Z.inj_add.
  - intros hs w' Hset. rewrite length_seqZ, Z2Nat.id in Hset by lia. by apply HQ.
Qed.

Lemma sink_with_recvMmsg_spec F p fuel fd r w rank N (X : Z -> W -> Prop) :
  0 < iov_elems p -> iov_elems p <= buf_sz p <= 2 ^ 31 - 32 -> 0 < batch p ->
  iov_elems p * batch p < 2 ^ 28 -> batch p < 2 ^ 26 -> count p + batch p <= 2 ^ 31 ->
  plain_sink p -> bad_addr p = 0 ->
  malloc_succeeds K -> recvmmsg_contract K -> patient K rank N ->
  mem_wf w -> is_u64 (try_again r) -> (Z.to_nat (count p) + N < fuel)%nat ->
  (forall w', X EXIT_FAIL_MEM w') -> (forall w', X EXIT_FAIL_SOCK w') ->
  (forall w', mmsg_stopped p w w' -> X EXIT_FAIL_RECV w') ->
  wpg F (sink_with_recvMmsg fuel fd p r) (recvMmsg_post p r w) X w.
Proof.
  intros Hn Hbuf Hb1 Hni Hb2 Hcnt Hplain Hbad HK Hker Hpat [Hpos Hfresh] Hr Hfuel HXm HXs HXr.
  unfold sink_with_recvMmsg. set (L := Z.quot (buf_sz p) (iov_elems p)).
  assert (HL : 0 < L /\ iov_elems p * L <= buf_sz p).
  { subst L. rewrite Z.quot_div_nonneg by lia. split; [apply Z.div_str_pos; lia|apply Z.mul_div_le; lia]. }
  rewrite (proj2 (Z.leb_gt _ _)) by done. cbv iota zeta.
  eapply alloc_four; [done|intros; by eexists|done|]. intros w3 Hfour. cbv zeta. wp_step.
  pose proof Hfour as (_ & Hn3 & _). apply wp_int_check; [unfold is_i32; nia|]. wp_step.
  apply malloc_zeroed_spec; [lia|intros; by eexists| |by intros].
  intros w4 Hal. pose proof (four_five _ _ _ _ _ _ _ _ Hfour Hal) as Hfive. rewrite Hn3.
  rewrite (u64_id (buf_sz p)), (u32_id (batch p)), (u32_id (iov_elems p * batch p)), !u32_id in Hfive
    by (unfold sizeof_mmsghdr, sizeof_iovec; nia). unfold sizeof_mmsghdr, sizeof_iovec in Hfive.
  destruct Hfive as (Hmem & Hn4 & Hst & Hv & evs & Hlog & Hmal). wp_step.
  eapply (set_up_spec F p (w_next w + 5) L); try done; try lia.
  { rewrite Hmem, lookup_insert_ne, lookup_insert_eq by lia. reflexivity. }
  { rewrite length_replicate. lia. }
  { rewrite Hmem, lookup_insert_eq. reflexivity. }
  { rewrite length_replicate. lia. }
  intros hdrs w5 (Hbufs & Hnx5 & Hh & Hlen & Hst5 & Hv5 & evs5 & Hlog5 & Hevs5).
  assert (Hevs : forall tr, mmsg_replies (tr ++ evs5 ++ evs) = mmsg_replies tr).
  { intros tr. rewrite app_assoc, mallocs_no_mmsg by done.
    unfold mmsg_replies in *. by rewrite omap_app, rev_app_distr, Hevs5. }
  cbv zeta. wp_step. eapply wp_post.
  { eapply (mmsg_loop_spec F p r fuel fd _ _ L (w_next w + 5) w5 hdrs _ rank N); try done; try lia.
    - intros w' (tr & Hlog' & Hf). apply HXr. exists (tr ++ evs5 ++ evs). split.
      + by rewrite Hlog', Hlog5, Hlog, !app_assoc.
      + rewrite Hevs. by rewrite Hst5, Hst in Hf.
    - split; [apply Hbufs|done].
    - intros x w' Q _ _ Hlow.
      assert (Hlow' : forall b, b < w_next w + 5 -> w_mem w' !! b = w_mem w4 !! b).
      { intros b Hb. rewrite Hlow by lia. apply (proj2 Hbufs). lia. }
      eapply recvMmsg_error_spec;
        [rewrite Hlow', Hmem, lookup_insert_eq by lia; reflexivity
        |rewrite Hlow', Hmem, lookup_insert_ne, lookup_insert_eq by lia; reflexivity
        |rewrite Hlow', Hmem, !lookup_insert_ne, lookup_insert_eq by lia; reflexivity
        |lia..|done]. }
  intros s w6 [(tr & Hlog6 & Hnx6 & Hv6 & Hbufs6 & Hh6 & Hlen6 & Hrange & Hcounts) Hge].
  cbv zeta. do 2 wp_step. wp_step. apply mmsg_report_spec.
  intros w7 (Hm7 & Hlog7 & Hv7 & Hn7 & Hst7).
  pose proof (bufs_ok_trans _ _ _ _ _ _ Hbufs Hbufs6) as Hbufs7.
  wp_step. eapply (free_bufs_spec F (w_next w + 5) L (iov_elems p) (Z.to_nat (buf_sz p)) (w_mem w4) (t_hdrs s) 0);
    [lia|lia|exact Hh6|rewrite Hm7, Z.add_0_r, Hlen6; exact Hbufs7| |].
  { intros i Hi. rewrite Hmem, !lookup_insert_ne by lia. apply Hfresh. lia. }
  intros us. eapply free_five; [done|exact Hfresh|exact Hmem|].
  destruct Hcounts as (Hall & Hc & Hb & Ht & Ha & Hp & Hcfg & Hpass). split_and!.
  - done.
  - cbn. by rewrite Hv7, Hv6, Hv5.
  - cbn. lia.
  - exists (tr ++ evs5 ++ evs). split; [cbn; by rewrite Hlog7, Hlog6, Hlog5, Hlog, !app_assoc|].
    rewrite Hevs. split; [done|]. split; [lia|]. cbn [w_st w_set_mem]. rewrite Hst7.
    rewrite Hst5, Hst in Hp. split_and!; try done. by rewrite i32_u64, Hc.
Qed.
End Spec.
