(* ===== verification/UdpSinkMain.v ===== *)
(** * udp_sink: the timed runs and [main]

    A sink that blocks in its receive calls and asks for payloads only never
    reaches undefined behaviour, and ends with one of the documented exit
    codes. *)
From stdpp Require Import base list gmap strings.
From Stdlib Require Import ZArith Lia Ascii.
From S2P Require Import Prelude.
From S2P Require Import CLang.
From S2P Require Import Wp.
From S2P Require Import Libc.
From S2P Require Import Common.
From S2P Require Import CommonSocket.
From S2P Require Import Getopt.
From S2P Require Import Tame.
From S2P Require Import Scripted.
From S2P Require Import Pktgen.
From S2P Require Import CheckPkt.
From S2P Require Import CheckPktSpec.
From S2P Require Import FloodSink.
From S2P Require Import Cmsg.
From S2P Require Import UdpSink.
From S2P Require Import UdpSinkSpec.
From S2P Require Import UdpSinkMsg.
From S2P Require Import UdpSinkMmsg.

#[local] Open Scope Z_scope.
#[local] Open Scope c_scope.

(** The parameters the receive functions are safe with. *)
Definition sane_sink (p : sink_params) : Prop :=
  1 <= count p <= 2 ^ 30 /\ 1 <= batch p <= 32767 /\ 1 <= iov_elems p <= buf_sz p /\
  buf_sz p = 4096 /\ ss_family (sender_addr p) = 0 /\ recv_ttl p = 0 /\ recv_pktinfo p = 0 /\
  bad_addr p = 0.

#[local] Arguments ss_family : simpl never.

(** An answer of [getopt_long] that keeps them so: an option that requires an
    argument has one, the numbers are in range; the options that ask for the
    sender ([-S]), for control data, or for a bad pointer ([-B]) are not used. *)
Definition sane_sink_option (e : optev) : Prop :=
  (o_c e = 0 -> exists lo, long_options !! o_longindex e = Some lo /\
     opt_name lo <> "recv-ttl" /\ opt_name lo <> "recv-pktinfo" /\
     (opt_name lo = "nr-iovec" -> arg_in 1 4096 e)) /\
  (o_c e = ch "c" -> arg_in 1 (2 ^ 30) e) /\ (o_c e = ch "b" -> arg_in 1 32767 e) /\
  (In (o_c e) [ch "r"; ch "l"; ch "i"; ch "I"] -> is_Some (o_arg e)) /\
  o_c e <> ch "B" /\ o_c e <> ch "S".

Definition sink_codes : list Z :=
  [EXIT_FAIL_MEM; EXIT_FAIL_OPTION; EXIT_FAIL_TIME; EXIT_FAIL_SOCK; EXIT_FAIL_SOCKOPT; EXIT_FAIL_IP;
   EXIT_FAIL_RECV; EXIT_FAIL_FILEACCESS].

(** A system whose receive calls block: none finds the queue empty. *)
Definition blocking (K : Kernel) : Prop :=
  forall x, given recv_reply x \/ given mmsg_reply x -> empty_queue x = false.

(** [recvfrom] returns an address of two bytes or more, 16 for IPv4 and 28 for
    IPv6, in at most [sizeof(struct sockaddr_storage)]. *)
Definition recvfrom_contract (K : Kernel) : Prop :=
  forall fd cap fl k, let x := (kstep (CRecvfrom fd cap fl true) k).1 in
  0 <= r_ret x -> let a := m_name (r_msg x) in
  (2 <= length a <= 128)%nat /\ (le_val (take 2 a) = AF_INET -> (8 <= length a)%nat) /\
  (le_val (take 2 a) = AF_INET6 -> (24 <= length a)%nat).

Lemma same_config_sane p p' : same_config p p' -> sane_sink p -> sane_sink p'.
Proof. by intros (o & m & b & ->). Qed.

Lemma checked_config p last ds : same_config p (checked p last ds).1.
Proof.
  unfold checked. destruct (check p =? 0); [apply same_config_refl|].
  revert p last. induction ds as [|d ds IH]; intros p last; cbn [sink_checks]; [apply same_config_refl|].
  pose proof (check_flat_config p last d) as H. destruct (check_flat p last d) as [p' last'].
  eapply same_config_trans; [exact H|]. apply IH.
Qed.

Section Main.
Context {K : Kernel}.
Variables (F : Prop).
Hypothesis Hblock : blocking K.
Hypothesis Hmem : malloc_succeeds K.
Hypothesis Hfrom : recvfrom_contract K.
Hypothesis Hmsg : recvmsg_contract K.
Hypothesis Hmmsg : recvmmsg_contract K.

Definition sink_ok (w : world statics) : Prop := mem_wf w.

#[local] Instance sink_ok_stable : Stable sink_ok.
Proof. split; intros; done. Qed.

#[local] Abbreviation tame := (tame F sink_ok sink_codes).

(** ** The receive functions *)
Definition received_ok (p : sink_params) (out : Z * sink_params * time_bench_record) : Prop :=
  same_config p out.1.2 /\ 1 <= out.1.1 < 2 ^ 32.

Lemma mem_wf_next (w w' : world statics) :
  mem_wf w -> w_mem w' = w_mem w -> w_next w <= w_next w' -> mem_wf w'.
Proof. intros [H1 H2] Hm Hn. split; [lia|]. intros b Hb. rewrite Hm. apply H2. lia. Qed.

Lemma all_got f rs :
  (forall x, given f x -> empty_queue x = false) -> Forall (answered f) rs ->
  count_if got rs = Z.of_nat (length rs) /\ count_if empty_queue rs = 0.
Proof.
  intros He Hall. pose proof (got_or_empty f rs Hall) as Hsum.
  enough (count_if empty_queue rs = 0) by lia. unfold count_if.
  assert (List.filter empty_queue rs = []) as ->; [|done].
  clear Hsum. induction Hall as [|x rs [_ Hg] _ IH]; [done|]. cbn. by rewrite (He x Hg).
Qed.

Lemma tame_simple v p fd r : sane_sink p -> try_again r = 0 -> tame (sink_with v fd p r) (received_ok p).
Proof using Hblock.
  intros Hp Hr w Hw. pose proof Hp as (Hc & _).
  eapply wp_mono; [apply sink_with_spec; [lia|intros; lia|done|unfold is_u64; lia]| |].
  - intros [[cnt p'] r'] w' (Hm & _ & Hn & _ & tr & _ & (Hlen & Hall & Hp' & _ & _ & Hcnt)).
    destruct (all_got recv_reply _ (fun x H => Hblock x (or_introl H)) Hall) as [Hg _].
    split; [by eapply mem_wf_next|]. unfold received_ok. cbn. subst p'. split; [apply same_config_refl|].
    rewrite (Hcnt Hr), Hg by lia. lia.
  - intros code w' [->| ->]; vm_compute; tauto.
Qed.

Lemma plain_sane p : sane_sink p -> plain_sink p.
Proof. intros (_ & _ & _ & _ & ? & ? & ? & _). by split_and!. Qed.

Lemma tame_recvmsg p fd r : sane_sink p -> try_again r = 0 -> tame (sink_with_recvmsg fd p r) (received_ok p).
Proof using Hblock Hmsg.
  intros Hp Hr w Hw. pose proof Hp as (Hc & Hb & Hi & Hbuf & _).
  eapply wp_post; [apply (sink_with_recvmsg_spec F p fd r w); try lia; try done;
    [by apply plain_sane|unfold is_u64; lia|intros; vm_compute; tauto..]|].
  intros [[cnt p'] r'] w' (Hm & _ & Hn & tr & _ & (Hlen & Hall & Hck & _ & _ & _ & Hcnt)).
  destruct (all_got recv_reply _ (fun x H => Hblock x (or_introl H)) Hall) as [Hg _].
  split; [by eapply mem_wf_next|]. unfold received_ok. cbn [fst snd]. split.
  - replace p' with (checked p (last (w_st w)) (payloads (recv_replies tr))).1
      by (by rewrite <- Hck). apply checked_config.
  - rewrite (Hcnt Hr), Hg. lia.
Qed.

Lemma tame_recvMmsg fuel p fd r :
  sane_sink p -> try_again r = 0 -> (Z.to_nat (count p) < fuel)%nat ->
  tame (sink_with_recvMmsg fuel fd p r) (received_ok p).
Proof using Hblock Hmmsg Hmem.
  intros Hp Hr Hfuel w Hw. pose proof Hp as (Hc & Hb & Hi & Hbuf & _ & _ & _ & Hbad).
  assert (Hpat : patient K (fun _ => 0%nat) 0).
  { split; [lia|]. intros c k. split; [lia|]. intros x Hx He.
    rewrite (Hblock x) in He; [done|]. right. by exists c, k. }
  eapply wp_post; [eapply (sink_with_recvMmsg_spec F p fuel fd r w (fun _ => 0%nat) 0); try lia; try done;
    [nia|by apply plain_sane|unfold is_u64; lia|intros; vm_compute; tauto..]|].
  intros [[cnt p'] r'] w' (Hm & _ & Hn & tr & _ & (Hall & Hrange & Hck & _ & _ & Ha & Hcnt)).
  destruct (all_got mmsg_reply _ (fun x H => Hblock x (or_intror H)) Hall) as [_ He].
  split; [by eapply mem_wf_next|]. unfold received_ok. cbn [fst snd]. split.
  - replace p' with (checked p (last (w_st w)) (mmsg_payloads (mmsg_replies tr))).1
      by (by rewrite <- Hck). apply checked_config.
  - rewrite Hcnt, Ha, Hr, He. change (u64 (0 + 0)) with 0. rewrite i32_id; lia.
Qed.

(** ** The wait for the first packet *)

(** The memory does not change. *)
Definition same_mem (m : gmap Z (list mbyte)) (n : Z) (w : world statics) : Prop :=
  w_mem w = m /\ w_next w = n.

#[local] Instance same_mem_stable m n : Stable (same_mem m n).
Proof. split; intros; done. Qed.

Lemma tame_load_at m n b l off k (bs : list Z) :
  m !! b = Some l -> 0 <= off -> 0 <= k -> (Z.to_nat off + Z.to_nat k <= length l)%nat ->
  get_bytes (Z.to_nat off) (Z.to_nat k) l = Some <$> bs ->
  Tame.tame F (same_mem m n) sink_codes (load (Ptr b off) k) (fun x => x = bs).
Proof.
  intros Hb Ho Hk Hl Hg w [Hm Hn]. eapply load_spec; [by rewrite Hm|done|done|exact Hg|]. done.
Qed.

(** A step that leaves the memory, in the middle of a proof about it. *)
Lemma wp_same_mem {A} (m : M statics A) (P : A -> Prop) (Q : A -> world statics -> Prop) w :
  Tame.tame F (same_mem (w_mem w) (w_next w)) sink_codes m P ->
  (forall a w', w_mem w' = w_mem w -> w_next w' = w_next w -> P a -> Q a w') ->
  wpg F m Q (fun code _ => In code sink_codes) w.
Proof. intros H HQ. eapply wp_post; [by apply H|]. intros a w' [[Hm Hn] HP]. by apply HQ. Qed.

#[local] Hint Resolve same_mem_stable : tame.

Lemma tame_socket_error m n {A} fd res (Q : A -> Prop) :
  Tame.tame F (same_mem m n) sink_codes (socket_error fd res) Q.
Proof. unfold socket_error. repeat tame_step. Qed.

(** The family, the port and the address of the sender of the first packet. *)
Lemma tame_source m n b l (a : list Z) fd e :
  m !! b = Some l -> (length a <= length l)%nat -> (length l = 128)%nat ->
  get_bytes 0 (length a) l = Some <$> a ->
  (2 <= length a)%nat -> (le_val (take 2 a) = AF_INET -> (8 <= length a)%nat) ->
  (le_val (take 2 a) = AF_INET6 -> (24 <= length a)%nat) ->
  Tame.tame F (same_mem m n) sink_codes
    (if le_val (take 2 a) =? AF_INET then
       port <- load (ptr_add (Ptr b 0) 2) 2 ;; addr <- load (ptr_add (Ptr b 0) 4) 4 ;; ret (le_val port, addr)
     else if le_val (take 2 a) =? AF_INET6 then
       port <- load (ptr_add (Ptr b 0) 2) 2 ;; addr <- load (ptr_add (Ptr b 0) 8) 16 ;; ret (le_val port, addr)
     else
       eprintf "ERROR: %s() unsupported sa_family(%d) from socket errno(%d)\n"
         [AStr "time_function"; AInt (le_val (take 2 a)); AInt e] ;;
       ask (CClose fd) ;;
       exit EXIT_FAIL_RECV)%c (fun _ => True).
Proof.
  intros Hb Hal Hl Hg H2 H4 H6.
  assert (Hsub : forall off k, (off + k <= length a)%nat ->
    get_bytes off k l = Some <$> get_bytes off k a).
  { intros off k Hok. rewrite fmap_get_bytes, <- Hg. unfold get_bytes. rewrite drop_0.
    rewrite skipn_firstn_comm, take_take. f_equal. lia. }
  assert (Hload : forall off k, 0 <= off -> 0 <= k -> (Z.to_nat off + Z.to_nat k <= length a)%nat ->
    Tame.tame F (same_mem m n) sink_codes (load (ptr_add (Ptr b 0) off) k) (fun _ => True)).
  { intros off k Ho Hk Hlen. eapply tame_mono; [|by intros].
    apply (tame_load_at m n b l (0 + off) k (get_bytes (Z.to_nat off) (Z.to_nat k) a)); try done; try lia.
    by apply Hsub. }
  destruct (Z.eqb_spec (le_val (take 2 a)) AF_INET) as [E|E].
  { specialize (H4 E). do 2 (eapply tame_seq; [apply Hload; lia|intros]). by apply tame_ret. }
  destruct (Z.eqb_spec (le_val (take 2 a)) AF_INET6) as [E6|E6].
  { specialize (H6 E6). do 2 (eapply tame_seq; [apply Hload; lia|intros]). by apply tame_ret. }
  repeat tame_step.
Qed.

Lemma tame_wait_first fd p : tame (wait_first fd p) (fun _ => True).
Proof using Hfrom.
  intros w [Hpos Hfresh]. unfold wait_first. do 4 wp_step.
  set (w1 := w_alloc _ (w_alloc _ w)). set (n := w_next w) in *.
  do 3 wp_step. eapply wp_same_mem; [apply tame_when; intros; apply tame_printf; try apply same_mem_stable|].
  intros _ w2 Hm2 Hn2 _. wp_step.
  assert (Hb : w_mem w2 !! n = Some (replicate (Z.to_nat TMPMAX) None)).
  { rewrite Hm2. subst w1. cbn. rewrite lookup_insert_ne, lookup_insert_eq by lia. done. }
  eapply recv_call_spec; [exact Hb|by rewrite length_replicate|].
  intros x k l' Ex Hl'. set (w3 := w_set_mem _ _).
  destruct (Z.ltb_spec (r_ret x) 0) as [Hneg|Hnn].
  { wp_step. wp_step. eapply wp_same_mem; [apply tame_socket_error with (Q := fun _ => False)|done]. }
  pose proof (Hfrom fd TMPMAX 0 (w_k w2)) as Hk. cbv zeta in Hk. rewrite Ex in Hk. cbn [fst] in Hk.
  set (a := m_name (r_msg x)) in *. destruct (Hk Hnn) as ([Ha1 Ha2] & H4 & H6).
  rewrite (take_ge a) by (unfold sizeof_sockaddr_storage; lia).
  set (s0 := replicate (Z.to_nat sizeof_sockaddr_storage) (@None Z)).
  assert (Hs0 : w_mem w3 !! (n + 1) = Some s0).
  { subst w3. cbn. rewrite lookup_insert_ne, Hm2 by lia. subst w1. cbn. apply lookup_insert_eq. }
  wp_step. change (w_next (w_alloc (replicate (Z.to_nat TMPMAX) None) w)) with (n + 1).
  eapply store_spec; [exact Hs0|lia|subst s0; rewrite length_replicate; unfold sizeof_sockaddr_storage; lia|].
  set (l := put_bytes (Z.to_nat 0) (Some <$> a) s0). set (w4 := w_set_mem _ w3).
  assert (Hl : (length l = 128)%nat).
  { subst l. rewrite length_put_bytes; [by subst s0; rewrite length_replicate|].
    subst s0. rewrite length_fmap, length_replicate. unfold sizeof_sockaddr_storage. lia. }
  assert (Hg : get_bytes 0 (length a) l = Some <$> a).
  { subst l. pose proof (get_put_same 0 (Some <$> a) s0) as H. rewrite length_fmap in H. apply H.
    subst s0. rewrite length_replicate. unfold sizeof_sockaddr_storage. lia. }
  assert (Hb4 : w_mem w4 !! (n + 1) = Some l) by (subst w4; cbn; apply lookup_insert_eq).
  cbv zeta. wp_step. eapply (load_spec F (n + 1) 0 2 l (take 2 a)); [exact Hb4|lia|lia| |].
  { change (get_bytes 0 2 l = Some <$> take 2 a). unfold get_bytes in *. rewrite drop_0 in *.
    rewrite fmap_take, <- Hg, take_take. f_equal. lia. }
  wp_step. eapply wp_same_mem; [by apply (tame_source _ _ (n + 1) l a); [exact Hb4|lia|..]|]. intros [port addr] w5 Hm5 Hn5 _.
  wp_step. eapply wp_same_mem; [apply tame_ask; try apply same_mem_stable|]. intros ip w6 Hm6 Hn6 _.
  destruct (r_ret ip =? 0).
  { wp_step. wp_step. eapply wp_same_mem; [apply tame_socket_error with (Q := fun _ => False)|done]. }
  wp_step. eapply wp_same_mem; [apply tame_when; intros; apply tame_printf; try apply same_mem_stable|]. intros _ w7 Hm7 Hn7 _.
  assert (Hb7 : w_mem w7 !! (n + 1) = Some l) by congruence.
  wp_step. eapply wp_same_mem.
  { apply tame_when. intros _. eapply tame_seq; [apply tame_when; intros; apply tame_printf; try apply same_mem_stable|]. intros _.
    eapply tame_seq.
    { eapply tame_mono; [apply (tame_load_at _ _ (n + 1) l 0 (Z.of_nat (length a)) a); [exact Hb7|lia..|]|done].
      by rewrite Nat2Z.id. }
    intros to. eapply tame_seq; [apply tame_Connect; auto with tame|]. intros _.
    apply tame_when; intros; apply tame_printf; apply same_mem_stable. }
  intros _ w8 Hm8 Hn8 _.
  assert (Hm : w_mem w8 = <[n + 1 := l]> (<[n := l']> (<[n + 1 := s0]> (<[n := replicate (Z.to_nat TMPMAX) None]> (w_mem w))))).
  { rewrite Hm8, Hm7, Hm6, Hm5. subst w4 w3. cbn. by rewrite Hm2. }
  wp_step. eapply wp_free; [rewrite Hm, lookup_insert_ne, lookup_insert_eq by lia; done|lia|].
  eapply wp_free; [cbn; rewrite Hm, lookup_delete_ne, lookup_insert_eq by lia; done|lia|].
  split; [|done]. apply (mem_wf_next w); [by split| |].
  - cbn. rewrite Hm. blocks_freed n Hfresh.
  - cbn. rewrite Hn8, Hn7, Hn6, Hn5. subst w4 w3. cbn. rewrite Hn2. subst w1. cbn. lia.
Qed.

(** ** One timed run *)
Lemma tame_read_demux : tame read_ip_early_demux (fun _ => True).
Proof.
  unfold read_ip_early_demux. repeat tame_step; [done|].
  destruct (sscanf_u _) as [res value]. repeat tame_step; [|done].
  eapply tame_seq; [repeat tame_step|]. intros _. repeat tame_step.
Qed.

Lemma tame_setting r : tame (time_bench_record_setting r) (fun r' => try_again r' = 0).
Proof. eapply tame_seq; [apply tame_read_demux|]. intros v. by apply tame_ret. Qed.

Lemma tame_start_again r : tame (time_bench_start r) (fun r' => try_again r' = try_again r).
Proof.
  unfold time_bench_start. eapply tame_bind; [apply tame_gettime; auto with tame typeclass_instances|]. intros t _.
  tame_step. by tame_step.
Qed.

(** A receive function that keeps the configuration and receives. *)
Definition receives (fd : Z) (func : Z -> sink_params -> time_bench_record -> M statics (Z * sink_params * time_bench_record)) : Prop :=
  forall p r, sane_sink p -> try_again r = 0 -> tame (func fd p r) (received_ok p).

Lemma same_config_stats p : same_config p (init_stats (run_flag_curr p) p).
Proof. exists 0, 0, 0. by destruct p. Qed.

Lemma tame_time_run fd name j func p rec :
  sane_sink p -> receives fd func ->
  tame (time_run fd name j func p rec) (fun out => same_config p out.1).
Proof.
  intros Hp Hf. unfold time_run. repeat tame_step.
  eapply tame_seq; [repeat tame_step|]. intros _.
  eapply tame_bind; [apply tame_setting|]. intros r0 H0.
  eapply tame_bind; [apply tame_start_again|]. intros r1 H1.
  eapply tame_bind; [apply Hf; [done|congruence]|]. intros [[cnt p'] r'] [Hp' Hcnt]. cbn [fst snd] in *.
  tame_step. tame_step; [repeat tame_step|].
  eapply tame_seq; [apply tame_calc_stats; cbn; lia|]. intros r2. repeat tame_step.
  eapply tame_seq; [unfold print_check_result; repeat tame_step|]. intros _.
  apply tame_ret. eapply same_config_trans; [exact Hp'|]. apply same_config_stats.
Qed.

Lemma tame_sink_time_function fd name func p :
  sane_sink p -> receives fd func ->
  tame (time_function fd p name func) (same_config p).
Proof using Hfrom.
  intros Hp Hf. unfold time_function.
  eapply tame_seq; [apply tame_wait_first|]. intros _.
  apply (tame_iter _ _ _ (fun '(j, p', _) => 0 <= j <= Z.max 0 (repeat p) /\ same_config p p')
    (fun '(j, _, _) => Z.to_nat (repeat p - j))); [split; [lia|apply same_config_refl]|lia|].
  intros [[j p'] rec] [Hj Hp'].
  assert (Hrep : repeat p' = repeat p) by (by destruct Hp' as (o & m & b & ->)).
  rewrite Hrep. destruct (Z.ltb_spec j (repeat p)); [|by apply tame_ret].
  eapply tame_bind; [apply tame_time_run; [by eapply same_config_sane|done]|].
  intros [p'' rec'] Hp''. apply tame_ret. cbn [fst snd] in *.
  split; [split; [lia|by eapply same_config_trans]|lia].
Qed.

Lemma tame_sink_run_test flag name fd func p :
  sane_sink p -> receives fd func -> tame (run_test flag name fd func p) sane_sink.
Proof using Hfrom.
  intros Hp Hf. unfold run_test. tame_step; [|by apply tame_ret].
  eapply tame_mono; [apply tame_sink_time_function; [by destruct p|done]|].
  intros p' Hp'. eapply same_config_sane; [exact Hp'|]. by destruct p.
Qed.
(** ** Options *)
Definition sane_opts (o : main_opts) : Prop := sane_sink (o_p o).

Lemma tame_sink_usage argv0 : tame (usage argv0) (fun code => code = EXIT_FAIL_OPTION).
Proof.
  unfold usage. repeat tame_step.
  eapply tame_seq; [apply tame_forM; intros; repeat tame_step|]. intros _. repeat tame_step. done.
Qed.

Lemma tame_long_only name o e :
  sane_opts o -> name <> "recv-ttl" -> name <> "recv-pktinfo" ->
  (name = "nr-iovec" -> arg_in 1 4096 e) ->
  tame (long_only_option name o e) (fun r => match r with inl o' => sane_opts o' | inr _ => False end).
Proof.
  intros Ho Ht Hi Hn. destruct o as [p fam port]. unfold sane_opts, sane_sink in *. cbn in Ho.
  unfold long_only_option.
  destruct (String.eqb_spec name "check-pktgen") as [_|_]; [apply tame_ret; cbn; tauto|].
  destruct (String.eqb_spec name "nr-iovec") as [E|_].
  { eapply tame_bind; [by apply tame_atoi, Hn|]. intros v Hv. apply tame_ret. cbn in *. lia. }
  destruct (String.eqb_spec name "recv-pktinfo") as [?|_]; [done|].
  destruct (String.eqb_spec name "use-bpf") as [_|_]; [apply tame_ret; cbn; tauto|].
  destruct (String.eqb_spec name "recv-ttl") as [?|_]; [done|]. by apply tame_ret.
Qed.

Lemma tame_sink_main_option argv0 o e :
  sane_opts o -> sane_sink_option e ->
  tame (main_option argv0 o e)
    (fun r => match r with inl o' => sane_opts o' | inr code => code = EXIT_FAIL_OPTION end).
Proof.
  intros Ho (H0 & Hc & Hb & Hs & HB & HS).
  unfold main_option. cbv zeta.
  destruct (Z.eqb_spec (o_c e) 0) as [E|_].
  { destruct (H0 E) as (lo & -> & Ht & Hi & Hn).
    eapply tame_mono; [by apply tame_long_only|]. by intros [?|?]. }
  destruct o as [p fam port]. unfold sane_opts, sane_sink in *. cbn in Ho.
  repeat lazymatch goal with
  | |- Tame.tame _ _ _ (if _ =? ch ?x then _ else _) _ =>
      destruct (Z.eqb_spec (o_c e) (ch x)) as [E|_]; [first [apply tame_ret; cbn; tauto|congruence|idtac]|]
  end.
  all: try by (eapply tame_bind; [by apply tame_atoi_any, Hs; rewrite E; vm_compute; tauto|];
    intros v _; apply tame_ret; cbn; tauto).
  - eapply tame_bind; [by apply tame_atoi, Hc|]. intros v Hv. apply tame_ret. cbn in *. lia.
  - eapply tame_bind; [by apply tame_atoi, Hb|]. intros v Hv. apply tame_ret. cbn in *. lia.
  - tame_step. by apply tame_ret.
  - tame_step; [apply tame_ret; cbn; tauto|]. tame_step; [|by apply tame_ret].
    eapply tame_bind; [apply tame_sink_usage|]. intros u ->. by apply tame_ret.
Qed.

Lemma tame_sockopt fd l o v err msg : tame (sockopt_or_exit fd l o v err msg) (fun _ => True).
Proof.
  unfold sockopt_or_exit. repeat tame_step; [|done].
  eapply tame_seq; [destruct err; repeat tame_step; done|]. intros _. repeat tame_step.
Qed.

Lemma tame_bpf fd : tame (enable_bpf fd) (fun _ => True).
Proof. unfold enable_bpf. repeat tame_step; done. Qed.

#[local] Hint Resolve tame_sockopt tame_bpf : tame.

Lemma tame_sink_main fuel argv0 evs :
  2 ^ 30 < Z.of_nat fuel -> Forall sane_sink_option evs ->
  tame (main fuel argv0 evs) (fun code => code = 0 \/ code = EXIT_FAIL_OPTION).
Proof using All.
  intros Hfuel Hevs. unfold main. eapply tame_bind.
  { eapply (tame_getopt _ _ _ sane_opts sane_sink_option); [|done|apply tame_sink_main_option].
    by vm_compute. }
  intros [o|u] Ho; [|apply tame_ret; by right].
  repeat tame_step. eapply tame_seq; [repeat tame_step|]. intros _.
  set (p := if run_flag (o_p o) =? 0 then _ else _).
  assert (Hp : sane_sink p) by (subst p; destruct (_ =? 0); [by destruct o as [[] ? ?]|done]).
  eapply tame_seq; [eapply tame_any, tame_Socket; auto with tame typeclass_instances|]. intros fd.
  repeat (eapply tame_seq; [solve [repeat tame_step]|]; intros _).
  repeat (eapply tame_bind; [apply tame_sink_run_test; [done|intros q r Hq Hr]|intros ? ?]).
  - apply tame_recvMmsg; [done..|]. destruct Hq as [Hq _]. lia.
  - by apply tame_recvmsg.
  - by apply (tame_simple RRead).
  - by apply (tame_simple RRecvfrom).
  - by apply (tame_simple RRecv).
  - tame_step. apply tame_ret. by left.
Qed.
End Main.
