(* ===== verification/UdpSinkProps.v ===== *)
(** * udp_sink: the properties of the receive functions *)
From stdpp Require Import base list gmap strings.
From Stdlib Require Import ZArith Lia Ascii.
From S2P Require Import Prelude.
From S2P Require Import CLang.
From S2P Require Import Wp.
From S2P Require Import Libc.
From S2P Require Import Common.
From S2P Require Import CommonSocket.
From S2P Require Import Scripted.
From S2P Require Import Pktgen.
From S2P Require Import UdpFloodSpec.
From S2P Require Import CheckPkt.
From S2P Require Import CheckPktSpec.
From S2P Require Import FloodSink.
From S2P Require Import CheckProps.
From S2P Require Import UdpSink.
From S2P Require Import UdpSinkSpec.
From S2P Require Import UdpSinkMsg.
From S2P Require Import UdpSinkMmsg.
From S2P Require Import Getopt.
From S2P Require Import UdpSinkMain.

#[local] Open Scope Z_scope.
#[local] Open Scope c_scope.

(** Parameters of the examples: [n] packets, check level [level], datagrams
    received into four elements. *)
Definition example_sink (n level : Z) : sink_params :=
  set_iov_elems 4 (set_count n (level_params level)).

Definition again : reply := Reply (-1) EAGAIN (Timespec 0 0) [].
Definition datagram (d : list Z) : reply :=
  Reply (Z.of_nat (length d)) 0 (Timespec 0 0) [RMsg d [] []].

(** A fresh process of the sink. *)
Definition start_sink (script : list reply) : @world scripted statics := start script (Statics hdr_zero).

(** C11: [sink_with_read], [sink_with_recvfrom] and [sink_with_recv] make
    [p->count] receive calls, terminate without undefined behaviour and free
    what they allocate.  A call that fails with EAGAIN is counted in
    [try_again]; the result is the number of calls that returned data, the bytes
    recorded are their sum.  Any other failure ends the program.  (With [verbose]
    set, [recvfrom] and [recv] need at least one call: they divide by it.) *)
Theorem sink_receives_count (K : Kernel) (v : receiver) (p : sink_params) (fd : Z)
  (r : time_bench_record) (w : world statics) :
  count p < 2 ^ 31 -> (v <> RRead -> 0 < w_verbose w -> 0 < count p) -> mem_wf w ->
  is_u64 (try_again r) ->
  wp (sink_with v fd p r) (recv_post p r w) (fun code _ => recv_exit code) w.
Proof. apply sink_with_spec. Qed.

Lemma sink_receives_count_witness :
  let w := start_sink [datagram [1; 2; 3]; again; datagram [4]] in
  wp (sink_with RRecv 3 (example_sink 3 0) zero_record) (recv_post (example_sink 3 0) zero_record w)
    (fun code _ => recv_exit code) w.
Proof.
  apply (sink_receives_count scripted RRecv (example_sink 3 0) 3 zero_record
    (start_sink [datagram [1; 2; 3]; again; datagram [4]])).
  - vm_compute. reflexivity.
  - intros _ H. discriminate H.
  - apply start_wf.
  - vm_compute. split; [discriminate|reflexivity].
Defined.

(** The scripted system, with the answers to [recvmsg] cut to the contract. *)
Definition careful_step (c : call) (k : list reply) : reply * list reply :=
  let '(r, k') := scripted_step c k in
  match c with
  | CRecvmsg _ caps _ _ _ =>
      if (r_ret r <? 0) || ((r_ret r =? Z.of_nat (length (m_data (r_msg r)))) && (r_ret r <=? sumZ caps))
      then (r, k') else (again, k')
  | _ => (r, k')
  end.

Definition careful : Kernel := {| kst := list reply; kstep := careful_step |}.

Lemma careful_contract : recvmsg_contract careful.
Proof.
  intros fd caps nl cl fl k. unfold careful. cbn [kstep]. unfold careful_step.
  destruct (scripted_step _ k) as [r k']. cbv zeta.
  destruct (Z.ltb_spec (r_ret r) 0) as [H|H]; cbn [orb]; [cbn; lia|].
  destruct (Z.eqb_spec (r_ret r) (Z.of_nat (length (m_data (r_msg r))))) as [E|E]; cbn [andb]; [|cbn; lia].
  destruct (Z.leb_spec (r_ret r) (sumZ caps)); cbn; lia.
Qed.

(** C6: [sink_with_recvmsg], asked for neither sender nor control data, makes
    [p->count] calls, scatters each message over its I/O vector and checks it:
    the counters and the remembered header are those of checking the received
    payloads in order, whatever the number of vector elements.  It terminates
    without undefined behaviour, frees what it allocates and counts messages,
    bytes and EAGAIN failures; it ends the program when memory runs out, a call
    fails otherwise, or above level 2 as soon as a counter is not zero. *)
Theorem sink_recvmsg_checks (K : Kernel) (p : sink_params) (fd : Z) (r : time_bench_record)
  (w : world statics) (contract : recvmsg_contract K) :
  0 < iov_elems p < 2 ^ 26 -> iov_elems p <= buf_sz p <= 2 ^ 31 - 32 -> count p < 2 ^ 31 ->
  (0 < w_verbose w -> 0 < count p) -> plain_sink p -> mem_wf w -> is_u64 (try_again r) ->
  wp (sink_with_recvmsg fd p r) (recvmsg_post p r w)
    (fun code w' => code = EXIT_FAIL_MEM \/ code = EXIT_FAIL_SOCK \/
                    (code = EXIT_FAIL_RECV /\ check_stopped p w w')) w.
Proof. intros. apply sink_with_recvmsg_spec; auto. Qed.

Definition start_careful (script : list reply) : @world careful statics :=
  @World careful statics script ∅ 1 [] [] 0 (Statics hdr_zero).

Lemma sink_recvmsg_checks_witness :
  let w := start_careful [datagram (flood_bytes 40 1 (Timespec 7 0)); again;
                          datagram (flood_bytes 40 2 (Timespec 7 0))] in
  wp (sink_with_recvmsg 3 (example_sink 3 3) zero_record) (recvmsg_post (example_sink 3 3) zero_record w)
    (fun code w' => code = EXIT_FAIL_MEM \/ code = EXIT_FAIL_SOCK \/
                    (code = EXIT_FAIL_RECV /\ check_stopped (example_sink 3 3) w w')) w.
Proof.
  apply (sink_recvmsg_checks careful (example_sink 3 3) 3 zero_record
    (start_careful [datagram (flood_bytes 40 1 (Timespec 7 0)); again;
                    datagram (flood_bytes 40 2 (Timespec 7 0))])).
  - apply careful_contract.
  - vm_compute. split; reflexivity.
  - vm_compute. split; discriminate.
  - vm_compute. reflexivity.
  - intros H. discriminate H.
  - repeat split.
  - split; [reflexivity|]. intros b _. apply lookup_empty.
  - vm_compute. split; [discriminate|reflexivity].
Defined.

(** C7: [sink_with_recvMmsg], asked for neither sender nor control data, when
    memory does not run out and the queue is not found empty for ever: it
    terminates without undefined behaviour, frees what it allocates, receives
    [p->count] messages or more (less than a batch more), checks their payloads in
    order, whatever the batches and the number of vector elements, and records
    their bytes.  The value it returns is the number of messages less the
    number of EAGAIN failures.  Above level 2 it ends the program as soon as a
    counter is not zero. *)
Theorem sink_recvMmsg_checks (K : Kernel) (p : sink_params) (fuel : nat) (fd : Z)
  (r : time_bench_record) (w : world statics) (rank : kst -> nat) (N : nat)
  (contract : recvmmsg_contract K) (patience : patient K rank N) (memory : malloc_succeeds K) :
  0 < iov_elems p -> iov_elems p <= buf_sz p <= 2 ^ 31 - 32 -> 0 < batch p < 2 ^ 26 ->
  iov_elems p * batch p < 2 ^ 28 -> count p + batch p <= 2 ^ 31 ->
  plain_sink p -> bad_addr p = 0 -> mem_wf w -> is_u64 (try_again r) ->
  (Z.to_nat (count p) + N < fuel)%nat ->
  wp (sink_with_recvMmsg fuel fd p r) (recvMmsg_post p r w)
    (fun code w' => code = EXIT_FAIL_MEM \/ code = EXIT_FAIL_SOCK \/
                    (code = EXIT_FAIL_RECV /\ mmsg_stopped p w w')) w.
Proof.
  intros Hn Hb [Hb1 Hb2] Hni Hc Hpl Hbad Hwf Hr Hfuel.
  apply (sink_with_recvMmsg_spec False p fuel fd r w rank N); auto.
Qed.

(** A system that answers [recvmmsg] from a script of at most a hundred
    replies, cut to the contract, fails when it is at its end, and does not run
    out of memory. *)
Definition fits_headers (hdrs : list (list Z * Z * Z)) (ms : list rmsg) : bool :=
  forallb (fun i => match ms !! i, hdrs !! i with
                    | Some m, Some h => Z.of_nat (length (m_data m)) <=? sumZ h.1.1
                    | _, _ => true
                    end) (seq 0 (length ms)).

Definition failed : reply := Reply (-1) 5 (Timespec 0 0) [].

Definition batch_reply (hdrs : list (list Z * Z * Z)) (r : reply) : reply :=
  if (r_ret r <? 0) ||
     ((1 <=? r_ret r) && (r_ret r <=? Z.of_nat (length hdrs)) &&
      (r_ret r =? Z.of_nat (length (r_msgs r))) && fits_headers hdrs (r_msgs r))
  then r else failed.

Definition generous_step (c : call) (k : list reply) : reply * list reply :=
  match c with
  | CMalloc _ => (reply_of 1, k)
  | CRecvmmsg _ hdrs _ _ =>
      match k with
      | r :: k' => if (length k <=? 100)%nat then (batch_reply hdrs r, k') else (failed, k)
      | [] => (failed, k)
      end
  | _ => (reply_of 0, k)
  end.

Definition generous : Kernel := {| kst := list reply; kstep := generous_step |}.
Definition script_rank (k : list reply) : nat := if (length k <=? 100)%nat then length k else 0%nat.

Lemma batch_reply_contract hdrs r :
  let x := batch_reply hdrs r in
  0 <= r_ret x ->
  1 <= r_ret x <= Z.of_nat (length hdrs) /\ r_ret x = Z.of_nat (length (r_msgs x)) /\
  forall i m h, r_msgs x !! i = Some m -> hdrs !! i = Some h -> Z.of_nat (length (m_data m)) <= sumZ h.1.1.
Proof.
  cbv zeta. unfold batch_reply. destruct (Z.ltb_spec (r_ret r) 0) as [H|H]; cbn [orb]; [lia|].
  destruct (_ && _) eqn:E; [|cbn; lia]. intros _.
  apply andb_true_iff in E as [[[E1%Z.leb_le E2%Z.leb_le]%andb_true_iff E3%Z.eqb_eq]%andb_true_iff E4].
  split_and!; try done. intros i m h Hm Hh. unfold fits_headers in E4. rewrite forallb_forall in E4.
  assert (Hi : (i < length (r_msgs r))%nat) by (by apply lookup_lt_Some in Hm).
  specialize (E4 i). rewrite Hm, Hh in E4. apply Z.leb_le, E4, in_seq. lia.
Qed.

Lemma generous_contract : recvmmsg_contract generous.
Proof.
  intros fd hdrs fl ts k. cbn [kstep generous generous_step]. cbv zeta. intros _.
  destruct k as [|r k]; [cbn; lia|]. destruct (length (r :: k) <=? 100)%nat; [|cbn; lia].
  apply batch_reply_contract.
Qed.

Lemma generous_patient : patient generous script_rank 100.
Proof.
  split.
  - intros k. unfold script_rank. destruct (Nat.leb_spec (length k) 100); lia.
  - intros c k. destruct c; cbn [kstep generous generous_step fst snd]; try (split; [lia|discriminate]).
    destruct k as [|r k]; [split; [done|by intros x [= <-]]|].
    destruct (Nat.leb_spec (length (r :: k)) 100) as [Hl|Hl]; cbn [fst snd].
    + unfold script_rank. cbn [length] in *. rewrite !(proj2 (Nat.leb_le _ _)) by lia. split; [lia|]. intros; lia.
    + unfold script_rank. rewrite !(proj2 (Nat.leb_gt _ _)) by lia. split; [lia|]. by intros x [= <-].
Qed.

Definition start_generous (script : list reply) : @world generous statics :=
  @World generous statics script ∅ 1 [] [] 0 (Statics hdr_zero).

Definition batch_of (ds : list (list Z)) : reply :=
  Reply (Z.of_nat (length ds)) 0 (Timespec 0 0) ((fun d => RMsg d [] []) <$> ds).

Lemma sink_recvMmsg_checks_witness :
  let w := start_generous [batch_of [flood_bytes 40 1 (Timespec 7 0); flood_bytes 40 2 (Timespec 7 0)];
                           again; batch_of [flood_bytes 40 3 (Timespec 7 0)]] in
  wp (sink_with_recvMmsg 104 3 (set_batch 2 (example_sink 3 3)) zero_record)
    (recvMmsg_post (set_batch 2 (example_sink 3 3)) zero_record w)
    (fun code w' => code = EXIT_FAIL_MEM \/ code = EXIT_FAIL_SOCK \/
                    (code = EXIT_FAIL_RECV /\ mmsg_stopped (set_batch 2 (example_sink 3 3)) w w')) w.
Proof.
  apply (sink_recvMmsg_checks generous (set_batch 2 (example_sink 3 3)) 104 3 zero_record
    (start_generous [batch_of [flood_bytes 40 1 (Timespec 7 0); flood_bytes 40 2 (Timespec 7 0)];
                     again; batch_of [flood_bytes 40 3 (Timespec 7 0)]]) script_rank 100).
  - apply generous_contract.
  - apply generous_patient.
  - intros n k. discriminate.
  - reflexivity.
  - vm_compute. split; discriminate.
  - vm_compute. split; reflexivity.
  - reflexivity.
  - vm_compute. discriminate.
  - repeat split.
  - reflexivity.
  - split; [reflexivity|]. intros b _. apply lookup_empty.
  - vm_compute. split; [discriminate|reflexivity].
  - vm_compute. lia.
Defined.

(** C8: the whole program [udp_sink]: for every command line whose counts,
    batches and vector sizes are in range and that asks for payloads only (no
    [-S], no control data, no bad pointer), on a system whose receive calls
    block and that does not run out of memory, [main] terminates without
    undefined behaviour; it returns 0 or the usage code, or exits with one of
    the documented codes. *)
Theorem udp_sink_main_safe (K : Kernel) (fuel : nat) (argv0 : string) (evs : list optev)
  (w : world statics) (blocks : blocking K) (memory : malloc_succeeds K)
  (from : recvfrom_contract K) (msg : recvmsg_contract K) (mmsg : recvmmsg_contract K) :
  2 ^ 30 < Z.of_nat fuel -> Forall sane_sink_option evs -> mem_wf w ->
  wp (main fuel argv0 evs) (fun code _ => code = 0 \/ code = EXIT_FAIL_OPTION)
    (fun code _ => In code sink_codes) w.
Proof.
  intros Hfuel Hevs Hwf. eapply wp_post; [by apply tame_sink_main|]. by intros code w' [_ H].
Qed.

(** A system that receives the same three bytes for as long as [k] is not
    zero, then fails. *)
Definition three : rmsg := RMsg [1; 2; 3] ([2; 0; 31; 144; 10; 0; 0; 1] ++ replicate 8 0) [].
Definition give (k : nat) (ok : bool) (r : reply) : reply * nat :=
  match k with
  | O => (failed, O)
  | Datatypes.S k' => (if ok then r else failed, k')
  end.

Definition steady_step (c : call) (k : nat) : reply * nat :=
  match c with
  | CMalloc _ => (reply_of 1, k)
  | CRead _ _ | CRecv _ _ _ | CRecvfrom _ _ _ _ => give k true (Reply 3 0 (Timespec 0 0) [three])
  | CRecvmsg _ caps _ _ _ => give k (3 <=? sumZ caps) (Reply 3 0 (Timespec 0 0) [three])
  | CRecvmmsg _ hdrs _ _ =>
      give k (match hdrs with h :: _ => 3 <=? sumZ h.1.1 | [] => false end)
        (Reply 1 0 (Timespec 0 0) [three])
  | _ => (reply_of 0, k)
  end.

Definition steady : Kernel := {| kst := nat; kstep := steady_step |}.

Lemma give_cases k ok r : (give k ok r).1 = failed \/ ok = true /\ (give k ok r).1 = r.
Proof. unfold give. destruct k, ok; auto. Qed.

(** The reply of the steady system to a call, by cases. *)
Ltac steady_reply k ok r :=
  cbv zeta; set (x := (kstep _ k).1);
  assert (Hx : x = failed \/ ok = true /\ x = r) by apply give_cases;
  clearbody x; destruct Hx as [->|[Hok ->]].

Lemma steady_blocking : blocking steady.
Proof.
  intros x [(c & k & Hx)|(c & k & Hx)]; destruct c; try discriminate Hx; injection Hx as <-;
    cbn [kstep steady steady_step];
    lazymatch goal with |- context [give ?k ?ok ?r] => by destruct k, ok end.
Qed.

Lemma steady_recvfrom : recvfrom_contract steady.
Proof.
  intros fd cap fl k. steady_reply k true (Reply 3 0 (Timespec 0 0) [three]); cbn; [lia|].
  intros _. split; [lia|]. split; intros H; [lia|by vm_compute in H].
Qed.

Lemma steady_recvmsg : recvmsg_contract steady.
Proof.
  intros fd caps nl cl fl k.
  steady_reply k (3 <=? sumZ caps) (Reply 3 0 (Timespec 0 0) [three]); cbn; lia.
Qed.

Lemma steady_recvmmsg : recvmmsg_contract steady.
Proof.
  intros fd hdrs fl ts k. destruct hdrs as [|h hdrs]; [done|].
  steady_reply k (3 <=? sumZ h.1.1) (Reply 1 0 (Timespec 0 0) [three]); cbn; [lia|].
  intros _ _. split_and!; try lia. intros [|i] m g [= <-] [= <-]. cbn. lia.
Qed.

Lemma udp_sink_main_safe_witness :
  wp (main (Z.to_nat (2 ^ 31)) "udp_sink" [Optev (ch "c") 0 (Some "3"); Optev 0 14 (Some "4")])
    (fun code _ => code = 0 \/ code = EXIT_FAIL_OPTION) (fun code _ => In code sink_codes)
    (@World steady statics 100%nat ∅ 1 [] [] 0 (Statics hdr_zero)).
Proof.
  apply (udp_sink_main_safe steady (Z.to_nat (2 ^ 31)) "udp_sink"
    [Optev (ch "c") 0 (Some "3"); Optev 0 14 (Some "4")]
    (@World steady statics 100%nat ∅ 1 [] [] 0 (Statics hdr_zero))).
  - apply steady_blocking.
  - intros n k. discriminate.
  - apply steady_recvfrom.
  - apply steady_recvmsg.
  - apply steady_recvmmsg.
  - rewrite Z2Nat.id; lia.
  - constructor; [|constructor; [|constructor]].
    + split; [discriminate|]. split; [|split; [discriminate|split; [intros H; vm_compute in H; lia|split; discriminate]]].
      intros _. exists "3". vm_compute. split; [reflexivity|]. split; discriminate.
    + split; [|split; [discriminate|split; [discriminate|split; [intros H; vm_compute in H; lia|split; discriminate]]]].
      intros _. exists (Option_ "nr-iovec" required_argument 0). split; [reflexivity|].
      split; [discriminate|]. split; [discriminate|].
      intros _. exists "4". vm_compute. split; [reflexivity|]. split; discriminate.
  - split; [reflexivity|]. intros b _. apply lookup_empty.
Defined.

(** What [sink_with_recvMmsg] returns on a script, with enough fuel. *)
Definition recvMmsg_result (p : sink_params) (script : list reply) : option (Z * Z) :=
  match sink_with_recvMmsg 10 3 p zero_record (start_sink script) with
  | Ret (cnt, _, r) _ => Some (cnt, bytes r)
  | _ => None
  end.

Definition one_message (d : list Z) : reply := Reply 1 0 (Timespec 0 0) [RMsg d [] []].

(** The count [sink_with_recvMmsg] returns, as C7 states it, on two scripts:
    two messages received around one empty queue are reported as one, three empty
    queues before one message as a failure (-2). *)
Example recvMmsg_undercounts :
  recvMmsg_result (set_batch 1 (set_count 2 (level_params 0)))
    [one_message [1; 2; 3]; again; one_message [4; 5]] = Some (1, 5) /\
  recvMmsg_result (set_batch 1 (set_count 1 (level_params 0)))
    [again; again; again; one_message [6]] = Some (-2, 1).
Proof. split; vm_compute; reflexivity. Qed.
