(* ===== verification/FloodToSink.v ===== *)
(** * udp_flood and udp_sink together

    A flood with pktgen headers, and a sink that checks what it receives: the
    sink accepts any contiguous part of the flood, and detects packets lost in
    the middle.

    The two sides meet in two interfaces: [StampingSender] is what the sink
    relies on of a flood, [CheckingReceiver] what the flood relies on of a sink.
    The send functions of udp_flood that stamp their packets and the receive
    functions of udp_sink that check them are instances, and the theorems are
    proved against the interfaces. *)
From stdpp Require Import base list gmap strings.
From Stdlib Require Import ZArith Lia.
From S2P Require Import Prelude.
From S2P Require Import CLang.
From S2P Require Import Wp.
From S2P Require Import Libc.
From S2P Require Import Common.
From S2P Require Import CommonSocket.
From S2P Require Import Scripted.
From S2P Require Import Pktgen.
From S2P Require Import UdpFlood.
From S2P Require Import UdpFloodSpec.
From S2P Require Import UdpFloodMmsg.
From S2P Require Import CheckPkt.
From S2P Require Import CheckPktSpec.
From S2P Require Import FloodSink.
From S2P Require Import CheckProps.
From S2P Require Import UdpSink.
From S2P Require Import UdpSinkSpec.
From S2P Require Import UdpSinkMsg.
From S2P Require Import UdpSinkMmsg.
From S2P Require Import UdpSinkProps.

#[local] Open Scope Z_scope.
#[local] Open Scope c_scope.

(** The times a flood stamped its packets with are in order. *)
Definition sane_clock (tr : list (call * reply)) : Prop :=
  Forall time_ok (coarse_times tr) /\ times_sorted (coarse_times tr).

(** ** The interfaces *)

(** The packets sent ([sent] of the trace) are the first of a flood numbered
    from the static [sequence]. *)
Class StampingSender {K : Kernel} (p : flood_params) (run : M UdpFlood.statics (Z * time_bench_record))
  (sent : list (call * reply) -> list (list mbyte)) (w : world UdpFlood.statics) := {
  stamps : wp run
    (fun _ w' => exists tr, w_log w' = tr ++ w_log w /\
       sent tr `prefix_of` flood_packets (msg_sz p) (sequence (w_st w)) (coarse_times tr))
    (fun code _ => code = EXIT_FAIL_MEM \/ code = EXIT_FAIL_SOCK) w
}.

(** The payloads received ([received] of the trace) are checked in order; above
    level 2 the program ends with EXIT_FAIL_RECV as soon as a counter is not
    zero, and only then. *)
Class CheckingReceiver {K : Kernel} (p : sink_params)
  (run : M CheckPkt.statics (Z * sink_params * time_bench_record))
  (received : list (call * reply) -> list (list Z)) (w : world CheckPkt.statics) := {
  checks : wp run
    (fun out w' => exists tr, w_log w' = tr ++ w_log w /\
       out.1.2 = (checked p (last (w_st w)) (received tr)).1 /\
       (2 < check p -> received tr <> [] -> stats_failed out.1.2 = false))
    (fun code w' => code = EXIT_FAIL_MEM \/ code = EXIT_FAIL_SOCK \/
       (code = EXIT_FAIL_RECV /\ exists tr, w_log w' = tr ++ w_log w /\
          fails_at p (last (w_st w)) (received tr))) w
}.

(** ** The instances *)
Inductive sender := Single (v : variant) | Batches.

Definition send_with (s : sender) :
  forall {K : Kernel}, Z -> flood_params -> time_bench_record -> M UdpFlood.statics (Z * time_bench_record) :=
  match s with Single v => fun K => flood_with v | Batches => fun K => flood_with_sendMmsg end.

Definition sent_by (s : sender) (tr : list (call * reply)) : list (list mbyte) :=
  match s with Single _ => sent_packets tr | Batches => concat (sent_batches tr) end.

(** A run of a flood that stamps its packets. *)
Definition stamping {K : Kernel} (s : sender) (p : flood_params) (w : world UdpFlood.statics) : Prop :=
  pktgen_hdr p <> 0 /\ 16 <= msg_sz p <= 2 ^ 31 - 16 /\ is_u32 (sequence (w_st w)) /\ mem_wf w /\
  match s with
  | Single v => v <> VSend
  | Batches => 1 <= UdpFlood.batch p < 2 ^ 26 /\ UdpFlood.batch p * msg_sz p < 2 ^ 31 /\
      0 <= UdpFlood.count p < 2 ^ 31 /\
      (forall fd ms addr k, r_ret (kstep (CSendmmsg fd ms addr 0) k).1 <= Z.of_nat (length ms))
  end.

Lemma sender_stamps {K : Kernel} s p fd r w :
  stamping s p w -> StampingSender p (send_with s fd p r) (sent_by s) w.
Proof.
  intros (Hp & Hsz & Hs & Hwf & Hsp).
  assert (Ht : truth (pktgen_hdr p) = true) by (by apply truth_true).
  split. destruct s as [v|]; cbn [send_with sent_by].
  - eapply wp_mono; [apply flood_correct; [lia|done|done]| |].
    + intros out w' (_ & _ & _ & tr & Hlog & Hok & _). exists tr. split; [done|].
      assert (Hf : fills_of v p = true) by (by destruct v).
      unfold packets_ok in Hok. rewrite Hf in Hok. destruct Hok as [-> _]. done.
    + intros code w' [->|(_ & _ & _ & ->)]; auto.
  - destruct Hsp as (Hb & Hbytes & Hc & Hker).
    eapply wp_post; [apply flood_with_sendMmsg_spec; auto; lia|].
    intros out w' (_ & _ & _ & tr & Hlog & Hok & _). exists tr. split; [done|].
    unfold batches_ok in Hok. rewrite Ht in Hok. destruct Hok as (-> & _). apply prefix_take.
Qed.

Inductive receiver_fn := ByRecvmsg | ByRecvMmsg (fuel : nat).

Definition receive_with (v : receiver_fn) :
  forall {K : Kernel}, Z -> sink_params -> time_bench_record ->
    M CheckPkt.statics (Z * sink_params * time_bench_record) :=
  match v with
  | ByRecvmsg => fun K => sink_with_recvmsg
  | ByRecvMmsg fuel => fun K => sink_with_recvMmsg fuel
  end.

Definition received_by (v : receiver_fn) (tr : list (call * reply)) : list (list Z) :=
  match v with
  | ByRecvmsg => payloads (recv_replies tr)
  | ByRecvMmsg _ => mmsg_payloads (mmsg_replies tr)
  end.

(** A run of a sink that asks for payloads only. *)
Definition checking {K : Kernel} (v : receiver_fn) (p : sink_params) (r : time_bench_record)
  (w : world CheckPkt.statics) : Prop :=
  iov_elems p <= buf_sz p <= 2 ^ 31 - 32 /\ plain_sink p /\ mem_wf w /\ is_u64 (try_again r) /\
  match v with
  | ByRecvmsg => 0 < iov_elems p < 2 ^ 26 /\ CheckPkt.count p < 2 ^ 31 /\
      (0 < w_verbose w -> 0 < CheckPkt.count p) /\ recvmsg_contract K
  | ByRecvMmsg fuel =>
      0 < iov_elems p /\ 0 < CheckPkt.batch p < 2 ^ 26 /\ iov_elems p * CheckPkt.batch p < 2 ^ 28 /\
      CheckPkt.count p + CheckPkt.batch p <= 2 ^ 31 /\ bad_addr p = 0 /\
      recvmmsg_contract K /\ malloc_succeeds K /\
      exists rank N, patient K rank N /\ (Z.to_nat (CheckPkt.count p) + N < fuel)%nat
  end.

Lemma receiver_checks {K : Kernel} v p fd r w :
  checking v p r w -> CheckingReceiver p (receive_with v fd p r) (received_by v) w.
Proof.
  intros (Hb & Hpl & Hwf & Hr & Hv). split. destruct v as [|fuel]; cbn [receive_with received_by].
  - destruct Hv as (Hn & Hc & Hvb & HK).
    eapply wp_post; [apply (sink_with_recvmsg_spec False p fd r w); auto|].
    + intros w' (H2 & tr & Hlog & Hf). right. right. split; [done|]. exists tr. split; [done|].
      split; [done|]. exists (payloads (recv_replies tr)), []. by rewrite app_nil_r.
    + intros [[cnt p'] r'] w' (_ & _ & _ & tr & Hlog & (_ & _ & Hck & Hpass & _)).
      exists tr. split; [done|]. cbn. split; [by rewrite <- Hck|done].
  - destruct Hv as (Hn & [Hb1 Hb2] & Hni & Hc & Hbad & HK & Hm & rank & N & Hpat & Hfuel).
    eapply wp_post; [apply (sink_with_recvMmsg_spec False p fuel fd r w rank N); auto|].
    intros [[cnt p'] r'] w' (_ & _ & _ & tr & Hlog & (_ & _ & Hck & Hpass & _)).
    exists tr. split; [done|]. cbn. split; [by rewrite <- Hck|done].
Qed.

(** ** Slices of a flood *)
(** A slice of a flood is a flood. *)
Lemma slice_stream n s0 ts l1 l2 (ds : list (list Z)) :
  flood_packets n s0 ts = l1 ++ map (map Some) ds ++ l2 ->
  exists s0' ts1 ts' ts2, ts = ts1 ++ ts' ++ ts2 /\ ds = flood_stream n s0' ts' /\ is_u32 s0'.
Proof.
  intros H.
  assert (Hlen : length ts = (length l1 + (length ds + length l2))%nat).
  { apply (f_equal length) in H. unfold flood_packets in H.
    rewrite length_imap, !length_app, length_map in H. done. }
  set (ts1 := take (length l1) ts). set (r := drop (length l1) ts).
  assert (Hts : ts = ts1 ++ r) by (subst ts1 r; by rewrite take_drop).
  set (ts' := take (length ds) r). set (ts2 := drop (length ds) r).
  assert (Hr : r = ts' ++ ts2) by (subst ts' ts2; by rewrite take_drop).
  assert (H1 : length ts1 = length l1) by (subst ts1; rewrite length_take; lia).
  assert (H2 : length ts' = length ds).
  { subst ts'. rewrite length_take. subst r. rewrite length_drop. lia. }
  exists (u32 (s0 + Z.of_nat (length ts1))), ts1, ts', ts2. split_and!; [by rewrite Hts at 1; rewrite Hr| |apply u32_range].
  - rewrite Hts, Hr in H. unfold flood_packets in H. rewrite imap_app in H.
    apply app_inj_1 in H as [_ H]; [|by rewrite length_imap]. rewrite imap_app in H.
    apply app_inj_1 in H as [H _]; [|by rewrite length_imap, length_map].
    apply flood_packets_stream. rewrite <- H. apply imap_ext. intros i t _. cbn.
    rewrite u32_add_l. do 2 f_equal. lia.
Qed.

Lemma checked_stream n s0 ts p last :
  16 <= n -> is_u32 s0 -> Forall time_ok ts -> times_sorted ts -> pgh_magic last = 0 ->
  (checked p last (flood_stream n s0 ts)).1 = p.
Proof.
  intros Hn Hs Hok Hsort Hz. unfold checked. destruct (check p =? 0); [done|].
  apply sink_accepts_aux; [done..|by left].
Qed.

(** The sink's verdict on a slice of the flood. *)
Lemma checked_slice n s0 ts l1 l2 ds p last :
  16 <= n -> flood_packets n s0 ts = l1 ++ map (map Some) ds ++ l2 -> pgh_magic last = 0 ->
  Forall time_ok ts -> times_sorted ts -> (checked p last ds).1 = p.
Proof.
  intros Hn H Hz Hok Hsort.
  destruct (slice_stream _ _ _ _ _ _ H) as (s0' & ts1 & ts' & ts2 & -> & -> & Hs).
  apply Forall_app in Hok as [_ Hok]. apply Forall_app in Hok as [Hok _].
  destruct (times_sorted_app _ _ Hsort) as [_ Hsort']. destruct (times_sorted_app _ _ Hsort') as [Hs1 _].
  by apply checked_stream.
Qed.

(** ... and on two slices around some lost packets. *)
Lemma checked_lost n s0 ts l1 l2 ds1 lost ds2 p last :
  16 <= n -> flood_packets n s0 ts = l1 ++ map (map Some) (ds1 ++ lost ++ ds2) ++ l2 ->
  pgh_magic last = 0 -> Forall time_ok ts -> times_sorted ts ->
  ds1 <> [] -> ds2 <> [] -> 1 <= Z.of_nat (length lost) <= 10 ^ 9 ->
  (checked p last (ds1 ++ ds2)).1 = if 2 <? check p then inc_ooo p else p.
Proof.
  intros Hn H Hz Hok Hsort H1 H2 Hl.
  destruct (slice_stream _ _ _ _ _ _ H) as (s0' & t1 & ts' & t2 & -> & Hds & Hs).
  apply Forall_app in Hok as [_ Hok]. apply Forall_app in Hok as [Hok _].
  destruct (times_sorted_app _ _ Hsort) as [_ Hsort']. destruct (times_sorted_app _ _ Hsort') as [Hs1 _].
  assert (Hlen : length ts' = (length ds1 + (length lost + length ds2))%nat).
  { apply (f_equal length) in Hds. unfold flood_stream in Hds. rewrite length_imap, !length_app in Hds. done. }
  set (a := take (length ds1) ts'). set (r := drop (length ds1) ts').
  assert (Hts : ts' = a ++ take (length lost) r ++ drop (length lost) r).
  { subst a r. by rewrite take_drop, take_drop. }
  assert (Ha : length a = length ds1) by (subst a; rewrite length_take; lia).
  assert (Hb : length (take (length lost) r) = length lost).
  { rewrite length_take. subst r. rewrite length_drop. lia. }
  set (m := take (length lost) r) in *. set (z := drop (length lost) r) in *.
  rewrite Hts, flood_stream_app in Hds.
  apply app_inj_1 in Hds as [E1 Hds]; [|unfold flood_stream; by rewrite length_imap].
  rewrite flood_stream_app in Hds.
  apply app_inj_1 in Hds as [_ E2]; [|unfold flood_stream; by rewrite length_imap].
  rewrite E1, E2, u32_add_l, <- Z.add_assoc, <- Nat2Z.inj_add, <- length_app.
  unfold checked. destruct (Z.eqb_spec (check p) 0) as [E|E]; [by rewrite E|].
  rewrite Hts in Hok, Hs1. apply sink_lost_aux with (tl := m); try done.
  - intros Hnil. apply H1. by rewrite E1, Hnil.
  - intros Hnil. apply H2. by rewrite E2, Hnil.
  - by rewrite Hb.
Qed.


(** ** Through the interfaces *)
Section Meet.
Context {K1 K2 : Kernel}.
Variables (pf : flood_params) (ps : sink_params).
Variables (flood : @M K1 UdpFlood.statics (Z * time_bench_record))
          (sink : @M K2 CheckPkt.statics (Z * sink_params * time_bench_record)).
Variables (sent : list (call * reply) -> list (list mbyte))
          (received : list (call * reply) -> list (list Z)).
Variables (w1 : @world K1 UdpFlood.statics) (w2 : @world K2 CheckPkt.statics).
Context `{!StampingSender pf flood sent w1} `{!CheckingReceiver ps sink received w2}.
Hypothesis Hsz : 16 <= msg_sz pf.
Hypothesis Hlast : pgh_magic (last (w_st w2)) = 0.
Hypothesis Hfresh : ooo ps = 0 /\ bad_magic ps = 0 /\ bad_repeat ps = 0.

(** What the sink received since [w2] is a contiguous part of what was sent. *)
Definition got_slice (tr1 : list (call * reply)) (w2' : @world K2 CheckPkt.statics) : Prop :=
  exists tr2 l1 l2, w_log w2' = tr2 ++ w_log w2 /\
    sent tr1 = l1 ++ map (map Some) (received tr2) ++ l2.

(** ... or it is one from which some packets in the middle were lost. *)
Definition got_lossy (tr1 : list (call * reply)) (w2' : @world K2 CheckPkt.statics) : Prop :=
  exists tr2 l1 ds1 lost ds2 l2, w_log w2' = tr2 ++ w_log w2 /\
    sent tr1 = l1 ++ map (map Some) (ds1 ++ lost ++ ds2) ++ l2 /\
    received tr2 = ds1 ++ ds2 /\ ds1 <> [] /\ ds2 <> [] /\
    1 <= Z.of_nat (length lost) <= 10 ^ 9.

Lemma no_stats_failed : stats_failed ps = false.
Proof using Hfresh.
  destruct Hfresh as (H1 & H2 & H3). unfold stats_failed. by rewrite H1, H2, H3.
Qed.

Lemma flood_then (P : list (call * reply) -> Prop) :
  (forall tr1, sane_clock tr1 ->
     sent tr1 `prefix_of` flood_packets (msg_sz pf) (sequence (w_st w1)) (coarse_times tr1) -> P tr1) ->
  wp flood (fun _ w1' => forall tr1, w_log w1' = tr1 ++ w_log w1 -> sane_clock tr1 -> P tr1)
    (fun code _ => code = EXIT_FAIL_MEM \/ code = EXIT_FAIL_SOCK) w1.
Proof using StampingSender0.
  intros HP. eapply wp_post; [apply stamps|]. intros out w1' (tr & Hlog & Hpre) tr1 Hlog1 Hclock.
  assert (tr1 = tr) as -> by (apply (app_inv_tail (w_log w1)); congruence). by apply HP.
Qed.

Lemma sink_accepts tr1 :
  sane_clock tr1 ->
  sent tr1 `prefix_of` flood_packets (msg_sz pf) (sequence (w_st w1)) (coarse_times tr1) ->
  wp sink (fun out w2' => got_slice tr1 w2' -> out.1.2 = ps)
    (fun code w2' => got_slice tr1 w2' -> code <> EXIT_FAIL_RECV) w2.
Proof using CheckingReceiver0 Hsz Hlast Hfresh.
  intros [Hok Hsort] [rest Hrest].
  assert (Hacc : forall tr2 ds1 ds2 w', w_log w' = tr2 ++ w_log w2 -> received tr2 = ds1 ++ ds2 ->
    got_slice tr1 w' -> (checked ps (last (w_st w2)) ds1).1 = ps).
  { intros tr2 ds1 ds2 w' Hlog2 Hds (tr2' & l1 & l2 & Hlog2' & Heq).
    assert (tr2' = tr2) as -> by (apply (app_inv_tail (w_log w2)); congruence).
    rewrite Heq, Hds in Hrest. 
    eapply (checked_slice _ _ _ l1 (map (map Some) ds2 ++ l2 ++ rest)); [exact Hsz| |done..].
    rewrite Hrest, map_app, <- !app_assoc. done. }
  eapply wp_mono; [apply checks|..].
  - intros out w' (tr2 & Hlog2 & -> & _) Hsl.
    apply (Hacc tr2 (received tr2) [] w'); [done|by rewrite app_nil_r|done].
  - intros code w' [->|[->|[-> (tr2 & Hlog2 & H2 & ds1 & ds2 & Hds & Hf)]]] Hsl; try done.
    rewrite (Hacc tr2 ds1 ds2 w' Hlog2 Hds Hsl), no_stats_failed in Hf. done.
Qed.

Lemma sink_detects tr1 :
  sane_clock tr1 ->
  sent tr1 `prefix_of` flood_packets (msg_sz pf) (sequence (w_st w1)) (coarse_times tr1) ->
  wp sink (fun out w2' => got_lossy tr1 w2' -> check ps < 3 /\ out.1.2 = ps)
    (fun code w2' => code = EXIT_FAIL_MEM \/ code = EXIT_FAIL_SOCK \/
                     (code = EXIT_FAIL_RECV /\ 3 <= check ps)) w2.
Proof using CheckingReceiver0 Hsz Hlast Hfresh.
  intros [Hok Hsort] [rest Hrest]. eapply wp_mono; [apply checks|..].
  2: { intros code w' [->|[->|[-> (tr2 & Hlog2 & H2 & _)]]]; auto. right. right. split; [done|lia]. }
  intros out w' (tr2 & Hlog2 & Hp' & Hpass)
    (tr2' & l1 & ds1 & lost & ds2 & l2 & Hlog2' & Heq & Hrecv & H1 & H2 & Hl).
  assert (tr2' = tr2) as -> by (apply (app_inv_tail (w_log w2)); congruence).
  rewrite Heq in Hrest. rewrite Hrecv in *.
  assert (Hc : (checked ps (last (w_st w2)) (ds1 ++ ds2)).1 = if 2 <? check ps then inc_ooo ps else ps).
  { eapply (checked_lost _ _ _ l1 (l2 ++ rest)); [exact Hsz| |done..].
    rewrite Hrest, <- !app_assoc. done. }
  rewrite Hc in Hp'. destruct (Z.ltb_spec 2 (check ps)) as [Hlt|Hge]; [|split; [lia|done]].
  exfalso. assert (Hf : stats_failed out.1.2 = false).
  { apply Hpass; [done|]. by destruct ds1. }
  rewrite Hp' in Hf. unfold stats_failed, inc_ooo in Hf. cbn [ooo set_stats] in Hf.
  destruct Hfresh as (H0 & _). by rewrite H0 in Hf.
Qed.
End Meet.

(** A sink that has counted nothing and seen no packet yet. *)
Definition fresh (p : sink_params) (last0 : Pktgen.pktgen_hdr) : Prop :=
  pgh_magic last0 = 0 /\ ooo p = 0 /\ bad_magic p = 0 /\ bad_repeat p = 0.

(** C1: udp_sink accepts udp_flood: after a flood with [--pktgen-header], by any
    send function that stamps its packets and with a clock that did not go
    back, a sink that receives any contiguous part of the packets with recvmsg
    or recvmmsg, over any I/O vector, in any batches and at any check level,
    counts no failed check and does not end with EXIT_FAIL_RECV; also where the
    sequence number wraps. *)
Theorem udp_sink_accepts_udp_flood (K1 K2 : Kernel) (s : sender) (v : receiver_fn)
  (pf : flood_params) (ps : sink_params) (fd1 fd2 : Z) (r1 r2 : time_bench_record)
  (w1 : @world K1 UdpFlood.statics) (w2 : @world K2 CheckPkt.statics) :
  stamping s pf w1 -> checking v ps r2 w2 -> fresh ps (last (w_st w2)) ->
  wp (send_with s fd1 pf r1)
    (fun _ w1' => forall tr1, w_log w1' = tr1 ++ w_log w1 -> sane_clock tr1 ->
       wp (receive_with v fd2 ps r2)
         (fun out w2' => got_slice (sent_by s) (received_by v) w2 tr1 w2' -> out.1.2 = ps)
         (fun code w2' => got_slice (sent_by s) (received_by v) w2 tr1 w2' -> code <> EXIT_FAIL_RECV) w2)
    (fun code _ => code = EXIT_FAIL_MEM \/ code = EXIT_FAIL_SOCK) w1.
Proof.
  intros Hs Hv [Hz Hf]. pose proof (sender_stamps s pf fd1 r1 w1 Hs) as HS.
  pose proof (receiver_checks v ps fd2 r2 w2 Hv) as HC. destruct Hs as (_ & Hsz & _).
  eapply flood_then; [exact HS|]. intros tr1 Hclock Hpre. apply (sink_accepts pf ps _ _ _ w1 w2); done || lia.
Qed.

(** A flood process that starts numbering at [s0]. *)
Definition start_flood (s0 : Z) (script : list reply) : @world scripted UdpFlood.statics :=
  start script (UdpFlood.Statics s0).

(** Three packets of 40 bytes. *)
Definition stamped_params : flood_params :=
  UdpFlood.FloodParams (ParamsCommon 0) 0 2 3 40 (-1) 1 (set_family AF_INET zero_sockaddr).

Definition flood_script : list reply :=
  [reply_of 1; Reply 0 0 (Timespec 7 5000) []; reply_of 40;
   Reply 0 0 (Timespec 7 9000) []; reply_of 40; Reply 0 0 (Timespec 8 0) []; reply_of 40].

Lemma stamping_write s0 : is_u32 s0 -> stamping (Single VWrite) stamped_params (start_flood s0 flood_script).
Proof. intros Hs. by split_and!. Qed.

Lemma stamping_batches s0 : is_u32 s0 -> stamping Batches stamped_params (start_flood s0 flood_script).
Proof.
  intros Hs. by split_and!.
Qed.

Lemma checking_recvmsg script : checking ByRecvmsg (example_sink 3 3) zero_record (start_careful script).
Proof.
  split_and!; try (vm_compute; (done || discriminate)); try done. apply careful_contract.
Qed.

Lemma checking_recvmmsg script :
  checking (ByRecvMmsg 104) (set_batch 2 (example_sink 3 3)) zero_record (start_generous script).
Proof.
  split_and!; try (vm_compute; (done || discriminate)); try done.
  - apply generous_contract.
  - exists script_rank, 100%nat. split; [apply generous_patient|]. vm_compute. lia.
Qed.

Lemma udp_sink_accepts_udp_flood_witness :
  let w1 := start_flood (2 ^ 32 - 1) flood_script in
  let w2 := start_generous [batch_of [flood_bytes 40 (2 ^ 32 - 1) (Timespec 7 5000); flood_bytes 40 0 (Timespec 7 9000)];
              again; batch_of [flood_bytes 40 1 (Timespec 8 0)]] in
  let ps := set_batch 2 (example_sink 3 3) in
  wp (send_with (Single VWrite) 3 stamped_params zero_record)
    (fun _ w1' => forall tr1, w_log w1' = tr1 ++ w_log w1 -> sane_clock tr1 ->
       wp (receive_with (ByRecvMmsg 104) 3 ps zero_record)
         (fun out w2' => got_slice (sent_by (Single VWrite)) (received_by (ByRecvMmsg 104)) w2 tr1 w2' -> out.1.2 = ps)
         (fun code w2' => got_slice (sent_by (Single VWrite)) (received_by (ByRecvMmsg 104)) w2 tr1 w2' ->
            code <> EXIT_FAIL_RECV) w2)
    (fun code _ => code = EXIT_FAIL_MEM \/ code = EXIT_FAIL_SOCK) w1.
Proof.
  apply (udp_sink_accepts_udp_flood scripted generous (Single VWrite) (ByRecvMmsg 104) stamped_params
    (set_batch 2 (example_sink 3 3)) 3 3 zero_record zero_record (start_flood (2 ^ 32 - 1) flood_script)
    (start_generous [batch_of [flood_bytes 40 (2 ^ 32 - 1) (Timespec 7 5000); flood_bytes 40 0 (Timespec 7 9000)];
              again; batch_of [flood_bytes 40 1 (Timespec 8 0)]])).
  - apply stamping_write. vm_compute. split; [discriminate|reflexivity].
  - apply checking_recvmmsg.
  - repeat split.
Defined.

(** C2: udp_sink detects lost packets: after such a flood, a sink that receives
    a contiguous part of it except for some packets lost in the middle (at most
    a thousand million) does not return at check level 3 or more: it ends the
    program; at the levels below it counts nothing wrong. *)
Theorem udp_sink_detects_loss (K1 K2 : Kernel) (s : sender) (v : receiver_fn)
  (pf : flood_params) (ps : sink_params) (fd1 fd2 : Z) (r1 r2 : time_bench_record)
  (w1 : @world K1 UdpFlood.statics) (w2 : @world K2 CheckPkt.statics) :
  stamping s pf w1 -> checking v ps r2 w2 -> fresh ps (last (w_st w2)) ->
  wp (send_with s fd1 pf r1)
    (fun _ w1' => forall tr1, w_log w1' = tr1 ++ w_log w1 -> sane_clock tr1 ->
       wp (receive_with v fd2 ps r2)
         (fun out w2' => got_lossy (sent_by s) (received_by v) w2 tr1 w2' -> check ps < 3 /\ out.1.2 = ps)
         (fun code w2' => code = EXIT_FAIL_MEM \/ code = EXIT_FAIL_SOCK \/
                          (code = EXIT_FAIL_RECV /\ 3 <= check ps)) w2)
    (fun code _ => code = EXIT_FAIL_MEM \/ code = EXIT_FAIL_SOCK) w1.
Proof.
  intros Hs Hv [Hz Hf]. pose proof (sender_stamps s pf fd1 r1 w1 Hs) as HS.
  pose proof (receiver_checks v ps fd2 r2 w2 Hv) as HC. destruct Hs as (_ & Hsz & _).
  eapply flood_then; [exact HS|]. intros tr1 Hclock Hpre. apply (sink_detects pf ps _ _ _ w1 w2); done || lia.
Qed.

Lemma udp_sink_detects_loss_witness :
  let w1 := start_flood 8 flood_script in
  let w2 := start_careful [datagram (flood_bytes 40 8 (Timespec 7 5000));
              datagram (flood_bytes 40 10 (Timespec 8 0)); again] in
  let ps := example_sink 3 3 in
  wp (send_with Batches 3 stamped_params zero_record)
    (fun _ w1' => forall tr1, w_log w1' = tr1 ++ w_log w1 -> sane_clock tr1 ->
       wp (receive_with ByRecvmsg 3 ps zero_record)
         (fun out w2' => got_lossy (sent_by Batches) (received_by ByRecvmsg) w2 tr1 w2' -> 3 < 3 /\ out.1.2 = ps)
         (fun code w2' => code = EXIT_FAIL_MEM \/ code = EXIT_FAIL_SOCK \/
                          (code = EXIT_FAIL_RECV /\ 3 <= 3)) w2)
    (fun code _ => code = EXIT_FAIL_MEM \/ code = EXIT_FAIL_SOCK) w1.
Proof.
  apply (udp_sink_detects_loss scripted careful Batches ByRecvmsg stamped_params (example_sink 3 3) 3 3
    zero_record zero_record (start_flood 8 flood_script)
    (start_careful [datagram (flood_bytes 40 8 (Timespec 7 5000));
              datagram (flood_bytes 40 10 (Timespec 8 0)); again])).
  - apply stamping_batches. vm_compute. split; [discriminate|reflexivity].
  - apply checking_recvmsg.
  - repeat split.
Defined.
