(* ===== verification/UdpPacer.v ===== *)
(** * udp_pacer.c: sending packets at a fixed interval

    The timer thread, what [main] does before and after it, and the signal
    handler.  The statistics that the thread and [main] share live in the
    state; the interleaving of the threads is in [PacerThreads]. *)
From stdpp Require Import base list gmap strings.
From Stdlib Require Import ZArith Lia Ascii SpecFloat.
From S2P Require Import Prelude.
From S2P Require Import CLang.
From S2P Require Import Wp.
From S2P Require Import Libc.
From S2P Require Import Getopt.
From S2P Require Import Common.
From S2P Require Import CommonSocket.
From S2P Require Import Pktgen.

#[local] Open Scope Z_scope.
#[local] Open Scope c_scope.

Definition long_options : list option_ := [
  Option_ "help" no_argument (ch "h");
  Option_ "verbose" optional_argument (ch "v");
  Option_ "batch" required_argument (ch "b");
  Option_ "count" required_argument (ch "c");
  Option_ "port" required_argument (ch "p");
  Option_ "priority" required_argument (ch "P");
  Option_ "interval" required_argument (ch "s");
  Option_ "sleep_usec" required_argument (ch "s")
].

Definition DEFAULT_INTERVAL : Z := 1000000.
Definition USEC_PER_SEC : Z := 1000000.
Definition NSEC_PER_SEC : Z := 1000000000.
Definition DEBUG : Z := 1.

Record cfg_params := CfgParams {
  g_batch : Z;
  g_count : Z;
  g_msg_sz : Z;
  g_interval : Z;
  g_thread_prio : Z;
  g_sockfd : Z;
  g_addr_family : Z;
  g_dest_port : Z;
  g_dest_addr : list Z
}.

Record thread_param := ThreadParam {
  sockfd : Z;
  batch : Z;
  msg_sz : Z;
  clock : Z;
  interval : Z;
  prio : Z;
  policy : Z;
  max_cycles : Z
}.

Record thread_stat := ThreadStat {
  thread_started : Z;
  cycles : Z;
  min : Z;
  max : Z;
  act : Z;
  avg : double
}.

(** [shutdown_global], and the statistics [par->stats] points to. *)
Record statics := Statics { shutdown_global : Z; stats : thread_stat }.

Definition sizeof_thread_param : Z := 48.
Definition sizeof_thread_stat : Z := 56.
Definition SIGINT : Z := 2.
Definition SIGUSR1 : Z := 10.
Definition SIGTERM : Z := 15.

Definition doc : string := " This tool is a UDP pacer that clock-out packets at fixed interval.\n".

Section UdpPacer.
Context {K : Kernel}.
#[local] Abbreviation M := (M statics).

Definition usage (argv0 : string) : M Z :=
  printf "\nDOCUMENTATION:\n%s\n\n" [AStr doc] ;;
  printf " Usage: %s (options-see-below) IPADDR\n" [AStr argv0] ;;
  printf " Listing options:\n" [] ;;
  forM long_options (fun o =>
    printf " --%-12s" [AStr (opt_name o)] ;;
    printf " short-option: -%c" [AInt (opt_val o)] ;;
    printf "\n" []) ;;
  ret EXIT_FAIL_OPTION.

(** The loop takes off one second per round. *)
Definition tsnorm (ts : timespec) : M timespec :=
  iter (Datatypes.S (Z.to_nat (ts_nsec ts / NSEC_PER_SEC)))
    (fun ts =>
       if NSEC_PER_SEC <=? ts_nsec ts then
         sec <- long_check (ts_sec ts + 1) ;;
         ret (inl (Timespec sec (ts_nsec ts - NSEC_PER_SEC)))
       else ret (inr ts))
    ts.

Definition set_shutdown (v : Z) : M unit :=
  s <- get_st ;; put_st (Statics v (stats s)).
Definition set_stats (f : thread_stat -> thread_stat) : M unit :=
  s <- get_st ;; put_st (Statics (shutdown_global s) (f (stats s))).

Definition sighand (sig : Z) : M unit :=
  set_shutdown 1 ;;
  wait <- ask (CClockGettime CLOCK_MONOTONIC) ;;
  when (truth DEBUG)
    (printf "%s() Goodbye at %ld.%ld sec\n"
       [AStr "sighand"; AInt (ts_sec (r_ts wait)); AInt (ts_nsec (r_ts wait))]).

Definition calcdiff (t1 t2 : timespec) : M Z :=
  sec <- int_check (i32 (ts_sec t1) - i32 (ts_sec t2)) ;;
  nsec <- int_check (i32 (ts_nsec t1) - i32 (ts_nsec t2)) ;;
  ret (USEC_PER_SEC * sec + Z.quot nsec 1000).

(** [sizeof(hdr)] is the size of the pointer. *)
Definition fill_buf_pktgen (buf : ptr) (len : Z) (ts : timespec) (sequence : Z) : M unit :=
  if u64 len <? sizeof_ptr then ret tt
  else
    store (ptr_add buf 8) (le_bytes 4 (htonl (ts_sec ts))) ;;
    store (ptr_add buf 12) (le_bytes 4 (htonl (Z.quot (ts_nsec ts) 1000))) ;;
    store (ptr_add buf 0) (le_bytes 4 (htonl PKTGEN_MAGIC)) ;;
    store (ptr_add buf 4) (le_bytes 4 (htonl sequence)).

(** The sum of the bytes sent is computed and dropped. *)
Definition socket_send (sockfd : Z) (msg_buf : ptr) (msg_sz batch : Z) : M Z :=
  iter (Datatypes.S (Z.to_nat batch))
    (fun '(cnt, total) =>
       if cnt <? batch then
         data <- peek msg_buf (u64 msg_sz) ;;
         res <- ask (CSend sockfd data 0) ;;
         if r_ret res <? 0 then
           eprintf "Managed to send %d packets\n" [AInt cnt] ;;
           perror "- send" ;;
           ret (inr (r_ret res))
         else ret (inl (cnt + 1, u64 (total + r_ret res)))
       else ret (inr cnt))
    (0, 0).

Definition calloc (n : Z) : M ptr :=
  p <- malloc n ;;
  if is_null p then ret NULL else memset0 p n ;; ret p.

(** The next period. *)
Definition advance (next interval : timespec) : M timespec :=
  sec <- long_check (ts_sec next + ts_sec interval) ;;
  nsec <- long_check (ts_nsec next + ts_nsec interval) ;;
  tsnorm (Timespec sec nsec).

(** The statistics after a wakeup that was [diff] late: [diff] is a
    [uint64_t], so the comparisons are unsigned. *)
Definition record_diff (diff : Z) (s : thread_stat) : thread_stat :=
  let mn := if diff <? u64 (min s) then i64 diff else min s in
  let mx := if u64 (max s) <? diff then i64 diff else max s in
  ThreadStat (thread_started s) (u64 (cycles s + 1)) mn mx (i64 diff)
    (double_add (avg s) (double_of_Z diff)).

(** One round of the loop of [timer_thread]: the state is [next]; [inr true]
    leaves the loop, [inr false] is [goto out]. *)
Definition timer_round (par : thread_param) (msg_buf : ptr) (iv : timespec) (next : timespec) :
  M (timespec + bool) :=
  signal <- ask CSignalPoint ;;
  when (truth (r_ret signal)) (sighand SIGTERM) ;;
  st <- get_st ;;
  if truth (shutdown_global st) then ret (inr true)
  else
    err <- ask (CClockNanosleep (clock par) TIMER_ABSTIME next) ;;
    if truth (r_ret err) then
      when (negb (r_ret err =? EINTR))
        (eprintf "clock_nanosleep failed. err:%d errno:%d\n" [AInt (r_ret err); AInt (r_errno err)]) ;;
      ret (inr false)
    else
      now <- ask (CClockGettime (clock par)) ;;
      if truth (r_ret now) then
        when (negb (r_ret now =? EINTR))
          (eprintf "clock_getttime() failed. err:%d errno:%d\n" [AInt (r_ret now); AInt (r_errno now)]) ;;
        ret (inr false)
      else
        d <- calcdiff (r_ts now) next ;;
        let diff := u64 d in
        set_stats (record_diff diff) ;;
        fill_buf_pktgen msg_buf (msg_sz par) (r_ts now) (u32 diff) ;;
        socket_send (sockfd par) msg_buf (msg_sz par) (batch par) ;;
        verbose <- get_verbose ;;
        st <- get_st ;;
        when (1 <=? verbose)
          (printf "Diff at cycle:%lu min:%ld cur:%ld max:%ld\n"
             [AInt (cycles (stats st)); AInt (min (stats st)); AInt (act (stats st)); AInt (max (stats st))]) ;;
        next <- advance next iv ;;
        if truth (max_cycles par) && (max_cycles par =? cycles (stats st))
        then ret (inr true) else ret (inl next).

(** [interval] as a [timespec]. *)
Definition interval_ts (par : thread_param) : timespec :=
  Timespec (interval par / USEC_PER_SEC) (interval par mod USEC_PER_SEC * 1000).

(** From the [merr] label on. *)
Definition timer_merr : M unit :=
  set_shutdown 1 ;;
  set_stats (fun s => ThreadStat (-1) (cycles s) (min s) (max s) (act s) (avg s)).

(** [fuel] bounds the rounds of the loop. *)
Definition timer_thread (fuel : nat) (par : thread_param) : M unit :=
  msg_buf <- calloc (u64 (msg_sz par)) ;;
  if is_null msg_buf then
    eprintf "ERROR: %s() failed in calloc()\n" [AStr "timer_thread"] ;;
    timer_merr
  else
    err <- ask (CSchedSetscheduler (policy par) (prio par)) ;;
    when (truth (r_ret err))
      (eprintf "%s(errno:%d): failed to set priority(%d): %s\n"
         [AStr "timer_thread"; AInt (r_errno err); AInt (prio par)]) ;;
    (if truth (r_ret err) && negb (r_errno err =? EPERM) then ret tt
     else
       let iv := interval_ts par in
       now <- ask (CClockGettime (clock par)) ;;
       next <- advance (r_ts now) iv ;;
       set_stats (fun s => ThreadStat (thread_started s + 1) (cycles s) (min s) (max s) (act s) (avg s)) ;;
       normal <- iter fuel (timer_round par msg_buf iv) next ;;
       st <- get_st ;;
       when normal
         (printf "Thread ended stats: cycles:%lu min:%ld max:%ld\n"
            [AInt (cycles (stats st)); AInt (min (stats st)); AInt (max (stats st))])) ;;
    free msg_buf ;;
    timer_merr.

(** [setup_pthread]: the blocks of [par] and [stat], and the parameters. *)
Definition setup_pthread (cfg : cfg_params) : M (ptr * ptr * thread_param) :=
  par <- calloc sizeof_thread_param ;;
  stat <- calloc sizeof_thread_stat ;;
  if is_null par || is_null stat then
    eprintf "%s(): Mem alloc error\n" [AStr "setup_pthread"] ;;
    exit EXIT_FAIL_MEM
  else
    status <- ask CPthreadAttrInit ;;
    if negb (r_ret status =? 0) then
      printf "error from pthread_attr_init: %s\n" [AInt (r_ret status)] ;;
      exit EXIT_FAIL_PTHREAD
    else
      let p := ThreadParam (g_sockfd cfg) (g_batch cfg) (g_msg_sz cfg) CLOCK_MONOTONIC (g_interval cfg)
                 (g_thread_prio cfg) (if truth (g_thread_prio cfg) then SCHED_FIFO else SCHED_OTHER)
                 (u64 (g_count cfg)) in
      set_stats (fun _ => ThreadStat 1 0 1000000 0 0 double_zero) ;;
      status <- ask CPthreadCreate ;;
      if truth (r_ret status) then
        printf "Failed to create thread: %s\n" [AInt (r_ret status)] ;;
        exit EXIT_FAIL_PTHREAD
      else ret (par, stat, p).

Definition set_socket (addr : list Z) (fd : Z) (p : cfg_params) : cfg_params :=
  CfgParams (g_batch p) (g_count p) (g_msg_sz p) (g_interval p) (g_thread_prio p) fd
    (g_addr_family p) (g_dest_port p) addr.

Definition setup_socket (p : cfg_params) (dest_ip_string : string) : M cfg_params :=
  addr <- setup_sockaddr (g_addr_family p) (g_dest_addr p) dest_ip_string (g_dest_port p) ;;
  fd <- Socket (g_addr_family p) SOCK_DGRAM IPPROTO_UDP ;;
  addrlen <- sockaddr_len addr ;;
  Connect fd addr addrlen ;;
  ret (set_socket addr fd p).

Definition init_params : cfg_params :=
  CfgParams 10 5 1472 DEFAULT_INTERVAL 0 0 AF_INET 6666 zero_sockaddr.

Definition main_option (argv0 : string) (p : cfg_params) (e : optev) : M (cfg_params + Z) :=
  let c := o_c e in
  let '(CfgParams b n m i pr fd fam port addr) := p in
  if c =? ch "c" then v <- atoi_optarg e ;; ret (inl (CfgParams b v m i pr fd fam port addr))
  else if c =? ch "p" then v <- atoi_optarg e ;; ret (inl (CfgParams b n m i pr fd fam (u16 v) addr))
  else if c =? ch "P" then v <- atoi_optarg e ;; ret (inl (CfgParams b n m i v fd fam port addr))
  else if c =? ch "m" then v <- atoi_optarg e ;; ret (inl (CfgParams b n v i pr fd fam port addr))
  else if c =? ch "b" then v <- atoi_optarg e ;; ret (inl (CfgParams v n m i pr fd fam port addr))
  else if c =? ch "s" then v <- atoi_optarg e ;; ret (inl (CfgParams b n m (u64 v) pr fd fam port addr))
  else if c =? ch "6" then ret (inl (CfgParams b n m i pr fd AF_INET6 port addr))
  else if c =? ch "v" then put_verbose (atoi_or_1 e) ;; ret (inl p)
  else if (c =? ch "h") || (c =? ch "?") then u <- usage argv0 ;; ret (inr u)
  else ret (inl p).

(** [main] until the timer thread runs: the usage code, or what
    [setup_pthread] returned. *)
Definition main_start (argv0 : string) (evs : list optev) (dest_ip : option string) :
  M (Z + ptr * ptr * thread_param) :=
  o <- getopt_loop (main_option argv0) init_params evs ;;
  match o, dest_ip with
  | inr u, _ => ret (inl u)
  | inl _, None =>
      eprintf "Expected dest IP-address argument after options\n" [] ;;
      u <- usage argv0 ;;
      ret (inl u)
  | inl p, Some dest_ip_str =>
      verbose <- get_verbose ;;
      when (0 <? verbose) (printf "Destination IP:%s port:%d\n" [AStr dest_ip_str; AInt (g_dest_port p)]) ;;
      p <- setup_socket p dest_ip_str ;;
      ask (CSigaction SIGINT) ;;
      ask (CSigaction SIGTERM) ;;
      ask (CSigaction SIGUSR1) ;;
      t <- setup_pthread p ;;
      ret (inr t)
  end.
End UdpPacer.
