(* ===== verification/UdpPacerSpec.v ===== *)
(** * What the timer thread of udp_pacer.c does

    The wakeup times form a grid: the thread sleeps until the start time plus
    a multiple of the interval, whatever the latencies. *)
From stdpp Require Import base list gmap strings.
From Stdlib Require Import ZArith Lia.
From S2P Require Import Prelude.
From S2P Require Import CLang.
From S2P Require Import Wp.
From S2P Require Import Libc.
From S2P Require Import Common.
From S2P Require Import CommonSocket.
From S2P Require Import Pktgen.
From S2P Require Import UdpPacer.

#[local] Open Scope Z_scope.
#[local] Open Scope c_scope.

(** ** Times *)
Definition norm (t : timespec) : Prop := 0 <= ts_nsec t < NSEC_PER_SEC.
Definition tval (t : timespec) : Z := ts_sec t * NSEC_PER_SEC + ts_nsec t.

Lemma norm_unique t1 t2 : norm t1 -> norm t2 -> tval t1 = tval t2 -> t1 = t2.
Proof.
  destruct t1 as [s1 n1], t2 as [s2 n2]. unfold norm, tval, NSEC_PER_SEC. cbn. intros.
  assert (s1 = s2) by lia. f_equal; lia.
Qed.

(** The header [fill_buf_pktgen] writes: every field in network order. *)
Definition pacer_hdr (t : timespec) (sequence : Z) : pktgen_hdr :=
  PktgenHdr (htonl PKTGEN_MAGIC) (htonl sequence) (htonl (ts_sec t)) (htonl (Z.quot (ts_nsec t) 1000)).

Section Spec.
Context {K : Kernel}.
#[local] Abbreviation W := (world statics).
Implicit Types (w : W).

Lemma tsnorm_spec F t w (Q : timespec -> W -> Prop) X :
  0 <= ts_nsec t -> - 2 ^ 63 <= ts_sec t -> ts_sec t + ts_nsec t / NSEC_PER_SEC < 2 ^ 63 ->
  (forall t', norm t' -> tval t' = tval t -> Q t' w) -> wpg F (tsnorm t) Q X w.
Proof.
  intros Hn Hlo Hhi HQ. unfold tsnorm, NSEC_PER_SEC in *.
  apply (wp_iter (fun m t' w' => w' = w /\ 0 <= ts_nsec t' /\ tval t' = tval t /\
    ts_nsec t' / 1000000000 < Z.of_nat m /\ ts_sec t <= ts_sec t')).
  - pose proof (Z.div_pos (ts_nsec t) 1000000000). split_and!; done || lia.
  - intros t' w' (_ & H & _ & Hm & _). pose proof (Z.div_pos (ts_nsec t') 1000000000). lia.
  - intros m [s n] w' (-> & H & Ht & Hm & Hs). unfold tval, NSEC_PER_SEC in Ht. cbn in *.
    destruct (Z.leb_spec 1000000000 n) as [Hge|Hlt].
    + wp_step. apply wp_long_check.
      { pose proof (Z.div_mod n 1000000000). pose proof (Z.mod_pos_bound n 1000000000).
        pose proof (Z.div_mod (ts_nsec t) 1000000000). pose proof (Z.mod_pos_bound (ts_nsec t) 1000000000). lia. }
      wp_step. cbn. split_and!; try done; [lia|unfold tval, NSEC_PER_SEC; cbn; lia| |lia].
      replace (n - 1000000000) with (n + (-1) * 1000000000) by lia. rewrite Z.div_add by lia. lia.
    + wp_step. apply HQ; [unfold norm, NSEC_PER_SEC; cbn; lia|done].
Qed.

(** One period later. *)
Lemma advance_spec F next iv w (Q : timespec -> W -> Prop) X :
  norm next -> norm iv -> 0 <= ts_sec next -> 0 <= ts_sec iv -> ts_sec next + ts_sec iv < 2 ^ 62 ->
  (forall t, norm t -> tval t = tval next + tval iv -> Q t w) -> wpg F (advance next iv) Q X w.
Proof.
  unfold norm, NSEC_PER_SEC. intros Hn Hi Hs Hsi Hb HQ. unfold advance.
  wp_step. apply wp_long_check; [lia|]. wp_step. apply wp_long_check; [lia|].
  apply tsnorm_spec; cbn [ts_sec ts_nsec].
  - lia.
  - lia.
  - unfold NSEC_PER_SEC. assert ((ts_nsec next + ts_nsec iv) / 1000000000 < 2)
      by (apply Z.div_lt_upper_bound; lia). lia.
  - intros t Ht Htv. apply HQ; [exact Ht|]. rewrite Htv. unfold tval. cbn. lia.
Qed.

Lemma calcdiff_spec F t1 t2 w (Q : Z -> W -> Prop) X :
  norm t1 -> norm t2 -> 0 <= ts_sec t1 < 2 ^ 31 -> 0 <= ts_sec t2 < 2 ^ 31 ->
  Q (USEC_PER_SEC * (ts_sec t1 - ts_sec t2) + Z.quot (ts_nsec t1 - ts_nsec t2) 1000) w ->
  wpg F (calcdiff t1 t2) Q X w.
Proof.
  unfold norm, NSEC_PER_SEC. intros Hn1 Hn2 H1 H2 HQ. unfold calcdiff.
  rewrite !i32_id by lia. wp_step. apply wp_int_check; [unfold is_i32; lia|].
  wp_step. apply wp_int_check; [unfold is_i32; lia|]. by wp_step.
Qed.

(** ** The packet *)
Lemma put_bytes_before {A} off (xs ys l : list A) :
  (off + length xs + length ys <= length l)%nat ->
  put_bytes off xs (put_bytes (off + length xs) ys l) = put_bytes off (xs ++ ys) l.
Proof.
  intros H. unfold put_bytes at 1 2.
  rewrite (take_app_le (take (off + length xs) l)) by (rewrite length_take; lia).
  rewrite take_take, Nat.min_l by lia.
  rewrite drop_app_ge by (rewrite length_take; lia).
  rewrite length_take, Nat.min_l, Nat.sub_diag, drop_0 by lia.
  unfold put_bytes. rewrite length_app, <- !app_assoc, Nat.add_assoc. done.
Qed.

Lemma fill_buf_pktgen_spec F b len ts sequence l w (Q : unit -> W -> Prop) X :
  w_mem w !! b = Some l -> length l = Z.to_nat len -> 0 <= len < 8 \/ 16 <= len < 2 ^ 64 ->
  (len < 8 -> Q tt w) ->
  (16 <= len ->
   Q tt (w_set_mem (<[b := put_bytes 0 (Some <$> hdr_bytes (pacer_hdr ts sequence)) l]> (w_mem w)) w)) ->
  wpg F (fill_buf_pktgen (Ptr b 0) len ts sequence) Q X w.
Proof.
  intros Hb Hl Hlen H0 H1. unfold fill_buf_pktgen, sizeof_ptr. rewrite u64_id by lia.
  destruct (Z.ltb_spec len 8) as [Hs|Hs]; [wp_step; auto|].
  unfold ptr_add. cbn [p_block p_off].
  wp_step. eapply store_spec; [done|lia|rewrite length_le_bytes; lia|].
  wp_step. eapply store_spec; [cbn [w_mem w_set_mem]; apply lookup_insert_eq|lia| |].
  { repeat apply fits_put; rewrite ?length_fmap, ?length_le_bytes; lia. }
  wp_step. eapply store_spec; [cbn [w_mem w_set_mem]; apply lookup_insert_eq|lia| |].
  { repeat apply fits_put; rewrite ?length_fmap, ?length_le_bytes; lia. }
  eapply store_spec; [cbn [w_mem w_set_mem]; apply lookup_insert_eq|lia| |].
  { repeat apply fits_put; rewrite ?length_fmap, ?length_le_bytes; lia. }
  cbn [w_mem w_set_mem]. rewrite !insert_insert_eq. change (Z.to_nat (0 + 8)) with 8%nat.
  change (Z.to_nat (0 + 12)) with (8 + 4)%nat. change (Z.to_nat (0 + 0)) with 0%nat.
  change (Z.to_nat (0 + 4)) with (0 + 4)%nat.
  set (sec := Some <$> le_bytes 4 (htonl (ts_sec ts))).
  set (usec := Some <$> le_bytes 4 (htonl (Z.quot (ts_nsec ts) 1000))).
  set (magic := Some <$> le_bytes 4 (htonl PKTGEN_MAGIC)).
  set (sq := Some <$> le_bytes 4 (htonl sequence)).
  assert (put_bytes (0 + 4) sq (put_bytes 0 magic (put_bytes (8 + 4) usec (put_bytes 8 sec l))) =
          put_bytes 0 (Some <$> hdr_bytes (pacer_hdr ts sequence)) l) as Heq.
  { pose proof (put_bytes_app 8 sec usec l) as E1. change (length sec) with 4%nat in E1.
    rewrite E1 by (cbn; lia).
    pose proof (put_bytes_app 0 magic sq (put_bytes 8 (sec ++ usec) l)) as E2.
    change (length magic) with 4%nat in E2. rewrite E2 by (rewrite length_put_bytes; cbn; lia).
    pose proof (put_bytes_before 0 (magic ++ sq) (sec ++ usec) l) as E3.
    change (length (magic ++ sq)) with 8%nat in E3. change (0 + 8)%nat with 8%nat in E3. rewrite E3 by (cbn; lia).
    unfold hdr_bytes, pacer_hdr. cbn [pgh_magic seq_num tv_sec tv_usec].
    rewrite !fmap_app, <- app_assoc. done. }
  rewrite Heq. apply H1. lia.
Qed.

(** Sending a batch: calls, output, nothing else. *)
Lemma socket_send_spec F fd b n k l w (Q : Z -> W -> Prop) X :
  w_mem w !! b = Some l -> length l = Z.to_nat (u64 n) ->
  (forall v w', extends w w' -> w_mem w' = w_mem w -> w_next w' = w_next w ->
     (exists tr, w_log w' = tr ++ w_log w /\
        Forall (fun e => e.1 = CSend fd l 0) tr /\ Z.of_nat (length tr) <= Z.max 0 k /\
        (v < 0 \/ v = Z.max 0 k /\ Z.of_nat (length tr) = Z.max 0 k)) -> Q v w') ->
  wpg F (socket_send fd (Ptr b 0) n k) Q X w.
Proof.
  intros Hb Hl HQ. unfold socket_send.
  apply (wp_iter (fun m '(cnt, total) w' => extends w w' /\ w_mem w' = w_mem w /\ w_next w' = w_next w /\
    exists tr, w_log w' = tr ++ w_log w /\ Forall (fun e => e.1 = CSend fd l 0) tr /\
      Z.of_nat (length tr) = cnt /\ cnt <= Z.max 0 k /\ Z.max 0 k - cnt < Z.of_nat m)).
  - split_and!; [auto with wp|done|done|]. exists []. split_and!; try done; cbn; lia.
  - intros [cnt total] w' (_ & _ & _ & tr & _ & _ & _ & ? & ?). lia.
  - intros m [cnt total] w' (Hext & Hm & Hnx & tr & Hlog & Hall & Hc & Hle & Hm').
    destruct (Z.ltb_spec cnt k) as [Hlt|Hge].
    + wp_step. eapply peek_spec; [by rewrite Hm|cbn; lia|cbn; lia|].
      change (Z.to_nat 0) with 0%nat. unfold get_bytes. rewrite drop_0, take_ge by lia.
      wp_step. wp_ask r kk E.
      assert (Hall' : Forall (fun e => e.1 = CSend fd l 0) ((CSend fd l 0, r) :: tr)) by by constructor.
      destruct (Z.ltb_spec (r_ret r) 0) as [Hneg|Hnn].
      * repeat wp_step. apply HQ; [auto with wp|done|done|].
        exists ((CSend fd l 0, r) :: tr). split_and!; [cbn; by rewrite Hlog|done|cbn [length]; lia|by left].
      * wp_step. split_and!; [auto with wp|done|done|].
        exists ((CSend fd l 0, r) :: tr). split_and!; [cbn; by rewrite Hlog|done|cbn [length]; lia|lia|lia].
    + wp_step. apply HQ; try done. exists tr. split_and!; [done|done|lia|right; lia].
Qed.

(** ** The timer loop *)
Definition sleep_of (e : call * reply) : option timespec :=
  match e.1 with CClockNanosleep _ _ t => Some t | _ => None end.

Definition sleeps (tr : list (call * reply)) : list timespec := rev (omap sleep_of tr).

(** The [i]-th sleep ends at [t0] plus [i + 1] intervals. *)
Definition on_grid (t0 iv : Z) (ts : list timespec) : Prop :=
  forall i t, ts !! i = Some t -> norm t /\ tval t = t0 + (Z.of_nat i + 1) * iv.

Definition interval_ns (par : thread_param) : Z := interval par * 1000.

Lemma sleeps_none c r tr : sleep_of (c, r) = None -> sleeps ((c, r) :: tr) = sleeps tr.
Proof. intros H. unfold sleeps. cbn. by rewrite H. Qed.

Lemma sleeps_app_none evs tr :
  Forall (fun e => sleep_of e = None) evs -> sleeps (evs ++ tr) = sleeps tr.
Proof.
  induction 1 as [|[c r] evs H _ IH]; [done|]. cbn [app]. by rewrite sleeps_none.
Qed.

Lemma on_grid_snoc t0 iv ts t :
  on_grid t0 iv ts -> norm t -> tval t = t0 + (Z.of_nat (length ts) + 1) * iv ->
  on_grid t0 iv (ts ++ [t]).
Proof.
  intros H Hn Ht i t' Hi. apply lookup_app_Some in Hi as [Hi|[Hle Hi]]; [by apply H|].
  apply list_lookup_singleton_Some in Hi as [Hz ->]. split; [done|]. rewrite Ht. do 2 f_equal. lia.
Qed.

Lemma interval_ts_val par : 0 <= interval par ->
  norm (interval_ts par) /\ 0 <= ts_sec (interval_ts par) /\ tval (interval_ts par) = interval_ns par.
Proof.
  intros Hi. unfold norm, tval, interval_ts, interval_ns, USEC_PER_SEC, NSEC_PER_SEC. cbn.
  pose proof (Z.mod_pos_bound (interval par) 1000000). pose proof (Z.div_mod (interval par) 1000000).
  pose proof (Z.div_pos (interval par) 1000000). lia.
Qed.

(** ** Wakeups

    A wakeup is a successful sleep directly followed by a successful reading of
    the clock: until when the thread slept, and when it woke up.  [wakeups]
    lists those of a log, newest first like the log. *)
Definition is_sleep (e : call * reply) : bool :=
  match e.1 with CClockNanosleep _ _ _ => true | _ => false end.

Definition wakeup_of (e1 e2 : call * reply) : option (timespec * timespec) :=
  match e1.1, e2.1 with
  | CClockGettime _, CClockNanosleep _ _ next =>
      if (r_ret e1.2 =? 0) && (r_ret e2.2 =? 0) then Some (next, r_ts e1.2) else None
  | _, _ => None
  end.

Fixpoint wakeups (tr : list (call * reply)) : list (timespec * timespec) :=
  match tr with
  | e1 :: ((e2 :: _) as tr') => option_list (wakeup_of e1 e2) ++ wakeups tr'
  | _ => []
  end.

(** How late, in microseconds. *)
Definition lateness (wake : timespec * timespec) : Z :=
  USEC_PER_SEC * (ts_sec wake.2 - ts_sec wake.1) + Z.quot (ts_nsec wake.2 - ts_nsec wake.1) 1000.

Definition latenesses (tr : list (call * reply)) : list Z := rev (lateness <$> wakeups tr).

(** The statistics after wakeups that were [ds] late. *)
Definition record_diffs (ds : list Z) (s : thread_stat) : thread_stat :=
  fold_left (fun s d => record_diff (u64 d) s) ds s.

Lemma wakeup_of_other e1 e2 :
  (match e1.1 with CClockGettime _ => False | _ => True end) -> wakeup_of e1 e2 = None.
Proof. unfold wakeup_of. by destruct e1.1. Qed.

Lemma latenesses_none e tr :
  (forall e2, head tr = Some e2 -> wakeup_of e e2 = None) -> latenesses (e :: tr) = latenesses tr.
Proof. intros H. unfold latenesses. destruct tr as [|e2 tr]; [done|]. cbn [wakeups]. by rewrite H. Qed.

(** Events that are no readings of the clock. *)
Definition no_clock (e : call * reply) : Prop := match e.1 with CClockGettime _ => False | _ => True end.

Lemma latenesses_app_none evs tr : Forall no_clock evs -> latenesses (evs ++ tr) = latenesses tr.
Proof.
  induction 1 as [|e evs He _ IH]; [done|]. cbn [app]. rewrite latenesses_none; [done|].
  intros. by apply wakeup_of_other.
Qed.

Lemma latenesses_wakeup clk1 clk2 fl next now err tr :
  r_ret now = 0 -> r_ret err = 0 ->
  latenesses ((CClockGettime clk1, now) :: (CClockNanosleep clk2 fl next, err) :: tr) =
    latenesses tr ++ [lateness (next, r_ts now)].
Proof.
  intros H1 H2. rewrite <- (latenesses_none (CClockNanosleep clk2 fl next, err) tr).
  2: { intros. by apply wakeup_of_other. }
  unfold latenesses. cbn [wakeups]. unfold wakeup_of at 1. cbn [fst snd]. by rewrite H1, H2.
Qed.

(** What came before a log that does not start with a sleep. *)
Lemma latenesses_before tr e evs :
  is_sleep e = false -> latenesses (tr ++ e :: evs) = latenesses (e :: evs) ++ latenesses tr.
Proof.
  intros He. unfold latenesses. rewrite <- rev_app_distr, <- fmap_app. do 2 f_equal.
  induction tr as [|e1 tr IH]; [done|]. destruct tr as [|e2 tr].
  - cbn [app wakeups]. assert (wakeup_of e1 e = None) as ->; [|done].
    unfold wakeup_of. destruct e1 as [c1 r1], e as [c r]. cbn [fst snd] in *. destruct c1; try done. by destruct c.
  - cbn [app wakeups] in *. by rewrite IH, app_assoc.
Qed.

(** There are no more wakeups than sleeps. *)
Lemma wakeups_sleeps tr : (length (latenesses tr) <= length (sleeps tr))%nat.
Proof.
  unfold latenesses, sleeps. rewrite !length_rev, length_fmap.
  cut (length (wakeups tr) + (if from_option is_sleep false (head tr) then 1 else 0) <= length (omap sleep_of tr))%nat; [lia|].
  induction tr as [|e1 tr IH]; [done|]. destruct tr as [|e2 tr].
  { destruct e1 as [c r]. by destruct c. }
  change (wakeups (e1 :: e2 :: tr)) with (option_list (wakeup_of e1 e2) ++ wakeups (e2 :: tr)).
  rewrite length_app. cbn [head from_option] in IH |- *. remember (e2 :: tr) as tr2 eqn:E. clear E.
  unfold wakeup_of, is_sleep, sleep_of in *. destruct e1 as [c1 r1], e2 as [c2 r2]. cbn [fst snd] in *.
  destruct c1; cbn in IH |- *; try lia. destruct c2; cbn in IH |- *; try lia.
  destruct ((r_ret r1 =? 0) && (r_ret r2 =? 0)); cbn; lia.
Qed.

Lemma record_diffs_snoc ds d s : record_diffs (ds ++ [d]) s = record_diff (u64 d) (record_diffs ds s).
Proof. unfold record_diffs. by rewrite fold_left_app. Qed.

Section Timer.
Variables (F : Prop) (par : thread_param) (rounds : Z) (w0 : W) (b t0 : Z).
Variable X : Z -> W -> Prop.
Hypothesis Hclock : forall clk k, let t := r_ts (kstep (CClockGettime clk) k).1 in
  norm t /\ 0 <= ts_sec t < 2 ^ 30.
Hypothesis Hsz : 0 <= msg_sz par < 8 \/ 16 <= msg_sz par < 2 ^ 31.
Hypothesis Hiv : 0 <= interval par < 2 ^ 64.
Hypothesis Hfit : (rounds + 1) * (interval par / USEC_PER_SEC + 1) <= 2 ^ 30.
Hypothesis Ht0 : 0 <= t0 < 2 ^ 30 * NSEC_PER_SEC.
Hypothesis Hcyc : 0 <= max_cycles par < 2 ^ 64.

(** What holds of the trace and the memory at any time in the loop. *)
Definition paced (k : Z) (w : W) : Prop :=
  exists tr l, w_log w = tr ++ w_log w0 /\ w_next w = w_next w0 /\ w_verbose w = w_verbose w0 /\
    w_mem w = <[b := l]> (w_mem w0) /\ length l = Z.to_nat (msg_sz par) /\
    on_grid t0 (interval_ns par) (sleeps tr) /\ Z.of_nat (length (sleeps tr)) = k.

(** The statistics are those of the wakeups in the trace, on top of the
    statistics at the start. *)
Definition tally (w : W) : Prop :=
  exists tr, w_log w = tr ++ w_log w0 /\ stats (w_st w) = record_diffs (latenesses tr) (stats (w_st w0)) /\
    Forall (fun d => Z.abs d < 2 ^ 60) (latenesses tr).

Definition timer_inv (k : Z) (next : timespec) (w : W) : Prop :=
  paced k w /\ tally w /\ norm next /\ tval next = t0 + (k + 1) * interval_ns par /\
  cycles (stats (w_st w)) = k /\ 0 <= k /\ (max_cycles par = 0 \/ k < max_cycles par).

Definition timer_end (w : W) : Prop :=
  exists k, paced k w /\ tally w /\ 0 <= cycles (stats (w_st w)) <= k /\ k <= rounds + 1 /\
    (max_cycles par <> 0 -> k <= max_cycles par).

(** Events other than a sleep keep [paced]. *)
Lemma paced_call k w c r kk : paced k w -> sleep_of (c, r) = None -> paced k (w_call c r kk w).
Proof.
  intros (tr & l & Hlog & Hnx & Hv & Hm & Hl & Hg & Hk) Hs.
  exists ((c, r) :: tr), l. rewrite sleeps_none by done. split_and!; try done. cbn. by rewrite Hlog.
Qed.

Lemma paced_print k w o : paced k w -> paced k (w_print o w).
Proof. done. Qed.

Lemma paced_st k w s : paced k w -> paced k (w_set_st s w).
Proof. done. Qed.

(** Events that are no readings of the clock keep [tally], and so does a
    reading that is no wakeup. *)
Lemma tally_events w w' evs :
  tally w -> w_log w' = evs ++ w_log w -> Forall no_clock evs -> stats (w_st w') = stats (w_st w) -> tally w'.
Proof.
  intros (tr & Hlog & Hs & Hall) Hlog' Hevs Hst. exists (evs ++ tr). rewrite latenesses_app_none by done.
  split; [by rewrite Hlog', Hlog, app_assoc|]. by rewrite Hst.
Qed.

Lemma tally_same w w' : tally w -> w_log w' = w_log w -> stats (w_st w') = stats (w_st w) -> tally w'.
Proof. intros Ht Hl Hs. by apply (tally_events w w' []). Qed.

Lemma tally_call w c r k : tally w -> no_clock (c, r) -> tally (w_call c r k w).
Proof. intros Ht Hc. apply (tally_events w _ [(c, r)]); [done|done|by constructor|done]. Qed.

Lemma tally_clock w w' e e2 :
  tally w -> w_log w' = e :: w_log w -> head (w_log w) = Some e2 -> wakeup_of e e2 = None ->
  stats (w_st w') = stats (w_st w) -> tally w'.
Proof.
  intros (tr & Hlog & Hs & Hall) Hlog' Hhead Hw Hst. exists (e :: tr). rewrite latenesses_none.
  - split; [by rewrite Hlog', Hlog|]. by rewrite Hst.
  - intros e3 H3. destruct tr as [|e4 tr]; [done|]. rewrite Hlog in Hhead. cbn in Hhead, H3. congruence.
Qed.

(** A wakeup that is not recorded yet. *)
Definition tally_due (next now : timespec) (w : W) : Prop :=
  exists tr ds, w_log w = tr ++ w_log w0 /\ latenesses tr = ds ++ [lateness (next, now)] /\
    stats (w_st w) = record_diffs ds (stats (w_st w0)) /\ Forall (fun d => Z.abs d < 2 ^ 60) ds.

Lemma tally_wakeup w clk1 clk2 fl next now err k1 k2 :
  tally w -> r_ret now = 0 -> r_ret err = 0 ->
  tally_due next (r_ts now) (w_call (CClockGettime clk1) now k2 (w_call (CClockNanosleep clk2 fl next) err k1 w)).
Proof.
  intros (tr & Hlog & Hs & Hall) H1 H2. exists ((CClockGettime clk1, now) :: (CClockNanosleep clk2 fl next, err) :: tr), (latenesses tr).
  rewrite latenesses_wakeup by done. split_and!; [cbn; by rewrite Hlog|done|done|done].
Qed.

Lemma tally_recorded next now w w' :
  tally_due next now w -> Z.abs (lateness (next, now)) < 2 ^ 60 -> w_log w' = w_log w ->
  stats (w_st w') = record_diff (u64 (lateness (next, now))) (stats (w_st w)) -> tally w'.
Proof.
  intros (tr & ds & Hlog & Hl & Hs & Hall) Hb Hlog' Hst. exists tr. rewrite Hl. split; [by rewrite Hlog'|].
  split; [by rewrite Hst, Hs, record_diffs_snoc|]. apply Forall_app. split; [done|by constructor].
Qed.

(** The times of the grid fit the types. *)
Lemma grid_bound k next :
  0 <= k <= rounds -> norm next -> tval next = t0 + (k + 1) * interval_ns par ->
  0 <= ts_sec next < 2 ^ 31.
Proof using Hiv Hfit Ht0.
  intros Hk Hn Ht. unfold norm, tval, interval_ns, NSEC_PER_SEC, USEC_PER_SEC in *.
  pose proof (Z.div_mod (interval par) 1000000). pose proof (Z.mod_pos_bound (interval par) 1000000).
  pose proof (Z.div_pos (interval par) 1000000).
  set (q := interval par / 1000000) in *.
  assert ((k + 1) * (interval par * 1000) <= (rounds + 1) * (q + 1) * 1000000000) by nia.
  assert (0 <= (k + 1) * (interval par * 1000)) by nia. lia.
Qed.

Lemma lateness_bound t next :
  norm t -> norm next -> 0 <= ts_sec t < 2 ^ 30 -> 0 <= ts_sec next < 2 ^ 31 -> Z.abs (lateness (next, t)) < 2 ^ 60.
Proof.
  unfold norm, lateness, NSEC_PER_SEC, USEC_PER_SEC. cbn [fst snd]. intros.
  pose proof (Z.quot_rem' (ts_nsec t - ts_nsec next) 1000). pose proof (Z.rem_bound_abs (ts_nsec t - ts_nsec next) 1000). lia.
Qed.

Lemma timer_end_intro k w :
  paced k w -> tally w -> 0 <= cycles (stats (w_st w)) <= k -> k <= rounds + 1 ->
  (max_cycles par <> 0 -> k <= max_cycles par) -> timer_end w.
Proof. intros. by exists k. Qed.

(** The packet of the round and its transmission. *)
Lemma send_round_spec k w ts sq (Q : Z -> W -> Prop) :
  paced k w -> tally w ->
  (forall v w', paced k w' -> tally w' -> w_st w' = w_st w -> Q v w') ->
  wpg F (fill_buf_pktgen (Ptr b 0) (msg_sz par) ts sq ;;
         socket_send (sockfd par) (Ptr b 0) (msg_sz par) (batch par))%c Q X w.
Proof using Hsz.
  intros (tr & l & Hlog & Hnx & Hv & Hm & Hl & Hg & Hk) Htal HQ.
  assert (Hsend : forall w1 l1, w_log w1 = tr ++ w_log w0 -> w_next w1 = w_next w0 ->
      w_verbose w1 = w_verbose w0 -> w_mem w1 = <[b := l1]> (w_mem w0) ->
      length l1 = Z.to_nat (msg_sz par) -> w_st w1 = w_st w ->
      wpg F (socket_send (sockfd par) (Ptr b 0) (msg_sz par) (batch par)) Q X w1).
  { intros w1 l1 Hlog1 Hnx1 Hv1 Hm1 Hl1 Hst1.
    eapply socket_send_spec; [rewrite Hm1; apply lookup_insert_eq|rewrite Hl1, u64_id by lia; done|].
    intros v w' (Hst & Hv' & _) Hm' Hnx' (evs & Hlog' & Hall & _ & _).
    apply HQ; [|eapply (tally_events w w' evs); [done|by rewrite Hlog', Hlog1, Hlog| |congruence]|congruence].
    2: { eapply Forall_impl; [exact Hall|]. intros [c0 r0] Hc. cbn in Hc. by subst c0. }
    exists (evs ++ tr), l1. split_and!; try congruence.
    - by rewrite Hlog', Hlog1, app_assoc.
    - rewrite sleeps_app_none; [done|]. eapply Forall_impl; [exact Hall|].
      intros [c0 r0] Hc. cbn in Hc. by subst c0.
    - rewrite sleeps_app_none; [done|]. eapply Forall_impl; [exact Hall|].
      intros [c0 r0] Hc. cbn in Hc. by subst c0. }
  wp_step. eapply fill_buf_pktgen_spec; [rewrite Hm; apply lookup_insert_eq|done|lia| |].
  - intros _. by eapply Hsend.
  - intros H16. eapply (Hsend _ (put_bytes 0 (Some <$> hdr_bytes (pacer_hdr ts sq)) l)); try done.
    + cbn. by rewrite Hm, insert_insert_eq.
    + rewrite length_put_bytes; [done|]. rewrite length_fmap, length_hdr_bytes. lia.
Qed.

(** From the wakeup on. *)
Lemma after_wakeup_spec k next w1 t :
  0 <= k <= rounds -> norm next -> tval next = t0 + (k + 1) * interval_ns par ->
  (max_cycles par = 0 \/ k < max_cycles par) -> k + 1 < 2 ^ 64 ->
  paced (k + 1) w1 -> tally_due next t w1 -> cycles (stats (w_st w1)) = k -> norm t -> 0 <= ts_sec t < 2 ^ 30 ->
  wpg F (d <- calcdiff t next ;;
         let diff := u64 d in
         set_stats (record_diff diff) ;;
         fill_buf_pktgen (Ptr b 0) (msg_sz par) t (u32 diff) ;;
         socket_send (sockfd par) (Ptr b 0) (msg_sz par) (batch par) ;;
         verbose <- get_verbose ;;
         st <- get_st ;;
         when (1 <=? verbose)
           (printf "Diff at cycle:%lu min:%ld cur:%ld max:%ld\n"
              [AInt (cycles (stats st)); AInt (min (stats st)); AInt (act (stats st)); AInt (max (stats st))]) ;;
         next <- advance next (interval_ts par) ;;
         if truth (max_cycles par) && (max_cycles par =? cycles (stats st))
         then ret (inr true) else ret (inl next))%c
    (fun r w' => match r with inl next' => timer_inv (k + 1) next' w' | inr _ => timer_end w' end) X w1.
Proof using Hsz Hiv Hfit Ht0 Hcyc.
  intros Hk Hn Hnext Hmax Hk64 Hp Hdue Hc Hnt Hst.
  pose proof (grid_bound k next Hk Hn Hnext) as Hsec.
  pose proof (interval_ts_val par (proj1 Hiv)) as (Hin & His & Hival).
  wp_step. apply calcdiff_spec; [done|done|lia|lia|]. cbv zeta.
  wp_step. unfold set_stats. do 3 wp_step.
  apply (wp_assoc (fill_buf_pktgen _ _ _ _)), wp_bind. eapply (send_round_spec (k + 1)); [exact Hp| |].
  { eapply tally_recorded; [exact Hdue|by apply lateness_bound|done|done]. }
  intros v w2 Hp2 Ht2 Hst2. do 5 wp_step.
  lazymatch goal with |- wpg _ (when _ _) ?Q _ _ =>
    enough (H : forall w', paced (k + 1) w' -> tally w' -> w_st w' = w_st w2 -> Q tt w') end.
  { apply wp_when; intros _; [wp_step|]; by apply H. }
  intros w3 Hp3 Ht3 Hst3. wp_step.
  assert (Hcyc3 : cycles (stats (w_st w2)) = k + 1).
  { rewrite Hst2. cbn. rewrite Hc, u64_id; lia. }
  apply advance_spec; [done|done|lia|lia| |].
  { assert (ts_sec (interval_ts par) <= 2 ^ 45); [|lia]. unfold interval_ts, USEC_PER_SEC. cbn.
    transitivity (2 ^ 64 / 1000000); [apply Z.div_le_mono; lia|]. apply Z.div_le_upper_bound; lia. }
  intros t' Hn' Ht'. rewrite Hcyc3. unfold truth.
  destruct (Z.eqb_spec (max_cycles par) 0) as [Hz|Hz]; cbn [negb andb].
  - wp_step. split_and!; try done; [|by rewrite Hst3|lia|by left]. rewrite Ht', Hnext, Hival. lia.
  - destruct (Z.eqb_spec (max_cycles par) (k + 1)) as [He|He].
    + wp_step. eapply timer_end_intro; [exact Hp3|exact Ht3|rewrite Hst3; lia|lia|lia].
    + wp_step. split_and!; try done; [|by rewrite Hst3|lia|right; lia]. rewrite Ht', Hnext, Hival. lia.
Qed.

Lemma sighand_spec k w sig (Q : unit -> W -> Prop) :
  paced k w -> tally w -> (exists r, head (w_log w) = Some (CSignalPoint, r)) ->
  (forall w', paced k w' -> tally w' -> cycles (stats (w_st w')) = k -> Q tt w') ->
  cycles (stats (w_st w)) = k -> wpg F (sighand sig) Q X w.
Proof.
  intros Hp Ht [r Hr] HQ Hc. unfold sighand, set_shutdown. do 4 wp_step. wp_step. wp_ask r2 k2 E2.
  change (truth DEBUG) with true. repeat wp_step; [|done]. apply HQ; [| |done].
  - by apply paced_print, paced_call.
  - by eapply (tally_clock w); [exact Ht| |exact Hr| |].
Qed.

Lemma timer_round_spec k next w :
  k <= rounds -> rounds < 2 ^ 63 -> timer_inv k next w ->
  wpg F (timer_round par (Ptr b 0) (interval_ts par) next)
    (fun r w' => match r with inl next' => timer_inv (k + 1) next' w' | inr _ => timer_end w' end) X w.
Proof using Hclock Hsz Hiv Hfit Ht0 Hcyc.
  intros Hk Hr (Hp & Ht & Hn & Hnext & Hc & Hk0 & Hmax). unfold timer_round.
  wp_step. wp_ask r1 k1 E1. wp_step.
  lazymatch goal with |- wpg _ (when _ _) ?Q _ _ =>
    enough (H : forall w', paced k w' -> tally w' -> cycles (stats (w_st w')) = k -> Q tt w') end.
  { wp_step; [|by apply H; [apply paced_call|apply tally_call|]].
    eapply sighand_spec; [by apply paced_call|by apply tally_call|by eexists|exact H|done]. }
  intros w1 Hp1 Ht1 Hc1. do 2 wp_step. destruct (truth (shutdown_global (w_st w1))).
  { wp_step. eapply timer_end_intro; [exact Hp1|exact Ht1|lia|lia|lia]. }
  wp_step. wp_ask r3 k3 E3.
  assert (Hp3 : paced (k + 1) (w_call (CClockNanosleep (clock par) TIMER_ABSTIME next) r3 k3 w1)).
  { destruct Hp1 as (tr & l & Hlog & Hnx & Hv & Hm & Hl & Hg & Hlen).
    exists ((CClockNanosleep (clock par) TIMER_ABSTIME next, r3) :: tr), l.
    assert (Hs : sleeps ((CClockNanosleep (clock par) TIMER_ABSTIME next, r3) :: tr) = sleeps tr ++ [next]) by done.
    rewrite Hs, length_app. split_and!; try done; [by cbn; rewrite Hlog| |cbn; lia].
    apply on_grid_snoc; [done|done|]. rewrite Hnext, Hlen. done. }
  pose proof (tally_call _ (CClockNanosleep (clock par) TIMER_ABSTIME next) r3 k3 Ht1 I) as Ht3.
  destruct (truth (r_ret r3)) eqn:E3z.
  { repeat wp_step; (eapply timer_end_intro; [first [exact Hp3|apply paced_print, Hp3]|exact Ht3|cbn; lia|lia|lia]). }
  wp_step. wp_ask r4 k4 E4.
  pose proof (paced_call _ _ (CClockGettime (clock par)) r4 k4 Hp3 eq_refl) as Hp4.
  apply negb_false_iff, Z.eqb_eq in E3z. destruct (truth (r_ret r4)) eqn:E4z.
  { assert (Ht4 : tally (w_call (CClockGettime (clock par)) r4 k4
      (w_call (CClockNanosleep (clock par) TIMER_ABSTIME next) r3 k3 w1))).
    { eapply tally_clock; [exact Ht3|done|done| |done]. unfold wakeup_of. cbn [fst snd].
      apply negb_true_iff in E4z. by rewrite E4z. }
    repeat wp_step; (eapply timer_end_intro; [first [exact Hp4|apply paced_print, Hp4]|exact Ht4|cbn; lia|lia|lia]). }
  apply negb_false_iff, Z.eqb_eq in E4z.
  pose proof (Hclock (clock par) k3) as Hck. cbn [w_call w_k] in E4. rewrite E4 in Hck.
  destruct Hck as [Hnt Hst].
  apply after_wakeup_spec; first [done|lia|by apply tally_wakeup].
Qed.
End Timer.

(** ** The whole thread *)
Definition clock_of (e : call * reply) : option timespec :=
  match e.1 with CClockGettime _ => Some (r_ts e.2) | _ => None end.

Definition clocks (tr : list (call * reply)) : list timespec := rev (omap clock_of tr).

(** The time the thread started from: its first reading of the clock. *)
Definition start_time (tr : list (call * reply)) : Z := from_option tval 0 (head (clocks tr)).

Lemma start_time_app tr evs :
  clocks evs <> [] -> start_time (tr ++ evs) = start_time evs.
Proof.
  intros H. unfold start_time, clocks in *. rewrite omap_app, rev_app_distr.
  by destruct (rev (omap clock_of evs)).
Qed.

Lemma sleeps_app_r tr evs : Forall (fun e => sleep_of e = None) evs -> sleeps (tr ++ evs) = sleeps tr.
Proof.
  intros H. unfold sleeps. rewrite omap_app.
  assert (omap sleep_of evs = []) as ->; [|by rewrite app_nil_r].
  induction H as [|e evs He _ IH]; [done|]. cbn. by rewrite He, IH.
Qed.

Definition timer_post (par : thread_param) w w' : Prop :=
  w_mem w' = w_mem w /\ w_verbose w' = w_verbose w /\
  shutdown_global (w_st w') = 1 /\ thread_started (stats (w_st w')) = -1 /\
  exists tr, w_log w' = tr ++ w_log w /\
    on_grid (start_time tr) (interval_ns par) (sleeps tr) /\
    (max_cycles par <> 0 -> Z.of_nat (length (sleeps tr)) <= max_cycles par).

Definition set_started (v : Z) (s : thread_stat) : thread_stat :=
  ThreadStat v (cycles s) (min s) (max s) (act s) (avg s).

Lemma record_diffs_started ds v s : record_diffs ds (set_started v s) = set_started v (record_diffs ds s).
Proof. revert s. induction ds as [|d ds IH]; intros s; [done|]. exact (IH (record_diff (u64 d) s)). Qed.

(** The statistics that the thread leaves: those of its wakeups. *)
Definition thread_stats (rounds : Z) w w' : Prop :=
  exists tr, w_log w' = tr ++ w_log w /\
    stats (w_st w') = set_started (-1) (record_diffs (latenesses tr) (stats (w_st w))) /\
    Forall (fun d => Z.abs d < 2 ^ 60) (latenesses tr) /\ Z.of_nat (length (latenesses tr)) <= rounds + 1.

(** The two assignments at the end. *)
Lemma timer_merr_spec F par rounds w w1 X :
  w_mem w1 = w_mem w -> w_verbose w1 = w_verbose w ->
  (exists tr, w_log w1 = tr ++ w_log w /\
    on_grid (start_time tr) (interval_ns par) (sleeps tr) /\
    (max_cycles par <> 0 -> Z.of_nat (length (sleeps tr)) <= max_cycles par)) ->
  (exists tr v, w_log w1 = tr ++ w_log w /\ stats (w_st w1) = set_started v (record_diffs (latenesses tr) (stats (w_st w))) /\
    Forall (fun d => Z.abs d < 2 ^ 60) (latenesses tr) /\ Z.of_nat (length (latenesses tr)) <= rounds + 1) ->
  wpg F timer_merr (fun _ w' => timer_post par w w' /\ thread_stats rounds w w') X w1.
Proof.
  intros Hm Hv Htr (tr & v & Hlog & Hs & Hall). unfold timer_merr, set_shutdown, set_stats. repeat wp_step.
  split; [split_and!; done|]. exists tr. split; [done|]. split; [cbn; by rewrite Hs|done].
Qed.

(** The thread gives up before it starts to sleep. *)
Lemma thread_none_stats rounds (w w1 : W) evs :
  0 <= rounds -> w_log w1 = evs ++ w_log w -> Forall no_clock evs -> stats (w_st w1) = stats (w_st w) ->
  exists tr v, w_log w1 = tr ++ w_log w /\ stats (w_st w1) = set_started v (record_diffs (latenesses tr) (stats (w_st w))) /\
    Forall (fun d => Z.abs d < 2 ^ 60) (latenesses tr) /\ Z.of_nat (length (latenesses tr)) <= rounds + 1.
Proof.
  intros Hr Hlog Hevs Hst. exists evs, (thread_started (stats (w_st w))).
  pose proof (latenesses_app_none evs [] Hevs) as Hl. rewrite app_nil_r in Hl. rewrite Hl.
  split_and!; [done| |by constructor|cbn; lia]. rewrite Hst. by destruct (stats (w_st w)).
Qed.

Lemma timer_none_post par (w w1 : W) evs :
  w_log w1 = evs ++ w_log w -> Forall (fun e => sleep_of e = None) evs -> 0 <= max_cycles par ->
  exists tr, w_log w1 = tr ++ w_log w /\
    on_grid (start_time tr) (interval_ns par) (sleeps tr) /\
    (max_cycles par <> 0 -> Z.of_nat (length (sleeps tr)) <= max_cycles par).
Proof.
  intros Hlog Hs Hmax. exists evs. split; [done|].
  pose proof (sleeps_app_none evs [] Hs) as H. rewrite app_nil_r in H. rewrite H.
  split; [|intros; cbn; lia]. by intros i t Hi.
Qed.

Lemma calloc_spec F n w (Q : ptr -> W -> Prop) X :
  0 < w_next w ->
  (forall w', w_mem w' = w_mem w -> w_next w' = w_next w -> extends w w' -> (exists r, w_log w' = (CMalloc n, r) :: w_log w) -> Q NULL w') ->
  (forall w', allocated n w w' -> Q (Ptr (w_next w) 0) w') ->
  wpg F (calloc n) Q X w.
Proof.
  intros Hn H0 HQ. unfold calloc. wp_step. wp_ask r k E. cbn zeta. split; intros _.
  - change (is_null NULL) with true. wp_steps. apply H0; [done|done|auto with wp|by exists r].
  - unfold is_null. cbn [p_block w_call w_next]. destruct (Z.eqb_spec (w_next w) 0); [lia|].
    wp_step. eapply memset0_spec.
    + cbn. apply lookup_insert_eq.
    + by rewrite length_replicate.
    + wp_step. apply HQ. repeat split; cbn; rewrite ?insert_insert_eq; eauto.
Qed.

(** Either way. *)
Lemma calloc_wf F n w (Q : ptr -> W -> Prop) X :
  mem_wf w ->
  (forall p r w', mem_wf w' -> w_st w' = w_st w -> w_log w' = (CMalloc n, r) :: w_log w -> Q p w') ->
  wpg F (calloc n) Q X w.
Proof.
  intros Hwf HQ. pose proof Hwf as [Hn Hfresh]. apply calloc_spec; [done| |].
  - intros w' Hm Hnx (Hst & _) [r Hlog]. apply (HQ _ r); [|done|done]. split; [by rewrite Hnx|].
    intros b. rewrite Hnx, Hm. apply Hfresh.
  - intros w' Hal. pose proof (allocated_wf _ _ _ Hwf Hal) as Hwf'. destruct Hal as (Hst & _ & _ & _ & r & Hlog).
    by apply (HQ _ r).
Qed.

Section Thread.
Variables (fuel : nat) (par : thread_param).
Hypothesis Hclock : forall clk k, let t := r_ts (kstep (CClockGettime clk) k).1 in
  norm t /\ 0 <= ts_sec t < 2 ^ 30.
Hypothesis Hsz : 0 <= msg_sz par < 8 \/ 16 <= msg_sz par < 2 ^ 31.
Hypothesis Hiv : 0 <= interval par < 2 ^ 64.
Hypothesis Hfit : (Z.of_nat fuel + 1) * (interval par / USEC_PER_SEC + 1) <= 2 ^ 30.
Hypothesis Hcyc : 0 <= max_cycles par < 2 ^ 64.

(** The loop runs out of fuel only when it may run for ever or the fuel is
    below the number of cycles asked for. *)
Definition fuel_out : Prop := max_cycles par = 0 \/ Z.of_nat fuel < max_cycles par.

Lemma timer_loop_spec w0 b l0 t0 next X :
  w_mem w0 !! b = Some l0 -> length l0 = Z.to_nat (msg_sz par) ->
  norm t0 -> 0 <= ts_sec t0 < 2 ^ 30 -> norm next -> tval next = tval t0 + interval_ns par ->
  cycles (stats (w_st w0)) = 0 ->
  wpg fuel_out (iter fuel (timer_round par (Ptr b 0) (interval_ts par)) next)
    (fun _ w' => timer_end par (Z.of_nat fuel) w0 b (tval t0) w') X w0.
Proof using Hclock Hsz Hiv Hfit Hcyc.
  intros Hb Hl Hn0 Hs0 Hn Hnext Hc.
  assert (Hq : 1 <= interval par / USEC_PER_SEC + 1).
  { pose proof (Z.div_pos (interval par) USEC_PER_SEC). unfold USEC_PER_SEC in *. lia. }
  assert (Ht0 : 0 <= tval t0 < 2 ^ 30 * NSEC_PER_SEC).
  { unfold norm, tval, NSEC_PER_SEC in *. lia. }
  assert (Hf : Z.of_nat fuel < 2 ^ 63) by nia.
  apply (wp_iter (fun n nx w => exists k, timer_inv par w0 b (tval t0) k nx w /\ Z.of_nat n + k = Z.of_nat fuel)).
  - exists 0. split; [|lia]. split_and!; try done; [| |lia|lia].
    + exists [], l0. split_and!; try done. by rewrite insert_id.
    + exists []. by split_and!.
  - intros nx w (k & (_ & _ & _ & _ & _ & _ & Hmax) & Hk). unfold fuel_out. lia.
  - intros n nx w (k & Hinv & Hk).
    eapply wp_post; [eapply timer_round_spec with (k := k) (rounds := Z.of_nat fuel); first [done|lia]|].
    intros [nx'|x] w' H; [|exact H]. exists (k + 1). split; [exact H|lia].
Qed.

Lemma timer_thread_spec w X :
  mem_wf w -> cycles (stats (w_st w)) = 0 ->
  wpg fuel_out (timer_thread fuel par) (fun _ w' => timer_post par w w' /\ thread_stats (Z.of_nat fuel) w w') X w.
Proof using Hclock Hsz Hiv Hfit Hcyc.
  intros [Hpos Hfresh] Hc. unfold timer_thread. rewrite u64_id by lia.
  wp_step. apply calloc_spec; [done| |].
  { intros w1 Hm1 _ (Hst1 & Hv1 & _) (ra & Hlog1). change (is_null NULL) with true. do 3 wp_step.
    apply timer_merr_spec; [done|done| |].
    - apply (timer_none_post par w _ [(CMalloc (msg_sz par), ra)]); [done|by repeat constructor|lia].
    - apply (thread_none_stats _ w _ [(CMalloc (msg_sz par), ra)]); [lia|done|by repeat constructor|cbn; congruence]. }
  intros w1 (Hst1 & Hv1 & Hnx1 & Hm1 & ra & Hlog1).
  unfold is_null. cbn [p_block]. rewrite (proj2 (Z.eqb_neq _ _)) by lia.
  wp_step. wp_ask r2 k2 E2.
  lazymatch goal with |- wpg _ (bind _ ?f) ?Q _ _ =>
    enough (H : forall w2, w_log w2 = (CSchedSetscheduler (policy par) (prio par), r2) :: w_log w1 ->
      w_mem w2 = w_mem w1 -> w_verbose w2 = w_verbose w1 -> w_st w2 = w_st w1 ->
      wpg fuel_out (f tt) Q X w2) end.
  { do 2 wp_step; [wp_step|]; by apply H. }
  intros w2 Hlog2 Hm2 Hv2 Hst2. cbv beta. wp_step.
  destruct (truth (r_ret r2) && negb (r_errno r2 =? EPERM)).
  { wp_step. wp_step. eapply wp_free; [rewrite Hm2, Hm1; apply lookup_insert_eq|lia|].
    apply timer_merr_spec; cbn.
    - rewrite Hm2, Hm1, delete_insert_eq. apply delete_id, Hfresh. lia.
    - congruence.
    - apply (timer_none_post par w _ [(CSchedSetscheduler (policy par) (prio par), r2); (CMalloc (msg_sz par), ra)]);
        [cbn; by rewrite Hlog2, Hlog1|by repeat constructor|lia].
    - apply (thread_none_stats _ w _ [(CSchedSetscheduler (policy par) (prio par), r2); (CMalloc (msg_sz par), ra)]);
        [lia|cbn; by rewrite Hlog2, Hlog1|by repeat constructor|cbn; congruence]. }
  cbv zeta. wp_step. wp_ask r3 k3 E3.
  pose proof (Hclock (clock par) (w_k w2)) as Hck. rewrite E3 in Hck. cbn [fst] in Hck. destruct Hck as [Hn0 Hs0].
  pose proof (interval_ts_val par (proj1 Hiv)) as (Hin & His & Hival).
  wp_step. apply advance_spec; [done|done|lia|lia| |].
  { assert (ts_sec (interval_ts par) <= 2 ^ 45); [|lia]. unfold interval_ts, USEC_PER_SEC. cbn.
    transitivity (2 ^ 64 / 1000000); [apply Z.div_le_mono; lia|]. apply Z.div_le_upper_bound; lia. }
  intros next Hn Hnext. wp_step. unfold set_stats. do 3 wp_step. wp_step.
  eapply wp_post.
  { eapply (timer_loop_spec _ (w_next w) (replicate (Z.to_nat (msg_sz par)) (Some 0)) (r_ts r3)); try done.
    - cbn. rewrite Hm2, Hm1. apply lookup_insert_eq.
    - by rewrite length_replicate.
    - by rewrite Hnext, Hival.
    - cbn. by rewrite Hst2, Hst1. }
  intros normal w4 (k & (tr & l & Hlog4 & Hnx4 & Hv4 & Hm4 & Hl4 & Hg & Hk) & (trt & Hlogt & Hstats & Hbound) & Hcyc4 & Hkf & Hkm).
  assert (trt = tr) as -> by (eapply app_inv_tail; by rewrite <- Hlogt, <- Hlog4).
  cbn [w_log w_next w_verbose w_mem w_set_st w_call] in Hlog4, Hnx4, Hv4, Hm4.
  do 2 wp_step.
  lazymatch goal with |- wpg _ (when _ _) ?Q _ _ =>
    enough (H : forall w', w_mem w' = w_mem w4 -> w_log w' = w_log w4 -> w_verbose w' = w_verbose w4 -> w_st w' = w_st w4 -> Q tt w') end.
  { apply wp_when; intros _; [wp_step|]; by apply H. }
  intros w5 Hm5 Hlog5 Hv5 Hst5. wp_step.
  eapply wp_free; [rewrite Hm5, Hm4; apply lookup_insert_eq|lia|].
  apply timer_merr_spec; cbn.
  - rewrite Hm5, Hm4, Hm2, Hm1, insert_insert_eq, delete_insert_eq. apply delete_id, Hfresh. lia.
  - congruence.
  - set (evs := [(CClockGettime (clock par), r3); (CSchedSetscheduler (policy par) (prio par), r2); (CMalloc (msg_sz par), ra)]).
    exists (tr ++ evs). rewrite sleeps_app_r by by repeat constructor.
    rewrite start_time_app by done. split_and!.
    + rewrite Hlog5, Hlog4, Hlog2, Hlog1, <- app_assoc. done.
    + exact Hg.
    + intros Hz. rewrite Hk. by apply Hkm.
  - exists (tr ++ [(CClockGettime (clock par), r3); (CSchedSetscheduler (policy par) (prio par), r2); (CMalloc (msg_sz par), ra)]).
    exists (thread_started (stats (w_st w)) + 1). rewrite latenesses_before by done.
    change (latenesses [_; _; _]) with (@nil Z). cbn [app]. split_and!.
    + by rewrite Hlog5, Hlog4, Hlog2, Hlog1, <- app_assoc.
    + cbn. rewrite Hst5, Hstats, <- record_diffs_started. cbn. by rewrite Hst2, Hst1.
    + exact Hbound.
    + pose proof (wakeups_sleeps tr). lia.
Qed.
End Thread.
End Spec.
