(* ===== verification/UdpPacerProps.v ===== *)
(** * udp_pacer: the properties *)
From stdpp Require Import base list gmap strings.
From Stdlib Require Import ZArith Lia.
From S2P Require Import Prelude.
From S2P Require Import CLang.
From S2P Require Import Wp.
From S2P Require Import Libc.
From S2P Require Import Common.
From S2P Require Import CommonSocket.
From S2P Require Import Scripted.
From S2P Require Import Pktgen.
From S2P Require Import UdpPacer.
From S2P Require Import UdpPacerSpec.

#[local] Open Scope Z_scope.
#[local] Open Scope c_scope.

(** The contract of [clock_gettime]: normalised times of a plausible uptime. *)
Definition clock_contract (K : Kernel) : Prop :=
  forall clk k, let t := r_ts (kstep (CClockGettime clk) k).1 in norm t /\ 0 <= ts_sec t < 2 ^ 30.

(** A clock that a list of times drives; every other call answers 0 (a
    success), [malloc] succeeds. *)
Definition ticking_step (c : call) (k : list timespec) : reply * list timespec :=
  match c, k with
  | CMalloc _, _ => (reply_of 1, k)
  | CClockGettime _, t :: k' =>
      if (0 <=? ts_nsec t) && (ts_nsec t <? NSEC_PER_SEC) && (0 <=? ts_sec t) && (ts_sec t <? 2 ^ 30)
      then (Reply 0 0 t [], k') else (reply_of 0, k')
  | _, _ => (reply_of 0, k)
  end.

Definition ticking : Kernel := {| kst := list timespec; kstep := ticking_step |}.

Lemma ticking_contract : clock_contract ticking.
Proof.
  intros clk k. unfold ticking. cbn [kstep]. unfold ticking_step, norm, NSEC_PER_SEC.
  destruct k as [|t k]; [cbn; lia|].
  destruct (Z.leb_spec 0 (ts_nsec t)), (Z.ltb_spec (ts_nsec t) 1000000000),
    (Z.leb_spec 0 (ts_sec t)), (Z.ltb_spec (ts_sec t) (2 ^ 30)); cbn; lia.
Qed.

Definition example_par : thread_param :=
  ThreadParam 3 2 20 CLOCK_MONOTONIC 300000 0 SCHED_OTHER 3.

Definition fresh_stat : thread_stat := ThreadStat 1 0 1000000 0 0 double_zero.

Definition start_pacer (ts : list timespec) : @world ticking statics :=
  @World ticking statics ts ∅ 1 [] [] 0 (Statics 0 fresh_stat).

(** C16: the pacer does not drift: with a clock that reads normalised times
    below [2 ^ 30] seconds, and as long as the intervals of a run add up to no
    more than that, whatever the latencies and the signals, the [i]-th sleep of [timer_thread] is until its start time plus [i + 1]
    intervals, as a normalised time.  The thread never reaches undefined
    behaviour for packets of less than 8 or at least 16 bytes, ends after at
    most [max_cycles] sleeps when that is not 0 (given as much fuel), frees its
    buffer, and leaves [shutdown_global] set and [thread_started] at -1. *)
Theorem timer_thread_keeps_pace (K : Kernel) (fuel : nat) (par : thread_param) (w : world statics)
  (clock_ok : clock_contract K) :
  0 <= msg_sz par < 8 \/ 16 <= msg_sz par < 2 ^ 31 -> 0 <= interval par < 2 ^ 64 ->
  (Z.of_nat fuel + 1) * (interval par / USEC_PER_SEC + 1) <= 2 ^ 30 ->
  0 <= max_cycles par < 2 ^ 64 -> mem_wf w -> cycles (stats (w_st w)) = 0 ->
  wpg (fuel_out fuel par) (timer_thread fuel par) (fun _ w' => timer_post par w w') (fun _ _ => False) w.
Proof. intros. eapply wp_post; [by apply timer_thread_spec|]. by intros u w' [H' _]. Qed.

Lemma timer_thread_keeps_pace_witness :
  let w := start_pacer [Timespec 5 900000000; Timespec 6 200000100; Timespec 6 500000200; Timespec 6 900000000] in
  wpg (3 = 0 \/ 4 < 3) (timer_thread 4 example_par) (fun _ w' => timer_post example_par w w') (fun _ _ => False) w.
Proof.
  apply (timer_thread_keeps_pace ticking 4 example_par
    (start_pacer [Timespec 5 900000000; Timespec 6 200000100; Timespec 6 500000200; Timespec 6 900000000])).
  - apply ticking_contract.
  - right. vm_compute. split; [discriminate|reflexivity].
  - vm_compute. split; [discriminate|reflexivity].
  - vm_compute. discriminate.
  - vm_compute. split; [discriminate|reflexivity].
  - split; [reflexivity|]. intros b _. apply lookup_empty.
  - reflexivity.
Defined.

(** C17: [calcdiff] is the difference of two times in microseconds, off by less
    than one microsecond, and never overflows for the times of a system up for
    less than [2 ^ 31] seconds. *)
Theorem calcdiff_microseconds (K : Kernel) (t1 t2 : timespec) (w : world statics) :
  norm t1 -> norm t2 -> 0 <= ts_sec t1 < 2 ^ 31 -> 0 <= ts_sec t2 < 2 ^ 31 ->
  wp (calcdiff t1 t2) (fun d w' => w' = w /\ Z.abs (d * 1000 - (tval t1 - tval t2)) < 1000)
    (fun _ _ => False) w.
Proof.
  intros H1 H2 Hs1 Hs2. apply calcdiff_spec; try done. split; [done|].
  unfold tval, NSEC_PER_SEC, USEC_PER_SEC.
  pose proof (Z.quot_rem' (ts_nsec t1 - ts_nsec t2) 1000).
  pose proof (Z.rem_bound_abs (ts_nsec t1 - ts_nsec t2) 1000). lia.
Qed.

Lemma calcdiff_microseconds_witness :
  wp (calcdiff (Timespec 6 100) (Timespec 5 999999000))
    (fun d w' => w' = start_pacer [] /\
       Z.abs (d * 1000 - (tval (Timespec 6 100) - tval (Timespec 5 999999000))) < 1000)
    (fun _ _ => False) (start_pacer []).
Proof.
  apply (calcdiff_microseconds ticking (Timespec 6 100) (Timespec 5 999999000) (start_pacer []));
    vm_compute; (split; [discriminate|reflexivity]).
Defined.

(** C20: [fill_buf_pktgen] on a packet of 8 to 15 bytes writes outside of its
    buffer: the guard compares with the size of a pointer, not of the header. *)
Theorem fill_buf_pktgen_overflows (K : Kernel) (b len : Z) (ts : timespec) (sequence : Z)
  (l : list mbyte) (w : world statics) :
  w_mem w !! b = Some l -> length l = Z.to_nat len -> 8 <= len < 16 ->
  exists w', fill_buf_pktgen (Ptr b 0) len ts sequence w = Undef OutOfBounds w'.
Proof.
  intros Hb Hl Hlen. unfold fill_buf_pktgen, sizeof_ptr. rewrite u64_id by lia.
  rewrite (proj2 (Z.ltb_ge _ _)) by lia. unfold ptr_add. cbn [p_block p_off].
  unfold bind at 1. unfold store at 1. cbn [p_block p_off]. unfold store_block at 1.
  rewrite (proj2 (Z.ltb_ge _ _)), Hb by lia. unfold store_range at 1.
  rewrite length_fmap, length_le_bytes, Hl.
  destruct (Nat.leb_spec (Z.to_nat (0 + 8) + 4) (Z.to_nat len)) as [Hle|Hgt]; [|by eexists].
  cbn [fmap option_fmap option_map]. unfold bind at 1. unfold store at 1. cbn [p_block p_off].
  unfold store_block at 1. rewrite (proj2 (Z.ltb_ge _ _)) by lia.
  cbn [w_mem w_set_mem]. rewrite lookup_insert_eq. unfold store_range at 1.
  rewrite !length_app, length_take, length_drop, !length_fmap, !length_le_bytes, Hl.
  rewrite (proj2 (Nat.leb_gt _ _)) by lia. by eexists.
Qed.

Lemma fill_buf_pktgen_overflows_witness :
  exists w', fill_buf_pktgen (Ptr 1 0) 8 (Timespec 5 0) 0
    (@World ticking statics [] (<[1 := replicate 8 (Some 0)]> ∅) 2 [] [] 0 (Statics 0 fresh_stat)) =
    Undef OutOfBounds w'.
Proof.
  apply (fill_buf_pktgen_overflows ticking 1 8 (Timespec 5 0) 0 (replicate 8 (Some 0))).
  - reflexivity.
  - reflexivity.
  - split; [discriminate|reflexivity].
Defined.

(** The number of cycles and the latest lateness, early wakeups or not. *)
Lemma record_diffs_count ds s :
  Forall (fun d => Z.abs d < 2 ^ 60) ds -> 0 <= cycles s -> cycles s + Z.of_nat (length ds) < 2 ^ 64 ->
  let s' := record_diffs ds s in
  cycles s' = cycles s + Z.of_nat (length ds) /\ act s' = default (act s) (last ds).
Proof.
  intros Hds. revert s. induction Hds as [|d ds Hd _ IH]; intros s Hc Hlen; [cbn; lia|].
  cbn [length] in Hlen. cbv zeta in *. cbn [record_diffs fold_left length].
  destruct (IH (record_diff (u64 d) s)) as [I1 I2]; [cbn; rewrite u64_id; lia|cbn; rewrite u64_id; lia|].
  unfold record_diffs in I1, I2. rewrite I1, I2. cbn. rewrite u64_id by lia. split; [lia|].
  rewrite last_cons. destruct (last ds); [done|cbn]. mach.
Qed.

Lemma record_diffs_aux ds s :
  Forall (fun d => 0 <= d < 2 ^ 63) ds -> 0 <= min s < 2 ^ 63 -> 0 <= max s < 2 ^ 63 ->
  0 <= cycles s -> cycles s + Z.of_nat (length ds) < 2 ^ 64 ->
  let s' := record_diffs ds s in
  min s' = foldr Z.min (min s) ds /\ max s' = foldr Z.max (max s) ds /\
  cycles s' = cycles s + Z.of_nat (length ds).
Proof.
  intros Hds. revert s. induction Hds as [|d ds Hd _ IH]; intros s Hmin Hmax Hc Hlen.
  { cbn. lia. }
  cbn [record_diffs fold_left foldr length] in *.
  specialize (IH (record_diff (u64 d) s)). cbn zeta in IH |- *.
  assert (E1 : min (record_diff (u64 d) s) = Z.min d (min s)).
  { cbn. rewrite !u64_id by lia. destruct (Z.ltb_spec d (min s)); [rewrite i64_id by lia|]; lia. }
  assert (E2 : max (record_diff (u64 d) s) = Z.max d (max s)).
  { cbn. rewrite !u64_id by lia. destruct (Z.ltb_spec (max s) d); [rewrite i64_id by lia|]; lia. }
  assert (E3 : cycles (record_diff (u64 d) s) = cycles s + 1) by (cbn; rewrite u64_id; lia).
  destruct IH as (I1 & I2 & I3); [lia|lia|lia|lia|].
  unfold record_diffs in I1, I2, I3. rewrite I1, I2, I3, E1, E2, E3.
  assert (Hf : forall f (a b : Z) l, (forall x y z, f x (f y z) = f y (f x z)) ->
    foldr f (f a b) l = f a (foldr f b l)).
  { intros f a b l Hcomm. induction l as [|x l IHl]; [done|]. cbn. by rewrite IHl, Hcomm. }
  split_and!; [apply Hf; intros; lia|apply Hf; intros; lia|lia].
Qed.

(** What [setup_pthread] leaves for the thread: no event of its own is a
    reading of the clock or a sleep. *)
Lemma setup_pthread_spec {K : Kernel} F cfg (w : world statics) (Q : ptr * ptr * thread_param -> world statics -> Prop)
  (X : Z -> world statics -> Prop) :
  mem_wf w ->
  (forall par stat policy r evs w', mem_wf w' -> w_log w' = (CPthreadCreate, r) :: evs ++ w_log w ->
     Forall no_clock evs -> stats (w_st w') = fresh_stat ->
     Q (par, stat, ThreadParam (g_sockfd cfg) (g_batch cfg) (g_msg_sz cfg) CLOCK_MONOTONIC (g_interval cfg)
                     (g_thread_prio cfg) policy (u64 (g_count cfg))) w') ->
  (forall code w', In code [EXIT_FAIL_MEM; EXIT_FAIL_PTHREAD] -> X code w') ->
  wpg F (setup_pthread cfg) Q X w.
Proof.
  intros Hwf HQ HX. unfold setup_pthread. wp_step. apply calloc_wf; [done|]. intros par r1 w1 Hwf1 Hst1 Hlog1.
  wp_step. apply calloc_wf; [done|]. intros stat r2 w2 Hwf2 Hst2 Hlog2.
  destruct (is_null par || is_null stat); [do 3 wp_step; apply HX; by left|].
  wp_step. wp_ask r3 k3 E3. wp_step; [do 3 wp_step; apply HX; right; by left|].
  cbv zeta. wp_step. unfold set_stats. do 3 wp_step. wp_step. wp_ask r4 k4 E4.
  wp_step; [do 3 wp_step; apply HX; right; by left|]. wp_step.
  eapply (HQ par stat _ r4 [(CPthreadAttrInit, r3); (CMalloc sizeof_thread_stat, r2); (CMalloc sizeof_thread_param, r1)]).
  - exact Hwf2.
  - cbn. by rewrite Hlog2, Hlog1.
  - by repeat constructor.
  - done.
Qed.

(** C18: the statistics of a run of the thread that [setup_pthread] created,
    for packets of less than 8 or at least 16 bytes, and with the clock, the
    interval and the fuel of C16: over the wakeups in the log - each a successful sleep followed by a successful
    reading of the clock - [cycles] is their number, [act] the lateness of the
    last in microseconds, and, as long as none is early, [min] and [max] are the
    least and the greatest lateness, from 1000000 and 0 at the start.  The
    program exits only when [setup_pthread] fails. *)
Theorem stats_of_late_wakeups (K : Kernel) (fuel : nat) (cfg : cfg_params) (w : world statics)
  (clock_ok : clock_contract K) :
  0 <= g_msg_sz cfg < 8 \/ 16 <= g_msg_sz cfg < 2 ^ 31 -> 0 <= g_interval cfg < 2 ^ 64 ->
  (Z.of_nat fuel + 1) * (g_interval cfg / USEC_PER_SEC + 1) <= 2 ^ 30 -> mem_wf w ->
  wpg (u64 (g_count cfg) = 0 \/ Z.of_nat fuel < u64 (g_count cfg))
    (t <- setup_pthread cfg ;; timer_thread fuel t.2)%c
    (fun _ w' => exists tr, w_log w' = tr ++ w_log w /\
       let ds := latenesses tr in let s := stats (w_st w') in
       cycles s = Z.of_nat (length ds) /\ act s = default 0 (last ds) /\
       (Forall (fun d => 0 <= d) ds -> min s = foldr Z.min 1000000 ds /\ max s = foldr Z.max 0 ds))
    (fun code _ => In code [EXIT_FAIL_MEM; EXIT_FAIL_PTHREAD]) w.
Proof.
  intros Hsz Hiv Hfit Hwf. wp_step. apply setup_pthread_spec; [done| |done].
  intros par stat policy r evs w1 Hwf1 Hlog1 Hevs Hst1. cbn [snd].
  eapply wp_post; [apply timer_thread_spec; try done; [apply u64_range|by rewrite Hst1]|].
  intros _ w2 [_ (tr & Hlog & Hs & Hb & Hn)]. exists (tr ++ (CPthreadCreate, r) :: evs).
  split; [by rewrite Hlog, Hlog1, <- app_assoc|]. rewrite latenesses_before by done.
  pose proof (latenesses_app_none ((CPthreadCreate, r) :: evs) []) as Hnone. rewrite app_nil_r in Hnone.
  rewrite Hnone by by constructor. cbn [latenesses wakeups fmap list_fmap rev app]. rewrite Hs, Hst1. cbv zeta.
  assert (Hq : 0 <= g_interval cfg / USEC_PER_SEC) by (apply Z.div_pos; unfold USEC_PER_SEC; lia).
  assert (Hlen : Z.of_nat (length (latenesses tr)) < 2 ^ 64) by nia.
  destruct (record_diffs_count (latenesses tr) fresh_stat Hb) as [Hc Ha]; [done|exact Hlen|].
  split_and!; [exact Hc|exact Ha|]. intros Hpos.
  destruct (record_diffs_aux (latenesses tr) fresh_stat) as (Hmin & Hmax & _); try done.
  eapply Forall_impl; [apply Forall_and; split; [exact Hpos|exact Hb]|].
  intros d [? ?]. cbn beta in *. lia.
Qed.

Lemma stats_of_late_wakeups_witness :
  let cfg := CfgParams 2 3 20 300000 0 3 AF_INET 6666 [] in
  let w := start_pacer [Timespec 5 900000000; Timespec 6 200000100; Timespec 6 500000200; Timespec 6 900000000] in
  wpg (3 = 0 \/ 4 < 3) (t <- setup_pthread cfg ;; timer_thread 4 t.2)%c
    (fun _ w' => exists tr, w_log w' = tr ++ [] /\
       let ds := latenesses tr in let s := stats (w_st w') in
       cycles s = Z.of_nat (length ds) /\ act s = default 0 (last ds) /\
       (Forall (fun d => 0 <= d) ds -> min s = foldr Z.min 1000000 ds /\ max s = foldr Z.max 0 ds))
    (fun code _ => In code [EXIT_FAIL_MEM; EXIT_FAIL_PTHREAD]) w.
Proof.
  intros cfg w. apply (stats_of_late_wakeups ticking 4 cfg w).
  - apply ticking_contract.
  - right. vm_compute. split; [discriminate|reflexivity].
  - vm_compute. split; [discriminate|reflexivity].
  - vm_compute. discriminate.
  - split; [reflexivity|]. intros b _. apply lookup_empty.
Defined.

(** Three wakeups, 0, 0 and 100000 microseconds late. *)
Example stats_of_three_wakeups :
  match (t <- setup_pthread (CfgParams 2 3 20 300000 0 3 AF_INET 6666 []) ;; timer_thread 4 t.2)%c
          (start_pacer [Timespec 5 900000000; Timespec 6 200000100; Timespec 6 500000200; Timespec 6 900000000]) with
  | Ret _ w' => latenesses (w_log w') = [0; 0; 100000] /\ cycles (stats (w_st w')) = 3 /\ max (stats (w_st w')) = 100000
  | _ => False
  end.
Proof. vm_compute. split_and!; reflexivity. Qed.

(** C19: one early wakeup spoils the maximum for good: the difference is held
    in an unsigned variable, so a negative one exceeds every maximum, becomes
    the maximum, and no later non-negative difference replaces it. *)
Theorem early_wakeup_spoils_max (s : thread_stat) (d : Z) (ds : list Z) :
  0 <= max s < 2 ^ 63 -> - 2 ^ 63 <= d < 0 -> Forall (fun d' => 0 <= d' < 2 ^ 63) ds ->
  max (record_diffs (d :: ds) s) = d.
Proof.
  intros Hs Hd Hds. cbn [record_diffs fold_left].
  assert (E : max (record_diff (u64 d) s) = d).
  { cbn. rewrite (u64_id (max s)) by lia.
    assert (u64 d = d + 2 ^ 64) as ->.
    { unfold u64. rewrite <- (Z.mod_add d 1) by lia. rewrite Z.mod_small; lia. }
    rewrite (proj2 (Z.ltb_lt _ _)) by lia. unfold i64. rewrite <- (Z.mod_add _ (-1)) by lia.
    rewrite Z.mod_small; lia. }
  revert E. generalize (record_diff (u64 d) s) as s1.
  induction Hds as [|x ds Hx _ IH]; intros s1 E; [done|]. cbn. apply IH. cbn.
  rewrite E. rewrite (u64_id x) by lia.
  assert (u64 d = d + 2 ^ 64) as ->.
  { unfold u64. rewrite <- (Z.mod_add d 1) by lia. rewrite Z.mod_small; lia. }
  by rewrite (proj2 (Z.ltb_ge _ _)) by lia.
Qed.

Lemma early_wakeup_spoils_max_witness :
  max (record_diffs [-3; 52; 130] fresh_stat) = -3.
Proof.
  apply (early_wakeup_spoils_max fresh_stat (-3) [52; 130]).
  - vm_compute. split; [discriminate|reflexivity].
  - split; [discriminate|reflexivity].
  - repeat constructor; discriminate.
Defined.
