(* ===== verification/PacerThreads.v ===== *)
(** * udp_pacer: the timer thread, the main thread and the signal handler

    The interleavings of [timer_thread], the end of [main] and [sighand], one
    step per access to what they share: [shutdown_global], the statistics
    block ([thread->stats]) with its [thread_started], and the parameter block.
    [fault] records an access to a block that was freed. *)
From stdpp Require Import base list relations.
From Stdlib Require Import ZArith Lia.
From S2P Require Import Prelude.

#[local] Open Scope Z_scope.

(** Where the timer thread is. *)
Inductive timer_pc :=
| TNew       (** before [stat->thread_started++] *)
| TLoop      (** at the test of [shutdown_global] *)
| TSleep     (** in [clock_nanosleep] *)
| TWoken     (** awake: to update the statistics and send *)
| TPrint     (** after the loop: to print the statistics *)
| TMerr      (** at [shutdown_global = 1] *)
| TMark      (** at [stat->thread_started = -1] *)
| TDone.     (** returned, not yet joined or joined *)

(** Where [main] is, once the thread is created. *)
Inductive main_pc :=
| MWait      (** in [while (!shutdown_global)] *)
| MKill      (** at [if (thread->stats->thread_started > 0) pthread_kill(...)] *)
| MJoin      (** at [if (thread->stats->thread_started)] *)
| MJoining   (** in [pthread_join] *)
| MFreeStat  (** at [free(thread->stats)] *)
| MFreePar   (** at [free(thread)] *)
| MExit.     (** returned *)

Record sys := Sys {
  shutdown : bool;
  started : Z;
  stat_live : bool;
  par_live : bool;
  fault : bool;
  timer : timer_pc;
  mainp : main_pc
}.

(** [setup_pthread] has created the thread. *)
Definition initial : sys := Sys false 1 true true false TNew MWait.

(** The thread moves on to [pc], with the new [shutdown_global] and
    [thread_started], having used the blocks. *)
Definition t_move (pc : timer_pc) (sh : bool) (st : Z) (s : sys) : sys :=
  Sys sh st (stat_live s) (par_live s) (fault s || negb (stat_live s) || negb (par_live s)) pc (mainp s).

(** [main] moves on to [pc] after reading through [thread->stats]. *)
Definition m_read (pc : main_pc) (s : sys) : sys :=
  Sys (shutdown s) (started s) (stat_live s) (par_live s)
    (fault s || negb (stat_live s) || negb (par_live s)) (timer s) pc.

Definition m_move (pc : main_pc) (s : sys) : sys :=
  Sys (shutdown s) (started s) (stat_live s) (par_live s) (fault s) (timer s) pc.

(** A step of a thread. *)
Inductive step : sys -> sys -> Prop :=
(* timer_thread *)
| t_alloc_failed s : timer s = TNew -> step s (t_move TMerr (shutdown s) (started s) s)
| t_prio_failed s : timer s = TNew -> step s (t_move TMerr (shutdown s) (started s) s)
| t_start s : timer s = TNew -> step s (t_move TLoop (shutdown s) (started s + 1) s)
| t_again s : timer s = TLoop -> shutdown s = false ->
    step s (t_move TSleep (shutdown s) (started s) s)
| t_leave s : timer s = TLoop -> shutdown s = true ->
    step s (t_move TPrint (shutdown s) (started s) s)
| t_sleep_failed s : timer s = TSleep -> step s (t_move TMerr (shutdown s) (started s) s)
| t_wake s : timer s = TSleep -> step s (t_move TWoken (shutdown s) (started s) s)
| t_clock_failed s : timer s = TWoken -> step s (t_move TMerr (shutdown s) (started s) s)
| t_round s : timer s = TWoken -> step s (t_move TLoop (shutdown s) (started s) s)
| t_last s : timer s = TWoken -> step s (t_move TPrint (shutdown s) (started s) s)
| t_print s : timer s = TPrint -> step s (t_move TMerr (shutdown s) (started s) s)
| t_merr s : timer s = TMerr -> step s (t_move TMark true (started s) s)
| t_mark s : timer s = TMark -> step s (t_move TDone (shutdown s) (-1) s)
(* main *)
| m_wait s : mainp s = MWait -> shutdown s = false -> step s (m_move MWait s)
| m_leave s : mainp s = MWait -> shutdown s = true -> step s (m_move MKill s)
| m_kill s : mainp s = MKill -> step s (m_read MJoin s)
| m_join s : mainp s = MJoin -> started s <> 0 -> step s (m_read MJoining s)
| m_no_join s : mainp s = MJoin -> started s = 0 -> step s (m_read MFreeStat s)
| m_joined s : mainp s = MJoining -> timer s = TDone -> step s (m_move MFreeStat s)
| m_free_stat s : mainp s = MFreeStat ->
    step s (Sys (shutdown s) (started s) false (par_live s) (fault s || negb (stat_live s) || negb (par_live s))
              (timer s) MFreePar)
| m_free_par s : mainp s = MFreePar ->
    step s (Sys (shutdown s) (started s) (stat_live s) false (fault s || negb (par_live s)) (timer s) MExit).

(** The handler runs, on whichever thread. *)
Inductive signal : sys -> sys -> Prop :=
| s_signal s : mainp s <> MExit ->
    signal s (Sys true (started s) (stat_live s) (par_live s) (fault s) (timer s) (mainp s)).

Definition any_step (s s' : sys) : Prop := step s s' \/ signal s s'.

(** ** The invariant *)
Definition after_join (m : main_pc) : bool :=
  match m with MFreeStat | MFreePar | MExit => true | _ => false end.
Definition waiting (m : main_pc) : bool := match m with MWait => true | _ => false end.
Definition ended (t : timer_pc) : bool := match t with TDone => true | _ => false end.
Definition marked (t : timer_pc) : bool := match t with TMark | TDone => true | _ => false end.

Definition inv (s : sys) : Prop :=
  fault s = false /\
  implb (after_join (mainp s)) (ended (timer s)) = true /\
  stat_live s = (match mainp s with MFreePar | MExit => false | _ => true end) /\
  par_live s = (match mainp s with MExit => false | _ => true end) /\
  (if ended (timer s) then started s = -1 else 1 <= started s) /\
  implb (negb (waiting (mainp s))) (shutdown s) = true /\
  implb (marked (timer s)) (shutdown s) = true.

Lemma inv_initial : inv initial.
Proof. by split_and!. Qed.

Lemma inv_step s s' : inv s -> any_step s s' -> inv s'.
Proof.
  intros (Hf & Hj & Hsl & Hpl & Hst & Hw & Hm) [Hs|Hs]; destruct Hs;
    destruct s as [sh st sl pl f t m]; unfold inv; cbn in *; subst; cbn in *;
    try (destruct m; cbn in *; try discriminate); try (destruct t; cbn in *; try discriminate);
    split_and!; first [done|lia].
Qed.

Definition reachable (s : sys) : Prop := rtc any_step initial s.

Lemma inv_reachable s : reachable s -> inv s.
Proof.
  unfold reachable. intros H. pattern s. revert s H.
  apply rtc_ind_r; [apply inv_initial|]. eauto using inv_step.
Qed.

(** ** After shutdown *)
Definition timer_rank (t : timer_pc) : nat :=
  match t with
  | TNew => 7 | TSleep => 6 | TWoken => 5 | TLoop => 4 | TPrint => 3 | TMerr => 2 | TMark => 1 | TDone => 0
  end.
Definition main_rank (m : main_pc) : nat :=
  match m with
  | MWait => 6 | MKill => 5 | MJoin => 4 | MJoining => 3 | MFreeStat => 2 | MFreePar => 1 | MExit => 0
  end.
Definition rank (s : sys) : nat := timer_rank (timer s) + main_rank (mainp s).

Lemma step_rank s s' : shutdown s = true -> step s s' -> shutdown s' = true /\ (rank s' < rank s)%nat.
Proof.
  intros Hsh Hs. destruct Hs; destruct s as [sh st sl pl f t m]; unfold rank; cbn in *; subst;
    cbn; try discriminate; split; first [done|lia].
Qed.

Lemma progress s : inv s -> mainp s <> MExit -> exists s', step s s'.
Proof.
  intros (_ & Hj & _ & _ & Hst & Hw & _) Hm.
  destruct (timer s) eqn:Et.
  - eexists. by apply t_start.
  - destruct (shutdown s) eqn:Es; eexists; [by apply t_leave|by apply t_again].
  - eexists. by apply t_wake.
  - eexists. by apply t_round.
  - eexists. by apply t_print.
  - eexists. by apply t_merr.
  - eexists. by apply t_mark.
  - destruct (mainp s) eqn:Em; try (destruct (shutdown s) eqn:Es); try done; eexists;
      first [by apply m_leave|by apply m_wait|by apply m_kill|by apply m_joined|
             by apply m_free_stat|by apply m_free_par|apply m_join; [done|cbn in Hst; lia]].
Qed.

(** C14: no interleaving of the timer thread, [main] and signals uses the
    statistics or the parameters after they are freed, or frees them twice; when
    [main] has returned both are freed and the thread has ended. *)
Theorem pacer_no_use_after_free (s : sys) :
  reachable s ->
  fault s = false /\
  (mainp s = MExit -> stat_live s = false /\ par_live s = false /\ timer s = TDone).
Proof.
  intros (Hf & Hj & Hsl & Hpl & _)%inv_reachable. split; [done|]. intros Hm.
  rewrite Hm in *. split_and!; [done|done|]. cbn in Hj. by destruct (timer s).
Qed.

(** A run: the thread starts and sleeps, a signal arrives, [main] sees it. *)
Lemma example_run_reachable : reachable (Sys true 2 true true false TMerr MJoin).
Proof.
  unfold reachable.
  eapply rtc_l; [left; by apply t_start|]. eapply rtc_l; [left; by apply t_again|].
  eapply rtc_l; [right; by apply s_signal|]. eapply rtc_l; [left; by apply m_leave|].
  eapply rtc_l; [left; by apply t_sleep_failed|]. eapply rtc_l; [left; by apply m_kill|].
  apply rtc_refl.
Qed.

Lemma pacer_no_use_after_free_witness :
  fault (Sys true 2 true true false TMerr MJoin) = false /\
  (MJoin = MExit -> true = false /\ true = false /\ TMerr = TDone).
Proof.
  apply (pacer_no_use_after_free (Sys true 2 true true false TMerr MJoin)).
  apply example_run_reachable.
Defined.

(** C15: once [shutdown_global] is set the program ends: every run of the two
    threads takes at most 13 more steps, never gets stuck before [main]
    returns, and so ends with [main] having returned. *)
Theorem pacer_shutdown_terminates (s : sys) :
  reachable s -> shutdown s = true ->
  (forall n s', nsteps step n s s' -> (n <= rank s)%nat) /\ (rank s <= 13)%nat /\
  (forall s', rtc step s s' -> (forall s'', ~ step s' s'') -> mainp s' = MExit).
Proof.
  intros Hr Hsh. split_and!.
  - intros n s' H. clear Hr. induction H as [s|n s1 s2 s3 H12 _ IH]; [lia|].
    destruct (step_rank s1 s2 Hsh H12) as [Hsh2 Hlt]. specialize (IH Hsh2). lia.
  - unfold rank. destruct (timer s), (mainp s); cbn; lia.
  - intros s' H Hstuck.
    assert (Hr' : reachable s').
    { unfold reachable in *. etrans; [exact Hr|]. eapply rtc_subrel; [|exact H]. by left. }
    destruct (mainp s') eqn:Em; [..|done]; exfalso;
      destruct (progress s' (inv_reachable s' Hr')) as [s'' Hs'']; try congruence; by eapply Hstuck.
Qed.

Lemma pacer_shutdown_terminates_witness :
  let s := Sys true 2 true true false TMerr MJoin in
  (forall n s', nsteps step n s s' -> (n <= 6)%nat) /\ (6 <= 13)%nat /\
  (forall s', rtc step s s' -> (forall s'', ~ step s' s'') -> mainp s' = MExit).
Proof.
  apply (pacer_shutdown_terminates (Sys true 2 true true false TMerr MJoin)).
  - apply example_run_reachable.
  - reflexivity.
Defined.
