(* ===== verification/ArrayCompare.v ===== *)
(** * array_compare01.c: ways to search a small array, timed

    The array [a] and the value [match] are static variables: the state of
    the monad.  An access outside the array is undefined. *)
From stdpp Require Import base list gmap strings.
From Stdlib Require Import ZArith Lia.
From S2P Require Import Prelude.
From S2P Require Import CLang.
From S2P Require Import Wp.
From S2P Require Import Libc.
From S2P Require Import Common.

#[local] Open Scope Z_scope.
#[local] Open Scope c_scope.

Definition LOOPS : Z := 10000000 * 10.
Definition N : Z := 2.

Record entry := Entry { data : Z; garbage1 : Z }.
Record statics := Statics { a : list entry; match_ : Z }.

Definition initial_statics : statics := Statics (replicate (Z.to_nat N) (Entry 0 0)) 104.

(** [my_min(x, y)] on [int]: a minimum without branches. *)
Definition my_min (x y : Z) : Z := Z.lxor y (Z.land (Z.lxor x y) (- of_bool (x <? y))).

Section ArrayCompare.
Context {K : Kernel}.
#[local] Abbreviation M := (M statics).

(** [a[i].data] *)
Definition a_data (i : Z) : M Z :=
  s <- get_st ;;
  if i <? 0 then undefined OutOfBounds
  else match a s !! Z.to_nat i with
       | Some e => ret (data e)
       | None => undefined OutOfBounds
       end.

(** [a[i].data = v] *)
Definition set_a_data (i v : Z) : M unit :=
  s <- get_st ;;
  if i <? 0 then undefined OutOfBounds
  else match a s !! Z.to_nat i with
       | Some e => put_st (Statics (<[Z.to_nat i := Entry v (garbage1 e)]> (a s)) (match_ s))
       | None => undefined OutOfBounds
       end.

Definition array_index_match01 (m : Z) : M Z :=
  iter (Datatypes.S (Z.to_nat N))
    (fun i =>
       if i <? N then
         d <- a_data i ;;
         if d =? m then ret (inr i) else ret (inl (i + 1))
       else ret (inr (-1)))
    0.

Definition array_index_match02 (m : Z) : M Z :=
  iter (Datatypes.S (Z.to_nat N))
    (fun i =>
       if i <? N then
         d <- a_data i ;;
         if Z.lxor d m =? 0 then ret (inr i) else ret (inl (i + 1))
       else ret (inr (-1)))
    0.

Definition array_index_match03 (m : Z) : M Z :=
  iter (Datatypes.S (Z.to_nat N))
    (fun '(i, res) =>
       if i <? N then
         d <- a_data i ;;
         let ax := i32 (Z.lxor d m) in
         ret (inl (i + 1, my_min res ax))
       else ret (inr res))
    (0, 0xfffff).

(** Start search from a specific index *)
Definition array_index_match04 (m index : Z) : M Z :=
  iter (Datatypes.S (Z.to_nat N))
    (fun '(i, index) =>
       if i <? N then
         d <- a_data index ;;
         if d =? m then ret (inr index)
         else
           index' <- int_check (index + 1) ;;
           ret (inl (i + 1, if N <? index then 0 else index'))
       else ret (inr (-1)))
    (0, index).

Definition array_index_match05 (m index : Z) : M Z :=
  iter (Datatypes.S (Z.to_nat N))
    (fun '(i, index) =>
       if i <? N then
         let index := if N <? index then 0 else index in
         d <- a_data index ;;
         if d =? m then ret (inr index)
         else
           index' <- int_check (index + 1) ;;
           ret (inl (i + 1, index'))
       else ret (inr (-1)))
    (0, index).

(** [printf("match index[%d]\n", res); return j;] *)
Definition report (out : Z * Z * markers) : M (Z * markers) :=
  printf "match index[%d]\n" [AInt out.1.2] ;;
  ret (out.1.1, out.2).

Definition get_match : M Z := s <- get_st ;; ret (match_ s).

Definition measure01 (loops : Z) : M (Z * markers) :=
  out <- timed_loop loops (fun _ _ => m <- get_match ;; array_index_match01 m) (-1) ;;
  report out.

Definition measure02 (loops : Z) : M (Z * markers) :=
  out <- timed_loop loops (fun _ _ => m <- get_match ;; array_index_match02 m) (-1) ;;
  report out.

Definition measure03 (loops : Z) : M (Z * markers) :=
  out <- timed_loop loops (fun _ _ => m <- get_match ;; array_index_match03 m) (-1) ;;
  report out.

Definition measure04_last_index_search (loops : Z) : M (Z * markers) :=
  out <- timed_loop loops
           (fun _ last_index => m <- get_match ;; array_index_match04 m last_index) 0 ;;
  report out.

Definition last_index_round (last_index : Z) : M Z :=
  m <- get_match ;;
  d <- a_data last_index ;;
  last_index' <- (if negb (d =? m) then array_index_match05 m last_index else ret last_index) ;;
  int_check (last_index' + 1).

Definition measure05_last_index_search (loops : Z) : M (Z * markers) :=
  out <- timed_loop loops (fun _ last_index => last_index_round last_index) 0 ;;
  report out.

Definition measure_cmp (loops : Z) : M (Z * markers) :=
  out <- timed_loop loops (fun j _ => m <- get_match ;; ret (of_bool (m =? u64 j))) (-1) ;;
  report out.

Definition measure0Z (loops : Z) : M (Z * markers) :=
  let m1 := 1234 in
  let m2 := 123456 in
  m <- get_match ;;
  let m3 := i32 m in
  out <- timed_loop loops
           (fun j res =>
              ret (if m1 =? j then j else if m2 =? j then j else if m3 =? j then j else res)) 0 ;;
  when (truth out.1.2) (printf "match index[%d]\n" [AInt out.1.2]) ;;
  ret (out.1.1, out.2).

(** The array as [main] sets it up. *)
Definition init_array : M unit :=
  iter (Datatypes.S (Z.to_nat N))
    (fun i =>
       if i <? N then set_a_data i (1000 + i) ;; ret (inl (i + 1))
       else ret (inr tt))
    0 ;;
  m <- get_match ;;
  set_a_data (N - 1) m.

Definition main : M Z :=
  printf "Array size: %d\n" [AInt N] ;;
  init_array ;;
  printf "Measuring 0A\n" [] ;;
  time_func LOOPS measure01 ;;
  printf "Measuring 0B\n" [] ;;
  time_func LOOPS measure02 ;;
  printf "Measuring 0C\n" [] ;;
  time_func LOOPS measure03 ;;
  printf "Measuring 0D_last_index_search\n" [] ;;
  time_func LOOPS measure04_last_index_search ;;
  printf "Measuring 0E_last_index_search\n" [] ;;
  time_func LOOPS measure05_last_index_search ;;
  printf "Measuring CMP\n" [] ;;
  time_func LOOPS measure_cmp ;;
  printf "Measuring 0Z\n" [] ;;
  time_func LOOPS measure0Z ;;
  ret 0.
End ArrayCompare.
