(* ===== verification/ArrayCompareProps.v ===== *)
(** * array_compare01: what the searches return, and where they go wrong *)
From stdpp Require Import base list gmap strings.
From Stdlib Require Import ZArith Lia.
From S2P Require Import Prelude.
From S2P Require Import CLang.
From S2P Require Import Wp.
From S2P Require Import Common.
From S2P Require Import Tame.
From S2P Require Import Scripted.
From S2P Require Import ArrayCompare.

#[local] Open Scope Z_scope.
#[local] Open Scope c_scope.

(** ** Bits *)
Lemma my_min_spec x y : my_min x y = Z.min x y.
Proof.
  unfold my_min, of_bool. destruct (Z.ltb_spec x y).
  - change (- (1)) with (-1). rewrite Z.land_m1_r, Z.lxor_comm, Z.lxor_assoc, Z.lxor_nilpotent, Z.lxor_0_r. lia.
  - change (- 0) with 0. rewrite Z.land_0_r, Z.lxor_0_r. lia.
Qed.

Section Search.
Context {K : Kernel}.
#[local] Abbreviation W := (world statics).
Implicit Types (w : W) (m : Z).

Definition is_match (m : Z) (e : entry) : Prop := data e = m.
#[local] Instance is_match_dec m e : Decision (is_match m e) := decide (data e = m).

(** The index of the first match, counted from [from]. *)
Definition first_match (m : Z) (l : list entry) (from : nat) : option Z :=
  (fun x => Z.of_nat (from + x.1)) <$> list_find (is_match m) (drop from l).

Lemma first_match_hit m l i e :
  l !! i = Some e -> data e = m -> first_match m l i = Some (Z.of_nat i).
Proof.
  intros Hl He. unfold first_match. rewrite (drop_S _ _ _ Hl). cbn. rewrite decide_True by done.
  cbn. do 2 f_equal. lia.
Qed.

Lemma first_match_miss m l i e :
  l !! i = Some e -> data e <> m -> first_match m l i = first_match m l (Datatypes.S i).
Proof.
  intros Hl He. unfold first_match. rewrite (drop_S _ _ _ Hl). cbn. rewrite decide_False by done.
  destruct (list_find _ _) as [[j x]|]; [cbn|done]. do 2 f_equal. lia.
Qed.

Lemma first_match_end m l i : (length l <= i)%nat -> first_match m l i = None.
Proof. intros H. unfold first_match. by rewrite drop_ge. Qed.

Lemma a_data_at w (i : nat) e : a (w_st w) !! i = Some e -> a_data (Z.of_nat i) w = Ret (data e) w.
Proof.
  intros He. unfold a_data, get_st, bind. rewrite (proj2 (Z.ltb_ge _ _)) by lia. by rewrite Nat2Z.id, He.
Qed.

Lemma a_data_out w i :
  i < 0 \/ Z.of_nat (length (a (w_st w))) <= i -> a_data i w = Undef OutOfBounds w.
Proof.
  intros H. unfold a_data, get_st, bind. destruct (Z.ltb_spec i 0); [done|].
  rewrite (proj2 (lookup_ge_None _ _)); [done|lia].
Qed.

(** The loop of the first two searches, with the test they share. *)
Lemma search_spec w m (test : Z -> bool) :
  (forall d, test d = true <-> d = m) -> length (a (w_st w)) = Z.to_nat N ->
  forall k i : nat, (i + k = Z.to_nat N)%nat ->
  iter (Datatypes.S k)
    (fun i => if i <? N then d <- a_data i ;; if test d then ret (inr i) else ret (inl (i + 1))
              else ret (inr (-1)))%c (Z.of_nat i) w
  = Ret (default (-1) (first_match m (a (w_st w)) i)) w.
Proof.
  intros Ht Hlen k. induction k as [|k IH]; intros i Hi; rewrite iter_S; unfold bind at 1.
  - rewrite (proj2 (Z.ltb_ge _ _)) by lia. by rewrite first_match_end by lia.
  - rewrite (proj2 (Z.ltb_lt _ _)) by lia.
    destruct (lookup_lt_is_Some_2 (a (w_st w)) i) as [e He]; [lia|].
    unfold bind at 1. rewrite (a_data_at _ _ _ He). specialize (Ht (data e)).
    destruct (test (data e)).
    + by rewrite (first_match_hit _ _ _ _ He) by tauto.
    + cbn. replace (Z.of_nat i + 1) with (Z.of_nat (Datatypes.S i)) by lia.
      rewrite (first_match_miss _ _ _ _ He) by (intros E; by apply Ht in E). apply IH. lia.
Qed.

Lemma match01_spec w m :
  length (a (w_st w)) = Z.to_nat N ->
  array_index_match01 m w = Ret (default (-1) (first_match m (a (w_st w)) 0)) w.
Proof.
  intros H. apply (search_spec w m (fun d => d =? m)) with (i := 0%nat); [|done|lia].
  intros d. apply Z.eqb_eq.
Qed.

Lemma match02_spec w m :
  length (a (w_st w)) = Z.to_nat N ->
  array_index_match02 m w = Ret (default (-1) (first_match m (a (w_st w)) 0)) w.
Proof.
  intros H. apply (search_spec w m (fun d => Z.lxor d m =? 0)) with (i := 0%nat); [|done|lia].
  intros d. rewrite Z.eqb_eq. apply Z.lxor_eq_0_iff.
Qed.

(** The searches from an index: [reset] is where the code tests for the
    end of the array, which an index within it never triggers. *)
Lemma search_from_spec w m (body : Z * Z -> M statics (Z * Z + Z)) :
  length (a (w_st w)) = Z.to_nat N ->
  (forall i j : nat, (j <= Z.to_nat N)%nat ->
     body (Z.of_nat i, Z.of_nat j) =
     (if Z.of_nat i <? N then
        d <- a_data (Z.of_nat j) ;;
        if d =? m then ret (inr (Z.of_nat j)) else ret (inl (Z.of_nat i + 1, Z.of_nat j + 1))
      else ret (inr (-1)))%c) ->
  forall k i j : nat, (i + k = Z.to_nat N)%nat -> (i <= j <= Z.to_nat N)%nat ->
  iter (Datatypes.S k) body (Z.of_nat i, Z.of_nat j) w
  = match first_match m (a (w_st w)) j with
    | Some r => Ret r w
    | None => if decide (i = j) then Ret (-1) w else Undef OutOfBounds w
    end.
Proof.
  intros Hlen Hb k. induction k as [|k IH]; intros i j Hi Hj; rewrite iter_S, Hb by lia.
  - rewrite (proj2 (Z.ltb_ge _ _)) by lia. rewrite first_match_end by lia.
    rewrite decide_True by lia. done.
  - rewrite (proj2 (Z.ltb_lt _ _)) by lia. unfold bind at 1 2.
    destruct (decide (j = Z.to_nat N)) as [->|Hne].
    + rewrite a_data_out by lia. rewrite first_match_end, decide_False by lia. done.
    + destruct (lookup_lt_is_Some_2 (a (w_st w)) j) as [e He]; [lia|].
      rewrite (a_data_at _ _ _ He). destruct (Z.eqb_spec (data e) m) as [E|E].
      * by rewrite (first_match_hit _ _ _ _ He E).
      * cbn [ret]. replace (Z.of_nat i + 1) with (Z.of_nat (Datatypes.S i)) by lia.
        replace (Z.of_nat j + 1) with (Z.of_nat (Datatypes.S j)) by lia.
        rewrite (first_match_miss _ _ _ _ He E). cbv beta iota. rewrite IH by lia.
        repeat case_decide; done || lia.
Qed.

(** What a search from an index yields: the first match from there on; with
    none, -1 from index 0 and an access beyond the array otherwise. *)
Definition search_from (m : Z) (index : nat) (w : W) : outcome W Z :=
  match first_match m (a (w_st w)) index with
  | Some r => Ret r w
  | None => if decide (index = 0%nat) then Ret (-1) w else Undef OutOfBounds w
  end.

Lemma int_check_small (j : nat) : (j <= Z.to_nat N)%nat ->
  @int_check K statics (Z.of_nat j + 1) = ret (Z.of_nat j + 1).
Proof.
  intros Hj. unfold int_check. assert (N = 2) by done.
  rewrite (proj2 (Z.leb_le _ _)), (proj2 (Z.leb_le _ _)); unfold INT_MIN, INT_MAX; done || lia.
Qed.

Lemma match04_spec w m (index : nat) :
  length (a (w_st w)) = Z.to_nat N -> (index < Z.to_nat N)%nat ->
  array_index_match04 m (Z.of_nat index) w = search_from m index w.
Proof.
  intros Hlen Hi. unfold array_index_match04, search_from. change 0 with (Z.of_nat 0).
  rewrite (search_from_spec w m) by (try lia; intros i j Hj; cbv beta iota;
    rewrite int_check_small, (proj2 (Z.ltb_ge N _)) by lia; done).
  repeat case_decide; done || lia.
Qed.

Lemma match05_spec w m (index : nat) :
  length (a (w_st w)) = Z.to_nat N -> (index < Z.to_nat N)%nat ->
  array_index_match05 m (Z.of_nat index) w = search_from m index w.
Proof.
  intros Hlen Hi. unfold array_index_match05, search_from. change 0 with (Z.of_nat 0).
  rewrite (search_from_spec w m) by (try lia; intros i j Hj; cbv beta iota zeta;
    rewrite (proj2 (Z.ltb_ge N _)), int_check_small by lia; done).
  repeat case_decide; done || lia.
Qed.

(** [array_index_match03]: the minimum over the array. *)
Definition min_diff (m : Z) (l : list entry) (start : Z) : Z :=
  foldl Z.min start ((fun e => i32 (Z.lxor (data e) m)) <$> l).

Lemma match03_spec w m :
  length (a (w_st w)) = Z.to_nat N ->
  array_index_match03 m w = Ret (min_diff m (a (w_st w)) 0xfffff) w.
Proof.
  intros Hlen. unfold array_index_match03.
  enough (H : forall k (i : nat) res, (i + k = Z.to_nat N)%nat ->
    iter (Datatypes.S k)
      (fun '(i, res) => if i <? N then d <- a_data i ;; ret (inl (i + 1, my_min res (i32 (Z.lxor d m))))
                        else ret (inr res))%c (Z.of_nat i, res) w
    = Ret (min_diff m (drop i (a (w_st w))) res) w) by (apply (H _ 0%nat); lia).
  intros k. induction k as [|k IH]; intros i res Hi; rewrite iter_S; unfold bind at 1.
  - rewrite (proj2 (Z.ltb_ge _ _)) by lia. by rewrite drop_ge by lia.
  - rewrite (proj2 (Z.ltb_lt _ _)) by lia.
    destruct (lookup_lt_is_Some_2 (a (w_st w)) i) as [e He]; [lia|].
    unfold bind at 1. rewrite (a_data_at _ _ _ He), (drop_S _ _ _ He). cbn [ret].
    replace (Z.of_nat i + 1) with (Z.of_nat (Datatypes.S i)) by lia.
    rewrite IH, my_min_spec by lia. done.
Qed.

Lemma min_diff_le m l s : min_diff m l s <= s.
Proof.
  revert s. induction l as [|e l IH]; intros s; [cbn; lia|]. cbn.
  specialize (IH (Z.min s (i32 (Z.lxor (data e) m)))). unfold min_diff in IH. lia.
Qed.

Lemma min_diff_match m l s e : e ∈ l -> data e = m -> min_diff m l s <= 0.
Proof.
  revert s. induction l as [|x l IH]; intros s Hin He; [by apply elem_of_nil in Hin|].
  apply elem_of_cons in Hin as [->|Hin].
  - unfold min_diff. cbn. rewrite He, Z.lxor_nilpotent. change (i32 0) with 0.
    pose proof (min_diff_le m l (Z.min s 0)). unfold min_diff in *. lia.
  - unfold min_diff in *. cbn. by apply IH.
Qed.
End Search.

(** ** The measurements *)
Section Measure.
Context {K : Kernel}.
Variable st : statics.
#[local] Abbreviation W := (world statics).

Definition state_is (w : W) : Prop := w_st w = st.

#[local] Instance state_is_stable : Stable state_is.
Proof. split; intros; done. Qed.

#[local] Abbreviation tame := (tame False state_is [EXIT_FAIL_TIME]).

(** A search that leaves the world alone. *)
Lemma tame_run {A} (m : M statics A) (P : A -> Prop) :
  (forall w, w_st w = st -> exists r, m w = Ret r w /\ P r) -> tame m P.
Proof. intros H w Hw. destruct (H w Hw) as (r & E & HP). unfold wpg. by rewrite E. Qed.

(** A measurement that reports its last state. *)
Lemma tame_measure loops (body : Z -> Z -> M statics Z) s0 (P : Z -> Prop) :
  0 <= loops -> P s0 -> (forall j s, P s -> tame (body j s) P) ->
  tame (out <- timed_loop loops body s0 ;; report out)%c (fun out => out.1 = loops).
Proof.
  intros Hl H0 Hb. eapply tame_bind; [by apply tame_timed_loop; auto with tame typeclass_instances|]. intros [[j s] mk] [Hj _].
  unfold report. tame_step. by apply tame_ret.
Qed.

Lemma tame_search (f : Z -> M statics Z) (P : Z -> Prop) :
  (forall w, w_st w = st -> exists r, f (match_ st) w = Ret r w /\ P r) ->
  tame (m <- get_match ;; f m)%c P.
Proof.
  intros H. apply tame_run. intros w Hw. destruct (H w Hw) as (r & E & HP). exists r.
  unfold bind, get_match, get_st, ret. cbn. rewrite Hw. done.
Qed.
End Measure.

(** ** The whole program *)

(** The statics once [main] has set the array up. *)
Definition main_statics : statics := Statics [Entry 1000 0; Entry 104 0] 104.

(** A computation that always ends in an access out of bounds, or exits with
    one of [codes] before. *)
Definition doomed {K : Kernel} {S A} (codes : list Z) (m : M S A) (w : world S) : Prop :=
  match m w with
  | Exit c _ => In c codes
  | Undef u _ => u = OutOfBounds
  | Ret _ _ | NoFuel => False
  end.

Section Doomed.
Context {K : Kernel}.

Lemma doomed_head {S A B} codes (m : M S A) (f : A -> M S B) w :
  doomed codes m w -> doomed codes (bind m f) w.
Proof. unfold doomed, bind. by destruct (m w). Qed.

Lemma doomed_tail {S A B} (I : world S -> Prop) codes (m : M S A) (f : A -> M S B) P w :
  tame False I codes m P -> I w -> (forall a w', I w' -> P a -> doomed codes (f a) w') ->
  doomed codes (bind m f) w.
Proof.
  intros Hm Hw Hf. specialize (Hm w Hw). unfold doomed, bind, wpg in *.
  destruct (m w) as [x w'|c w'|u w'|]; try done. destruct Hm. by apply Hf.
Qed.

#[local] Abbreviation main_state := (state_is main_statics).

#[local] Instance main_state_stable : Stable main_state.
Proof. split; intros; done. Qed.

Lemma main_length (w : world statics) : w_st w = main_statics -> length (a (w_st w)) = Z.to_nat N.
Proof. by intros ->. Qed.

(** The array has two elements. *)
Ltac in_main := first [by apply main_length | change (Z.to_nat N) with 2%nat; lia].

(** The last measurement of an index: its first round goes beyond the match,
    its second reads [a[2]]. *)
Lemma last_index_first (w : world statics) : w_st w = main_statics -> last_index_round 0 w = Ret 2 w.
Proof.
  intros Hw. unfold last_index_round, get_match, get_st, bind, ret. rewrite Hw.
  change 0 with (Z.of_nat 0). rewrite (a_data_at w 0 (Entry 1000 0)) by (by rewrite Hw).
  cbn [match_ main_statics data]. change (negb (1000 =? 104)) with true. cbv iota.
  rewrite match05_spec by in_main.
  unfold search_from. by rewrite Hw.
Qed.

Lemma last_index_second (w : world statics) : w_st w = main_statics -> last_index_round 2 w = Undef OutOfBounds w.
Proof.
  intros Hw. unfold last_index_round, get_match, get_st, bind, ret.
  rewrite a_data_out; [done|right]. rewrite Hw. done.
Qed.

Lemma measure05_doomed loops (w : world statics) :
  2 <= loops -> w_st w = main_statics ->
  doomed [EXIT_FAIL_TIME] (measure05_last_index_search loops) w.
Proof.
  intros Hl Hw. unfold measure05_last_index_search. apply doomed_head. unfold timed_loop.
  eapply (doomed_tail main_state);
    [eapply tame_any, tame_gettime; auto with tame typeclass_instances|done|].
  intros t0 w1 Hw1 _. eapply (doomed_tail main_state); [eauto with tame typeclass_instances|done|].
  intros c0 w2 Hw2 _. apply doomed_head. unfold state_is in Hw2.
  replace (Z.to_nat loops) with (Datatypes.S (Z.to_nat (loops - 1))) by lia.
  unfold doomed. rewrite iter_S. unfold bind at 1. rewrite (proj2 (Z.ltb_lt 0 _)) by lia.
  unfold bind at 1. rewrite (last_index_first _ Hw2). cbv beta iota delta [ret].
  rewrite iter_S. unfold bind at 1. rewrite (proj2 (Z.ltb_lt _ _)) by lia.
  unfold bind at 1. rewrite (last_index_second _ Hw2). done.
Qed.

Lemma measure_doomed (w : world statics) :
  w_st w = main_statics -> doomed [EXIT_FAIL_TIME] (time_func LOOPS measure05_last_index_search) w.
Proof. intros Hw. apply doomed_head. by apply measure05_doomed. Qed.

(** The four measurements before it end. *)
Definition measures (f : Z -> M statics (Z * markers)) : Prop :=
  tame False main_state [EXIT_FAIL_TIME] (f LOOPS) (fun out => out.1 = LOOPS).

Lemma measure01_ends : measures measure01.
Proof.
  apply (tame_measure _ _ _ _ (fun _ => True)); [done..|]. intros j s _. apply tame_search.
  intros w Hw. rewrite match01_spec by by apply main_length. eauto.
Qed.

Lemma measure02_ends : measures measure02.
Proof.
  apply (tame_measure _ _ _ _ (fun _ => True)); [done..|]. intros j s _. apply tame_search.
  intros w Hw. rewrite match02_spec by by apply main_length. eauto.
Qed.

Lemma measure03_ends : measures measure03.
Proof.
  apply (tame_measure _ _ _ _ (fun _ => True)); [done..|]. intros j s _. apply tame_search.
  intros w Hw. rewrite match03_spec by by apply main_length. eauto.
Qed.

Lemma measure04_ends : measures measure04_last_index_search.
Proof.
  apply (tame_measure _ _ _ _ (fun s => s = 0 \/ s = 1)); [done|by left|]. intros j s Hs.
  apply (tame_search _ (fun m => array_index_match04 m s)).
  intros w Hw. exists 1. split; [|by right].
  destruct Hs as [-> | ->]; [change 0 with (Z.of_nat 0)|change (array_index_match04 (match_ main_statics) 1) with
    (@array_index_match04 K (match_ main_statics) (Z.of_nat 1))];
    rewrite match04_spec by in_main; unfold search_from; by rewrite Hw.
Qed.

Lemma doomed_print {A} fmt args (k : M statics A) (w : world statics) :
  main_state w -> (forall w', main_state w' -> doomed [EXIT_FAIL_TIME] k w') ->
  doomed [EXIT_FAIL_TIME] (printf fmt args ;; k) w.
Proof. intros Hw Hk. eapply (doomed_tail main_state); [apply tame_printf, main_state_stable|done|auto]. Qed.

Lemma doomed_measure {A} f (k : M statics A) (w : world statics) :
  measures f -> main_state w -> (forall w', main_state w' -> doomed [EXIT_FAIL_TIME] k w') ->
  doomed [EXIT_FAIL_TIME] (time_func LOOPS f ;; k) w.
Proof.
  intros Hf Hw Hk. eapply (doomed_tail main_state); [|exact Hw|auto].
  apply tame_time_func; [apply main_state_stable|done|exact Hf].
Qed.

Lemma main_doomed (w : world statics) :
  w_st w = initial_statics -> doomed [EXIT_FAIL_TIME] main w.
Proof.
  intros Hw. unfold main. unfold doomed, bind at 1. cbn [print printf].
  assert (Hi : forall w : world statics, w_st w = initial_statics -> init_array w = Ret tt (w_set_st main_statics w)).
  { intros [k m n l o v s] E. cbn in E. subst s. reflexivity. }
  unfold bind at 1. rewrite Hi by done.
  set (w1 := w_set_st _ _). assert (H1 : main_state w1) by done. clearbody w1. clear w Hw Hi.
  lazymatch goal with |- match ?m _ with _ => _ end => change (doomed [EXIT_FAIL_TIME] m w1) end.
  eapply doomed_print; [eassumption|clear dependent w1; intros w1 H1].
  eapply doomed_measure; [apply measure01_ends|eassumption|clear dependent w1; intros w1 H1].
  eapply doomed_print; [eassumption|clear dependent w1; intros w1 H1].
  eapply doomed_measure; [apply measure02_ends|eassumption|clear dependent w1; intros w1 H1].
  eapply doomed_print; [eassumption|clear dependent w1; intros w1 H1].
  eapply doomed_measure; [apply measure03_ends|eassumption|clear dependent w1; intros w1 H1].
  eapply doomed_print; [eassumption|clear dependent w1; intros w1 H1].
  eapply doomed_measure; [apply measure04_ends|eassumption|clear dependent w1; intros w1 H1].
  eapply doomed_print; [eassumption|intros w2 H2].
  apply doomed_head. by apply measure_doomed.
Qed.
End Doomed.

(** ** The properties *)

(** C27: [array_index_match01] and [array_index_match02] agree: both return
    the index of the first entry that holds the value, or -1 when none does,
    and change nothing. *)
Theorem array_index_match_first (K : Kernel) (w : world statics) (m : Z) :
  length (a (w_st w)) = Z.to_nat N ->
  let r := match list_find (fun e => data e = m) (a (w_st w)) with
           | Some (i, _) => Z.of_nat i
           | None => -1
           end in
  array_index_match01 m w = Ret r w /\ array_index_match02 m w = Ret r w.
Proof.
  intros H. rewrite match01_spec, match02_spec by done. unfold first_match. rewrite drop_0.
  cbv zeta. by destruct (list_find _ _) as [[i e]|].
Qed.

Definition example_array : world statics :=
  start [] (Statics [Entry 7 0; Entry 104 0] 104).

Lemma array_index_match_first_witness :
  array_index_match01 104 example_array = Ret 1 example_array /\
  array_index_match02 104 example_array = Ret 1 example_array.
Proof. apply (array_index_match_first scripted example_array 104). reflexivity. Defined.

(** [array_index_match03] does not return an index: it returns the least
    of 0xfffff and the low 32 bits, as [int], of each entry xor the value; so 0
    or less as soon as any entry matches, wherever it is. *)
Theorem array_index_match03_no_index (K : Kernel) (w : world statics) (m : Z) :
  length (a (w_st w)) = Z.to_nat N ->
  let r := foldl Z.min 0xfffff ((fun e => i32 (Z.lxor (data e) m)) <$> a (w_st w)) in
  array_index_match03 m w = Ret r w /\ (forall e, e ∈ a (w_st w) -> data e = m -> r <= 0).
Proof.
  intros H. cbv zeta. split; [by apply match03_spec|]. intros e. apply min_diff_match.
Qed.

Lemma array_index_match03_no_index_witness :
  array_index_match03 104 example_array = Ret 0 example_array.
Proof. apply (array_index_match03_no_index scripted example_array 104). reflexivity. Defined.

(** C28: the searches that start from an index, [array_index_match04] and
    [array_index_match05], return the first match from there on.  They never
    wrap around within the array: with no match from there on they return -1
    when started at 0, and read beyond the array when started after it. *)
Theorem array_index_match_from (K : Kernel) (w : world statics) (m : Z) (index : nat) :
  length (a (w_st w)) = Z.to_nat N -> (index < Z.to_nat N)%nat ->
  let r := match list_find (fun e => data e = m) (drop index (a (w_st w))) with
           | Some (i, _) => Ret (Z.of_nat (index + i)) w
           | None => if decide (index = 0%nat) then Ret (-1) w else Undef OutOfBounds w
           end in
  array_index_match04 m (Z.of_nat index) w = r /\ array_index_match05 m (Z.of_nat index) w = r.
Proof.
  intros Hl Hi. rewrite match04_spec, match05_spec by done. unfold search_from, first_match. cbv zeta.
  by destruct (list_find _ _) as [[i e]|].
Qed.

Lemma array_index_match_from_witness :
  array_index_match04 7 1 example_array = Undef OutOfBounds example_array /\
  array_index_match05 7 1 example_array = Undef OutOfBounds example_array.
Proof.
  apply (array_index_match_from scripted example_array 7 1); [reflexivity|vm_compute; lia].
Defined.

(** C26: [main] never ends well: from the initial values of its static
    variables, and whatever the clocks say, it accesses memory out of bounds,
    unless reading the clock fails before and ends the program with
    EXIT_FAIL_TIME. *)
Theorem array_compare_out_of_bounds (K : Kernel) (w : world statics) :
  w_st w = initial_statics ->
  match main w with
  | Exit code _ => code = EXIT_FAIL_TIME
  | Undef u _ => u = OutOfBounds
  | Ret _ _ | NoFuel => False
  end.
Proof.
  intros Hw. pose proof (main_doomed w Hw) as H. unfold doomed in H.
  destruct (main w); try done. destruct H as [H|[]]. done.
Qed.

Lemma array_compare_out_of_bounds_witness :
  match main (start [] initial_statics) with
  | Exit code _ => code = EXIT_FAIL_TIME
  | Undef u _ => u = OutOfBounds
  | Ret _ _ | NoFuel => False
  end.
Proof. apply (array_compare_out_of_bounds scripted (start [] initial_statics)). reflexivity. Defined.
