(* ===== verification/TcpSink.v ===== *)
(** * tcp_sink.c and tcp_sink_epoll.c: servers that accept and close

    The two programs share their options and the set-up of the listening
    socket; the second adds the option [--epoll] and the loop it selects. *)
From stdpp Require Import base list gmap strings.
From Stdlib Require Import ZArith Lia Ascii.
From S2P Require Import Prelude.
From S2P Require Import CLang.
From S2P Require Import Wp.
From S2P Require Import Libc.
From S2P Require Import Getopt.
From S2P Require Import Common.
From S2P Require Import CommonSocket.

#[local] Open Scope Z_scope.
#[local] Open Scope c_scope.

(** The static variables; [use_epoll] is in tcp_sink_epoll.c only. *)
Record statics := Statics { so_reuseport : Z; write_something : Z; use_epoll : Z }.

Definition initial_statics : statics := Statics 1 0 0.

(** A variable that an option sets through its [flag] pointer. *)
Inductive flag := FlagVerbose | FlagReuseport | FlagWrite | FlagEpoll.

(** An entry of [long_options], with its [flag]. *)
Record flag_option := FlagOption { fo_opt : option_; fo_flag : option flag }.

Definition sink_long_options : list flag_option := [
  FlagOption (Option_ "ipv4" no_argument (ch "4")) None;
  FlagOption (Option_ "ipv6" no_argument (ch "6")) None;
  FlagOption (Option_ "listen-port" required_argument (ch "l")) None;
  FlagOption (Option_ "count" required_argument (ch "c")) None;
  FlagOption (Option_ "verbose" optional_argument (ch "v")) None;
  FlagOption (Option_ "quiet" no_argument 0) (Some FlagVerbose);
  FlagOption (Option_ "reuseport" no_argument 1) (Some FlagReuseport);
  FlagOption (Option_ "no-reuseport" no_argument 0) (Some FlagReuseport);
  FlagOption (Option_ "write-back" no_argument 1) (Some FlagWrite)
].

Definition epoll_long_options : list flag_option := [
  FlagOption (Option_ "ipv4" no_argument (ch "4")) None;
  FlagOption (Option_ "ipv6" no_argument (ch "6")) None;
  FlagOption (Option_ "listen-port" required_argument (ch "l")) None;
  FlagOption (Option_ "count" required_argument (ch "c")) None;
  FlagOption (Option_ "verbose" optional_argument (ch "v")) None;
  FlagOption (Option_ "quiet" no_argument 0) (Some FlagVerbose);
  FlagOption (Option_ "reuseport" no_argument 1) (Some FlagReuseport);
  FlagOption (Option_ "no-reuseport" no_argument 0) (Some FlagReuseport);
  FlagOption (Option_ "write-back" no_argument 1) (Some FlagWrite);
  FlagOption (Option_ "epoll" no_argument 1) (Some FlagEpoll)
].

Definition set_write_something (v : Z) (s : statics) : statics :=
  Statics (so_reuseport s) v (use_epoll s).

(** ["PID:[%5d] cnt:%d\r\n"] *)
Definition message (pid i : Z) : list Z :=
  bytes_of_string "PID:[" ++ format_5d pid ++ bytes_of_string "] cnt:" ++ format_d i ++ [13; 10].

(** The local variables of [main] that the options set. *)
Record main_opts := MainOpts { o_count : Z; o_addr_family : Z; o_listen_port : Z }.

Definition default_opts : main_opts := MainOpts 1000000 AF_INET 6666.

(** [listen_addr] from the address family and the port. *)
Definition listen_addr (addr_family listen_port : Z) : list Z :=
  if addr_family =? AF_INET then
    set_sin_addr [0; 0; 0; 0] (set_port (htons listen_port) (set_family addr_family zero_sockaddr))
  else if addr_family =? AF_INET6 then
    set_port (htons listen_port) (set_family addr_family zero_sockaddr)
  else zero_sockaddr.

Definition MAX_EVENTS : Z := 10.

Section TcpSink.
Context {K : Kernel}.
#[local] Abbreviation M := (M statics).

Definition flag_value (f : flag) : M Z :=
  s <- get_st ;;
  match f with
  | FlagVerbose => get_verbose
  | FlagReuseport => ret (so_reuseport s)
  | FlagWrite => ret (write_something s)
  | FlagEpoll => ret (use_epoll s)
  end.

(** What [getopt_long] stores through the [flag] pointer. *)
Definition store_flag (f : flag) (v : Z) : M unit :=
  s <- get_st ;;
  match f with
  | FlagVerbose => put_verbose v
  | FlagReuseport => put_st (Statics v (write_something s) (use_epoll s))
  | FlagWrite => put_st (Statics (so_reuseport s) v (use_epoll s))
  | FlagEpoll => put_st (Statics (so_reuseport s) (write_something s) v)
  end.

Definition usage (long_options : list flag_option) (argv0 : string) : M Z :=
  printf "-= ERROR: Parameter problems =-\n" [] ;;
  printf " Usage: %s (options-see-below)\n" [AStr argv0] ;;
  printf " Listing options:\n" [] ;;
  forM long_options (fun o =>
    printf " --%s" [AStr (opt_name (fo_opt o))] ;;
    match fo_flag o with
    | Some f => v <- flag_value f ;; printf "\t\t flag (internal value:%d)" [AInt v]
    | None => printf "\t\t short-option: -%c" [AInt (opt_val (fo_opt o))]
    end ;;
    printf "\n" []) ;;
  printf "\n" [] ;;
  ret EXIT_FAIL_OPTION.

(** An answer 0 of [getopt_long]: the flag is stored, the option reported. *)
Definition flag_option_seen (long_options : list flag_option) (e : optev) : M unit :=
  match long_options !! o_longindex e with
  | None => undefined OutOfBounds
  | Some o =>
      (match fo_flag o with Some f => store_flag f (opt_val (fo_opt o)) | None => ret tt end) ;;
      verbose <- get_verbose ;;
      when (truth verbose)
        (printf "Flag option %s" [AStr (opt_name (fo_opt o))] ;;
         (match o_arg e with Some arg => printf " with arg %s" [AStr arg] | None => ret tt end) ;;
         printf "\n" [])
  end.

Definition main_option (long_options : list flag_option) (argv0 : string) (o : main_opts) (e : optev) :
  M (main_opts + Z) :=
  let oc := o_c e in
  if oc =? 0 then flag_option_seen long_options e ;; ret (inl o)
  else if oc =? ch "c" then
    v <- atoi_optarg e ;; ret (inl (MainOpts v (o_addr_family o) (o_listen_port o)))
  else if oc =? ch "l" then
    v <- atoi_optarg e ;; ret (inl (MainOpts (o_count o) (o_addr_family o) (u16 v)))
  else if oc =? ch "4" then ret (inl (MainOpts (o_count o) AF_INET (o_listen_port o)))
  else if oc =? ch "6" then ret (inl (MainOpts (o_count o) AF_INET6 (o_listen_port o)))
  else if oc =? ch "w" then
    s <- get_st ;; put_st (set_write_something 1 s) ;; ret (inl o)
  else if oc =? ch "v" then put_verbose (atoi_or_1 e) ;; ret (inl o)
  else if oc =? ch "?" then u <- usage long_options argv0 ;; ret (inr u)
  else ret (inl o).

(** The listening socket, from the options. *)
Definition listening_socket (pid : Z) (o : main_opts) : M Z :=
  verbose <- get_verbose ;;
  when (0 <? verbose)
    (printf "IP%s TCP listen port %d PID:[%d]\n"
       [AStr (if o_addr_family o =? AF_INET6 then "v6" else "v4"); AInt (o_listen_port o); AInt pid]) ;;
  listenfd <- Socket (o_addr_family o) SOCK_STREAM IPPROTO_IP ;;
  s <- get_st ;;
  when (truth (so_reuseport s))
    (res <- ask (CSetsockopt listenfd SOL_SOCKET SO_REUSEPORT [so_reuseport s]) ;;
     if r_ret res <? 0 then
       printf "ERROR: No support for SO_REUSEPORT\n" [] ;;
       perror "- setsockopt(SO_REUSEPORT)" ;;
       exit EXIT_FAIL_SOCKOPT
     else when (truth verbose) (printf " - Enabled SO_REUSEPORT\n" [])) ;;
  Bind listenfd (listen_addr (o_addr_family o) (o_listen_port o)) ;;
  ask (CListen listenfd 1024) ;;
  ret listenfd.

(** The write-back into a connection. *)
Definition write_back (connfd pid i : Z) : M unit :=
  s <- get_st ;;
  when (truth (write_something s)) (ask (CWrite connfd (Some <$> message pid i)) ;; ret tt).

(** ** tcp_sink.c *)
Definition connection (listenfd pid i : Z) : M unit :=
  res <- ask (CAccept listenfd 0) ;;
  let connfd := r_ret res in
  write_back connfd pid i ;;
  ask (CClose connfd) ;;
  verbose <- get_verbose ;;
  when (truth verbose) (printf "PID:[%5d] Connection count: %d\n" [AInt pid; AInt i]).

Definition accept_loop (listenfd count pid : Z) : M unit :=
  iter (Datatypes.S (Z.to_nat count))
    (fun i =>
       if i <=? count then
         connection listenfd pid i ;;
         i <- int_check (i + 1) ;;
         ret (inl i)
       else ret (inr tt))
    1.

Definition sink_main (argv0 : string) (evs : list optev) : M Z :=
  pid <- ask CGetpid ;;
  let pid := r_ret pid in
  o <- getopt_loop (main_option sink_long_options argv0) default_opts evs ;;
  match o with
  | inr u => ret u
  | inl o =>
      listenfd <- listening_socket pid o ;;
      accept_loop listenfd (o_count o) pid ;;
      ask (CClose listenfd) ;;
      ret 0
  end.

(** ** tcp_sink_epoll.c *)
Definition wait_for_connections (listenfd count : Z) : M unit :=
  pid <- ask CGetpid ;;
  accept_loop listenfd count (r_ret pid).

(** [events[n].data.fd]: the reply to [epoll_wait] lists them; the rest of
    the array is indeterminate. *)
Definition event_fd (res : reply) (n : Z) : M Z :=
  if MAX_EVENTS <=? n then undefined OutOfBounds
  else match m_data (r_msg res) !! Z.to_nat n with
       | Some fd => ret fd
       | None => undefined Indeterminate
       end.

(** A system call whose failure ends the program. *)
Definition fail_exit {A} (msg : string) : M A := perror msg ;; exit EXIT_FAILURE.

Definition accept_event (epollfd listen_sock pid i : Z) : M unit :=
  res <- ask (CAccept listen_sock SOCK_NONBLOCK) ;;
  let connfd := r_ret res in
  if connfd =? -1 then fail_exit "accept"
  else
    res <- ask (CEpollCtl epollfd EPOLL_CTL_ADD connfd (Z.lor EPOLLIN EPOLLET)) ;;
    if r_ret res =? -1 then fail_exit "epoll_ctl: conn_sock"
    else
      verbose <- get_verbose ;;
      when (truth verbose) (printf "PID:[%5d] Connection count: %d\n" [AInt pid; AInt i]).

Definition event (epollfd listen_sock pid i : Z) (res : reply) (n : Z) : M unit :=
  fd <- event_fd res n ;;
  if fd =? listen_sock then accept_event epollfd listen_sock pid i
  else
    write_back fd pid i ;;
    ask (CClose fd) ;;
    ret tt.

Definition wakeup (epollfd listen_sock pid i : Z) : M unit :=
  res <- ask (CEpollWait epollfd MAX_EVENTS (-1)) ;;
  let nfds := r_ret res in
  if nfds =? -1 then fail_exit "epoll_pwait"
  else
    forM (seqZ 0 nfds) (event epollfd listen_sock pid i res) ;;
    ret tt.

Definition epoll_connections (epollfd listen_sock count : Z) : M unit :=
  pid <- ask CGetpid ;;
  let pid := r_ret pid in
  iter (Datatypes.S (Z.to_nat count))
    (fun i =>
       if i <=? count then
         wakeup epollfd listen_sock pid i ;;
         i <- int_check (i + 1) ;;
         ret (inl i)
       else ret (inr tt))
    1.

Definition serve_epoll (listenfd count : Z) : M unit :=
  res <- ask (CEpollCreate 0) ;;
  let epollfd := r_ret res in
  if epollfd =? -1 then fail_exit "epoll_create"
  else
    res <- ask (CEpollCtl epollfd EPOLL_CTL_ADD listenfd EPOLLIN) ;;
    if r_ret res =? -1 then fail_exit " - epoll_ctl: cannot add listen sock"
    else
      epoll_connections epollfd listenfd count ;;
      ask (CClose epollfd) ;;
      ret tt.

Definition epoll_main (argv0 : string) (evs : list optev) : M Z :=
  pid <- ask CGetpid ;;
  let pid := r_ret pid in
  o <- getopt_loop (main_option epoll_long_options argv0) default_opts evs ;;
  match o with
  | inr u => ret u
  | inl o =>
      listenfd <- listening_socket pid o ;;
      s <- get_st ;;
      (if truth (use_epoll s) then serve_epoll listenfd (o_count o)
       else wait_for_connections listenfd (o_count o)) ;;
      ask (CClose listenfd) ;;
      ret 0
  end.
End TcpSink.
