(* ===== verification/TcpSinkProps.v ===== *)
(** * tcp_sink and tcp_sink_epoll: every connection is served and closed *)
From stdpp Require Import base list gmap sets strings.
From Stdlib Require Import ZArith Lia Ascii.
From S2P Require Import Prelude.
From S2P Require Import CLang.
From S2P Require Import Wp.
From S2P Require Import Libc.
From S2P Require Import Common.
From S2P Require Import CommonSocket.
From S2P Require Import Getopt.
From S2P Require Import Tame.
From S2P Require Import Scripted.
From S2P Require Import TcpSink.

#[local] Open Scope Z_scope.
#[local] Open Scope c_scope.

(** ** What a kernel promises about descriptors

    [open_fds] are the descriptors open in the process.  [accept] returns one
    that was not open; [close] frees it; [epoll_wait] reports, without
    repetition and in the room given, descriptors that are open (a closed one
    leaves the epoll instance). *)
Definition keeps_fds (c : call) : bool :=
  match c with CWrite _ _ | CEpollCtl _ _ _ _ | CGetpid => true | _ => false end.

Class FdTable (K : Kernel) := {
  open_fds : kst -> gset Z;
  accept_fresh fd fl k r k' : kstep (CAccept fd fl) k = (r, k') ->
    (r_ret r = -1 /\ open_fds k' = open_fds k) \/
    (r_ret r <> -1 /\ (r_ret r ∉ open_fds k) /\ open_fds k' = {[r_ret r]} ∪ open_fds k);
  close_frees fd k r k' : kstep (CClose fd) k = (r, k') -> open_fds k' = open_fds k ∖ {[fd]};
  wait_reports epfd n t k r k' : kstep (CEpollWait epfd n t) k = (r, k') ->
    open_fds k' = open_fds k /\
    (r_ret r <> -1 ->
     0 <= r_ret r <= n /\ r_ret r = Z.of_nat (length (m_data (r_msg r))) /\
     NoDup (m_data (r_msg r)) /\ forall fd, fd ∈ m_data (r_msg r) -> fd ∈ open_fds k);
  others_keep c k r k' : keeps_fds c = true -> kstep c k = (r, k') -> open_fds k' = open_fds k
}.

(** ** The calls on connections, checked

    The descriptors open after a call, or [None] when the call is a mistake:
    a write to, or a close of, a descriptor that is not an open connection. *)
Definition step_call (listen_sock : Z) (e : call * reply) (fds : gset Z) : option (gset Z) :=
  let connection fd := bool_decide (fd ∈ fds) && negb (fd =? listen_sock) in
  match e.1 with
  | CAccept _ _ => Some (if r_ret e.2 =? -1 then fds else {[r_ret e.2]} ∪ fds)
  | CClose fd => if connection fd then Some (fds ∖ {[fd]}) else None
  | CWrite fd _ => if connection fd then Some fds else None
  | _ => Some fds
  end.

(** From the log, newest call first. *)
Definition run_calls (listen_sock : Z) (tr : list (call * reply)) (fds : gset Z) : option (gset Z) :=
  foldr (fun e o => o ≫= step_call listen_sock e) (Some fds) tr.

Lemma run_calls_cons listen_sock e tr fds :
  run_calls listen_sock (e :: tr) fds = run_calls listen_sock tr fds ≫= step_call listen_sock e.
Proof. done. Qed.

Definition is_wait (e : call * reply) : bool :=
  match e.1 with CEpollWait _ _ _ => true | _ => false end.
Definition waits (tr : list (call * reply)) : nat := length (List.filter is_wait tr).

Section Epoll.
Context {K : Kernel} {T : FdTable K}.
#[local] Abbreviation W := (world statics).
Variables (epollfd listen_sock pid : Z) (w0 : W).

(** The calls since [w0] are without mistake, [n] of them [epoll_wait]. *)
Definition fair (n : nat) (w : W) : Prop :=
  listen_sock ∈ open_fds (w_k w) /\
  exists tr, w_log w = tr ++ w_log w0 /\ waits tr = n /\
    run_calls listen_sock tr (open_fds (w_k w0)) = Some (open_fds (w_k w)).

Lemma fair_call n c r k w :
  fair n w -> listen_sock ∈ open_fds k ->
  step_call listen_sock (c, r) (open_fds (w_k w)) = Some (open_fds k) ->
  fair (n + (if is_wait (c, r) then 1 else 0)) (w_call c r k w).
Proof.
  intros (_ & tr & Hlog & Hn & Hrun) Hl Hs. split; [done|]. exists ((c, r) :: tr). split_and!.
  - cbn. by rewrite Hlog.
  - unfold waits in *. cbn. destruct (is_wait (c, r)); cbn; lia.
  - rewrite run_calls_cons, Hrun. exact Hs.
Qed.

(** Calls that do not touch the table. *)
Lemma fair_keep n c r k w :
  fair n w -> keeps_fds c = true -> kstep c (w_k w) = (r, k) ->
  (forall fd d, c = CWrite fd d -> fd ∈ open_fds (w_k w) /\ fd <> listen_sock) ->
  fair n (w_call c r k w).
Proof.
  intros Hf Hc E Hw. pose proof (others_keep c _ r k Hc E) as Ho.
  assert (Hs : step_call listen_sock (c, r) (open_fds (w_k w)) = Some (open_fds k)).
  { rewrite Ho. destruct c; try discriminate Hc; try done. unfold step_call. cbn.
    destruct (Hw _ _ eq_refl) as [Hin Hne]. rewrite bool_decide_eq_true_2 by done.
    by rewrite (proj2 (Z.eqb_neq _ _) Hne). }
  replace n with (n + (if is_wait (c, r) then 1 else 0))%nat by (destruct c; done || (cbn; lia)).
  apply fair_call; [done| |done]. rewrite Ho. apply Hf.
Qed.

Lemma fair_print n o w : fair n w -> fair n (w_print o w).
Proof. done. Qed.

Definition failed_fairly (code : Z) (w : W) : Prop :=
  code = EXIT_FAILURE /\ exists n, fair n w.

Lemma fail_exit_fair {A} n msg (Q : A -> W -> Prop) w :
  fair n w -> wpg False (fail_exit msg) Q failed_fairly w.
Proof. intros Hf. unfold fail_exit. do 3 wp_step. split; [done|]. exists n. by apply fair_print. Qed.

Lemma write_back_fair n fd i (Q : unit -> W -> Prop) w :
  fair n w -> fd ∈ open_fds (w_k w) -> fd <> listen_sock ->
  (forall w', fair n w' -> open_fds (w_k w') = open_fds (w_k w) -> Q tt w') ->
  wpg False (write_back fd pid i) Q failed_fairly w.
Proof.
  intros Hf Hin Hne HQ. unfold write_back. wp_step. wp_step. wp_step; [|by apply HQ].
  wp_step. wp_ask r k E. wp_step. apply HQ; [|by apply (others_keep (CWrite fd (Some <$> message pid i)) (w_k w) r k)].
  apply fair_keep; [done..|]. by intros ? ? [= <- <-].
Qed.

(** The listening socket is ready: a connection is accepted and watched. *)
Lemma accept_event_fair n i (Q : unit -> W -> Prop) w :
  fair n w -> (forall w', fair n w' -> open_fds (w_k w) ⊆ open_fds (w_k w') -> Q tt w') ->
  wpg False (accept_event epollfd listen_sock pid i) Q failed_fairly w.
Proof.
  intros Hf HQ. unfold accept_event. wp_step. wp_ask r k E.
  assert (Hs : fair n (w_call (CAccept listen_sock SOCK_NONBLOCK) r k w) /\ open_fds (w_k w) ⊆ open_fds k).
  { rewrite <- (Nat.add_0_r n). destruct Hf as [Hl Htr].
    destruct (accept_fresh _ _ _ _ _ E) as [[E1 E2]|(E1 & E2 & E3)].
    - split; [|by rewrite E2]. apply (fair_call n (CAccept listen_sock SOCK_NONBLOCK)); [done|by rewrite E2|].
      unfold step_call. cbn. by rewrite E1, E2.
    - split; [|rewrite E3; apply union_subseteq_r].
      apply (fair_call n (CAccept listen_sock SOCK_NONBLOCK)); [done|rewrite E3; by apply elem_of_union_r|].
      unfold step_call. cbn. by rewrite (proj2 (Z.eqb_neq _ _) E1), E3. }
  destruct Hs as [Hs Hsub]. clear Hf. wp_step; [by apply fail_exit_fair with n|].
  wp_step. wp_ask r2 k2 E2.
  set (c2 := CEpollCtl _ _ _ _) in *. set (w1 := w_call _ r k w) in *.
  assert (Hk2 : open_fds k2 = open_fds k) by exact (others_keep c2 (w_k w1) r2 k2 eq_refl E2).
  assert (Hs2 : fair n (w_call c2 r2 k2 w1)) by by apply fair_keep.
  wp_step; [by apply fail_exit_fair with n|].
  wp_step. wp_step. wp_step; [wp_step|]; (apply HQ; [done|cbn; by rewrite Hk2]).
Qed.

(** One event: the descriptor it reports leaves the set, or is the
    listening socket. *)
Lemma event_fair n i res j fd (Q : unit -> W -> Prop) w :
  fair n w -> 0 <= j < MAX_EVENTS -> m_data (r_msg res) !! Z.to_nat j = Some fd ->
  fd ∈ open_fds (w_k w) ->
  (forall w', fair n w' -> open_fds (w_k w) ∖ {[fd]} ⊆ open_fds (w_k w') -> Q tt w') ->
  wpg False (event epollfd listen_sock pid i res j) Q failed_fairly w.
Proof.
  intros Hf Hj Hfd Hin HQ. unfold event, event_fd. rewrite (proj2 (Z.leb_gt _ _)), Hfd by lia.
  do 2 wp_step. destruct (Z.eqb_spec fd listen_sock) as [->|Hne].
  { apply (accept_event_fair n); [done|]. intros w' Hf' Hsub. apply HQ; [done|].
    etrans; [apply subseteq_difference_l|]; done. }
  wp_step. apply (write_back_fair n); [done..|]. intros w1 Hf1 Hk1.
  wp_step. wp_ask r k E. wp_step. pose proof (close_frees _ _ _ _ E) as Hk.
  apply HQ; [|cbn; rewrite Hk, Hk1; done]. rewrite <- (Nat.add_0_r n).
  apply (fair_call n (CClose fd)); [done|rewrite Hk, Hk1; apply elem_of_difference; split; [apply Hf|by intros ?%elem_of_singleton]|].
  unfold step_call. cbn. rewrite Hk1, bool_decide_eq_true_2, Hk, Hk1, (proj2 (Z.eqb_neq _ _) Hne) by done. done.
Qed.

Lemma wakeup_fair n i (Q : unit -> W -> Prop) w :
  fair n w -> (forall w', fair (Datatypes.S n) w' -> Q tt w') ->
  wpg False (wakeup epollfd listen_sock pid i) Q failed_fairly w.
Proof.
  intros Hf HQ. unfold wakeup. wp_step. wp_ask r k E.
  destruct (wait_reports _ _ _ _ _ _ E) as [Hk Hrep].
  assert (Hs : fair (n + 1) (w_call (CEpollWait epollfd MAX_EVENTS (-1)) r k w)).
  { apply (fair_call n (CEpollWait epollfd MAX_EVENTS (-1))); [done|rewrite Hk; apply Hf|by rewrite Hk]. }
  rewrite Nat.add_1_r in Hs. destruct (Z.eqb_spec (r_ret r) (-1)) as [_|Hne].
  { by apply fail_exit_fair with (Datatypes.S n). }
  destruct (Hrep Hne) as (Hn & Hlen & Hnd & Hin). wp_step.
  apply (wp_forM (fun done _ w' => fair (Datatypes.S n) w' /\
           forall j fd, (length done <= j)%nat -> m_data (r_msg r) !! j = Some fd -> fd ∈ open_fds (w_k w'))).
  - split; [done|]. intros j fd _ Hj. cbn. rewrite Hk. apply Hin. by eapply list_elem_of_lookup_2.
  - intros done j rest ys w' Hl [Hf' Hopen].
    assert (Hj : seqZ 0 (r_ret r) !! length done = Some j) by (rewrite Hl; by apply list_lookup_middle).
    apply lookup_seqZ in Hj as [-> Hj]. rewrite Z.add_0_l in *.
    destruct (lookup_lt_is_Some_2 (m_data (r_msg r)) (length done)) as [fd Hfd]; [lia|].
    apply (event_fair (Datatypes.S n) i r _ fd); [done|unfold MAX_EVENTS in *; lia|by rewrite Nat2Z.id| |].
    + by apply (Hopen (length done)).
    + intros w2 Hf2 Hsub. split; [done|]. intros j fd2 Hj2 Hfd2. rewrite length_app in Hj2. cbn in Hj2.
      apply Hsub, elem_of_difference. split; [apply (Hopen j); [lia|done]|].
      intros Heq%elem_of_singleton. subst fd2.
      assert (j = length done) by (eapply NoDup_lookup; eauto). lia.
  - intros ys w' [Hf' _]. wp_step. by apply HQ.
Qed.

Lemma epoll_loop_fair count :
  fair 0 w0 -> count < 2 ^ 31 - 1 -> forall w, fair 0 w ->
  wpg False
    (iter (Datatypes.S (Z.to_nat count))
       (fun i => if i <=? count then
                   wakeup epollfd listen_sock pid i ;; i <- int_check (i + 1) ;; ret (inl i)
                 else ret (inr tt)) 1)%c
    (fun _ w' => fair (Z.to_nat count) w') failed_fairly w.
Proof.
  intros Hf Hc w Hw.
  apply (wp_iter (fun k i w' => 1 <= i /\ fair (Z.to_nat (i - 1)) w' /\ k = Datatypes.S (Z.to_nat (count - i + 1)) /\
                                (1 <= count -> i <= count + 1) /\ (count < 1 -> i = 1))).
  - split_and!; try done; lia.
  - lia.
  - intros k i w' (Hi & Hf' & Hk & Hle & Hlt). destruct (Z.leb_spec i count) as [H|H].
    + wp_step. apply (wakeup_fair (Z.to_nat (i - 1))); [done|]. intros w2 Hf2.
      wp_step. apply wp_int_check; [unfold is_i32; lia|]. wp_step.
      replace (i + 1 - 1) with i by lia. replace (Z.to_nat i) with (Datatypes.S (Z.to_nat (i - 1))) by lia.
      split_and!; try done; lia.
    + wp_step. replace (Z.to_nat count) with (Z.to_nat (i - 1)) by lia. done.
Qed.
End Epoll.

(** ** The accept loop *)

(** The calls of a connection: accept, the message if asked for, close. *)
Definition connection_calls (write listenfd pid i fd : Z) : list call :=
  CAccept listenfd 0 ::
  (if truth write then [CWrite fd (Some <$> message pid i)] else []) ++ [CClose fd].

Definition accept_reply (e : call * reply) : option Z :=
  match e.1 with CAccept _ _ => Some (r_ret e.2) | _ => None end.

(** The descriptors accepted, and the calls made, from the log. *)
Definition accepted (tr : list (call * reply)) : list Z := rev (omap accept_reply tr).
Definition calls (tr : list (call * reply)) : list call := rev (fst <$> tr).

Arguments accepted : simpl never.
Arguments calls : simpl never.

Lemma calls_app tr1 tr2 : calls (tr2 ++ tr1) = calls tr1 ++ calls tr2.
Proof. unfold calls. by rewrite fmap_app, rev_app_distr. Qed.

Lemma accepted_app tr1 tr2 : accepted (tr2 ++ tr1) = accepted tr1 ++ accepted tr2.
Proof. unfold accepted. by rewrite omap_app, rev_app_distr. Qed.

Section Accept.
Context {K : Kernel}.
#[local] Abbreviation W := (world statics).

Definition served (listenfd pid : Z) (fds : list Z) (write : Z) : list call :=
  concat (imap (fun n fd => connection_calls write listenfd pid (Z.of_nat n + 1) fd) fds).

(** What the loop leaves: the log of [n] connections. *)
Definition accept_post (listenfd pid : Z) (n : nat) (w w' : W) : Prop :=
  w_mem w' = w_mem w /\ w_st w' = w_st w /\
  exists tr, w_log w' = tr ++ w_log w /\ length (accepted tr) = n /\
    calls tr = served listenfd pid (accepted tr) (write_something (w_st w)).

Lemma connection_spec F listenfd pid i (Q : unit -> W -> Prop) X w :
  (forall w' fd tr, w_mem w' = w_mem w -> w_st w' = w_st w -> w_log w' = tr ++ w_log w ->
     accepted tr = [fd] -> calls tr = connection_calls (write_something (w_st w)) listenfd pid i fd ->
     Q tt w') ->
  wpg F (connection listenfd pid i) Q X w.
Proof.
  intros HQ. unfold connection, write_back. wp_step. wp_ask r k E. do 3 wp_step.
  unfold connection_calls in HQ. cbn [w_call w_st] in *.
  wp_step; rewrite H in HQ.
  - wp_step. wp_ask r1 k1 E1. wp_step. wp_step. wp_ask r2 k2 E2.
    do 2 wp_step. wp_step; [wp_step|]; by eapply (HQ _ (r_ret r) [(CClose _, r2); (CWrite _ _, r1); (CAccept _ _, r)]).
  - wp_step. wp_ask r2 k2 E2. do 2 wp_step. wp_step; [wp_step|]; by eapply (HQ _ (r_ret r) [(CClose _, r2); (CAccept _ _, r)]).
Qed.

Lemma served_snoc listenfd pid fds fd write :
  served listenfd pid (fds ++ [fd]) write =
  served listenfd pid fds write ++ connection_calls write listenfd pid (Z.of_nat (length fds) + 1) fd.
Proof.
  unfold served. rewrite imap_app, concat_app. cbn. by rewrite Nat.add_0_r, app_nil_r.
Qed.

Lemma accept_loop_spec F listenfd count pid X w :
  count < 2 ^ 31 - 1 ->
  wpg F (accept_loop listenfd count pid) (fun _ => accept_post listenfd pid (Z.to_nat count) w) X w.
Proof.
  intros Hc. unfold accept_loop.
  apply (wp_iter (fun k i w' => 1 <= i /\ accept_post listenfd pid (Z.to_nat (i - 1)) w w' /\
     k = Datatypes.S (Z.to_nat (count - i + 1)) /\ (1 <= count -> i <= count + 1) /\ (count < 1 -> i = 1))).
  - split_and!; try done; try lia. split_and!; try done. by exists [].
  - lia.
  - intros k i w' (Hi & Hp & Hk & Hle & Hlt). destruct (Z.leb_spec i count) as [H|H].
    + destruct Hp as (Hm & Hs & tr & Hlog & Hlen & Hcalls).
      wp_step. apply connection_spec. intros w2 fd tr2 Hm2 Hs2 Hlog2 Ha2 Hc2.
      wp_step. apply wp_int_check; [unfold is_i32; lia|]. wp_step.
      split_and!; try lia. split_and!; [congruence..|]. exists (tr2 ++ tr).
      rewrite Hlog2, Hlog, accepted_app, calls_app, Ha2, Hc2, length_app, served_snoc, Hlen, Hcalls, Hs.
      split_and!; [by rewrite app_assoc|cbn; lia|].
      by replace (Z.of_nat (Z.to_nat (i - 1)) + 1) with i by lia.
    + wp_step. by replace (Z.to_nat count) with (Z.to_nat (i - 1)) by lia.
Qed.
End Accept.
