(* ===== verification/TcpSinkMain.v ===== *)
(** * tcp_sink and tcp_sink_epoll: the properties

    The safety of the two programs, and the properties of their loops. *)
From stdpp Require Import base list gmap sets strings.
From Stdlib Require Import ZArith Lia Ascii.
From S2P Require Import Prelude.
From S2P Require Import CLang.
From S2P Require Import Wp.
From S2P Require Import Libc.
From S2P Require Import Common.
From S2P Require Import CommonSocket.
From S2P Require Import Getopt.
From S2P Require Import Tame.
From S2P Require Import Scripted.
From S2P Require Import TcpSink.
From S2P Require Import TcpSinkProps.

#[local] Open Scope Z_scope.
#[local] Open Scope c_scope.

(** An answer of [getopt_long] for the table [opts]: an option that requires
    an argument has one, and the count leaves room for its successor. *)
Definition sane_tcp_option (opts : list flag_option) (e : optev) : Prop :=
  (o_c e = 0 -> is_Some (opts !! o_longindex e)) /\
  (o_c e = ch "c" -> arg_in (- 2 ^ 31) (2 ^ 31 - 2) e) /\
  (o_c e = ch "l" -> is_Some (o_arg e)).

Definition tcp_codes : list Z := [EXIT_FAIL_OPTION; EXIT_FAIL_SOCK; EXIT_FAIL_SOCKOPT; EXIT_FAILURE].

(** [epoll_wait] fills as many entries as it says, in the room it has. *)
Definition wait_contract (K : Kernel) : Prop :=
  forall epfd n t k, let r := (kstep (CEpollWait epfd n t) k).1 in
  0 <= n -> r_ret r <= n /\ r_ret r <= Z.of_nat (length (m_data (r_msg r))).

Section Main.
Context {K : Kernel}.
#[local] Abbreviation W := (world statics).

Definition any_world (w : W) : Prop := True.

#[local] Instance any_stable : Stable any_world.
Proof. split; intros; done. Qed.

#[local] Abbreviation tame := (tame False any_world tcp_codes).

Lemma tame_get_st : tame get_st (fun _ => True).
Proof. by intros w _. Qed.

Lemma tame_put_st s : tame (put_st s) (fun _ => True).
Proof. by intros w _. Qed.

#[local] Hint Resolve tame_get_st tame_put_st : tame.

Lemma tame_flag_value f : tame (flag_value f) (fun _ => True).
Proof. unfold flag_value. tame_step. destruct f; by repeat tame_step. Qed.

Lemma tame_store_flag f v : tame (store_flag f v) (fun _ => True).
Proof. unfold store_flag. tame_step. destruct f; by repeat tame_step. Qed.

#[local] Hint Resolve tame_flag_value tame_store_flag : tame.

Lemma tame_tcp_usage opts argv0 : tame (usage opts argv0) (fun code => code = EXIT_FAIL_OPTION).
Proof.
  unfold usage. repeat tame_step.
  eapply tame_seq; [apply tame_forM; intros o _|intros; repeat tame_step; done].
  tame_step. eapply tame_seq; [destruct (fo_flag o); repeat tame_step|intros; tame_step].
Qed.

Lemma tame_flag_seen opts e : is_Some (opts !! o_longindex e) -> tame (flag_option_seen opts e) (fun _ => True).
Proof.
  intros [o Ho]. unfold flag_option_seen. rewrite Ho.
  eapply tame_seq; [destruct (fo_flag o); repeat tame_step; done|intros; repeat tame_step].
  eapply tame_seq; [destruct (o_arg e); repeat tame_step; done|intros; tame_step].
Qed.

Definition sane_tcp_opts (o : main_opts) : Prop := o_count o <= 2 ^ 31 - 2.

Lemma tame_tcp_option opts argv0 o e :
  sane_tcp_opts o -> sane_tcp_option opts e ->
  tame (main_option opts argv0 o e)
    (fun r => match r with inl o' => sane_tcp_opts o' | inr code => code = EXIT_FAIL_OPTION end).
Proof.
  intros Ho (H0 & Hc & Hl). unfold main_option. cbv zeta. unfold sane_tcp_opts in *.
  destruct (Z.eqb_spec (o_c e) 0) as [E|_].
  { eapply tame_seq; [by apply tame_flag_seen, H0|intros; by apply tame_ret]. }
  destruct (Z.eqb_spec (o_c e) (ch "c")) as [E|_].
  { eapply tame_bind; [by apply tame_atoi, Hc|]. intros v Hv. apply tame_ret. cbn in *. lia. }
  destruct (Z.eqb_spec (o_c e) (ch "l")) as [E|_].
  { eapply tame_bind; [by apply tame_atoi_any, Hl|]. intros v _. by apply tame_ret. }
  tame_step; [by apply tame_ret|]. tame_step; [by apply tame_ret|].
  tame_step; [repeat tame_step; done|]. tame_step; [repeat tame_step; done|].
  tame_step; [|by apply tame_ret].
  eapply tame_bind; [apply tame_tcp_usage|]. intros u ->. by apply tame_ret.
Qed.

Lemma tame_listening pid o : tame (listening_socket pid o) (fun _ => True).
Proof.
  unfold listening_socket. repeat tame_step.
  eapply tame_seq; [repeat tame_step|]. intros _.
  eapply tame_seq; [eapply tame_any, tame_Socket; auto with tame typeclass_instances|]. intros fd.
  tame_step. eapply tame_seq; [repeat tame_step|]. intros _. repeat tame_step. done.
Qed.

Lemma tame_accept_loop fd count pid : count <= 2 ^ 31 - 2 -> tame (accept_loop fd count pid) (fun _ => True).
Proof. intros Hc w _. eapply wp_post; [apply accept_loop_spec; lia|]. done. Qed.

Lemma tame_fail_exit {A} msg (Q : A -> Prop) : tame (fail_exit msg) Q.
Proof. unfold fail_exit. repeat tame_step. Qed.

#[local] Hint Resolve tame_fail_exit : tame.

Lemma tame_write_back fd pid i : tame (write_back fd pid i) (fun _ => True).
Proof. unfold write_back. repeat tame_step. done. Qed.

Lemma tame_accept_event epfd fd pid i : tame (accept_event epfd fd pid i) (fun _ => True).
Proof. unfold accept_event. repeat tame_step. Qed.

#[local] Hint Resolve tame_write_back tame_accept_event : tame.

Lemma tame_wakeup epfd fd pid i : wait_contract K -> tame (wakeup epfd fd pid i) (fun _ => True).
Proof.
  intros Hk w _. unfold wakeup. wp_step. wp_ask r k E.
  specialize (Hk epfd MAX_EVENTS (-1) (w_k w)). rewrite E in Hk. cbn [fst] in Hk. destruct (Hk ltac:(done)) as [Hn Hl].
  wp_step; [by apply tame_fail_exit|].
  enough (H : tame (forM (seqZ 0 (r_ret r)) (event epfd fd pid i r)) (fun _ => True)).
  { wp_step. eapply wp_post; [by apply H|]. intros; by wp_step. }
  apply tame_forM. intros j Hj. apply elem_of_seqZ in Hj. unfold event, event_fd.
  rewrite (proj2 (Z.leb_gt _ _)) by (unfold MAX_EVENTS in *; lia).
  destruct (lookup_lt_is_Some_2 (m_data (r_msg r)) (Z.to_nat j)) as [x Hx]; [lia|]. rewrite Hx.
  repeat tame_step. done.
Qed.

Lemma tame_epoll_connections epfd fd count :
  wait_contract K -> count <= 2 ^ 31 - 2 -> tame (epoll_connections epfd fd count) (fun _ => True).
Proof.
  intros Hk Hc. unfold epoll_connections. tame_step.
  apply (tame_iter _ _ _ (fun i => 1 <= i /\ (i = 1 \/ i <= count + 1)) (fun i => Z.to_nat (count + 1 - i)));
    [lia|lia|].
  intros i Hi. destruct (Z.leb_spec i count); [|by apply tame_ret].
  eapply tame_seq; [by apply tame_wakeup|]. intros _.
  intros w _. wp_step. apply wp_int_check; [unfold is_i32; lia|]. wp_step. split; [done|]. lia.
Qed.

Lemma tame_serve_epoll fd count :
  wait_contract K -> count <= 2 ^ 31 - 2 -> tame (serve_epoll fd count) (fun _ => True).
Proof.
  intros Hk Hc. unfold serve_epoll. repeat tame_step.
  eapply tame_seq; [by apply tame_epoll_connections|]. intros _. repeat tame_step. done.
Qed.

Lemma tame_tcp_opts opts argv0 evs :
  Forall (sane_tcp_option opts) evs ->
  tame (getopt_loop (main_option opts argv0) default_opts evs)
    (fun r => match r with inl o' => sane_tcp_opts o' | inr code => code = EXIT_FAIL_OPTION end).
Proof.
  intros Hevs. eapply (tame_getopt _ _ _ sane_tcp_opts (sane_tcp_option opts)); [|done|apply tame_tcp_option].
  unfold sane_tcp_opts. cbn. lia.
Qed.

Lemma tame_tcp_sink_main argv0 evs :
  Forall (sane_tcp_option sink_long_options) evs ->
  tame (sink_main argv0 evs) (fun code => code = 0 \/ code = EXIT_FAIL_OPTION).
Proof.
  intros Hevs. unfold sink_main. tame_step.
  eapply tame_bind; [by apply tame_tcp_opts|]. intros [o|u] Ho; [|apply tame_ret; by right].
  eapply tame_seq; [apply tame_listening|]. intros fd.
  eapply tame_seq; [by apply tame_accept_loop|]. intros _. repeat tame_step. by left.
Qed.

Lemma tame_epoll_main argv0 evs :
  wait_contract K -> Forall (sane_tcp_option epoll_long_options) evs ->
  tame (epoll_main argv0 evs) (fun code => code = 0 \/ code = EXIT_FAIL_OPTION).
Proof.
  intros Hk Hevs. unfold epoll_main. tame_step.
  eapply tame_bind; [by apply tame_tcp_opts|]. intros [o|u] Ho; [|apply tame_ret; by right].
  eapply tame_seq; [apply tame_listening|]. intros fd. tame_step.
  eapply tame_seq.
  { tame_step; [by apply tame_serve_epoll|]. unfold wait_for_connections. tame_step. by apply tame_accept_loop. }
  intros _. repeat tame_step. by left.
Qed.
End Main.

(** ** The properties *)

(** C23: the loop of [tcp_sink], and of [tcp_sink_epoll] without [--epoll],
    for a [count] below [2 ^ 31 - 1] (with [INT_MAX] itself [i++] overflows): it terminates after exactly [count] connections, and all it asks of the
    system is, for each in turn, to accept it, to write its message with
    [--write-back], and to close it: nothing stays open, whatever [accept]
    returns (a failed [accept] is served like a connection). *)
Theorem tcp_sink_serves_and_closes (K : Kernel) (listenfd count pid : Z) (w : world statics) :
  count < 2 ^ 31 - 1 ->
  wp (accept_loop listenfd count pid)
    (fun _ w' => w_mem w' = w_mem w /\ w_st w' = w_st w /\
       exists tr, w_log w' = tr ++ w_log w /\ length (accepted tr) = Z.to_nat count /\
         calls tr = concat (imap (fun n fd =>
           connection_calls (write_something (w_st w)) listenfd pid (Z.of_nat n + 1) fd) (accepted tr)))
    (fun _ _ => False) w.
Proof. apply accept_loop_spec. Qed.

Definition replies (l : list Z) : list reply := reply_of <$> l.

Lemma tcp_sink_serves_and_closes_witness :
  let w := start (replies [5; 24; 0; -1; -1; -1]) (Statics 1 1 0) in
  wp (accept_loop 3 2 100)
    (fun _ w' => w_mem w' = w_mem w /\ w_st w' = w_st w /\
       exists tr, w_log w' = tr ++ w_log w /\ length (accepted tr) = 2%nat /\
         calls tr = concat (imap (fun n fd =>
           connection_calls (write_something (w_st w)) 3 100 (Z.of_nat n + 1) fd) (accepted tr)))
    (fun _ _ => False) w.
Proof.
  apply (tcp_sink_serves_and_closes scripted 3 2 100 (start (replies [5; 24; 0; -1; -1; -1]) (Statics 1 1 0))).
  reflexivity.
Defined.

(** C12: the loop of [tcp_sink_epoll --epoll], on a system that keeps its
    promises about descriptors, for a [count] below [2 ^ 31 - 1]: it terminates without undefined behaviour
    after [count] calls of [epoll_wait]; it writes to and closes open
    connections only, never the listening socket, and none twice, even when a
    descriptor is reused within a batch of events.  A failed call ends it
    with EXIT_FAILURE, the calls up to there being as fair. *)
Theorem tcp_sink_epoll_closes_once (K : Kernel) (T : FdTable K) (epollfd listen_sock count : Z)
  (w : world statics) :
  listen_sock ∈ open_fds (w_k w) -> count < 2 ^ 31 - 1 ->
  wp (epoll_connections epollfd listen_sock count)
    (fun _ w' => fair listen_sock w (Z.to_nat count) w')
    (fun code w' => code = EXIT_FAILURE /\ exists n, fair listen_sock w n w') w.
Proof.
  intros Hl Hc. unfold epoll_connections. wp_step. wp_step. wp_ask r k E. cbv zeta.
  assert (H0 : fair listen_sock w 0 w) by (split; [done|]; by exists []).
  apply (epoll_loop_fair epollfd listen_sock (r_ret r) w count H0 Hc).
  by apply fair_keep.
Qed.

(** A system that reports every open descriptor as ready. *)
Definition ready_step (c : call) (fds : gset Z) : reply * gset Z :=
  match c with
  | CAccept _ _ => let fd := fresh ({[-1]} ∪ fds) in (reply_of fd, {[fd]} ∪ fds)
  | CClose fd => (reply_of 0, fds ∖ {[fd]})
  | CEpollWait _ n _ =>
      let ready := take (Z.to_nat n) (elements fds) in
      (if n <? 0 then reply_of (-1)
       else Reply (Z.of_nat (length ready)) 0 (Timespec 0 0) [RMsg ready [] []], fds)
  | _ => (reply_of 0, fds)
  end.

Definition ready : Kernel := {| kst := gset Z; kstep := ready_step |}.

#[export] Instance ready_table : FdTable ready.
Proof.
  refine {| open_fds := (fun k : @kst ready => k : gset Z) |}.
  - intros fd fl k r k' [= <- <-]. right. cbn.
    pose proof (is_fresh ({[-1]} ∪ k : gset Z)) as Hf. set (x := fresh _) in *.
    rewrite not_elem_of_union, not_elem_of_singleton in Hf. destruct Hf. by split_and!.
  - by intros fd k r k' [= <- <-].
  - intros epfd n t k r k' [= <- <-]. split; [done|].
    destruct (Z.ltb_spec n 0); [done|]. cbn. intros _. split_and!; [lia| |done| |].
    + rewrite length_take. lia.
    + eapply sublist_NoDup; [apply (NoDup_elements (k : gset Z))|apply sublist_take].
    + intros fd Hfd. apply elem_of_elements. eapply elem_of_sublist; [exact Hfd|apply sublist_take].
  - by intros c k r k' Hc; destruct c; try discriminate Hc; intros [= <- <-].
Defined.

Definition start_ready (fds : gset Z) (s : statics) : @world ready statics :=
  @World ready statics fds ∅ 1 [] [] 0 s.

Lemma tcp_sink_epoll_closes_once_witness :
  let w := start_ready {[3]} (Statics 1 1 1) in
  wp (epoll_connections 4 3 1000)
    (fun _ w' => fair 3 w 1000 w')
    (fun code w' => code = EXIT_FAILURE /\ exists n, fair 3 w n w') w.
Proof.
  apply (tcp_sink_epoll_closes_once ready ready_table 4 3 1000 (start_ready {[3]} (Statics 1 1 1))).
  - change (3 ∈ ({[3]} : gset Z)). by apply elem_of_singleton.
  - reflexivity.
Defined.

(** C24: the whole programs [tcp_sink] and [tcp_sink_epoll]: for every command
    line whose options have their arguments and whose [--count] is at most
    [2 ^ 31 - 2] (with [INT_MAX] the loop [i <= count; i++] overflows), [main]
    terminates without undefined behaviour; it returns 0 or the usage code, or exits with one of
    the documented codes.  (The second relies on [epoll_wait] filling the
    entries it counts.) *)
Theorem tcp_sinks_main_safe (K : Kernel) (argv0 : string) (evs : list optev) (w : world statics)
  (events_filled : wait_contract K) :
  (Forall (sane_tcp_option sink_long_options) evs ->
   wp (sink_main argv0 evs) (fun code _ => code = 0 \/ code = EXIT_FAIL_OPTION)
     (fun code _ => In code tcp_codes) w) /\
  (Forall (sane_tcp_option epoll_long_options) evs ->
   wp (epoll_main argv0 evs) (fun code _ => code = 0 \/ code = EXIT_FAIL_OPTION)
     (fun code _ => In code tcp_codes) w).
Proof.
  split; intros Hevs; (eapply wp_post; [by first [apply tame_tcp_sink_main|apply tame_epoll_main]|]);
    by intros code w' [_ H].
Qed.

Lemma tcp_sinks_main_safe_witness :
  wp (epoll_main "tcp_sink_epoll" [Optev 0 9 None; Optev (ch "c") 3 (Some "2")])
    (fun code _ => code = 0 \/ code = EXIT_FAIL_OPTION) (fun code _ => In code tcp_codes)
    (start_ready ∅ initial_statics).
Proof.
  apply (tcp_sinks_main_safe ready "tcp_sink_epoll" [Optev 0 9 None; Optev (ch "c") 3 (Some "2")]
    (start_ready ∅ initial_statics)).
  - intros epfd n t k. cbn. intros Hn. rewrite (proj2 (Z.ltb_ge _ _)) by lia. cbn. rewrite length_take. lia.
  - constructor; [|constructor; [|constructor]].
    + split; [by eexists|]. split; discriminate.
    + split; [discriminate|]. split; [|discriminate].
      intros _. exists "2". vm_compute. split; [reflexivity|]. split; discriminate.
Defined.
