(* ===== verification/TcpClient.v ===== *)
(** * tcp_sink_client.c: a client that connects again and again *)
From stdpp Require Import base list gmap strings.
From Stdlib Require Import ZArith Lia Ascii.
From S2P Require Import Prelude.
From S2P Require Import CLang.
From S2P Require Import Wp.
From S2P Require Import Libc.
From S2P Require Import Getopt.
From S2P Require Import Common.
From S2P Require Import CommonSocket.

#[local] Open Scope Z_scope.
#[local] Open Scope c_scope.

(** The static variable. *)
Record statics := Statics { close_conn : Z }.

Definition initial_statics : statics := Statics 1.

(** A variable that an option sets through its [flag] pointer. *)
Inductive flag := FlagVerbose | FlagCloseConn.

Record flag_option := FlagOption { fo_opt : option_; fo_flag : option flag }.

Definition long_options : list flag_option := [
  FlagOption (Option_ "ipv4" no_argument (ch "4")) None;
  FlagOption (Option_ "ipv6" no_argument (ch "6")) None;
  FlagOption (Option_ "port" required_argument (ch "p")) None;
  FlagOption (Option_ "sport" required_argument (ch "s")) None;
  FlagOption (Option_ "source-port" required_argument (ch "s")) None;
  FlagOption (Option_ "verbose" optional_argument (ch "v")) None;
  FlagOption (Option_ "quiet" no_argument 0) (Some FlagVerbose);
  FlagOption (Option_ "no-close" no_argument 0) (Some FlagCloseConn)
].

(** The local variables of [main] that the options set. *)
Record main_opts := MainOpts {
  o_addr_family : Z; o_dest_port : Z; o_src_port : Z; o_count : Z
}.

Definition default_opts : main_opts := MainOpts AF_INET 6666 0 100.

(** [sock_addr] of [bind_source_port]. *)
Definition source_addr (addr_family src_port : Z) : list Z :=
  if addr_family =? AF_INET then
    set_sin_addr [0; 0; 0; 0] (set_port (htons src_port) (set_family addr_family zero_sockaddr))
  else if addr_family =? AF_INET6 then
    set_port (htons src_port) (set_family addr_family zero_sockaddr)
  else zero_sockaddr.

Section TcpClient.
Context {K : Kernel}.
#[local] Abbreviation M := (M statics).

Definition usage (argv0 : string) : M Z :=
  printf "-= ERROR: Parameter problems =-\n" [] ;;
  printf " Usage: %s [-c count] [-p port] [-4] [-6] [-v] IP-addr\n\n" [AStr argv0] ;;
  ret EXIT_FAIL_OPTION.

(** Force using a specific source port number for connection *)
Definition bind_source_port (addr_family sockfd src_port : Z) : M unit :=
  Setsockopt sockfd SOL_SOCKET SO_REUSEADDR [1] ;;
  Bind sockfd (source_addr addr_family src_port) ;;
  ret tt.

(** One attempt: connected, or the number of retries so far. *)
Definition attempt (sockfd : Z) (dest_addr : list Z) (max_retries retries : Z) : M (Z + Z) :=
  len <- sockaddr_len dest_addr ;;
  res <- ask (CConnect sockfd dest_addr len) ;;
  if 0 <=? r_ret res then ret (inr (r_ret res))
  else
    retries <- int_check (retries + 1) ;;
    let errno := r_errno res in
    if max_retries <? retries then
      eprintf "ERROR: exceed conn attempts (%d) errno(%d) " [AInt retries; AInt errno] ;;
      perror "- connect" ;;
      ask (CClose sockfd) ;;
      exit EXIT_FAIL_SOCK
    else if errno =? EADDRNOTAVAIL then
      eprintf "RETRY(%d): re-connect() errno(%d) " [AInt retries; AInt errno] ;;
      perror "- connect" ;;
      ret (inl retries)
    else if errno =? ECONNRESET then
      eprintf "ERROR: Likely SO_REUSEPORT failed errno(%d) " [AInt errno] ;;
      perror "- connect" ;;
      ask (CClose sockfd) ;;
      exit EXIT_FAIL_REUSEPORT
    else
      eprintf "ERROR: connect() failed errno(%d) " [AInt errno] ;;
      perror "- connect" ;;
      ask (CClose sockfd) ;;
      exit EXIT_FAIL_SOCK.

Definition connect_retries (sockfd : Z) (dest_addr : list Z) (max_retries : Z) : M Z :=
  iter (Datatypes.S (Z.to_nat max_retries)) (attempt sockfd dest_addr max_retries) 0.

(** One connection of the loop of [main]. *)
Definition one_connection (o : main_opts) (dest_addr : list Z) (i : Z) : M unit :=
  verbose <- get_verbose ;;
  when (truth verbose) (printf "count:%d\n" [AInt i]) ;;
  sockfd <- Socket (o_addr_family o) SOCK_STREAM IPPROTO_TCP ;;
  when (0 <? o_src_port o) (bind_source_port (o_addr_family o) sockfd (o_src_port o)) ;;
  connect_retries sockfd dest_addr 2 ;;
  s <- get_st ;;
  when (truth (close_conn s)) (Close sockfd ;; ret tt).

Definition connections (o : main_opts) (dest_addr : list Z) : M unit :=
  iter (Datatypes.S (Z.to_nat (o_count o)))
    (fun i =>
       if i <? o_count o then
         one_connection o dest_addr i ;;
         ret (inl (i + 1))
       else ret (inr tt))
    0.

(** An answer 0 of [getopt_long]: the flag is stored, the option reported. *)
Definition flag_option_seen (e : optev) : M unit :=
  match long_options !! o_longindex e with
  | None => undefined OutOfBounds
  | Some o =>
      (match fo_flag o with
       | Some FlagVerbose => put_verbose (opt_val (fo_opt o))
       | Some FlagCloseConn => put_st (Statics (opt_val (fo_opt o)))
       | None => ret tt
       end) ;;
      verbose <- get_verbose ;;
      when (truth verbose)
        (printf "Flag option %s" [AStr (opt_name (fo_opt o))] ;;
         (match o_arg e with Some arg => printf " with arg %s" [AStr arg] | None => ret tt end) ;;
         printf "\n" [])
  end.

Definition main_option (argv0 : string) (o : main_opts) (e : optev) : M (main_opts + Z) :=
  let oc := o_c e in
  let '(MainOpts family dest_port src_port count) := o in
  if oc =? 0 then flag_option_seen e ;; ret (inl o)
  else if oc =? ch "c" then v <- atoi_optarg e ;; ret (inl (MainOpts family dest_port src_port v))
  else if oc =? ch "p" then v <- atoi_optarg e ;; ret (inl (MainOpts family (u16 v) src_port count))
  else if oc =? ch "s" then v <- atoi_optarg e ;; ret (inl (MainOpts family dest_port (u16 v) count))
  else if oc =? ch "4" then ret (inl (MainOpts AF_INET dest_port src_port count))
  else if oc =? ch "6" then ret (inl (MainOpts AF_INET6 dest_port src_port count))
  else if oc =? ch "v" then put_verbose (atoi_or_1 e) ;; ret (inl o)
  else if oc =? ch "?" then u <- usage argv0 ;; ret (inr u)
  else ret (inl o).

(** [main], from the answers of [getopt_long] and the argument after the
    options. *)
Definition main (argv0 : string) (evs : list optev) (dest_ip : option string) : M Z :=
  o <- getopt_loop (main_option argv0) default_opts evs ;;
  match o, dest_ip with
  | inr u, _ => ret u
  | inl o, None =>
      eprintf "Expected dest IP-address (IPv6 or IPv4) argument after options\n" [] ;;
      usage argv0
  | inl o, Some dest_ip =>
      verbose <- get_verbose ;;
      when (0 <? verbose)
        (printf "Destination IP%s:%s port:%d\n"
           [AStr (if o_addr_family o =? AF_INET6 then "v6" else "v4"); AStr dest_ip; AInt (o_dest_port o)]) ;;
      dest_addr <- setup_sockaddr (o_addr_family o) zero_sockaddr dest_ip (o_dest_port o) ;;
      connections o dest_addr ;;
      ret 0
  end.
End TcpClient.
