(* ===== verification/TcpClientProps.v ===== *)
(** * tcp_sink_client: the retries, the connections, and the whole program *)
From stdpp Require Import base list gmap strings.
From Stdlib Require Import ZArith Lia Ascii.
From S2P Require Import Prelude.
From S2P Require Import CLang.
From S2P Require Import Wp.
From S2P Require Import Libc.
From S2P Require Import Common.
From S2P Require Import CommonSocket.
From S2P Require Import Getopt.
From S2P Require Import Tame.
From S2P Require Import Scripted.
From S2P Require Import TcpClient.

#[local] Open Scope Z_scope.
#[local] Open Scope c_scope.

(** ** The log of the attempts *)
(** The attempts to connect [fd] answered [rs], newest first. *)
Definition connect_log (fd : Z) (dest : list Z) (rs : list reply) : list (call * reply) :=
  rev (pair (CConnect fd dest (addr_len dest)) <$> rs).

Arguments connect_log : simpl never.

Lemma connect_log_snoc fd dest rs r :
  connect_log fd dest (rs ++ [r]) = (CConnect fd dest (addr_len dest), r) :: connect_log fd dest rs.
Proof. unfold connect_log. by rewrite fmap_app, rev_app_distr. Qed.

(** A failure that is worth another attempt. *)
Definition not_avail (r : reply) : Prop := r_ret r < 0 /\ r_errno r = EADDRNOTAVAIL.

(** The exit code for the last failure, after [n] others. *)
Definition give_up_code (max_retries : Z) (n : nat) (r : reply) : Z :=
  if Z.of_nat n =? max_retries then EXIT_FAIL_SOCK
  else if r_errno r =? ECONNRESET then EXIT_FAIL_REUSEPORT else EXIT_FAIL_SOCK.

Section Retries.
Context {K : Kernel}.
#[local] Abbreviation W := (world statics).
Variables (fd : Z) (dest : list Z) (max_retries : Z) (w0 : W).
Hypothesis Hmax : 0 <= max_retries < 2 ^ 31 - 1.
Hypothesis Hfam : known_family dest.

(** The calls since [w0] are attempts, answered [rs]. *)
Definition attempted (rs : list reply) (w : W) : Prop :=
  w_mem w = w_mem w0 /\ w_st w = w_st w0 /\ w_log w = connect_log fd dest rs ++ w_log w0.

Definition gave_up (code : Z) (w : W) : Prop :=
  exists rs r w1 rc k, Forall not_avail rs /\ r_ret r < 0 /\
    Z.of_nat (length rs) <= max_retries /\
    (Z.of_nat (length rs) < max_retries -> r_errno r <> EADDRNOTAVAIL) /\
    code = give_up_code max_retries (length rs) r /\
    attempted (rs ++ [r]) w1 /\ w = w_call (CClose fd) rc k w1.

Lemma attempted_call rs r k w :
  attempted rs w -> attempted (rs ++ [r]) (w_call (CConnect fd dest (addr_len dest)) r k w).
Proof. intros (Hm & Hs & Hlog). split_and!; [done..|]. cbn. by rewrite Hlog, connect_log_snoc. Qed.

Lemma attempted_print rs o w : attempted rs w -> attempted rs (w_print o w).
Proof. done. Qed.

Lemma attempt_spec rs w :
  attempted rs w -> Forall not_avail rs -> Z.of_nat (length rs) <= max_retries ->
  wpg False (attempt fd dest max_retries (Z.of_nat (length rs)))
    (fun out w' => exists r, attempted (rs ++ [r]) w' /\
       match out with
       | inl n => n = Z.of_nat (length rs) + 1 /\ n <= max_retries /\ not_avail r
       | inr v => 0 <= v /\ r_ret r = v
       end) gave_up w.
Proof.
  intros Hw Hrs Hn. unfold attempt. wp_step. apply len_known; [done|].
  wp_step. wp_ask r k E. set (w1 := w_call _ r k w).
  assert (Hw1 : attempted (rs ++ [r]) w1) by by apply attempted_call.
  destruct (Z.leb_spec 0 (r_ret r)) as [Hr|Hr]; [by wp_step; exists r|].
  wp_step. apply wp_int_check; [unfold is_i32; lia|]. cbv zeta.
  assert (Hend : forall code o1 o2 rc k2 (w2 : W),
    w2 = w_print o2 (w_print o1 w1) -> code = give_up_code max_retries (length rs) r ->
    (Z.of_nat (length rs) < max_retries -> r_errno r <> EADDRNOTAVAIL) ->
    gave_up code (w_call (CClose fd) rc k2 w2)).
  { intros code o1 o2 rc k2 w2 -> -> Hne. exists rs, r, (w_print o2 (w_print o1 w1)), rc, k2. by split_and!. }
  unfold give_up_code in Hend.
  destruct (Z.ltb_spec max_retries (Z.of_nat (length rs) + 1)) as [Hx|Hx].
  { do 5 wp_step. wp_ask rc k2 E2. wp_step. eapply Hend; [done| |lia].
    rewrite (proj2 (Z.eqb_eq _ _)) by lia. done. }
  rewrite (proj2 (Z.eqb_neq _ _)) in Hend by lia.
  destruct (Z.eqb_spec (r_errno r) EADDRNOTAVAIL) as [Ha|Ha].
  { do 5 wp_step. exists r. split; [by apply attempted_print, attempted_print|]. split_and!; done || lia. }
  destruct (Z.eqb_spec (r_errno r) ECONNRESET) as [Hc|Hc];
    (do 5 wp_step; wp_ask rc k2 E2; wp_step; by eapply Hend).
Qed.

Lemma connect_retries_spec :
  wpg False (connect_retries fd dest max_retries)
    (fun v w => exists rs r, attempted (rs ++ [r]) w /\ Forall not_avail rs /\
       Z.of_nat (length rs) <= max_retries /\ r_ret r = v /\ 0 <= v)
    gave_up w0.
Proof.
  unfold connect_retries.
  apply (wp_iter (fun k n w => exists rs, attempted rs w /\ Forall not_avail rs /\
     n = Z.of_nat (length rs) /\ n <= max_retries /\ k = Datatypes.S (Z.to_nat (max_retries - n)))).
  - exists []. split_and!; try done; cbn; lia.
  - intros n w (rs & _ & _ & _ & _ & ?). lia.
  - intros k n w (rs & Hw & Hrs & -> & Hle & Hk).
    eapply wp_post; [by apply attempt_spec|]. intros [n|v] w2 (r & Hw2 & Hr).
    + destruct Hr as (-> & Hle2 & Hr). exists (rs ++ [r]). split_and!; try done.
      * apply Forall_app. split; [done|]. constructor; [done|constructor].
      * rewrite length_app. cbn. lia.
      * lia.
    + exists rs, r. destruct Hr. by split_and!.
Qed.
End Retries.

(** ** A connection, and all of them *)
Definition bind_calls (family src_port fd : Z) : list call :=
  if 0 <? src_port then
    [CBind fd (source_addr family src_port) (addr_len (source_addr family src_port));
     CSetsockopt fd SOL_SOCKET SO_REUSEADDR [1]]
  else [].

Definition close_calls (close fd : Z) : list call := if truth close then [CClose fd] else [].

(** The log of one connection, newest call first: a socket, bound to the
    source port if there is one, connected after at most two retries, and
    closed unless [--no-close] was given. *)
Definition connection_log (o : main_opts) (dest : list Z) (close : Z) (l : list (call * reply)) : Prop :=
  exists sock bind_log fails ok close_log,
    l = close_log ++ connect_log (r_ret sock) dest (fails ++ [ok]) ++ bind_log ++
        [(CSocket (o_addr_family o) SOCK_STREAM IPPROTO_TCP, sock)] /\
    0 <= r_ret sock /\ 0 <= r_ret ok /\ Forall not_avail fails /\ (length fails <= 2)%nat /\
    fst <$> bind_log = bind_calls (o_addr_family o) (o_src_port o) (r_ret sock) /\
    fst <$> close_log = close_calls close (r_ret sock) /\
    Forall (fun e => 0 <= r_ret e.2) (bind_log ++ close_log).

Definition client_codes : list Z := [EXIT_FAIL_SOCK; EXIT_FAIL_SOCKOPT; EXIT_FAIL_REUSEPORT].

(** Every element of a listed log. *)
Ltac all_in := repeat (apply Forall_cons_2; [done|]); apply Forall_nil_2.

Section Connections.
Context {K : Kernel}.
#[local] Abbreviation W := (world statics).
#[local] Abbreviation Xc := (fun (code : Z) (_ : W) => In code client_codes).

(** A wrapper that makes one call, and ends the program when it fails. *)
Definition one_call (c : call) (w : W) (Q : Z -> W -> Prop) : Prop :=
  forall r k w', w_mem w' = w_mem w -> w_st w' = w_st w -> w_log w' = (c, r) :: w_log w -> 0 <= r_ret r ->
    w' = w_call c r k w -> Q (r_ret r) w'.

Lemma socket_spec f t p (Q : Z -> W -> Prop) w :
  one_call (CSocket f t p) w Q -> wpg False (Socket f t p) Q Xc w.
Proof.
  intros HQ. unfold Socket. wp_step. wp_ask r k E. destruct (Z.ltb_spec (r_ret r) 0).
  - do 3 wp_step. vm_compute. tauto.
  - wp_step. by eapply HQ.
Qed.

Lemma setsockopt_spec fd l n v (Q : Z -> W -> Prop) w :
  one_call (CSetsockopt fd l n v) w Q -> wpg False (Setsockopt fd l n v) Q Xc w.
Proof.
  intros HQ. unfold Setsockopt, wrapper_failed. wp_step. wp_ask r k E. destruct (Z.ltb_spec (r_ret r) 0).
  - do 5 wp_step. vm_compute. tauto.
  - wp_step. by eapply HQ.
Qed.

Lemma close_spec fd (Q : Z -> W -> Prop) w :
  one_call (CClose fd) w Q -> wpg False (Close fd) Q Xc w.
Proof.
  intros HQ. unfold Close, wrapper_failed. wp_step. wp_ask r k E. destruct (Z.ltb_spec (r_ret r) 0).
  - do 5 wp_step. vm_compute. tauto.
  - wp_step. by eapply HQ.
Qed.

Lemma bind_spec fd a (Q : Z -> W -> Prop) w :
  known_family a -> one_call (CBind fd a (addr_len a)) w Q -> wpg False (Bind fd a) Q Xc w.
Proof.
  intros Hf HQ. unfold Bind, wrapper_failed. wp_step. apply len_known; [done|].
  wp_step. wp_ask r k E. destruct (Z.ltb_spec (r_ret r) 0).
  - do 4 wp_step. wp_step. wp_ask r2 k2 E2. wp_step. vm_compute. tauto.
  - wp_step. by eapply HQ.
Qed.

Lemma source_family f p :
  f = AF_INET \/ f = AF_INET6 -> known_family (source_addr f p).
Proof. intros [-> | ->]; [left|right]; reflexivity. Qed.

Lemma give_up_listed m n r : In (give_up_code m n r) client_codes.
Proof. unfold give_up_code. repeat case_match; vm_compute; tauto. Qed.

(** The bind to the source port, if there is one. *)
Lemma bind_source_spec f src fd (Q : unit -> W -> Prop) w :
  f = AF_INET \/ f = AF_INET6 ->
  (forall w' l, w_st w' = w_st w -> w_log w' = l ++ w_log w -> fst <$> l = bind_calls f src fd ->
     Forall (fun e => 0 <= r_ret e.2) l -> Q tt w') ->
  wpg False (when (0 <? src) (bind_source_port f fd src)) Q Xc w.
Proof.
  intros Hf HQ. unfold bind_calls in HQ. wp_step; rewrite H in HQ; [|by apply (HQ w [])].
  unfold bind_source_port. wp_step. apply setsockopt_spec. intros r1 k1 w1 _ Hs1 Hl1 Hr1 _.
  wp_step. apply bind_spec; [by apply source_family|]. intros r2 k2 w2 _ Hs2 Hl2 Hr2 _. wp_step.
  eapply (HQ w2 [(_, r2); (_, r1)]); [congruence|by rewrite Hl2, Hl1|done|all_in].
Qed.

Lemma one_connection_spec o dest i (w : W) :
  o_addr_family o = AF_INET \/ o_addr_family o = AF_INET6 -> known_family dest ->
  wpg False (one_connection o dest i)
    (fun _ w' => w_st w' = w_st w /\
       exists l, w_log w' = l ++ w_log w /\ connection_log o dest (close_conn (w_st w)) l) Xc w.
Proof.
  intros Hf Hd. unfold one_connection. wp_step. wp_step.
  set (P := fun (_ : unit) w' => _).
  enough (H : forall w1 : W, w_st w1 = w_st w -> w_log w1 = w_log w ->
    wpg False (sockfd <- Socket (o_addr_family o) SOCK_STREAM IPPROTO_TCP ;;
               when (0 <? o_src_port o) (bind_source_port (o_addr_family o) sockfd (o_src_port o)) ;;
               connect_retries sockfd dest 2 ;;
               s <- get_st ;; when (truth (close_conn s)) (Close sockfd ;; ret tt))%c P Xc w1).
  { wp_step. wp_step; [wp_step|]; by apply H. }
  intros w1 Hs1 Hl1. wp_step. apply socket_spec. intros sock k2 w2 _ Hs2 Hl2 Hr2 _.
  wp_step. apply bind_source_spec; [done|]. intros w3 bl Hs3 Hl3 Hb Hbok.
  wp_step. eapply wp_mono; [apply (connect_retries_spec (r_ret sock) dest 2 w3); [lia|done]| |].
  2: { intros code w' (rs & r & w4 & rc & k & _ & _ & _ & _ & -> & _). apply give_up_listed. }
  intros v w4 (rs & r & (_ & Hs4 & Hl4) & Hrs & Hn & Hv & Hv0).
  assert (Hlog : forall w5 cl, w_log w5 = cl ++ w_log w4 -> fst <$> cl = close_calls (close_conn (w_st w)) (r_ret sock) ->
    Forall (fun e => 0 <= r_ret e.2) cl -> w_st w5 = w_st w4 -> P tt w5).
  { intros w5 cl Hl5 Hc Hcok Hs5. split; [congruence|].
    exists (cl ++ connect_log (r_ret sock) dest (rs ++ [r]) ++ bl ++
            [(CSocket (o_addr_family o) SOCK_STREAM IPPROTO_TCP, sock)]). split.
    - rewrite Hl5, Hl4, Hl3, Hl2, Hl1. by rewrite <- !app_assoc.
    - exists sock, bl, rs, r, cl. split_and!; try done; [lia|lia|].
      by apply Forall_app. }
  unfold close_calls in Hlog. do 2 wp_step. rewrite Hs4, Hs3, Hs2, Hs1.
  wp_step; rewrite H in Hlog; [|by apply (Hlog w4 [])].
  wp_step. apply close_spec. intros r5 k5 w5 _ Hs5 Hl5 Hr5 _. wp_step.
  eapply (Hlog w5 [(_, r5)]); [done|done|all_in|done].
Qed.

Lemma connections_spec o dest (w : W) :
  o_addr_family o = AF_INET \/ o_addr_family o = AF_INET6 -> known_family dest ->
  wpg False (connections o dest)
    (fun _ w' => w_st w' = w_st w /\
       exists logs, length logs = Z.to_nat (o_count o) /\ w_log w' = concat (rev logs) ++ w_log w /\
         Forall (connection_log o dest (close_conn (w_st w))) logs) Xc w.
Proof.
  intros Hf Hd. unfold connections.
  apply (wp_iter (fun k i w' => w_st w' = w_st w /\ exists logs, i = Z.of_nat (length logs) /\
      w_log w' = concat (rev logs) ++ w_log w /\ Forall (connection_log o dest (close_conn (w_st w))) logs /\
      (length logs <= Z.to_nat (o_count o))%nat /\ k = Datatypes.S (Z.to_nat (o_count o) - length logs))).
  - split; [done|]. exists []. split_and!; try done; cbn; lia.
  - intros i w' (_ & logs & _ & _ & _ & _ & ?). lia.
  - intros k i w' (Hs & logs & -> & Hl & Hall & Hn & Hk).
    destruct (Z.ltb_spec (Z.of_nat (length logs)) (o_count o)) as [H|H].
    + wp_step. eapply wp_post; [by apply one_connection_spec|].
      intros _ w2 (Hs2 & l & Hl2 & Hlog). wp_step. split; [congruence|].
      exists (logs ++ [l]). rewrite length_app. cbn [length]. split_and!; try lia.
      * rewrite Hl2, Hl, rev_app_distr. cbn. by rewrite app_assoc.
      * apply Forall_app. split; [done|]. rewrite Hs in Hlog. all_in.
    + wp_step. split; [done|]. exists logs. split_and!; try done. lia.
Qed.
End Connections.

(** ** The whole program *)

(** An answer of [getopt_long]: an option that requires an argument has one. *)
Definition sane_client_option (e : optev) : Prop :=
  (o_c e = 0 -> is_Some (long_options !! o_longindex e)) /\
  (In (o_c e) [ch "c"; ch "p"; ch "s"] -> is_Some (o_arg e)).

Definition client_main_codes : list Z := EXIT_FAIL_OPTION :: EXIT_FAIL_IP :: client_codes.

Section Main.
Context {K : Kernel}.
#[local] Abbreviation W := (world statics).

Definition any_client (w : W) : Prop := True.

#[local] Instance any_client_stable : Stable any_client.
Proof. split; intros; done. Qed.

#[local] Abbreviation tame := (tame False any_client client_main_codes).

Lemma tame_client_usage argv0 : tame (usage argv0) (fun code => code = EXIT_FAIL_OPTION).
Proof. unfold usage. by repeat tame_step. Qed.

Lemma tame_client_flag e : is_Some (long_options !! o_longindex e) -> tame (flag_option_seen e) (fun _ => True).
Proof.
  intros [o Ho]. unfold flag_option_seen. rewrite Ho.
  eapply tame_seq; [by destruct (fo_flag o) as [[]|]; repeat tame_step|intros; repeat tame_step].
  eapply tame_seq; [destruct (o_arg e); repeat tame_step; done|intros; tame_step].
Qed.

(** The families the options can ask for. *)
Definition sane_client_opts (o : main_opts) : Prop :=
  o_addr_family o = AF_INET \/ o_addr_family o = AF_INET6.

Lemma tame_client_option argv0 o e :
  sane_client_opts o -> sane_client_option e ->
  tame (main_option argv0 o e)
    (fun r => match r with inl o' => sane_client_opts o' | inr code => code = EXIT_FAIL_OPTION end).
Proof.
  intros Ho (H0 & Ha). destruct o as [family dest_port src_port count]. unfold sane_client_opts in *.
  unfold main_option. cbv zeta iota beta.
  destruct (Z.eqb_spec (o_c e) 0) as [E|_].
  { eapply tame_seq; [by apply tame_client_flag, H0|intros; by apply tame_ret]. }
  do 3 (tame_step; [eapply tame_bind; [apply tame_atoi_any, Ha; lazymatch goal with H : (_ =? _) = true |- _ =>
    apply Z.eqb_eq in H; rewrite H end; vm_compute; tauto|intros v _; by apply tame_ret]|]).
  tame_step; [apply tame_ret; by left|]. tame_step; [apply tame_ret; by right|].
  tame_step; [repeat tame_step; done|]. tame_step; [|by apply tame_ret].
  eapply tame_bind; [apply tame_client_usage|]. intros u ->. by apply tame_ret.
Qed.

Lemma tame_connections o dest :
  sane_client_opts o -> known_family dest -> tame (connections o dest) (fun _ => True).
Proof.
  intros Ho Hd w _. eapply wp_mono; [by apply connections_spec|done|].
  intros code w' H. right. by right.
Qed.

Lemma tame_client_main argv0 evs dest_ip :
  Forall sane_client_option evs ->
  tame (main argv0 evs dest_ip) (fun code => code = 0 \/ code = EXIT_FAIL_OPTION).
Proof.
  intros Hevs. unfold main. eapply tame_bind.
  { eapply (tame_getopt _ _ _ sane_client_opts sane_client_option); [by left|done|apply tame_client_option]. }
  intros [o|u] Ho; [|apply tame_ret; by right]. destruct dest_ip as [ip|].
  2: { tame_step. eapply tame_mono; [apply tame_client_usage|]. by right. }
  tame_step. eapply tame_seq; [repeat tame_step|]. intros _.
  eapply tame_bind; [by apply tame_dest_addr; [..|vm_compute; tauto]|]. intros dest Hd.
  eapply tame_seq; [by apply tame_connections|]. intros _. apply tame_ret. by left.
Qed.
End Main.

(** ** The properties *)

(** C13: [connect_retries] terminates without undefined behaviour after at
    most [max_retries + 1] attempts on the same socket and address, of family
    AF_INET or AF_INET6 as in every address the program builds.  It returns
    what the last attempt returned when all the ones before failed with
    EADDRNOTAVAIL; otherwise it closes the socket and ends the program: with
    EXIT_FAIL_REUSEPORT when the last failure was ECONNRESET and came before the
    attempts ran out, with EXIT_FAIL_SOCK in all other cases. *)
Theorem connect_retries_correct (K : Kernel) (fd : Z) (dest : list Z) (max_retries : Z) (w : world statics) :
  0 <= max_retries < 2 ^ 31 - 1 -> known_family dest ->
  wp (connect_retries fd dest max_retries)
    (fun v w' => exists rs r, w_log w' = connect_log fd dest (rs ++ [r]) ++ w_log w /\
       Forall not_avail rs /\ Z.of_nat (length rs) <= max_retries /\ r_ret r = v /\ 0 <= v)
    (fun code w' => exists rs r rc, w_log w' = (CClose fd, rc) :: connect_log fd dest (rs ++ [r]) ++ w_log w /\
       Forall not_avail rs /\ r_ret r < 0 /\ Z.of_nat (length rs) <= max_retries /\
       (Z.of_nat (length rs) < max_retries -> r_errno r <> EADDRNOTAVAIL) /\
       code = give_up_code max_retries (length rs) r) w.
Proof.
  intros Hm Hd. eapply wp_mono; [by apply connect_retries_spec| |].
  - intros v w' (rs & r & (_ & _ & Hlog) & Hrs & Hn & Hv & H0). exists rs, r. by split_and!.
  - intros code w' (rs & r & w1 & rc & k & Hrs & Hr & Hn & Hne & Hc & (_ & _ & Hlog) & ->).
    exists rs, r, rc. cbn. rewrite Hlog. by split_and!.
Qed.

Definition example_dest : list Z := source_addr AF_INET 6666.
Definition refused : reply := Reply (-1) EADDRNOTAVAIL (Timespec 0 0) [].

Lemma connect_retries_correct_witness :
  let w := start [refused; refused; reply_of 0] initial_statics in
  wp (connect_retries 3 example_dest 2)
    (fun v w' => exists rs r, w_log w' = connect_log 3 example_dest (rs ++ [r]) ++ w_log w /\
       Forall not_avail rs /\ Z.of_nat (length rs) <= 2 /\ r_ret r = v /\ 0 <= v)
    (fun code w' => exists rs r rc, w_log w' = (CClose 3, rc) :: connect_log 3 example_dest (rs ++ [r]) ++ w_log w /\
       Forall not_avail rs /\ r_ret r < 0 /\ Z.of_nat (length rs) <= 2 /\
       (Z.of_nat (length rs) < 2 -> r_errno r <> EADDRNOTAVAIL) /\
       code = give_up_code 2 (length rs) r) w.
Proof.
  apply (connect_retries_correct scripted 3 example_dest 2 (start [refused; refused; reply_of 0] initial_statics)).
  - vm_compute. split; [discriminate|reflexivity].
  - left. reflexivity.
Defined.

(** C22: the loop of [main] makes [count] connections, one after the other:
    each has its own socket, is bound to the source port when one is asked for,
    is connected after at most two retries, and is closed before the next one
    starts, unless [--no-close] was given.  Any other failure ends the program
    with one of three exit codes. *)
Theorem tcp_client_connects (K : Kernel) (o : main_opts) (dest : list Z) (w : world statics) :
  o_addr_family o = AF_INET \/ o_addr_family o = AF_INET6 -> known_family dest ->
  wp (connections o dest)
    (fun _ w' => exists logs, length logs = Z.to_nat (o_count o) /\ w_log w' = concat (rev logs) ++ w_log w /\
       Forall (connection_log o dest (close_conn (w_st w))) logs)
    (fun code _ => In code client_codes) w.
Proof.
  intros Hf Hd. eapply wp_post; [by apply connections_spec|]. by intros _ w' [_ H].
Qed.

Lemma tcp_client_connects_witness :
  let w := start [reply_of 5; refused; reply_of 0; reply_of 0; reply_of 5] initial_statics in
  let o := MainOpts AF_INET 6666 0 2 in
  wp (connections o example_dest)
    (fun _ w' => exists logs, length logs = 2%nat /\ w_log w' = concat (rev logs) ++ w_log w /\
       Forall (connection_log o example_dest 1) logs)
    (fun code _ => In code client_codes) w.
Proof.
  apply (tcp_client_connects scripted (MainOpts AF_INET 6666 0 2) example_dest
    (start [reply_of 5; refused; reply_of 0; reply_of 0; reply_of 5] initial_statics)).
  - left. reflexivity.
  - left. reflexivity.
Defined.

(** C25: the whole program [tcp_sink_client]: for every command line whose
    options have their arguments, every destination and every system, [main]
    terminates without undefined behaviour; it returns 0 or the usage code, or
    exits with one of the documented codes. *)
Theorem tcp_client_main_safe (K : Kernel) (argv0 : string) (evs : list optev) (dest_ip : option string)
  (w : world statics) :
  Forall sane_client_option evs ->
  wp (main argv0 evs dest_ip) (fun code _ => code = 0 \/ code = EXIT_FAIL_OPTION)
    (fun code _ => In code client_main_codes) w.
Proof.
  intros Hevs. eapply wp_post; [by apply tame_client_main|]. by intros code w' [_ H].
Qed.

Lemma tcp_client_main_safe_witness :
  wp (main "tcp_sink_client" [Optev (ch "s") 3 (Some "1024"); Optev 0 7 None] (Some "127.0.0.1"))
    (fun code _ => code = 0 \/ code = EXIT_FAIL_OPTION) (fun code _ => In code client_main_codes)
    (start [] initial_statics).
Proof.
  apply (tcp_client_main_safe scripted "tcp_sink_client"
    [Optev (ch "s") 3 (Some "1024"); Optev 0 7 None] (Some "127.0.0.1") (start [] initial_statics)).
  constructor; [|constructor; [|constructor]].
  - split; [discriminate|]. intros _. by eexists.
  - split; [by eexists|]. intros H. vm_compute in H. lia.
Defined.
