(* ===== verification/UdpEcho.v ===== *)
(** * udp_echo.c and udp_example02.c: echo servers

    They answer each datagram from the address it was sent to: the control
    data that came with it goes back with the reply.  Module [Echo] is
    udp_echo.c, for IPv4 and IPv6; Module [Example02] is udp_example02.c, its
    predecessor for IPv4. *)
From stdpp Require Import base list gmap strings.
From Stdlib Require Import ZArith Lia Ascii.
From S2P Require Import Prelude.
From S2P Require Import CLang.
From S2P Require Import Wp.
From S2P Require Import Libc.
From S2P Require Import Getopt.
From S2P Require Import Common.
From S2P Require Import CommonSocket.
From S2P Require Import Cmsg.

#[local] Open Scope Z_scope.
#[local] Open Scope c_scope.

Definition PORT : Z := 4040.

(** The static variable of udp_echo.c. *)
Record statics := Statics { verbose : Z }.

Definition initial_statics : statics := Statics 1.

Definition sizeof_cbuf : Z := 512.
Definition sizeof_frame : Z := 8192.

Section Calls.
Context {K : Kernel}.
#[local] Abbreviation M := (M statics).

(** The message for ancillary data that is not known. *)
Definition unknown_cmsg (cm : cmsghdr) : M unit :=
  eprintf "Unknown ancillary data, len=%lu, level=%d, type=%d\n"
    [AInt (cmsg_len cm); AInt (cmsg_level cm); AInt (cmsg_type cm)].

(** The header of a round before it receives. *)
Definition fresh_header (cbuf frame rem_addr : ptr) (namelen : Z) : msghdr :=
  Msghdr rem_addr namelen [Iovec frame sizeof_frame] 1 cbuf sizeof_cbuf 0.

(** [vec[0].iov_len = res; sendmsg(fd, &msghdr, 0)] *)
Definition echo_back (fd : Z) (frame : ptr) (h : msghdr) (res : Z) : M unit :=
  data <- peek frame (u64 res) ;;
  addr <- load (msg_name h) (msg_namelen h) ;;
  control <- load (msg_control h) (msg_controllen h) ;;
  ask (CSendmsg fd data addr control 0) ;;
  ret tt.

(** [if (--count == 0) break;] *)
Definition count_down (count : Z) : M (Z + unit) :=
  count <- int_check (count - 1) ;;
  if count =? 0 then ret (inr tt) else ret (inl count).

(** [perror("bind"); return 1;] when the address cannot be bound. *)
Definition bind_listener (fd : Z) (addr : list Z) : M bool :=
  r <- ask (CBind fd addr (Z.of_nat (length addr))) ;;
  if r_ret r =? -1 then perror "bind" ;; ret false else ret true.
End Calls.

Module Echo.
Section Echo.
Context {K : Kernel}.
#[local] Abbreviation M := (M statics).

Definition pktinfo_body (pktinfo pktinfo6 : ptr) (res : Z) (get_cmsg : cmsghdr) : M Z :=
  if (cmsg_level get_cmsg =? IPPROTO_IP) && (cmsg_type get_cmsg =? IP_PKTINFO) then
    memcpy pktinfo (cmsg_data get_cmsg) sizeof_in_pktinfo ;;
    ret AF_INET
  else if (cmsg_level get_cmsg =? IPPROTO_IPV6) && (cmsg_type get_cmsg =? IPV6_PKTINFO) then
    memcpy pktinfo6 (cmsg_data get_cmsg) sizeof_in6_pktinfo ;;
    ret AF_INET6
  else
    unknown_cmsg get_cmsg ;;
    ret res.

Definition pktinfo_get (my_hdr : msghdr) (pktinfo pktinfo6 : ptr) : M Z :=
  if 0 <? msg_controllen my_hdr then cmsg_fold my_hdr (pktinfo_body pktinfo pktinfo6) (-1)
  else ret (-1).

(** [inet_ntop] into a buffer of its own: the text written, if any. *)
Definition inet_ntop (family : Z) (src : ptr) (n : Z) : M (option string) :=
  bs <- load src n ;;
  r <- ask (CInetNtop family bs) ;;
  if r_ret r =? 0 then perror "inet_ntop" ;; ret None
  else ret (Some (string_of_bytes (c_string (m_data (r_msg r))))).

(** Printing a buffer with ["%s"]: it must have been written. *)
Definition print_text (fmt : string) (text : option string) : M unit :=
  match text with
  | Some s => printf fmt [AStr s]
  | None => undefined Indeterminate
  end.

(** The port and the two addresses that [print_info] prints; [None] is a
    variable left uninitialised. *)
Definition contact (my_hdr : msghdr) (addr_family : Z) (pktinfo pktinfo6 : ptr) :
  M (option Z * option string * option string) :=
  let rem_addr := msg_name my_hdr in
  if addr_family =? AF_INET then
    port <- load (ptr_add rem_addr 2) 2 ;;
    from_addr <- inet_ntop addr_family (ptr_add rem_addr 4) 4 ;;
    to_addr <- inet_ntop addr_family (ptr_add pktinfo 4) 4 ;;
    ret (Some (le_val port), from_addr, to_addr)
  else if addr_family =? AF_INET6 then
    port <- load (ptr_add rem_addr 2) 2 ;;
    from_addr <- inet_ntop addr_family (ptr_add rem_addr 8) 16 ;;
    to_addr <- inet_ntop addr_family pktinfo6 16 ;;
    ret (Some (le_val port), from_addr, to_addr)
  else
    eprintf "No destination IP data found (ancillary data)\n" [] ;;
    ret (None, None, None).

Definition print_info (my_hdr : msghdr) : M unit :=
  pktinfo <- new_block sizeof_in_pktinfo ;;
  pktinfo6 <- new_block sizeof_in6_pktinfo ;;
  addr_family <- pktinfo_get my_hdr pktinfo pktinfo6 ;;
  c <- contact my_hdr addr_family pktinfo pktinfo6 ;;
  let '(rem_port, from_addr, to_addr) := c in
  print_text "Got contacted on dst addr=%s " to_addr ;;
  print_text "From src addr=%s " from_addr ;;
  (match rem_port with
   | Some port => printf "port=%d\n" [AInt (htons port)]
   | None => undefined Indeterminate
   end) ;;
  s <- get_st ;;
  when (truth (verbose s) && (addr_family =? AF_INET))
    (printf " Extra data:\n" [] ;;
     ipi_addr <- load (ptr_add pktinfo 8) 4 ;;
     printf " - Header destination address (pktinfo.ipi_addr)=%s\n" [AStr (inet_ntoa ipi_addr)] ;;
     ifindex <- load pktinfo 4 ;;
     printf " - Interface index (pktinfo.ipi_ifindex)=%d\n" [AInt (i32 (le_val ifindex))]).

(** The local variables of [main] that the options set. *)
Record main_opts := MainOpts { o_count : Z; o_listen_port : Z; o_addr_family : Z }.

Definition default_opts : main_opts := MainOpts 1000000 PORT AF_INET6.

Definition main_option (o : main_opts) (e : optev) : M (main_opts + Z) :=
  let oc := o_c e in
  let '(MainOpts count port family) := o in
  if oc =? ch "c" then v <- atoi_optarg e ;; ret (inl (MainOpts v port family))
  else if oc =? ch "l" then v <- atoi_optarg e ;; ret (inl (MainOpts count (u16 v) family))
  else if oc =? ch "4" then ret (inl (MainOpts count port AF_INET))
  else if oc =? ch "6" then ret (inl (MainOpts count port AF_INET6))
  else if oc =? ch "v" then v <- atoi_optarg e ;; put_st (Statics v) ;; ret (inl o)
  else ret (inl o).

(** The address the server listens on: any address, at the port. *)
Definition listen_addr (family port : Z) : list Z :=
  if family =? AF_INET then set_port (htons port) (set_family family zero_sockaddr)
  else if family =? AF_INET6 then set_port (htons port) (set_family family zero_sockaddr)
  else zero_sockaddr.

Definition echo_round (fd : Z) (cbuf frame rem_addr : ptr) (count : Z) : M (Z + unit) :=
  out <- recvmsg_call fd (fresh_header cbuf frame rem_addr sizeof_sockaddr_storage) 0 ;;
  let '(res, msghdr) := out in
  if r_ret res =? -1 then ret (inr tt)
  else
    s <- get_st ;;
    when (0 <? verbose s)
      (print_info msghdr ;; printf " Echo back packet, size=%d\n" [AInt (r_ret res)]) ;;
    echo_back fd frame msghdr (r_ret res) ;;
    count_down count.

(** The [while (1)] of [main]: [fuel] bounds the number of rounds. *)
Definition echo_loop (fuel : nat) (fd : Z) (cbuf frame rem_addr : ptr) (count : Z) : M unit :=
  iter fuel (echo_round fd cbuf frame rem_addr) count.

(** [main], from the answers of [getopt]. *)
Definition main (fuel : nat) (evs : list optev) : M Z :=
  rem_addr <- new_block sizeof_sockaddr_storage ;;
  cbuf <- new_block sizeof_cbuf ;;
  frame <- new_block sizeof_frame ;;
  r <- getopt_loop main_option default_opts evs ;;
  match r with
  | inr code => ret code
  | inl o =>
      fd <- Socket (o_addr_family o) SOCK_DGRAM 0 ;;
      bound <- bind_listener fd (listen_addr (o_addr_family o) (o_listen_port o)) ;;
      if negb bound then ret 1
      else
        ask (CSetsockopt fd SOL_IP IP_PKTINFO (le_bytes 4 1)) ;;
        ask (CSetsockopt fd IPPROTO_IPV6 IPV6_RECVPKTINFO (le_bytes 4 1)) ;;
        echo_loop fuel fd cbuf frame rem_addr (o_count o) ;;
        ret 0
  end.
End Echo.
End Echo.

Module Example02.
Section Example02.
Context {K : Kernel}.
#[local] Abbreviation M := (M statics).

Definition pktinfo_body (pktinfo : ptr) (res : Z) (get_cmsg : cmsghdr) : M Z :=
  if (cmsg_level get_cmsg =? IPPROTO_IP) && (cmsg_type get_cmsg =? IP_PKTINFO) then
    memcpy pktinfo (cmsg_data get_cmsg) sizeof_in_pktinfo ;;
    ret 0
  else
    unknown_cmsg get_cmsg ;;
    ret res.

Definition pktinfo_get (my_hdr : msghdr) (pktinfo : ptr) : M Z :=
  if 0 <? msg_controllen my_hdr then cmsg_fold my_hdr (pktinfo_body pktinfo) (-1)
  else ret (-1).

(** The local variables of [main] that the options set. *)
Record main_opts := MainOpts { o_count : Z; o_listen_port : Z; o_tos_reflect : bool }.

Definition default_opts : main_opts := MainOpts 1000000 PORT false.

Definition main_option (o : main_opts) (e : optev) : M (main_opts + Z) :=
  let oc := o_c e in
  let '(MainOpts count port tos) := o in
  if oc =? ch "c" then v <- atoi_optarg e ;; ret (inl (MainOpts v port tos))
  else if oc =? ch "l" then v <- atoi_optarg e ;; ret (inl (MainOpts count (u16 v) tos))
  else if oc =? ch "t" then ret (inl (MainOpts count port true))
  else ret (inl o).

Definition listen_addr (port : Z) : list Z :=
  set_port (htons port) (set_family AF_INET (replicate 16 0)).

(** What a round prints about a datagram: the packet information is printed
    whether it came with this datagram or not. *)
Definition print_contact (my_hdr : msghdr) (pktinfo rem_addr : ptr) : M unit :=
  found <- pktinfo_get my_hdr pktinfo ;;
  when (found =? 0)
    (spec_dst <- load (ptr_add pktinfo 4) 4 ;;
     printf "Got contacted on dst addr=%s " [AStr (inet_ntoa spec_dst)]) ;;
  from <- load (ptr_add rem_addr 4) 4 ;;
  port <- load (ptr_add rem_addr 2) 2 ;;
  printf "From src addr=%s port=%d\n" [AStr (inet_ntoa from); AInt (htons (le_val port))] ;;
  printf " Extra data:\n" [] ;;
  ipi_addr <- load (ptr_add pktinfo 8) 4 ;;
  printf " - Header destination address (pktinfo.ipi_addr)=%s\n" [AStr (inet_ntoa ipi_addr)] ;;
  ifindex <- load pktinfo 4 ;;
  printf " - Interface index (pktinfo.ipi_ifindex)=%d\n" [AInt (i32 (le_val ifindex))].

Definition echo_round (fd : Z) (cbuf frame rem_addr pktinfo : ptr) (count : Z) : M (Z + unit) :=
  out <- recvmsg_call fd (fresh_header cbuf frame rem_addr sizeof_sockaddr_in) 0 ;;
  let '(res, msghdr) := out in
  if r_ret res =? -1 then ret (inr tt)
  else
    print_contact msghdr pktinfo rem_addr ;;
    printf " Echo back packet, size=%d\n" [AInt (r_ret res)] ;;
    echo_back fd frame msghdr (r_ret res) ;;
    count_down count.

Definition echo_loop (fuel : nat) (fd : Z) (cbuf frame rem_addr pktinfo : ptr) (count : Z) : M unit :=
  iter fuel (echo_round fd cbuf frame rem_addr pktinfo) count.

Definition main (fuel : nat) (evs : list optev) : M Z :=
  fd <- Socket AF_INET SOCK_DGRAM 0 ;;
  rem_addr <- new_block sizeof_sockaddr_in ;;
  cbuf <- new_block sizeof_cbuf ;;
  frame <- new_block sizeof_frame ;;
  pktinfo <- new_block sizeof_in_pktinfo ;;
  r <- getopt_loop main_option default_opts evs ;;
  match r with
  | inr code => ret code
  | inl o =>
      printf "Listen port %d\n" [AInt (o_listen_port o)] ;;
      bound <- bind_listener fd (listen_addr (o_listen_port o)) ;;
      if negb bound then ret 1
      else
        ask (CSetsockopt fd SOL_IP IP_PKTINFO (le_bytes 4 1)) ;;
        when (o_tos_reflect o) (ask (CSetsockopt fd SOL_IP IP_RECVTOS (le_bytes 4 1)) ;; ret tt) ;;
        echo_loop fuel fd cbuf frame rem_addr pktinfo (o_count o) ;;
        ret 0
  end.
End Example02.
End Example02.
