(* ===== verification/UdpEchoSpec.v ===== *)
(** * udp_echo: a received message, and the packet information in it

    The facts the two echo servers share: what the buffers hold after a
    datagram has been received, what goes back, and what the traversal of the
    control messages finds. *)
From stdpp Require Import base list gmap strings.
From Stdlib Require Import ZArith Lia.
From S2P Require Import Prelude.
From S2P Require Import CLang.
From S2P Require Import Wp.
From S2P Require Import Libc.
From S2P Require Import Common.
From S2P Require Import CommonSocket.
From S2P Require Import Cmsg.
From S2P Require Import CmsgSpec.
From S2P Require Import UdpEcho.

#[local] Open Scope Z_scope.
#[local] Open Scope c_scope.

Section Buffers.
Context {K : Kernel}.
#[local] Abbreviation W := (world statics).

(** A buffer of at least [n] bytes, and one that starts with the values [d]. *)
Definition buffer (w : W) (b n : Z) : Prop :=
  b < w_next w /\ exists l, w_mem w !! b = Some l /\ n <= Z.of_nat (length l).

Definition holds (w : W) (b : Z) (d : list Z) : Prop :=
  exists l, w_mem w !! b = Some l /\ (length d <= length l)%nat /\ get_bytes 0 (length d) l = Some <$> d.

Lemma holds_mem w w' b d : w_mem w' !! b = w_mem w !! b -> holds w b d -> holds w' b d.
Proof. unfold holds. by intros ->. Qed.

Lemma holds_load F w b d off n (Q : list Z -> W -> Prop) X :
  holds w b d -> 0 <= off -> (Z.to_nat off + Z.to_nat n <= length d)%nat ->
  Q (get_bytes (Z.to_nat off) (Z.to_nat n) d) w -> wpg F (load (Ptr b off) n) Q X w.
Proof.
  intros (l & Hb & Hl & Hd) Ho Hn HQ. eapply load_spec; [exact Hb|done|lia| |exact HQ].
  rewrite fmap_get_bytes, <- Hd, get_bytes_sub by lia. done.
Qed.

Lemma load_all F w b d n (Q : list Z -> W -> Prop) X :
  holds w b d -> n = Z.of_nat (length d) -> Q d w -> wpg F (load (Ptr b 0) n) Q X w.
Proof.
  intros Hd -> HQ. eapply holds_load; [exact Hd|lia|rewrite Nat2Z.id; lia|].
  rewrite Nat2Z.id. unfold get_bytes. by rewrite drop_0, take_ge.
Qed.

Lemma holds_peek F w b d n (Q : list mbyte -> W -> Prop) X :
  holds w b d -> n = Z.of_nat (length d) -> Q (Some <$> d) w -> wpg F (peek (Ptr b 0) n) Q X w.
Proof.
  intros (l & Hb & Hl & Hd) -> HQ. eapply peek_spec; [exact Hb|done|rewrite Nat2Z.id; lia|].
  rewrite Nat2Z.id. change (Z.to_nat 0) with 0%nat. by rewrite Hd.
Qed.

(** Writing [d] at the start of a buffer. *)
Lemma store_holds F w b n (d : list Z) (Q : unit -> W -> Prop) X :
  buffer w b n -> Z.of_nat (length d) <= n ->
  (forall l, (length d <= length l)%nat -> n <= Z.of_nat (length l) -> get_bytes 0 (length d) l = Some <$> d ->
     Q tt (w_set_mem (<[b := l]> (w_mem w)) w)) ->
  wpg F (store (Ptr b 0) d) Q X w.
Proof.
  intros (_ & l & Hb & Hl) Hd HQ. eapply store_spec; [exact Hb|done|lia|].
  apply HQ; rewrite ?length_put_bytes; rewrite ?length_fmap; try lia.
  rewrite <- (length_fmap Some d), get_put_same; [done|]. rewrite length_fmap. lia.
Qed.

(** ** A delivered message *)

(** The buffers of a server: the name of [n] bytes, the control data and the
    frame. *)
Record server_buffers (w : W) (br bc bf n : Z) : Prop := {
  sb_name : buffer w br n;
  sb_cbuf : buffer w bc sizeof_cbuf;
  sb_frame : buffer w bf sizeof_frame;
  sb_apart : br <> bc /\ br <> bf /\ bc <> bf;
  sb_real : 0 < br /\ 0 < bc
}.

(** A datagram that the buffers have room for. *)
Record datagram_fits (n : Z) (r : reply) (l : list cmsg) : Prop := {
  df_len : r_ret r = Z.of_nat (length (m_data (r_msg r)));
  df_frame : r_ret r <= sizeof_frame;
  df_name : Z.of_nat (length (m_name (r_msg r))) <= n;
  df_ctl : controls l (m_ctl (r_msg r));
  df_cmsgs : Forall cmsg_ok l;
  df_cbuf : Z.of_nat (length (m_ctl (r_msg r))) <= sizeof_cbuf
}.

(** The header after it was received. *)
Definition delivered_header (br bc bf : Z) (m : rmsg) : msghdr :=
  Msghdr (Ptr br 0) (Z.of_nat (length (m_name m))) [Iovec (Ptr bf 0) sizeof_frame] 1 (Ptr bc 0)
    (Z.of_nat (length (m_ctl m))) 0.

(** The buffers hold the message. *)
Definition message_in (w : W) (br bc bf : Z) (m : rmsg) : Prop :=
  holds w br (m_name m) /\ holds w bc (m_ctl m) /\ holds w bf (m_data m).

Lemma buffer_set w b n b' l :
  buffer w b n -> (b = b' -> n <= Z.of_nat (length l)) -> buffer (w_set_mem (<[b' := l]> (w_mem w)) w) b n.
Proof.
  intros (Hn & l0 & Hb & Hl) Hlen. split; [done|]. cbn. destruct (decide (b = b')) as [->|Hne].
  - exists l. rewrite lookup_insert_eq. split; [done|auto].
  - exists l0. by rewrite lookup_insert_ne.
Qed.

Lemma deliver_message F w br bc bf n r l (Q : msghdr -> W -> Prop) X :
  server_buffers w br bc bf n -> datagram_fits n r l ->
  (forall w', server_buffers w' br bc bf n -> message_in w' br bc bf (r_msg r) ->
     w_st w' = w_st w -> w_log w' = w_log w -> w_next w' = w_next w ->
     (forall b, b <> br -> b <> bc -> b <> bf -> w_mem w' !! b = w_mem w !! b) ->
     Q (delivered_header br bc bf (r_msg r)) w') ->
  wpg F (deliver (fresh_header (Ptr bc 0) (Ptr bf 0) (Ptr br 0) n) (r_msg r)) Q X w.
Proof.
  intros [Hr Hc Hf (Hrc & Hrf & Hcf) (Hr0 & Hc0)] [Hlen Hfit Hname _ _ Hcb] HQ.
  unfold deliver, fresh_header.
  cbn [msg_iov msg_name msg_control msg_namelen msg_controllen msg_iovlen msg_flags scatter iov_base iov_len].
  unfold sizeof_frame in Hfit. rewrite Hlen in Hfit.
  assert (is_null (Ptr br 0) = false) as -> by (apply Z.eqb_neq; cbn; lia).
  assert (is_null (Ptr bc 0) = false) as -> by (apply Z.eqb_neq; cbn; lia). cbn [negb when].
  rewrite (take_ge (m_data _)), (take_ge (m_name _)), (take_ge (m_ctl _)) by (unfold sizeof_cbuf, sizeof_frame in *; lia).
  do 2 wp_step. eapply store_holds; [exact Hf|done|]. intros lf Hlf Hlf' Hgf. wp_step.
  wp_step. eapply store_holds; [eapply buffer_set; [exact Hr|by intros]|lia|]. intros lr Hlr Hlr' Hgr.
  wp_step. eapply store_holds; [eapply buffer_set; [eapply buffer_set; [exact Hc|by intros]|by intros]|lia|].
  intros lc Hlc Hlc' Hgc. wp_step. set (w' := w_set_mem _ _).
  assert (Hm : w_mem w' = <[bc := lc]> (<[br := lr]> (<[bf := lf]> (w_mem w)))) by done.
  apply (HQ w'); try done.
  - split; try done; repeat (eapply buffer_set; [|by intros]); done.
  - unfold message_in, holds. rewrite Hm. split_and!.
    + exists lr. by rewrite lookup_insert_ne, lookup_insert_eq by done.
    + exists lc. by rewrite lookup_insert_eq.
    + exists lf. by rewrite !lookup_insert_ne, lookup_insert_eq by done.
  - intros b H1 H2 H3. rewrite Hm. by rewrite !lookup_insert_ne by done.
Qed.
End Buffers.

(** ** What goes back *)
Section Reply.
Context {K : Kernel}.
#[local] Abbreviation W := (world statics).

Definition recv_of (fd n : Z) : call := CRecvmsg fd [sizeof_frame] n sizeof_cbuf 0.

(** The reply to a message: its payload, to its sender, with its control
    data. *)
Definition reflection (fd : Z) (m : rmsg) : call :=
  CSendmsg fd (Some <$> m_data m) (m_name m) (m_ctl m) 0.

Definition is_ntop (e : call * reply) : Prop :=
  match e.1 with CInetNtop _ _ => True | _ => False end.

Lemma echo_back_spec F fd br bc bf r n l w (Q : unit -> W -> Prop) X :
  message_in w br bc bf (r_msg r) -> datagram_fits n r l ->
  (forall s k, Q tt (w_call (reflection fd (r_msg r)) s k w)) ->
  wpg F (echo_back fd (Ptr bf 0) (delivered_header br bc bf (r_msg r)) (r_ret r)) Q X w.
Proof.
  intros (Hr & Hc & Hf) [Hlen Hfit _ _ _ _] HQ. unfold echo_back, delivered_header.
  cbn [msg_name msg_namelen msg_control msg_controllen].
  unfold sizeof_frame in Hfit. rewrite u64_id by lia.
  wp_step. eapply holds_peek; [exact Hf|done|]. wp_step. eapply load_all; [exact Hr|done|].
  wp_step. eapply load_all; [exact Hc|done|]. wp_step. wp_ask s k E. wp_step. apply HQ.
Qed.

Lemma count_down_spec F count w (Q : Z + unit -> W -> Prop) X :
  is_i32 (count - 1) -> Q (if count =? 1 then inr tt else inl (count - 1)) w ->
  wpg F (count_down count) Q X w.
Proof.
  intros Hc HQ. unfold count_down. wp_step. apply wp_int_check; [done|].
  destruct (Z.eqb_spec (count - 1) 0), (Z.eqb_spec count 1); try lia; by wp_step.
Qed.

(** ** Rounds

    The calls of one round, newest first: the answer, what was needed to print
    the addresses, and the receive. *)
Definition round_log (fd n : Z) (m : rmsg) (log : list (call * reply)) : Prop :=
  exists s ntops r, log = (reflection fd m, s) :: ntops ++ [(recv_of fd n, r)] /\
    r_msg r = m /\ Forall is_ntop ntops.

(** The calls of a server: [msgs] were answered one by one, then either all
    the [count] rounds were made or a receive failed. *)
Definition served (fd n count : Z) (msgs : list rmsg) (log : list (call * reply)) : Prop :=
  exists logs last, log = last ++ concat (rev logs) /\ Forall2 (round_log fd n) msgs logs /\
    ((last = [] /\ Z.of_nat (length msgs) = count) \/
     (exists r, last = [(recv_of fd n, r)] /\ r_ret r = -1 /\ Z.of_nat (length msgs) < count)).

(** A round that serves one message, or ends the loop. *)
Definition round_serves (fd n : Z) (ready : W -> Prop) (round : Z -> M statics (Z + unit)) : Prop :=
  forall count w, ready w -> 1 <= count < 2 ^ 31 ->
    wpg False (round count)
      (fun out w' =>
         let r := (kstep (recv_of fd n) (w_k w)).1 in
         (exists log, r_ret r <> -1 /\ round_log fd n (r_msg r) log /\ w_log w' = log ++ w_log w /\ ready w' /\
            out = if count =? 1 then inr tt else inl (count - 1)) \/
         (out = inr tt /\ r_ret r = -1 /\ w_log w' = (recv_of fd n, r) :: w_log w))
      (fun _ _ => False) w.

Lemma rounds_spec fd n (ready : W -> Prop) round fuel count w :
  round_serves fd n ready round -> ready w -> 1 <= count < 2 ^ 31 -> (Z.to_nat count <= fuel)%nat ->
  wpg False (iter fuel round count)
    (fun _ w' => exists msgs log, w_log w' = log ++ w_log w /\ served fd n count msgs log)
    (fun _ _ => False) w.
Proof.
  intros Hround Hw Hc Hfuel.
  apply (wp_iter (fun k c w' => ready w' /\ exists msgs logs, w_log w' = concat (rev logs) ++ w_log w /\
    Forall2 (round_log fd n) msgs logs /\ c = count - Z.of_nat (length msgs) /\ 1 <= c /\ (Z.to_nat c <= k)%nat)).
  - split; [done|]. exists [], []. split_and!; try done; cbn [length]; lia.
  - intros c w' (_ & msgs & logs & _ & _ & _ & ? & ?). lia.
  - intros k c w' (Hw' & msgs & logs & Hlog & Hall & Hc' & Hc1 & Hk).
    eapply wp_post; [apply Hround; [done|lia]|].
    set (r := (kstep _ _).1). set (m := r_msg r).
    intros out w2 [(log & _ & Hm & Hlog2 & Hw2 & ->)|(-> & Hr & Hlog2)].
    + assert (Hlog3 : w_log w2 = concat (rev (logs ++ [log])) ++ w_log w).
      { rewrite Hlog2, Hlog, rev_app_distr. cbn. by rewrite app_assoc. }
      assert (Hall3 : Forall2 (round_log fd n) (msgs ++ [m]) (logs ++ [log])).
      { apply Forall2_app; [done|]. constructor; [done|constructor]. }
      assert (Hlen : length (msgs ++ [m]) = S (length msgs)) by (rewrite length_app; cbn; lia).
      destruct (Z.eqb_spec c 1).
      * exists (msgs ++ [m]), (concat (rev (logs ++ [log]))). split; [done|].
        exists (logs ++ [log]), []. split_and!; [done|done|]. left. split; [done|lia].
      * split; [done|]. exists (msgs ++ [m]), (logs ++ [log]). split_and!; [done|done|lia|lia|lia].
    + exists msgs, ((recv_of fd n, r) :: concat (rev logs)). split; [by rewrite Hlog2, Hlog|].
      exists logs, [(recv_of fd n, r)]. split_and!; [done|done|]. right. exists r. split_and!; [done|done|lia].
Qed.
End Reply.

(** ** The packet information *)
Definition is_v4 (m : cmsg) : bool := (c_level m =? IPPROTO_IP) && (c_type m =? IP_PKTINFO).
Definition is_v6 (m : cmsg) : bool := (c_level m =? IPPROTO_IPV6) && (c_type m =? IPV6_PKTINFO).

(** The system gives packet information its size. *)
Definition pktinfo_sized (m : cmsg) : Prop :=
  (is_v4 m = true -> Z.of_nat (length (c_data m)) = sizeof_in_pktinfo) /\
  (is_v6 m = true -> Z.of_nat (length (c_data m)) = sizeof_in6_pktinfo).

(** The data of the last message that [sel] holds of. *)
Definition last_data (sel : cmsg -> bool) (l : list cmsg) : option (list Z) :=
  foldl (fun a m => if sel m then Some (c_data m) else a) None l.

Lemma last_data_snoc sel l m :
  last_data sel (l ++ [m]) = if sel m then Some (c_data m) else last_data sel l.
Proof. unfold last_data. by rewrite foldl_snoc. Qed.

Lemma last_data_in sel l d : last_data sel l = Some d -> exists m, m ∈ l /\ sel m = true /\ d = c_data m.
Proof.
  induction l as [|m l IH] using rev_ind; [done|]. rewrite last_data_snoc. destruct (sel m) eqn:E.
  - intros [= <-]. exists m. split_and!; [|done|done]. apply elem_of_app. right. by constructor.
  - intros H. destruct (IH H) as (m' & Hin & ?). exists m'. split; [|done]. apply elem_of_app. by left.
Qed.

Lemma v4_not_v6 m : is_v4 m = true -> is_v6 m = false.
Proof.
  unfold is_v4, is_v6. intros [E%Z.eqb_eq _]%andb_true_iff. rewrite E. done.
Qed.

Lemma no_controls l ctl : controls l ctl -> Z.of_nat (length ctl) <= 0 -> l = [].
Proof.
  intros Hctl Hn. rewrite (controls_length _ _ Hctl) in Hn. destruct l as [|m l']; [done|].
  unfold offset_of in Hn. cbn in Hn. fold (offset_of l') in Hn.
  pose proof (cmsg_size_space m). pose proof (offset_nonneg l'). unfold sizeof_cmsghdr in *. lia.
Qed.

Section Pktinfo.
Context {K : Kernel}.
#[local] Abbreviation W := (world statics).
Variables (F : Prop) (h : msghdr) (b : Z) (l : list cmsg) (ctl : list Z) (w0 : W).
Hypothesis Hctl : controls l ctl.
Hypothesis Hok : Forall cmsg_ok l.
Hypothesis Hc : msg_control h = Ptr b 0.
Hypothesis Hlen : msg_controllen h = Z.of_nat (length ctl).
Hypothesis Hholds : holds w0 b ctl.
Hypothesis Hsize : Z.of_nat (length ctl) <= sizeof_cbuf.
Hypothesis Hsized : Forall pktinfo_sized l.

(** A buffer for packet information: the last one found, if any. *)
Definition info_at (w : W) (bp n : Z) (d : option (list Z)) : Prop :=
  match d with
  | Some d => w_mem w !! bp = Some (Some <$> d)
  | None => w_mem w !! bp = w_mem w0 !! bp
  end /\ exists l, w_mem w !! bp = Some l /\ Z.of_nat (length l) = n.

(** Copying the data of a message over a buffer of its size. *)
Lemma memcpy_data done m rest bp n lb w (Q : unit -> W -> Prop) X :
  l = done ++ m :: rest -> w_mem w !! b = Some lb -> w_mem w0 !! b = Some lb -> Z.of_nat (length (c_data m)) = n ->
  (exists l', w_mem w !! bp = Some l' /\ Z.of_nat (length l') = n) ->
  Q tt (w_set_mem (<[bp := Some <$> c_data m]> (w_mem w)) w) ->
  wpg F (memcpy (Ptr bp 0) (cmsg_data (seen b 0 done m)) n) Q X w.
Proof.
  intros Hl Hb Hb0 <- (l' & Hp & Hn) HQ. destruct Hholds as (lb' & Hb' & Hlb & Hbytes).
  rewrite Hb0 in Hb'. injection Hb' as <-.
  destruct (ctl_split l ctl done m rest Hctl Hl) as (Hoff & Htot & _ & Hd).
  pose proof (cmsg_size_space m) as Hsp. pose proof (offset_nonneg rest).
  unfold memcpy, seen, cmsg_size, sizeof_cmsghdr in *. cbn [cmsg_data]. rewrite Z.add_0_l. wp_step.
  eapply peek_spec; [exact Hb|lia|rewrite Nat2Z.id; lia|].
  rewrite Nat2Z.id. replace (get_bytes (Z.to_nat (offset_of done + 16)) _ lb) with (Some <$> c_data m).
  2: { symmetry. rewrite <- (Z.add_0_l (offset_of done + 16)). apply (control_get 0 lb ctl); try lia; try done.
       rewrite <- Hd at 2. f_equal. lia. }
  unfold wpg, poke. cbn [p_block p_off]. unfold store_block. cbn [Z.ltb Z.compare]. rewrite Hp.
  change (Z.to_nat 0) with 0%nat. rewrite store_range_put by (rewrite length_fmap; lia). cbn [fmap option_fmap option_map].
  rewrite put_bytes_all by (rewrite length_fmap; lia). exact HQ.
Qed.
(** What a traversal may change: the buffers of the packet information, and
    the output. *)
Definition scanned (bps : list Z) (w : W) : Prop :=
  w_st w = w_st w0 /\ w_log w = w_log w0 /\ w_next w = w_next w0 /\
  forall b', b' ∉ bps -> w_mem w !! b' = w_mem w0 !! b'.

Lemma scanned_set bps bp v w :
  scanned bps w -> bp ∈ bps -> scanned bps (w_set_mem (<[bp := v]> (w_mem w)) w).
Proof.
  intros (Hst & Hlog & Hnext & Hmem) Hbp. split; [done|]. split; [done|]. split; [done|].
  intros b' Hb'. cbn. rewrite lookup_insert_ne by (intros <-; done). by apply Hmem.
Qed.

Lemma info_none w bp n :
  (exists l, w_mem w0 !! bp = Some l /\ Z.of_nat (length l) = n) -> w_mem w !! bp = w_mem w0 !! bp ->
  info_at w bp n None.
Proof. intros Hl Hw. split; [done|]. by rewrite Hw. Qed.

Lemma info_some w bp n d :
  w_mem w !! bp = Some (Some <$> d) -> Z.of_nat (length d) = n -> info_at w bp n (Some d).
Proof. intros Hw Hn. split; [done|]. eexists. split; [exact Hw|]. by rewrite length_fmap. Qed.

Lemma info_same w w' bp n d : w_mem w' !! bp = w_mem w !! bp -> info_at w bp n d -> info_at w' bp n d.
Proof. unfold info_at. by intros ->. Qed.

Lemma sized_of done m rest : l = done ++ m :: rest -> pktinfo_sized m.
Proof. intros Hl. rewrite Hl in Hsized. apply Forall_app in Hsized as [_ H]. by apply Forall_cons in H as [H _]. Qed.

(** The answer of [pktinfo_get] of udp_echo.c: the family of the last packet
    information. *)
Definition family_after (res : Z) (m : cmsg) : Z :=
  if is_v4 m then AF_INET else if is_v6 m then AF_INET6 else res.
Definition family_found (l : list cmsg) : Z := foldl family_after (-1) l.

Lemma family_snoc l' m : family_found (l' ++ [m]) = family_after (family_found l') m.
Proof. unfold family_found. by rewrite foldl_snoc. Qed.

Definition infos (bp bp6 : Z) (done : list cmsg) (w : W) : Prop :=
  scanned [bp; bp6] w /\ info_at w bp sizeof_in_pktinfo (last_data is_v4 done) /\
  info_at w bp6 sizeof_in6_pktinfo (last_data is_v6 done).

Lemma pktinfo_body_spec bp bp6 done m rest res w X :
  bp <> bp6 -> b <> bp -> b <> bp6 -> l = done ++ m :: rest ->
  infos bp bp6 done w -> res = family_found done ->
  wpg F (Echo.pktinfo_body (Ptr bp 0) (Ptr bp6 0) res (seen b 0 done m))
    (fun res' w' => infos bp bp6 (done ++ [m]) w' /\ res' = family_found (done ++ [m])) X w.
Proof.
  intros Hne Hb1 Hb2 Hl (Hsc & H4 & H6) ->. pose proof Hsc as (_ & _ & _ & Hmem).
  destruct (sized_of done m rest Hl) as [Hs4 Hs6].
  unfold Echo.pktinfo_body. cbn [cmsg_level cmsg_type seen]. fold (is_v4 m). fold (is_v6 m).
  unfold infos. rewrite family_snoc, !last_data_snoc. unfold family_after.
  assert (Hbb : exists lb, w_mem w !! b = Some lb /\ w_mem w0 !! b = Some lb).
  { destruct Hholds as (lb & Hlb & _). exists lb. rewrite Hmem; [done|]. rewrite !not_elem_of_cons.
    split_and!; try done. apply not_elem_of_nil. }
  destruct Hbb as (lb & Hb & Hb0).
  destruct (is_v4 m) eqn:E4; [|destruct (is_v6 m) eqn:E6].
  - rewrite (v4_not_v6 m E4). wp_step. eapply memcpy_data; [exact Hl|exact Hb|exact Hb0|by apply Hs4|apply H4|].
    wp_step. split; [|done]. split; [|split].
    + apply scanned_set; [done|by constructor].
    + apply info_some; [cbn; apply lookup_insert_eq|by apply Hs4].
    + eapply info_same; [|exact H6]. cbn. by rewrite lookup_insert_ne.
  - wp_step. eapply memcpy_data; [exact Hl|exact Hb|exact Hb0|by apply Hs6|apply H6|].
    wp_step. split; [|done]. split; [|split].
    + apply scanned_set; [done|by repeat constructor].
    + eapply info_same; [|exact H4]. cbn. by rewrite lookup_insert_ne.
    + apply info_some; [cbn; apply lookup_insert_eq|by apply Hs6].
  - unfold unknown_cmsg. do 3 wp_step. done.
Qed.

Lemma pktinfo_get_spec bp bp6 X :
  bp <> bp6 -> b <> bp -> b <> bp6 ->
  (exists l', w_mem w0 !! bp = Some l' /\ Z.of_nat (length l') = sizeof_in_pktinfo) ->
  (exists l', w_mem w0 !! bp6 = Some l' /\ Z.of_nat (length l') = sizeof_in6_pktinfo) ->
  wpg F (Echo.pktinfo_get h (Ptr bp 0) (Ptr bp6 0))
    (fun res w => infos bp bp6 l w /\ res = family_found l) X w0.
Proof.
  intros Hne Hb1 Hb2 Hp Hp6. unfold Echo.pktinfo_get. rewrite Hlen.
  assert (Hstart : infos bp bp6 [] w0) by (split_and!; try done; by apply info_none).
  destruct (Z.ltb_spec 0 (Z.of_nat (length ctl))).
  2: { wp_step. by rewrite (no_controls l ctl). }
  destruct Hholds as (lb & Hb & Hlb & Hbytes).
  eapply (cmsg_fold_spec F h b 0 lb l ctl) with
    (I := fun done res w => infos bp bp6 done w /\ res = family_found done); try done; try lia.
  - unfold sizeof_cbuf in Hsize. lia.
  - intros done a w (((_ & _ & _ & Hmem) & _) & _). rewrite Hmem; [done|].
    rewrite !not_elem_of_cons. split_and!; try done. apply not_elem_of_nil.
  - intros done m rest a w Hl [HI Ha]. by eapply pktinfo_body_spec.
Qed.
(** The traversal of udp_example02.c: [0] when there is packet information
    for IPv4. *)
Definition found_v4 (done : list cmsg) : Z := if last_data is_v4 done is Some _ then 0 else -1.

Definition infos4 (bp : Z) (done : list cmsg) (w : W) : Prop :=
  scanned [bp] w /\ info_at w bp sizeof_in_pktinfo (last_data is_v4 done).

Lemma pktinfo_get4_spec bp X :
  b <> bp -> (exists l', w_mem w0 !! bp = Some l' /\ Z.of_nat (length l') = sizeof_in_pktinfo) ->
  wpg F (Example02.pktinfo_get h (Ptr bp 0)) (fun res w => infos4 bp l w /\ res = found_v4 l) X w0.
Proof.
  intros Hb1 Hp. unfold Example02.pktinfo_get. rewrite Hlen.
  assert (Hstart : infos4 bp [] w0) by (split; [done|by apply info_none]).
  destruct (Z.ltb_spec 0 (Z.of_nat (length ctl))); [|wp_step; by rewrite (no_controls l ctl)].
  destruct Hholds as (lb & Hb & Hlb & Hbytes).
  assert (Hkeep : forall done w, infos4 bp done w -> w_mem w !! b = Some lb).
  { intros done w ((_ & _ & _ & Hmem) & _). rewrite Hmem; [done|]. by rewrite list_elem_of_singleton. }
  eapply (cmsg_fold_spec F h b 0 lb l ctl) with
    (I := fun done res w => infos4 bp done w /\ res = found_v4 done); try done; try lia.
  - unfold sizeof_cbuf in Hsize. lia.
  - intros done a w [HI _]. by eapply Hkeep.
  - intros done m rest a w Hl [HI ->]. unfold Example02.pktinfo_body. cbn [cmsg_level cmsg_type seen].
    fold (is_v4 m). unfold infos4, found_v4. rewrite last_data_snoc. pose proof (Hkeep _ _ HI) as Hw.
    destruct HI as [Hsc H4]. destruct (is_v4 m) eqn:E4.
    + pose proof (proj1 (sized_of done m rest Hl) E4) as Hs. wp_step.
      eapply memcpy_data; [exact Hl|exact Hw|exact Hb|exact Hs|apply H4|]. wp_step. split; [|done]. split.
      * apply scanned_set; [done|by constructor].
      * apply info_some; [cbn; apply lookup_insert_eq|done].
    + unfold unknown_cmsg. by do 3 wp_step.
Qed.
End Pktinfo.
