(* ===== verification/UdpEchoServe.v ===== *)
(** * udp_echo: the rounds of the two servers

    A round of [Echo] and of [Example02] serves one message: what it prints
    about the message changes nothing but its own local variables. *)
From stdpp Require Import base list gmap strings.
From Stdlib Require Import ZArith Lia.
From S2P Require Import Prelude.
From S2P Require Import CLang.
From S2P Require Import Wp.
From S2P Require Import Libc.
From S2P Require Import Common.
From S2P Require Import CommonSocket.
From S2P Require Import Cmsg.
From S2P Require Import CmsgSpec.
From S2P Require Import UdpEcho.
From S2P Require Import UdpEchoSpec.

#[local] Open Scope Z_scope.
#[local] Open Scope c_scope.

(** [inet_ntop] fails for an unknown family or a buffer that is too small
    only: never for the two families here, whose buffers have
    INET6_ADDRSTRLEN bytes. *)
Definition ntop_works (K : Kernel) : Prop :=
  forall family src k, In family [AF_INET; AF_INET6] -> r_ret (kstep (CInetNtop family src) k).1 <> 0.

Lemma family_v4 l : family_found l = AF_INET -> exists d, last_data is_v4 l = Some d.
Proof.
  induction l as [|m l IH] using rev_ind; [done|]. rewrite family_snoc, last_data_snoc. unfold family_after.
  destruct (is_v4 m); [eauto|]. by destruct (is_v6 m).
Qed.

Lemma family_v6 l : family_found l = AF_INET6 -> exists d, last_data is_v6 l = Some d.
Proof.
  induction l as [|m l IH] using rev_ind; [done|]. rewrite family_snoc, last_data_snoc. unfold family_after.
  destruct (is_v4 m) eqn:E; [done|]. destruct (is_v6 m); [eauto|done].
Qed.

Lemma last_v4_length l d :
  Forall pktinfo_sized l -> last_data is_v4 l = Some d -> Z.of_nat (length d) = sizeof_in_pktinfo.
Proof.
  intros Hl H. destruct (last_data_in _ _ _ H) as (m & Hin & Hm & ->).
  rewrite Forall_forall in Hl. by apply (Hl m Hin).
Qed.

Lemma last_v6_length l d :
  Forall pktinfo_sized l -> last_data is_v6 l = Some d -> Z.of_nat (length d) = sizeof_in6_pktinfo.
Proof.
  intros Hl H. destruct (last_data_in _ _ _ H) as (m & Hin & Hm & ->).
  rewrite Forall_forall in Hl. by apply (Hl m Hin).
Qed.

Section Aside.
Context {K : Kernel}.
#[local] Abbreviation W := (world statics).

(** [w'] differs from [w] by output, addresses rendered and new blocks. *)
Record aside (w w' : W) : Prop := {
  as_st : w_st w' = w_st w;
  as_log : exists ntops, w_log w' = ntops ++ w_log w /\ Forall is_ntop ntops;
  as_next : w_next w <= w_next w';
  as_mem : forall b, b < w_next w -> w_mem w' !! b = w_mem w !! b
}.

#[global] Instance aside_preorder : PreOrder aside.
Proof.
  split.
  - intros w. split; try done. exists []. by split.
  - intros w1 w2 w3 [S1 (n1 & L1 & F1) N1 M1] [S2 (n2 & L2 & F2) N2 M2]. split; [congruence| |lia|].
    + exists (n2 ++ n1). split; [by rewrite L2, L1, app_assoc|by apply Forall_app].
    + intros b Hb. rewrite M2 by lia. by apply M1.
Qed.

Lemma aside_print o w w' : aside w w' -> aside w (w_print o w').
Proof. intros []. by split. Qed.

Lemma aside_ntop f s r k w w' : aside w w' -> aside w (w_call (CInetNtop f s) r k w').
Proof.
  intros [? (n & L & Hn) ? ?]. split; try done. exists ((CInetNtop f s, r) :: n).
  split; [cbn; by rewrite L|by constructor].
Qed.

Lemma aside_alloc l w w' : aside w w' -> aside w (w_alloc l w').
Proof.
  intros [? ? ? Hm]. split; try done; [cbn; lia|]. intros b Hb. cbn.
  rewrite lookup_insert_ne by lia. by apply Hm.
Qed.

Lemma aside_buffers w w' br bc bf n : aside w w' -> server_buffers w br bc bf n -> server_buffers w' br bc bf n.
Proof.
  intros [_ _ Hn Hm] [(? & Hr) (? & Hc) (? & Hf) Ha Hp].
  split; [| | |done|done]; (split; [lia|by rewrite Hm by done]).
Qed.

Lemma aside_message w w' br bc bf n m :
  aside w w' -> server_buffers w br bc bf n -> message_in w br bc bf m -> message_in w' br bc bf m.
Proof.
  intros [_ _ Hn Hm] [(? & _) (? & _) (? & _) _ _] (Hr & Hc & Hf).
  split_and!; (eapply holds_mem; [by apply Hm|done]).
Qed.
End Aside.

Lemma holds_block {K : Kernel} (w : world statics) b d : w_mem w !! b = Some (Some <$> d) -> holds w b d.
Proof.
  intros Hb. exists (Some <$> d). rewrite length_fmap. split_and!; [done|done|].
  unfold get_bytes. rewrite drop_0, take_ge; [done|]. by rewrite length_fmap.
Qed.

(** ** udp_echo.c *)
Section EchoRound.
Context {K : Kernel}.
#[local] Abbreviation W := (world statics).
Hypothesis Hntop : ntop_works K.

(** The message says where it was sent to, and comes from an address of the
    same family. *)
Definition contactable (l : list cmsg) (name : list Z) : Prop :=
  (family_found l = AF_INET /\ (8 <= length name)%nat) \/
  (family_found l = AF_INET6 /\ (24 <= length name)%nat).

Lemma inet_ntop_spec F fam b off n d (w : W) (Q : option string -> W -> Prop) X :
  In fam [AF_INET; AF_INET6] ->
  holds w b d -> 0 <= off -> (Z.to_nat off + Z.to_nat n <= length d)%nat ->
  (forall text src r k, Q (Some text) (w_call (CInetNtop fam src) r k w)) ->
  wpg F (Echo.inet_ntop fam (Ptr b off) n) Q X w.
Proof.
  intros Hfam Hb Ho Hn HQ. unfold Echo.inet_ntop. wp_step. eapply holds_load; [exact Hb|done|done|].
  wp_step. wp_ask r k E. specialize (Hntop fam (get_bytes (Z.to_nat off) (Z.to_nat n) d) (w_k w) Hfam).
  rewrite E in Hntop. cbn in Hntop. rewrite (proj2 (Z.eqb_neq _ _)) by done. wp_step. apply HQ.
Qed.

(** What [contact] finds, all of it written. *)
Lemma contact_spec F br bc bf m l bp bp6 (w0 w : W) X :
  holds w br (m_name m) -> contactable l (m_name m) -> Forall pktinfo_sized l ->
  infos w0 bp bp6 l w ->
  wpg F (Echo.contact (delivered_header br bc bf m) (family_found l) (Ptr bp 0) (Ptr bp6 0))
    (fun c w' => aside w w' /\ w_mem w' = w_mem w /\
       exists port from to, c = (Some port, Some from, Some to)) X w.
Proof.
  intros Hname Hcon Hsz (_ & H4 & H6). unfold Echo.contact, delivered_header, ptr_add.
  cbn [msg_name p_block p_off]. cbv zeta.
  destruct Hcon as [[Hf Hn]|[Hf Hn]]; rewrite Hf.
  - destruct (family_v4 l Hf) as [d Hd]. rewrite Hd in H4. destruct H4 as [H4 _].
    pose proof (last_v4_length l d Hsz Hd) as Hdl. unfold sizeof_in_pktinfo in Hdl.
    pose proof (holds_block w bp d H4) as Hbp.
    change (AF_INET =? AF_INET) with true. cbv iota.
    wp_step. eapply holds_load; [exact Hname|lia|change (Z.to_nat (0+2) + Z.to_nat 2)%nat with 4%nat; lia|].
    wp_step. eapply inet_ntop_spec; [cbn; tauto|exact Hname|lia|change (Z.to_nat (0+4) + Z.to_nat 4)%nat with 8%nat; lia|].
    intros t1 s1 r1 k1. wp_step. eapply inet_ntop_spec; [cbn; tauto|exact Hbp|lia| |].
    { change (Z.to_nat (0+4) + Z.to_nat 4)%nat with 8%nat. lia. }
    intros t2 s2 r2 k2. wp_step. split; [by do 2 apply aside_ntop|]. split; [done|by repeat eexists].
  - destruct (family_v6 l Hf) as [d Hd]. rewrite Hd in H6. destruct H6 as [H6 _].
    pose proof (last_v6_length l d Hsz Hd) as Hdl. unfold sizeof_in6_pktinfo in Hdl.
    pose proof (holds_block w bp6 d H6) as Hbp.
    change (AF_INET6 =? AF_INET) with false. change (AF_INET6 =? AF_INET6) with true. cbv iota.
    wp_step. eapply holds_load; [exact Hname|lia|change (Z.to_nat (0+2) + Z.to_nat 2)%nat with 4%nat; lia|].
    wp_step. eapply inet_ntop_spec; [cbn; tauto|exact Hname|lia|change (Z.to_nat (0+8) + Z.to_nat 16)%nat with 24%nat; lia|].
    intros t1 s1 r1 k1. wp_step. eapply inet_ntop_spec; [cbn; tauto|exact Hbp|lia| |].
    { change (Z.to_nat 0 + Z.to_nat 16)%nat with 16%nat. lia. }
    intros t2 s2 r2 k2. wp_step. split; [by do 2 apply aside_ntop|]. split; [done|by repeat eexists].
Qed.
(** The world after the traversal, seen from before the local variables. *)
Lemma infos_aside (w w2 w3 : W) bps :
  aside w w2 -> scanned w2 bps w3 -> Forall (fun b => w_next w <= b) bps -> aside w w3.
Proof.
  intros [Hs (n & Hl & Hn) Hx Hm] (S3 & L3 & N3 & M3) Hbps. split.
  - congruence.
  - exists n. by rewrite L3.
  - lia.
  - intros b Hb. rewrite M3; [by apply Hm|]. intros Hin. rewrite Forall_forall in Hbps.
    specialize (Hbps b Hin). lia.
Qed.

(** Two local variables are allocated. *)
Lemma two_blocks (w : W) (l1 l2 : list mbyte) :
  let w2 := w_alloc l2 (w_alloc l1 w) in
  aside w w2 /\ w_mem w2 !! w_next w = Some l1 /\ w_mem w2 !! (w_next w + 1) = Some l2.
Proof.
  intros w2. split; [by do 2 apply aside_alloc|]. split; cbn.
  - rewrite lookup_insert_ne by lia. by rewrite lookup_insert_eq.
  - by rewrite lookup_insert_eq.
Qed.

Lemma print_info_spec F br bc bf n r l (w : W) (Q : unit -> W -> Prop) X :
  server_buffers w br bc bf n -> message_in w br bc bf (r_msg r) -> datagram_fits n r l ->
  Forall pktinfo_sized l -> contactable l (m_name (r_msg r)) ->
  (forall w', aside w w' -> Q tt w') ->
  wpg F (Echo.print_info (delivered_header br bc bf (r_msg r))) Q X w.
Proof.
  intros Hbuf Hmsg Hfit Hsz Hcon HQ. unfold Echo.print_info.
  destruct Hfit as [_ _ _ Hctl Hok Hcb]. do 4 wp_step.
  destruct (two_blocks w (replicate (Z.to_nat sizeof_in_pktinfo) None)
    (replicate (Z.to_nat sizeof_in6_pktinfo) None)) as (Ha2 & Hp & Hp6).
  set (w2 := w_alloc _ (w_alloc _ w)) in *.
  destruct (aside_message _ _ _ _ _ _ _ Ha2 Hbuf Hmsg) as (_ & Hc2 & _).
  destruct (sb_cbuf _ _ _ _ _ Hbuf) as [Hbc _].
  wp_step. eapply wp_post.
  { apply (pktinfo_get_spec F (delivered_header br bc bf (r_msg r)) bc l (m_ctl (r_msg r)) w2);
      try done; cbn; try lia; (eexists; split; [eassumption|by rewrite length_replicate]). }
  intros fam w3 [Hinf ->]. cbn beta.
  assert (Ha3 : aside w w3).
  { eapply infos_aside; [exact Ha2|apply Hinf|]. repeat (apply Forall_cons_2; [cbn; lia|]). apply Forall_nil_2. }
  destruct (aside_message _ _ _ _ _ _ _ Ha3 Hbuf Hmsg) as (Hn3 & _).
  wp_step. eapply wp_post; [by apply (contact_spec F br bc bf (r_msg r) l _ _ w2 w3)|].
  intros c w4 (Ha4 & Hm4 & port & from & to & ->). cbn beta iota. unfold Echo.print_text.
  assert (Ha : aside w w4) by by etransitivity.
  do 8 wp_step. wp_step; [|by apply HQ; do 3 apply aside_print].
  apply andb_true_iff in H as [_ Hf%Z.eqb_eq]. destruct (family_v4 l Hf) as [d Hd].
  destruct Hinf as (_ & H4 & _). rewrite Hd in H4. destruct H4 as [H4 _].
  pose proof (last_v4_length l d Hsz Hd) as Hdl. unfold sizeof_in_pktinfo in Hdl.
  assert (Hbp : forall w5, w_mem w5 = w_mem w4 -> holds w5 (w_next w) d).
  { intros w5 E. apply holds_block. rewrite E, Hm4. exact H4. }
  unfold ptr_add. cbn [p_block p_off]. do 3 wp_step.
  eapply holds_load; [by apply Hbp|lia|change (Z.to_nat (0+8) + Z.to_nat 4)%nat with 12%nat; lia|].
  do 3 wp_step. eapply holds_load; [by apply Hbp|lia|change (Z.to_nat 0 + Z.to_nat 4)%nat with 4%nat; lia|].
  wp_step. apply HQ. by do 6 apply aside_print.
Qed.

(** The datagrams a server receives: they fit, and say where they were sent
    to. *)
Definition receives (n : Z) (good : list cmsg -> list Z -> Prop) : Prop :=
  forall fd k, let r := (kstep (recv_of fd n) k).1 in
    r_ret r = -1 \/ exists l, datagram_fits n r l /\ Forall pktinfo_sized l /\ good l (m_name (r_msg r)).

(** A receive, then what is done with the message. *)
Lemma recv_spec F fd n good br bc bf (w : W) (Q : reply * msghdr -> W -> Prop) X :
  receives n good -> server_buffers w br bc bf n ->
  (forall h w', let r := (kstep (recv_of fd n) (w_k w)).1 in r_ret r = -1 -> w_log w' = (recv_of fd n, r) :: w_log w -> Q (r, h) w') ->
  (forall l w', let r := (kstep (recv_of fd n) (w_k w)).1 in r_ret r <> -1 -> datagram_fits n r l -> Forall pktinfo_sized l -> good l (m_name (r_msg r)) ->
     server_buffers w' br bc bf n -> message_in w' br bc bf (r_msg r) -> w_st w' = w_st w ->
     (forall b, b <> br -> b <> bc -> b <> bf -> w_mem w' !! b = w_mem w !! b) -> w_next w' = w_next w ->
     w_log w' = (recv_of fd n, r) :: w_log w -> Q (r, delivered_header br bc bf (r_msg r)) w') ->
  wpg F (recvmsg_call fd (fresh_header (Ptr bc 0) (Ptr bf 0) (Ptr br 0) n) 0) Q X w.
Proof.
  intros Hrec Hbuf Hfail Hgot. unfold recvmsg_call, fresh_header. cbn [msg_iov msg_namelen msg_controllen fmap list_fmap iov_len].
  fold (fresh_header (Ptr bc 0) (Ptr bf 0) (Ptr br 0) n).
  wp_step. wp_ask r k E. specialize (Hrec fd (w_k w)). unfold recv_of in Hrec, Hfail, Hgot.
  rewrite E in Hrec, Hfail, Hgot. cbn [fst] in Hrec, Hfail, Hgot.
  destruct Hrec as [Hr|(l & Hfit & Hsz & Hgood)].
  { rewrite Hr. cbn [Z.ltb Z.compare]. wp_step. by apply Hfail. }
  pose proof (df_len _ _ _ Hfit) as Hlen. rewrite (proj2 (Z.ltb_ge _ _)) by lia.
  wp_step. eapply deliver_message; [|exact Hfit|].
  - destruct Hbuf. by split.
  - intros w' Hb Hm Hst Hlog Hnext Hmem. wp_step. apply (Hgot l w'); try done; lia.
Qed.

Lemma echo_round_serves fd br bc bf :
  receives sizeof_sockaddr_storage contactable ->
  round_serves fd sizeof_sockaddr_storage (fun w => server_buffers w br bc bf sizeof_sockaddr_storage)
    (Echo.echo_round fd (Ptr bc 0) (Ptr bf 0) (Ptr br 0)).
Proof.
  intros Hrec count w Hbuf Hcount. unfold Echo.echo_round. wp_step.
  eapply recv_spec; [exact Hrec|exact Hbuf| |].
  { intros h w' r Hr Hlog. cbv iota beta. rewrite Hr. cbn [Z.eqb Pos.eqb]. wp_step. by right. }
  intros l w1 r Hr Hfit Hsz Hcon Hb1 Hm1 Hst1 _ _ Hlog1. cbv iota beta. rewrite (proj2 (Z.eqb_neq _ _)) by done.
  do 2 wp_step. wp_step.
  assert (Htail : forall w2, aside w1 w2 ->
    wpg False (echo_back fd (Ptr bf 0) (delivered_header br bc bf (r_msg r)) (r_ret r) ;; count_down count)
      (fun out w' =>
         (exists log, r_ret r <> -1 /\ round_log fd sizeof_sockaddr_storage (r_msg r) log /\ w_log w' = log ++ w_log w /\
            server_buffers w' br bc bf sizeof_sockaddr_storage /\
            out = if count =? 1 then inr tt else inl (count - 1)) \/
         (out = inr tt /\ r_ret r = -1 /\ w_log w' = (recv_of fd sizeof_sockaddr_storage, r) :: w_log w))
      (fun _ _ => False) w2).
  { intros w2 Ha. pose proof (aside_message _ _ _ _ _ _ _ Ha Hb1 Hm1) as Hm2.
    pose proof (aside_buffers _ _ _ _ _ _ Ha Hb1) as Hb2.
    wp_step. eapply echo_back_spec; [exact Hm2|exact Hfit|]. intros s k.
    apply count_down_spec; [unfold is_i32; lia|]. left.
    destruct (as_log _ _ Ha) as (ntops & Hlog & Hn).
    exists ((reflection fd (r_msg r), s) :: ntops ++ [(recv_of fd sizeof_sockaddr_storage, r)]).
    split; [done|]. split; [by exists s, ntops, r|]. split; [cbn; by rewrite Hlog, Hlog1, <- app_assoc|]. split; [|done].
    destruct Hb2 as [? ? ? ? ?]. by split. }
  wp_step.
  - wp_step. eapply print_info_spec; [exact Hb1|exact Hm1|exact Hfit|exact Hsz|exact Hcon|].
    intros w2 Ha. wp_step. by apply Htail, aside_print.
  - by apply Htail.
Qed.
End EchoRound.

(** ** udp_example02.c *)
Section ExampleRound.
Context {K : Kernel}.
#[local] Abbreviation W := (world statics).

(** The message has packet information for IPv4, and comes from an IPv4
    address. *)
Definition contactable4 (l : list cmsg) (name : list Z) : Prop :=
  is_Some (last_data is_v4 l) /\ (8 <= length name)%nat.

Definition example_ready (br bc bf bp : Z) (w : W) : Prop :=
  server_buffers w br bc bf sizeof_sockaddr_in /\
  (exists l, w_mem w !! bp = Some l /\ Z.of_nat (length l) = sizeof_in_pktinfo) /\
  (bp <> br /\ bp <> bc /\ bp <> bf).

(** Printing a datagram changes the packet information and the output. *)
Lemma print_contact_spec F br bc bf bp r l (w : W) (Q : unit -> W -> Prop) X :
  example_ready br bc bf bp w -> message_in w br bc bf (r_msg r) ->
  datagram_fits sizeof_sockaddr_in r l -> Forall pktinfo_sized l -> contactable4 l (m_name (r_msg r)) ->
  (forall w', scanned w [bp] w' -> (exists l, w_mem w' !! bp = Some l /\ Z.of_nat (length l) = sizeof_in_pktinfo) ->
     Q tt w') ->
  wpg F (Example02.print_contact (delivered_header br bc bf (r_msg r)) (Ptr bp 0) (Ptr br 0)) Q X w.
Proof.
  intros (Hbuf & Hp & Hpr & Hpc & Hpf) (Hn & Hc & _) [_ _ _ Hctl Hok Hcb] Hsz ([d Hd] & Hname) HQ.
  unfold Example02.print_contact. wp_step. eapply wp_post.
  { apply (pktinfo_get4_spec F (delivered_header br bc bf (r_msg r)) bc l (m_ctl (r_msg r)) w); done. }
  intros res w1 [[Hsc H4] ->]. unfold found_v4. rewrite Hd in H4 |- *. destruct H4 as [H4 H4']. cbn beta iota.
  change (0 =? 0) with true.
  pose proof (last_v4_length l d Hsz Hd) as Hdl. unfold sizeof_in_pktinfo in Hdl.
  pose proof (holds_block w1 bp d H4) as Hbp.
  assert (Hbr : holds w1 br (m_name (r_msg r))).
  { eapply holds_mem; [|exact Hn]. apply Hsc. by rewrite list_elem_of_singleton. }
  unfold ptr_add. cbn [p_block p_off]. wp_step. wp_step; [|done]. wp_step.
  eapply holds_load; [exact Hbp|lia|change (Z.to_nat (0+4) + Z.to_nat 4)%nat with 8%nat; lia|]. do 2 wp_step.
  eapply holds_load; [exact Hbr|lia|change (Z.to_nat (0+4) + Z.to_nat 4)%nat with 8%nat; lia|]. wp_step.
  eapply holds_load; [exact Hbr|lia|change (Z.to_nat (0+2) + Z.to_nat 2)%nat with 4%nat; lia|]. do 5 wp_step.
  eapply holds_load; [exact Hbp|lia|change (Z.to_nat (0+8) + Z.to_nat 4)%nat with 12%nat; lia|]. do 3 wp_step.
  eapply holds_load; [exact Hbp|lia|change (Z.to_nat 0 + Z.to_nat 4)%nat with 4%nat; lia|]. wp_step.
  by apply HQ.
Qed.

Lemma scanned_holds (w w' : W) bp b d : scanned w [bp] w' -> bp <> b -> holds w b d -> holds w' b d.
Proof.
  intros (_ & _ & _ & Hm) Hne. apply holds_mem, Hm. rewrite list_elem_of_singleton. congruence.
Qed.

Lemma scanned_buffer (w w' : W) bp b n : scanned w [bp] w' -> bp <> b -> buffer w b n -> buffer w' b n.
Proof.
  intros (_ & _ & Hn & Hm) Hne (Hb & Hl). split; [congruence|]. rewrite Hm; [done|].
  rewrite list_elem_of_singleton. congruence.
Qed.

Lemma example_round_serves fd br bc bf bp :
  receives sizeof_sockaddr_in contactable4 ->
  round_serves fd sizeof_sockaddr_in (example_ready br bc bf bp)
    (Example02.echo_round fd (Ptr bc 0) (Ptr bf 0) (Ptr br 0) (Ptr bp 0)).
Proof.
  intros Hrec count w (Hbuf & Hp & Hne) Hcount. unfold Example02.echo_round. wp_step.
  eapply recv_spec; [exact Hrec|exact Hbuf| |].
  { intros h w' r Hr Hlog. cbv iota beta. rewrite Hr. cbn [Z.eqb Pos.eqb]. wp_step. by right. }
  intros l w1 r Hr Hfit Hsz Hcon Hb1 Hm1 Hst1 Hmem1 _ Hlog1. cbv iota beta. rewrite (proj2 (Z.eqb_neq _ _)) by done.
  destruct Hne as (Hne1 & Hne2 & Hne3).
  assert (Hp1 : exists l, w_mem w1 !! bp = Some l /\ Z.of_nat (length l) = sizeof_in_pktinfo).
  { by rewrite Hmem1. }
  wp_step. eapply print_contact_spec; [by split_and!|exact Hm1|exact Hfit|exact Hsz|exact Hcon|].
  intros w2 Hsc Hp2. do 3 wp_step. pose proof Hm1 as (Hh1 & Hh2 & Hh3).
  eapply echo_back_spec; [by split_and!; eapply scanned_holds|exact Hfit|]. intros s k.
  apply count_down_spec; [unfold is_i32; lia|]. left.
  exists [(reflection fd (r_msg r), s); (recv_of fd sizeof_sockaddr_in, r)].
  split; [done|]. split; [exists s, [], r; split_and!; [done|done|constructor]|].
  pose proof Hsc as (_ & Hlog2 & _). split; [cbn; by rewrite Hlog2, Hlog1|]. split; [|done].
  destruct Hb1 as [Hb1 Hb2 Hb3 Hb4 Hb5]. split; [|by split].
  split; [| | |done|done]; (eapply (scanned_buffer w1 w2 bp); [exact Hsc|done|done]).
Qed.
End ExampleRound.
