(* ===== verification/UdpEchoProps.v ===== *)
(** * udp_echo and udp_example02: the properties *)
From stdpp Require Import base list gmap strings.
From Stdlib Require Import ZArith Lia Ascii.
From S2P Require Import Prelude.
From S2P Require Import CLang.
From S2P Require Import Wp.
From S2P Require Import Libc.
From S2P Require Import Common.
From S2P Require Import CommonSocket.
From S2P Require Import Getopt.
From S2P Require Import Tame.
From S2P Require Import Scripted.
From S2P Require Import Cmsg.
From S2P Require Import CmsgSpec.
From S2P Require Import UdpEcho.
From S2P Require Import UdpEchoSpec.
From S2P Require Import UdpEchoServe.

#[local] Open Scope Z_scope.
#[local] Open Scope c_scope.

(** An answer of [getopt] the servers can use: a count of at least one, and
    the arguments that are required. *)
Definition sane_echo_option (e : optev) : Prop :=
  (o_c e = ch "c" -> arg_in 1 (2 ^ 31 - 1) e) /\ (In (o_c e) [ch "l"; ch "v"] -> is_Some (o_arg e)).

(** What the options ask for: the last count and port given, or a million and
    the default port; the last address family. *)
Definition count_step (c : Z) (e : optev) : Z :=
  if o_c e =? ch "c" then match o_arg e with Some s => atoi s | None => c end else c.
Definition count_of (evs : list optev) : Z := foldl count_step 1000000 evs.

Definition port_step (p : Z) (e : optev) : Z :=
  if o_c e =? ch "l" then match o_arg e with Some s => u16 (atoi s) | None => p end else p.
Definition port_of (evs : list optev) : Z := foldl port_step PORT evs.

Definition family_step (f : Z) (e : optev) : Z :=
  if o_c e =? ch "4" then AF_INET else if o_c e =? ch "6" then AF_INET6 else f.
Definition family_of (evs : list optev) : Z := foldl family_step AF_INET6 evs.

Definition tos_of (evs : list optev) : bool := foldl (fun b e => (o_c e =? ch "t") || b) false evs.

Lemma count_range evs : Forall sane_echo_option evs -> 1 <= count_of evs < 2 ^ 31.
Proof.
  intros H. unfold count_of. cut (forall c, 1 <= c < 2 ^ 31 -> 1 <= foldl count_step c evs < 2 ^ 31); [by auto with lia|].
  induction H as [|e evs [He _] _ IH]; intros c Hc; [done|]. cbn [foldl]. apply IH. unfold count_step.
  destruct (Z.eqb_spec (o_c e) (ch "c")) as [E|_]; [|done]. destruct (He E) as (s & -> & Hs). lia.
Qed.

Section Main.
Context {K : Kernel}.
#[local] Abbreviation W := (world statics).

(** The buffers of [main] are the first blocks allocated. *)
Definition main_buffers (b n : Z) (w : W) : Prop := server_buffers w b (b + 1) (b + 1 + 1) n.

#[local] Instance main_buffers_stable b n : Stable (main_buffers b n).
Proof. split; intros; by destruct H. Qed.

Lemma main_buffers_st b n s w : main_buffers b n w -> main_buffers b n (w_set_st s w).
Proof. by intros []. Qed.

(** The three buffers, allocated in a well-formed world. *)
Lemma new_buffers (w : W) n :
  mem_wf w -> 0 <= n ->
  main_buffers (w_next w) n
    (w_alloc (replicate (Z.to_nat sizeof_frame) None)
       (w_alloc (replicate (Z.to_nat sizeof_cbuf) None) (w_alloc (replicate (Z.to_nat n) None) w))).
Proof.
  intros [Hn _] H0. split; [| | |lia|lia]; (split; [cbn; lia|]); cbn.
  - exists (replicate (Z.to_nat n) None). rewrite length_replicate.
    rewrite 2!lookup_insert_ne, lookup_insert_eq by lia. split; [done|lia].
  - exists (replicate (Z.to_nat sizeof_cbuf) None). rewrite length_replicate.
    rewrite lookup_insert_ne, lookup_insert_eq by lia. by split.
  - exists (replicate (Z.to_nat sizeof_frame) None). rewrite length_replicate.
    rewrite lookup_insert_eq. by split.
Qed.

#[local] Abbreviation tame b n := (tame False (main_buffers b n) []).

#[local] Instance example_ready_stable br bc bf bp : Stable (example_ready br bc bf bp).
Proof. split; intros; destruct H as (H1 & H2); (split; [by destruct H1|done]). Qed.

(** The buffers of udp_example02, and the socket [s] it already has. *)
Definition example_listening (br bc bf bp : Z) (s : reply) (w : W) : Prop :=
  example_ready br bc bf bp w /\ In (CSocket AF_INET SOCK_DGRAM 0, s) (w_log w).

#[local] Instance example_listening_stable br bc bf bp s : Stable (example_listening br bc bf bp s).
Proof. split; intros; destruct H as [H1 H2]; (split; [by destruct H1 as [[] ?]|by first [exact H2|right]]). Qed.

(** Options whose effect on the local variables is [next]. *)
Definition tracks {A} (next : A -> optev -> A) (I : W -> Prop) (step : A -> optev -> M statics (A + Z)) : Prop :=
  forall o e, sane_echo_option e -> Tame.tame False I [] (step o e) (fun r => r = inl (next o e)).

Lemma tame_tracks {A} next I (step : A -> optev -> M statics (A + Z)) evs o :
  tracks next I step -> Forall sane_echo_option evs ->
  Tame.tame False I [] (getopt_loop step o evs) (fun r => r = inl (foldl next o evs)).
Proof.
  intros Hstep Hevs. revert o. induction Hevs as [|e evs He _ IH]; intros o; cbn [getopt_loop foldl].
  - by apply tame_ret.
  - eapply tame_bind; [by apply Hstep|]. intros r ->. apply IH.
Qed.

Lemma tame_atoi_value I `{!Stable I} (e : optev) s :
  o_arg e = Some s -> Tame.tame False I [] (atoi_optarg (K := K) (S := statics) e) (fun v => v = atoi s).
Proof. intros Hs. unfold atoi_optarg. rewrite Hs. by apply tame_ret. Qed.

Definition echo_next (o : Echo.main_opts) (e : optev) : Echo.main_opts :=
  Echo.MainOpts (count_step (Echo.o_count o) e) (port_step (Echo.o_listen_port o) e)
    (family_step (Echo.o_addr_family o) e).

Lemma echo_opts evs :
  foldl echo_next Echo.default_opts evs = Echo.MainOpts (count_of evs) (port_of evs) (family_of evs).
Proof.
  unfold count_of, port_of, family_of, Echo.default_opts. generalize 1000000, PORT, AF_INET6.
  induction evs as [|e evs IH]; intros c p f; [done|]. cbn [foldl]. apply IH.
Qed.

Lemma echo_tracks b n : tracks echo_next (main_buffers b n) Echo.main_option.
Proof.
  intros o e [Hc Ha]. destruct o as [count port family].
  unfold Echo.main_option, echo_next, count_step, port_step, family_step.
  cbv zeta iota beta. cbn [Echo.o_count Echo.o_listen_port Echo.o_addr_family].
  destruct (Z.eqb_spec (o_c e) (ch "c")) as [E|_].
  { destruct (Hc E) as (s & Hs & _). rewrite Hs, E. eapply tame_bind; [apply tame_atoi_value; [typeclasses eauto|done]|].
    intros v ->. by apply tame_ret. }
  destruct (Z.eqb_spec (o_c e) (ch "l")) as [E|_].
  { destruct Ha as [s Hs]; [rewrite E; by left|]. rewrite Hs, E.
    eapply tame_bind; [apply tame_atoi_value; [typeclasses eauto|done]|]. intros v ->. by apply tame_ret. }
  destruct (o_c e =? ch "4"); [by apply tame_ret|]. destruct (o_c e =? ch "6"); [by apply tame_ret|].
  destruct (Z.eqb_spec (o_c e) (ch "v")) as [E|_]; [|by apply tame_ret].
  eapply tame_bind; [apply tame_atoi_any, Ha; rewrite E; right; by left|]. intros v _.
  eapply (tame_bind _ _ _ _ _ (fun _ => True)); [|intros _ _; by apply tame_ret].
  intros w Hw. apply wp_put_st. split; [by apply main_buffers_st|done].
Qed.

Definition example_next (o : Example02.main_opts) (e : optev) : Example02.main_opts :=
  Example02.MainOpts (count_step (Example02.o_count o) e) (port_step (Example02.o_listen_port o) e)
    ((o_c e =? ch "t") || Example02.o_tos_reflect o).

Lemma example_opts evs :
  foldl example_next Example02.default_opts evs = Example02.MainOpts (count_of evs) (port_of evs) (tos_of evs).
Proof.
  unfold count_of, port_of, tos_of, Example02.default_opts.
  cut (forall c p b, foldl example_next (Example02.MainOpts c p b) evs =
    Example02.MainOpts (foldl count_step c evs) (foldl port_step p evs) (foldl (fun b e => (o_c e =? ch "t") || b) b evs)); [auto|].
  induction evs as [|e evs IH]; intros c p b; [done|]. cbn [foldl]. apply IH.
Qed.

Lemma example_tracks (I : W -> Prop) `{!Stable I} : tracks example_next I Example02.main_option.
Proof.
  intros o e [Hc Ha]. destruct o as [count port tos]. unfold Example02.main_option, example_next, count_step, port_step.
  cbv zeta iota beta. cbn [Example02.o_count Example02.o_listen_port Example02.o_tos_reflect].
  destruct (Z.eqb_spec (o_c e) (ch "c")) as [E|_].
  { destruct (Hc E) as (s & Hs & _). rewrite Hs, E. eapply tame_bind; [apply tame_atoi_value; [typeclasses eauto|done]|].
    intros v ->. by apply tame_ret. }
  destruct (Z.eqb_spec (o_c e) (ch "l")) as [E|_].
  { destruct Ha as [s Hs]; [rewrite E; by left|]. rewrite Hs, E.
    eapply tame_bind; [apply tame_atoi_value; [typeclasses eauto|done]|]. intros v ->. by apply tame_ret. }
  destruct (o_c e =? ch "t"); by apply tame_ret.
Qed.

(** What a run of a server leaves, on address [addr] with [n] bytes for the
    sender's: it got a socket of [family], and could not bind it, or it bound
    it, set the options and served [count] messages, or fewer because a receive
    failed. *)
Definition ran_server (family n count : Z) (addr : list Z) (opts : Z -> list call) (code : Z) (w' : W) : Prop :=
  exists s b before, let fd := r_ret s in let bound := (CBind fd addr (Z.of_nat (length addr)), b) :: before in
    0 <= fd /\ In (CSocket family SOCK_DGRAM 0, s) before /\
    ((r_ret b = -1 /\ code = 1 /\ w_log w' = bound) \/
     (r_ret b <> -1 /\ code = 0 /\ exists msgs log set,
        w_log w' = log ++ set ++ bound /\ set.*1 = opts fd /\ served fd n count msgs log)).

(** The options of the two servers, newest call first. *)
Definition echo_sockopts (fd : Z) : list call :=
  [CSetsockopt fd IPPROTO_IPV6 IPV6_RECVPKTINFO (le_bytes 4 1); CSetsockopt fd SOL_IP IP_PKTINFO (le_bytes 4 1)].
Definition example_sockopts (tos : bool) (fd : Z) : list call :=
  (if tos then [CSetsockopt fd SOL_IP IP_RECVTOS (le_bytes 4 1)] else []) ++
  [CSetsockopt fd SOL_IP IP_PKTINFO (le_bytes 4 1)].

(** There was no socket. *)
Definition no_server_socket (family : Z) (code : Z) (w' : W) : Prop :=
  code = EXIT_FAIL_SOCK /\
  exists s before, w_log w' = (CSocket family SOCK_DGRAM 0, s) :: before /\ r_ret s < 0.

Lemma socket_fd f t p (Q : Z -> W -> Prop) (X : Z -> W -> Prop) w :
  (forall r k, 0 <= r_ret r -> Q (r_ret r) (w_call (CSocket f t p) r k w)) ->
  (forall r w', w_log w' = (CSocket f t p, r) :: w_log w -> r_ret r < 0 -> X EXIT_FAIL_SOCK w') ->
  wpg False (Socket f t p) Q X w.
Proof.
  intros HQ HX. unfold Socket. wp_step. wp_ask r k E. destruct (Z.ltb_spec (r_ret r) 0).
  - do 3 wp_step. by apply (HX r).
  - wp_step. by apply HQ.
Qed.

Lemma bind_listener_spec fd a (Q : bool -> W -> Prop) X w :
  (forall r k, let w' := w_call (CBind fd a (Z.of_nat (length a))) r k w in
     (r_ret r = -1 -> Q false (w_print (Out true "bind" []) w')) /\ (r_ret r <> -1 -> Q true w')) ->
  wpg False (bind_listener fd a) Q X w.
Proof.
  intros HQ. unfold bind_listener. wp_step. wp_ask r k E. destruct (HQ r k) as [Hno Hyes].
  destruct (Z.eqb_spec (r_ret r) (-1)).
  - do 3 wp_step. by apply Hno.
  - wp_step. by apply Hyes.
Qed.

Lemma echo_main_spec fuel evs (w : W) :
  receives sizeof_sockaddr_storage contactable -> ntop_works K -> mem_wf w ->
  Forall sane_echo_option evs -> 2 ^ 31 <= Z.of_nat fuel ->
  wpg False (Echo.main fuel evs) (ran_server (family_of evs) sizeof_sockaddr_storage (count_of evs) (Echo.listen_addr (family_of evs) (port_of evs)) echo_sockopts)
    (no_server_socket (family_of evs)) w.
Proof.
  intros Hrec Hntop Hw Hevs Hfuel. unfold Echo.main. do 6 wp_step.
  pose proof (new_buffers w sizeof_sockaddr_storage Hw ltac:(done)) as Hb. revert Hb.
  cbn [w_alloc w_next]. set (w1 := w_alloc _ _). intros Hb.
  wp_step. eapply wp_mono.
  { exact (tame_tracks _ _ _ evs Echo.default_opts (echo_tracks (w_next w) sizeof_sockaddr_storage) Hevs w1 Hb). }
  2: { by intros. }
  intros ro w2 [Hb2 ->]. pose proof (count_range evs Hevs) as Hcr. rewrite echo_opts. cbv iota beta.
  cbn [Echo.o_count Echo.o_listen_port Echo.o_addr_family]. wp_step. apply socket_fd.
  2: { intros r w3 Hlog Hr. split; [done|]. by do 2 eexists. }
  intros r k Hr. wp_step. apply bind_listener_spec. intros b k2. cbv zeta. split; intros Hbind.
  { cbn [negb]. cbv iota. wp_step. exists r, b, ((CSocket (family_of evs) SOCK_DGRAM 0, r) :: w_log w2).
    split; [exact Hr|]. split; [by left|]. left. split_and!; [exact Hbind|done|reflexivity]. }
  cbn [negb]. cbv iota. wp_step. wp_ask r3 k3 E3. wp_step. wp_ask r4 k4 E4. wp_step.
  unfold Echo.echo_loop. eapply wp_mono.
  { eapply (rounds_spec _ _ _ _ fuel (count_of evs)); [exact (echo_round_serves Hntop _ _ _ _ Hrec)| |exact Hcr|lia].
    by destruct Hb2. }
  2: { by intros. }
  intros _ w4 (msgs & log & Hlog & Hs). wp_step. exists r, b, ((CSocket (family_of evs) SOCK_DGRAM 0, r) :: w_log w2).
    split; [exact Hr|]. split; [by left|]. right.
  split; [exact Hbind|]. split; [done|]. eexists msgs, log, [_; _]. split_and!; [exact Hlog|done|exact Hs].
Qed.

Lemma example_main_spec fuel evs (w : W) :
  receives sizeof_sockaddr_in contactable4 -> mem_wf w ->
  Forall sane_echo_option evs -> 2 ^ 31 <= Z.of_nat fuel ->
  wpg False (Example02.main fuel evs) (ran_server AF_INET sizeof_sockaddr_in (count_of evs) (Example02.listen_addr (port_of evs)) (example_sockopts (tos_of evs)))
    (no_server_socket AF_INET) w.
Proof.
  intros Hrec Hw Hevs Hfuel. unfold Example02.main. wp_step. apply socket_fd.
  2: { intros r w3 Hlog Hr. split; [done|]. by do 2 eexists. }
  intros r k Hr. set (w0 := w_call _ _ _ w). do 8 wp_step.
  pose proof (new_buffers w0 sizeof_sockaddr_in Hw ltac:(done)) as Hb. revert Hb.
  cbn [w_alloc w_next]. set (w1 := w_alloc _ (w_alloc _ (w_alloc _ w0))). intros Hb.
  set (bp := w_next w0 + 1 + 1 + 1). set (w2 := w_alloc _ w1).
  assert (Hready : example_ready (w_next w0) (w_next w0 + 1) (w_next w0 + 1 + 1) bp w2).
  { split; [|split].
    - destruct Hb as [(? & l1 & ? & ?) (? & l2 & ? & ?) (? & l3 & ? & ?) ? ?].
      split; [| | |done|done]; (split; [unfold w2; cbn [w_alloc w_next] in *; lia|]);
        eexists; (split; [|eassumption]); unfold w2; cbn [w_alloc w_mem];
        rewrite lookup_insert_ne; try done; unfold w1; cbn [w_alloc w_next]; lia.
    - exists (replicate (Z.to_nat sizeof_in_pktinfo) None). split; [|done]. unfold w2. cbn [w_alloc w_mem].
      apply lookup_insert_eq.
    - unfold bp. lia. }
  wp_step. eapply wp_mono.
  { exact (tame_tracks _ _ _ evs Example02.default_opts
      (example_tracks (example_listening (w_next w0) (w_next w0 + 1) (w_next w0 + 1 + 1) bp r)) Hevs w2
      (conj Hready (or_introl eq_refl))). }
  2: { by intros. }
  intros ro w3 [[Hb3 Hsock] ->]. pose proof (count_range evs Hevs) as Hcr. rewrite example_opts. cbv iota beta.
  cbn [Example02.o_count Example02.o_listen_port Example02.o_tos_reflect].
  do 3 wp_step.
  apply bind_listener_spec. intros b k2. cbv zeta. split; intros Hbind.
  { cbn [negb]. cbv iota. wp_step. do 3 eexists. split; [exact Hr|]. split; [exact Hsock|]. left. split_and!; [exact Hbind|done|reflexivity]. }
  cbn [negb]. cbv iota. wp_step. wp_ask r3 k3 E3. wp_step.
  assert (Hloop : forall w5 set before, example_ready (w_next w0) (w_next w0 + 1) (w_next w0 + 1 + 1) bp w5 ->
    w_log w5 = set ++ (CBind (r_ret r) (Example02.listen_addr (port_of evs)) 16, b) :: before ->
    set.*1 = example_sockopts (tos_of evs) (r_ret r) -> In (CSocket AF_INET SOCK_DGRAM 0, r) before ->
    wpg False (Example02.echo_loop fuel (r_ret r) (Ptr (w_next w0 + 1) 0) (Ptr (w_next w0 + 1 + 1) 0) (Ptr (w_next w0) 0)
                 (Ptr bp 0) (count_of evs) ;; ret 0)
      (ran_server AF_INET sizeof_sockaddr_in (count_of evs) (Example02.listen_addr (port_of evs)) (example_sockopts (tos_of evs)))
      (no_server_socket AF_INET) w5).
  { intros w5 set before Hw5 Hlog5 Hset Hbefore. wp_step. unfold Example02.echo_loop.
    eapply wp_mono; [eapply (rounds_spec _ _ _ _ fuel (count_of evs)); [exact (example_round_serves _ _ _ _ _ Hrec)|exact Hw5|exact Hcr|lia]| |by intros].
    intros _ w6 (msgs & log & Hlog & Hs). wp_step. exists r, b, before. split; [exact Hr|]. split; [exact Hbefore|]. right.
    split; [exact Hbind|]. split; [done|]. exists msgs, log, set. split_and!; [by rewrite Hlog, Hlog5|exact Hset|exact Hs]. }
  unfold when. revert Hloop. destruct (tos_of evs); intros Hloop; cbv iota; [wp_step; wp_ask r4 k4 E4; wp_step|wp_step].
  - eapply (Hloop _ [_; _]); [repeat apply stable_call; by apply stable_print|reflexivity|reflexivity|exact Hsock].
  - eapply (Hloop _ [_]); [repeat apply stable_call; by apply stable_print|reflexivity|reflexivity|exact Hsock].
Qed.
End Main.

(** ** The properties *)

(** C29: the whole program [udp_echo]: for every command line whose options
    have their arguments and with a count of at least one, on a system whose
    datagrams fit the buffers and carry packet information, and whose
    [inet_ntop] renders IPv4 and IPv6 addresses, [main] terminates without
    undefined behaviour.  It exits with EXIT_FAIL_SOCK only when there is no
    socket of the family asked for; it returns 1 when [bind] of its socket to the
    port asked for fails; otherwise it returns 0 having set the two socket options and
    answered messages one by one: each answer has exactly the payload received,
    goes to the address it came from, and hands the control data back, before
    the next message is received.  It stops after the number of messages asked
    for, or at the first receive that fails. *)
Theorem udp_echo_main_reflects (K : Kernel) (fuel : nat) (evs : list optev) (w : world statics) :
  receives sizeof_sockaddr_storage contactable -> ntop_works K -> mem_wf w ->
  Forall sane_echo_option evs -> 2 ^ 31 <= Z.of_nat fuel ->
  wp (Echo.main fuel evs)
    (ran_server (family_of evs) sizeof_sockaddr_storage (count_of evs) (Echo.listen_addr (family_of evs) (port_of evs)) echo_sockopts)
    (no_server_socket (family_of evs)) w.
Proof. apply echo_main_spec. Qed.

(** The whole program [udp_example02]: the same of the IPv4 server, which
    needs nothing of [inet_ntop], but packet information for IPv4 with every
    datagram. *)
Theorem udp_example02_main_reflects (K : Kernel) (fuel : nat) (evs : list optev) (w : world statics) :
  receives sizeof_sockaddr_in contactable4 -> mem_wf w ->
  Forall sane_echo_option evs -> 2 ^ 31 <= Z.of_nat fuel ->
  wp (Example02.main fuel evs)
    (ran_server AF_INET sizeof_sockaddr_in (count_of evs) (Example02.listen_addr (port_of evs)) (example_sockopts (tos_of evs)))
    (no_server_socket AF_INET) w.
Proof. apply example_main_spec. Qed.

(** C30: [pktinfo_get] of udp_echo.c, on any control data the system filled
    with messages [l]: it terminates without reading beyond them, answers the
    address family of the last packet information ([-1] when there is none), and
    leaves in each of the two structures the data of the last message for its
    family, or the structure as it was; nothing else changes. *)
Theorem pktinfo_get_last (K : Kernel) (h : msghdr) (b bp bp6 : Z) (l : list cmsg) (ctl : list Z)
  (w : world statics) :
  controls l ctl -> Forall cmsg_ok l -> Forall pktinfo_sized l -> msg_control h = Ptr b 0 ->
  msg_controllen h = Z.of_nat (length ctl) -> Z.of_nat (length ctl) <= sizeof_cbuf -> holds w b ctl ->
  bp <> bp6 -> b <> bp -> b <> bp6 ->
  (exists l', w_mem w !! bp = Some l' /\ Z.of_nat (length l') = sizeof_in_pktinfo) ->
  (exists l', w_mem w !! bp6 = Some l' /\ Z.of_nat (length l') = sizeof_in6_pktinfo) ->
  wp (Echo.pktinfo_get h (Ptr bp 0) (Ptr bp6 0))
    (fun res w' => infos w bp bp6 l w' /\ res = family_found l) (fun _ _ => False) w.
Proof. intros. by apply (pktinfo_get_spec False h b l ctl). Qed.

(** *** Witnesses *)

(** A system that delivers the same datagram again and again. *)
Definition example_datagram : rmsg :=
  RMsg [104; 105] (set_sin_addr [10; 0; 0; 7] (set_port (htons 4040) (set_family AF_INET (replicate 16 0))))
    (header_bytes (Cmsg IPPROTO_IP IP_PKTINFO (replicate 12 1)) ++ replicate 12 1 ++ replicate 4 0).

Definition datagrams : Kernel :=
  {| kst := unit;
     kstep c k :=
       match c with
       | CRecvmsg _ _ _ _ _ => (Reply 2 0 (Timespec 0 0) [example_datagram], k)
       | CInetNtop _ _ => (Reply 1 0 (Timespec 0 0) [RMsg [49] [] []], k)
       | _ => (reply_of 3, k)
       end |}.

Definition datagrams_world (s : statics) : @world datagrams statics :=
  @World datagrams statics tt ∅ 1 [] [] 0 s.

Lemma datagrams_wf s : mem_wf (datagrams_world s).
Proof. split; [done|]. intros b _. apply lookup_empty. Qed.

Definition example_info : list cmsg := [Cmsg IPPROTO_IP IP_PKTINFO (replicate 12 1)].

Lemma datagrams_receives n (good : list cmsg -> list Z -> Prop) :
  16 <= n -> good example_info (m_name example_datagram) -> @receives datagrams n good.
Proof.
  intros Hn Hgood fd k. right. exists example_info. split_and!.
  - split; try done.
    + exists (replicate 4 0), []. by split_and!.
    + repeat constructor; vm_compute; by try discriminate.
  - repeat constructor; vm_compute; by try discriminate.
  - done.
Qed.

Lemma enough_fuel : 2 ^ 31 <= Z.of_nat (Z.to_nat (2 ^ 31)).
Proof. rewrite Z2Nat.id; [apply Z.le_refl|discriminate]. Qed.

Definition example_options : list optev := [Optev (ch "c") 0 (Some "3"); Optev (ch "4") 0 None].

Lemma example_options_sane : Forall sane_echo_option example_options.
Proof.
  constructor; [|constructor; [|constructor]].
  - split; [intros _; exists "3"; vm_compute; split; [done|split; discriminate]|].
    intros [H|[H|[]]]; discriminate H.
  - split; [discriminate|]. intros [H|[H|[]]]; discriminate H.
Qed.

Lemma udp_echo_main_reflects_witness :
  wp (Echo.main (Z.to_nat (2 ^ 31)) example_options) 
    (ran_server AF_INET sizeof_sockaddr_storage 3 (Echo.listen_addr AF_INET 4040) echo_sockopts)
    (no_server_socket AF_INET) (datagrams_world initial_statics).
Proof.
  apply (udp_echo_main_reflects datagrams (Z.to_nat (2 ^ 31)) example_options (datagrams_world initial_statics)).
  - apply datagrams_receives; [discriminate|]. left. split; [reflexivity|]. vm_compute. lia.
  - intros family src k _. discriminate.
  - apply datagrams_wf.
  - apply example_options_sane.
  - apply enough_fuel.
Defined.

Lemma udp_example02_main_reflects_witness :
  wp (Example02.main (Z.to_nat (2 ^ 31)) example_options) 
    (ran_server AF_INET sizeof_sockaddr_in 3 (Example02.listen_addr 4040) (example_sockopts false))
    (no_server_socket AF_INET) (datagrams_world initial_statics).
Proof.
  apply (udp_example02_main_reflects datagrams (Z.to_nat (2 ^ 31)) example_options (datagrams_world initial_statics)).
  - apply datagrams_receives; [discriminate|]. split; [by eexists|]. vm_compute. lia.
  - apply datagrams_wf.
  - apply example_options_sane.
  - apply enough_fuel.
Defined.

Definition info_world : @world datagrams statics :=
  @World datagrams statics tt
    {[1 := Some <$> m_ctl example_datagram; 2 := replicate 12 None; 3 := replicate 20 None]} 4 [] [] 0 initial_statics.

Lemma pktinfo_get_last_witness :
  wp (Echo.pktinfo_get (Msghdr NULL 0 [] 0 (Ptr 1 0) 32 0) (Ptr 2 0) (Ptr 3 0))
    (fun res w' => infos info_world 2 3 example_info w' /\ res = AF_INET) (fun _ _ => False) info_world.
Proof.
  apply (pktinfo_get_last datagrams (Msghdr NULL 0 [] 0 (Ptr 1 0) 32 0) 1 2 3 example_info
    (m_ctl example_datagram) info_world).
  - exists (replicate 4 0), []. split_and!; reflexivity.
  - repeat constructor; vm_compute; by try discriminate.
  - repeat constructor; vm_compute; by try discriminate.
  - reflexivity.
  - reflexivity.
  - vm_compute. discriminate.
  - exists (Some <$> m_ctl example_datagram). split_and!; [reflexivity| |reflexivity]. vm_compute. lia.
  - discriminate.
  - discriminate.
  - discriminate.
  - by eexists.
  - by eexists.
Defined.

(** Without packet information, [print_info] prints variables that were never
    written. *)
Example print_info_uninitialised :
  Echo.print_info (Msghdr (Ptr 1 0) 32 [] 0 (Ptr 1 0) 0 0) info_world =
    Undef Indeterminate
      (w_print (Out true "No destination IP data found (ancillary data)\n" [])
         (w_alloc (replicate 20 None) (w_alloc (replicate 12 None) info_world))).
Proof. reflexivity. Qed.
