(* ===== verification/UdpClientEcho.v ===== *)
(** * udp_client_echo.c: a client that expects its packet back *)
From stdpp Require Import base list gmap strings.
From Stdlib Require Import ZArith Lia Ascii.
From S2P Require Import Prelude.
From S2P Require Import CLang.
From S2P Require Import Wp.
From S2P Require Import Libc.
From S2P Require Import Getopt.
From S2P Require Import Common.
From S2P Require Import CommonSocket.

#[local] Open Scope Z_scope.
#[local] Open Scope c_scope.

Definition PORT : Z := 4040.
Definition IP_PMTUDISC_DONT : Z := 0.

(** The static variable. *)
Record statics := Statics { verbose : Z }.

Definition initial_statics : statics := Statics 2.

(** The size of [buf_send] and [buf_recv]. *)
Definition sizeof_buf : Z := 65535.

(** The local variables of [main] that the options set. *)
Record main_opts := MainOpts { o_pkt_size : Z; o_addr_family : Z; o_dest_port : Z }.

Definition default_opts : main_opts := MainOpts 3000 AF_INET6 PORT.

Section Client.
Context {K : Kernel}.
#[local] Abbreviation M := (M statics).

(** [if (verbose > level) ...] *)
Definition verbose_above (level : Z) (m : M unit) : M unit :=
  s <- get_st ;;
  when (level <? verbose s) m.

Definition send_packet (sockfd : Z) (dest_addr : list Z) (buf_send : ptr) (pkt_size : Z) : M Z :=
  len_addr <- sockaddr_len dest_addr ;;
  data <- peek buf_send pkt_size ;;
  res <- ask (CSendto sockfd data 0 dest_addr len_addr) ;;
  let len_send := r_ret res in
  if len_send <? 0 then
    eprintf "ERROR: %s() sendto failed (%d) " [AStr "send_packet"; AInt len_send] ;;
    perror "- sendto" ;;
    exit 5
  else
    verbose_above 1 (printf "Send UDP packet of length:%d\n" [AInt len_send]) ;;
    ret len_send.

Definition recv_packet (sockfd : Z) (buf_recv : ptr) (pkt_size : Z) : M Z :=
  verbose_above 1 (printf "Waiting for recvfrom()\n" []) ;;
  res <- ask (CRecvfrom sockfd pkt_size 0 false) ;;
  let len_recv := r_ret res in
  if len_recv <? 0 then
    perror "recvfrom" ;;
    exit 5
  else
    store buf_recv (take (Z.to_nat pkt_size) (m_data (r_msg res))) ;;
    verbose_above 1 (printf "Received UDP packet of length:%d\n" [AInt len_recv]) ;;
    ret len_recv.

Definition validate_packet (len_send len_recv : Z) : M unit :=
  if negb (len_recv =? len_send) then
    eprintf "ERROR - Packet validation failed: size check\n" [] ;;
    exit 1
  else printf "OK: valid size\n" [].

Definition main_option (o : main_opts) (e : optev) : M (main_opts + Z) :=
  let oc := o_c e in
  let '(MainOpts pkt_size family port) := o in
  if oc =? ch "s" then v <- atoi_optarg e ;; ret (inl (MainOpts v family port))
  else if oc =? ch "4" then ret (inl (MainOpts pkt_size AF_INET port))
  else if oc =? ch "6" then ret (inl (MainOpts pkt_size AF_INET6 port))
  else if oc =? ch "v" then v <- atoi_optarg e ;; put_st (Statics v) ;; ret (inl o)
  else if oc =? ch "p" then v <- atoi_optarg e ;; ret (inl (MainOpts pkt_size family (u16 v)))
  else ret (inl o).

(** The packet goes out, an answer comes in, and their lengths are compared.
    The size is converted to [uint16_t] by both calls. *)
Definition exchange (sockfd : Z) (dest_addr : list Z) (buf_send buf_recv : ptr) (pkt_size : Z) : M unit :=
  len_send <- send_packet sockfd dest_addr buf_send (u16 pkt_size) ;;
  len_recv <- recv_packet sockfd buf_recv (u16 len_send) ;;
  validate_packet len_send len_recv.

(** [main], from the answers of [getopt] and the argument after the
    options. *)
Definition main (evs : list optev) (dest_ip : option string) : M Z :=
  buf_send <- new_block sizeof_buf ;;
  buf_recv <- new_block sizeof_buf ;;
  r <- getopt_loop main_option default_opts evs ;;
  match r, dest_ip with
  | inr code, _ => ret code
  | inl o, None =>
      eprintf "Expected dest IP-address (IPv6 or IPv4) argument after options\n" [] ;;
      exit EXIT_FAIL_OPTION
  | inl o, Some dest_ip =>
      let family := o_addr_family o in
      verbose_above 0
        (printf "Destination IP%s: %s port:%d\n"
           [AStr (if family =? AF_INET6 then "v6" else ""); AStr dest_ip; AInt (o_dest_port o)]) ;;
      sockfd <- Socket family SOCK_DGRAM 0 ;;
      Setsockopt sockfd IPPROTO_IP IP_MTU_DISCOVER (le_bytes 4 IP_PMTUDISC_DONT) ;;
      when (family =? AF_INET6)
        (Setsockopt sockfd IPPROTO_IPV6 IPV6_MTU_DISCOVER (le_bytes 4 IP_PMTUDISC_DONT) ;; ret tt) ;;
      dest_addr <- setup_sockaddr family zero_sockaddr dest_ip (o_dest_port o) ;;
      len <- sockaddr_len dest_addr ;;
      Connect sockfd dest_addr len ;;
      exchange sockfd dest_addr buf_send buf_recv (o_pkt_size o) ;;
      ret 0
  end.
End Client.
