(* ===== verification/UdpClientEchoProps.v ===== *)
(** * udp_client_echo: the verdict, the safety of [main], and the client
    together with the server *)
From stdpp Require Import base list gmap strings.
From Stdlib Require Import ZArith Lia Ascii.
From S2P Require Import Prelude.
From S2P Require Import CLang.
From S2P Require Import Wp.
From S2P Require Import Libc.
From S2P Require Import Common.
From S2P Require Import CommonSocket.
From S2P Require Import Getopt.
From S2P Require Import Tame.
From S2P Require Import Scripted.
From S2P Require Import Cmsg.
From S2P Require Import CmsgSpec.
From S2P Require Import UdpEcho.
From S2P Require Import UdpEchoSpec.
From S2P Require Import UdpEchoServe.
From S2P Require Import UdpEchoProps.
From S2P Require Import TcpClientProps.
From S2P Require Import UdpClientEcho.

#[local] Open Scope Z_scope.
#[local] Open Scope c_scope.

(** ** The exchange *)

(** The log of an exchange in which both calls were made, newest first. *)
Definition exchange_log (fd : Z) (dest : list Z) (data : list mbyte) (s r : reply) : list (call * reply) :=
  [(CRecvfrom fd (u16 (r_ret s)) 0 false, r); (CSendto fd data 0 dest (addr_len dest), s)].

Section Exchange.
Context {K : Kernel}.
#[local] Abbreviation W := (world statics).
Variables (fd : Z) (dest : list Z) (bs br size : Z) (w : W) (ls lr : list mbyte).
Hypothesis Hfam : known_family dest.
Hypothesis Hs : w_mem w !! bs = Some ls.
Hypothesis Hr : w_mem w !! br = Some lr.
Hypothesis Hls : Z.of_nat (length ls) = sizeof_buf.
Hypothesis Hlr : Z.of_nat (length lr) = sizeof_buf.

(** What is sent: the start of [buf_send], whatever it holds. *)
Definition sent_bytes : list mbyte := get_bytes 0 (Z.to_nat (u16 size)) ls.

Lemma sent_length : Z.of_nat (length sent_bytes) = u16 size.
Proof.
  unfold sent_bytes. pose proof (u16_range size). unfold sizeof_buf in *. rewrite length_get_bytes; lia.
Qed.

Definition accepted (w' : W) : Prop :=
  exists s r, w_log w' = exchange_log fd dest sent_bytes s r ++ w_log w /\ 0 <= r_ret s /\ r_ret r = r_ret s.

Definition rejected (code : Z) (w' : W) : Prop :=
  (exists s, code = 5 /\ w_log w' = (CSendto fd sent_bytes 0 dest (addr_len dest), s) :: w_log w /\ r_ret s < 0) \/
  (exists s r, w_log w' = exchange_log fd dest sent_bytes s r ++ w_log w /\ 0 <= r_ret s /\
     ((code = 5 /\ r_ret r < 0) \/ (code = 1 /\ 0 <= r_ret r /\ r_ret r <> r_ret s))).

Lemma verbose_above_spec F level m (w1 : W) (Q : unit -> W -> Prop) X :
  (forall w', w' = w1 \/ (exists o, w' = w_print o w1) -> Q tt w') ->
  (exists o, m = print o) -> wpg F (verbose_above level m) Q X w1.
Proof.
  intros HQ [o ->]. unfold verbose_above. do 3 wp_step.
  - wp_step. apply HQ. right. by exists o.
  - apply HQ. by left.
Qed.

(** Each call as the kernel answers it. *)
Lemma exchange_steps (Q : unit -> W -> Prop) (X : Z -> W -> Prop) :
  (forall s k, let c := CSendto fd sent_bytes 0 dest (addr_len dest) in kstep c (w_k w) = (s, k) ->
     (r_ret s < 0 -> forall w', w_log w' = (c, s) :: w_log w -> X 5 w') /\
     (0 <= r_ret s -> forall r k2, kstep (CRecvfrom fd (u16 (r_ret s)) 0 false) k = (r, k2) ->
        forall w', w_log w' = exchange_log fd dest sent_bytes s r ++ w_log w ->
          (r_ret r < 0 -> X 5 w') /\ (r_ret r = r_ret s -> Q tt w') /\
          (0 <= r_ret r -> r_ret r <> r_ret s -> X 1 w'))) ->
  wpg False (exchange fd dest (Ptr bs 0) (Ptr br 0) size) Q X w.
Proof.
  intros H. pose proof (u16_range size) as Hsz. unfold sizeof_buf in *.
  unfold exchange, send_packet. do 2 wp_step. apply len_known; [exact Hfam|].
  wp_step. eapply peek_spec; [exact Hs|done|cbn; lia|]. change (get_bytes (Z.to_nat 0) _ ls) with sent_bytes.
  wp_step. wp_ask s k E. destruct (H s k E) as [H5 HQ]. cbv zeta.
  destruct (Z.ltb_spec (r_ret s) 0) as [Hneg|Hpos]; [do 5 wp_step; by apply H5|]. specialize (HQ Hpos).
  wp_step. apply verbose_above_spec; [|by eexists]. intros w1 Hw1. wp_step.
  assert (w_k w1 = k /\ w_mem w1 = w_mem w /\ w_log w1 = (CSendto fd sent_bytes 0 dest (addr_len dest), s) :: w_log w)
    as (Hk1 & Hm1 & Hl1) by (destruct Hw1 as [-> | [o ->]]; done).
  unfold recv_packet. do 2 wp_step. apply verbose_above_spec; [|by eexists]. intros w2 Hw2. wp_step.
  assert (w_k w2 = k /\ w_mem w2 = w_mem w /\ w_log w2 = w_log w1)
    as (Hk2 & Hm2 & Hl2) by (destruct Hw2 as [-> | [o ->]]; done).
  wp_ask r k2 E2. rewrite Hk2 in E2. specialize (HQ r k2 E2). cbv zeta.
  assert (Hlog : forall w3 : W, w_log w3 = (CRecvfrom fd (u16 (r_ret s)) 0 false, r) :: w_log w2 ->
    w_log w3 = exchange_log fd dest sent_bytes s r ++ w_log w) by (intros w3 ->; by rewrite Hl2, Hl1).
  destruct (Z.ltb_spec (r_ret r) 0) as [Hneg|Hpos2].
  { do 3 wp_step. refine (proj1 (HQ _ _) Hneg). by apply Hlog. }
  wp_step. pose proof (u16_range (r_ret s)) as Hcap. eapply store_spec; [cbn; rewrite Hm2; exact Hr|done| |].
  { rewrite length_take. cbn. lia. }
  wp_step. apply verbose_above_spec; [|by eexists]. intros w3 Hw3. wp_step.
  assert (Hl3 : w_log w3 = exchange_log fd dest sent_bytes s r ++ w_log w).
  { apply Hlog. destruct Hw3 as [-> | [o ->]]; done. }
  unfold validate_packet. destruct (Z.eqb_spec (r_ret r) (r_ret s)) as [He|He]; cbn [negb]; cbv iota.
  - wp_step. refine (proj1 (proj2 (HQ _ _)) He). exact Hl3.
  - do 3 wp_step. refine (proj2 (proj2 (HQ _ _)) Hpos2 He). exact Hl3.
Qed.

Lemma exchange_spec : wpg False (exchange fd dest (Ptr bs 0) (Ptr br 0) size) (fun _ => accepted) rejected w.
Proof.
  apply exchange_steps. intros s k c _. split.
  - intros Hneg w' Hl. left. by exists s.
  - intros Hpos r k2 _ w' Hl. split_and!.
    + intros Hneg. right. exists s, r. split_and!; [done|done|]. by left.
    + intros He. by exists s, r.
    + intros H0 Hne. right. exists s, r. split_and!; [done|done|]. by right.
Qed.
End Exchange.

(** ** The whole program *)

(** An answer of [getopt]: an option that requires an argument has one. *)
Definition sane_client_echo_option (e : optev) : Prop :=
  In (o_c e) [ch "s"; ch "v"; ch "p"] -> is_Some (o_arg e).

Definition client_echo_codes : list Z :=
  [1; 5; EXIT_FAIL_OPTION; EXIT_FAIL_IP; EXIT_FAIL_SOCK; EXIT_FAIL_SOCKOPT].

Section Main.
Context {K : Kernel}.
#[local] Abbreviation W := (world statics).

(** The two buffers of [main]. *)
Definition client_buffers (b : Z) (w : W) : Prop :=
  exists ls lr, w_mem w !! b = Some ls /\ w_mem w !! (b + 1) = Some lr /\
    Z.of_nat (length ls) = sizeof_buf /\ Z.of_nat (length lr) = sizeof_buf.

#[local] Instance client_buffers_stable b : Stable (client_buffers b).
Proof. by split. Qed.

#[local] Abbreviation tame b := (tame False (client_buffers b) client_echo_codes).

Lemma tame_client_echo_option b o e :
  sane_client_echo_option e -> o_addr_family o = AF_INET \/ o_addr_family o = AF_INET6 ->
  tame b (main_option o e)
    (fun r => match r with inl o' => o_addr_family o' = AF_INET \/ o_addr_family o' = AF_INET6 | inr _ => False end).
Proof.
  intros Ha Ho. destruct o as [size family port]. unfold main_option. cbv zeta iota beta.
  destruct (Z.eqb_spec (o_c e) (ch "s")) as [E|_].
  { eapply tame_bind; [apply tame_atoi_any, Ha; rewrite E; by left|]. intros v _. by apply tame_ret. }
  tame_step; [apply tame_ret; by left|]. tame_step; [apply tame_ret; by right|].
  destruct (Z.eqb_spec (o_c e) (ch "v")) as [E|_].
  { eapply tame_bind; [apply tame_atoi_any, Ha; rewrite E; right; by left|]. intros v _.
    eapply (tame_bind _ _ _ _ _ (fun _ => True)); [|intros _ _; by apply tame_ret]. intros w Hw. by apply wp_put_st. }
  destruct (Z.eqb_spec (o_c e) (ch "p")) as [E|_]; [|by apply tame_ret].
  eapply tame_bind; [apply tame_atoi_any, Ha; rewrite E; do 2 right; by left|]. intros v _. by apply tame_ret.
Qed.

(** The exchange keeps no promise about the buffers: it comes last. *)
Lemma exchange_codes b fd dest size (w : W) (Q : Z -> W -> Prop) :
  client_buffers b w -> known_family dest -> (forall w', Q 0 w') ->
  wpg False (exchange fd dest (Ptr b 0) (Ptr (b + 1) 0) size ;; ret 0) Q (fun code _ => In code client_echo_codes) w.
Proof.
  intros (ls & lr & Hs & Hr & Hls & Hlr) Hd HQ. wp_step.
  eapply wp_mono; [by apply (exchange_spec fd dest b (b + 1) size w ls lr)| |].
  - intros _ w' _. wp_step. apply HQ.
  - intros code w' [(s & -> & _)|(s & r & _ & _ & [[-> _]|[-> _]])]; vm_compute; tauto.
Qed.

Lemma tame_verbose_above b level fmt args : tame b (verbose_above level (printf fmt args)) (fun _ => True).
Proof.
  unfold verbose_above. eapply (tame_bind _ _ _ _ _ (fun _ => True)).
  - intros w Hw. by apply wp_get_st.
  - intros s _. apply tame_when. intros _. apply tame_printf, client_buffers_stable.
Qed.

(** Continuing after a part known to be tame. *)
Lemma tame_then {A B} b (m : M statics A) (f : A -> M statics B) P (Q : B -> W -> Prop) w :
  tame b m P -> client_buffers b w ->
  (forall a w', client_buffers b w' -> P a -> wpg False (f a) Q (fun code _ => In code client_echo_codes) w') ->
  wpg False (bind m f) Q (fun code _ => In code client_echo_codes) w.
Proof. intros Hm Hw Hf. wp_step. eapply wp_post; [by apply Hm|]. intros a w' [Hw' Ha]. by apply Hf. Qed.

Lemma client_main_spec evs dest_ip (w : W) :
  Forall sane_client_echo_option evs ->
  wpg False (main evs dest_ip) (fun code _ => code = 0 /\ is_Some dest_ip) (fun code _ => In code client_echo_codes) w.
Proof.
  intros Hevs. unfold main. do 4 wp_step. cbn [w_alloc w_next].
  set (w1 := w_alloc _ _). set (b := w_next w).
  assert (Hb : client_buffers b w1).
  { exists (replicate (Z.to_nat sizeof_buf) None), (replicate (Z.to_nat sizeof_buf) None).
    unfold w1, b. cbn [w_alloc w_mem w_next]. rewrite lookup_insert_eq, lookup_insert_ne, lookup_insert_eq by lia.
    by rewrite length_replicate. }
  eapply tame_then; [|exact Hb|].
  { apply (tame_getopt _ _ _ (fun o => o_addr_family o = AF_INET \/ o_addr_family o = AF_INET6)
      sane_client_echo_option main_option evs default_opts (fun _ => False)); [by right|done|].
    intros. by apply tame_client_echo_option. }
  intros [o|code] w2 Hw2 Ho; [|done]. destruct dest_ip as [ip|]; [|do 3 wp_step; vm_compute; tauto].
  cbv zeta. eapply tame_then; [apply tame_verbose_above|exact Hw2|]. intros _ w3 Hw3 _.
  eapply tame_then; [by apply tame_Socket; [apply client_buffers_stable|vm_compute; tauto]|exact Hw3|]. intros fd w4 Hw4 _.
  eapply tame_then; [by apply tame_Setsockopt; [apply client_buffers_stable|vm_compute; tauto]|exact Hw4|]. intros _ w5 Hw5 _.
  eapply (tame_then b _ _ (fun _ => True)); [|exact Hw5|].
  { apply tame_when. intros _. repeat tame_step. done. }
  intros _ w6 Hw6 _.
  eapply tame_then; [apply tame_dest_addr; [apply client_buffers_stable|exact Ho|vm_compute; tauto]|exact Hw6|].
  intros dest w7 Hw7 Hd.
  eapply tame_then; [by apply tame_sockaddr_len; [apply client_buffers_stable|vm_compute; tauto]|exact Hw7|]. intros n w8 Hw8 _.
  eapply tame_then; [by apply tame_Connect; [apply client_buffers_stable|vm_compute; tauto]|exact Hw8|]. intros c w9 Hw9 _.
  apply exchange_codes; [done|done|]. intros w'. by split.
Qed.
End Main.

(** ** The client and the server together

    The network brings the client's packet to [udp_echo], and the answer back.
    [server_reply] runs a round of the server on the datagram and takes the
    payload it sent. *)

(** A datagram cut to the frame of the server. *)
Definition cut (d : list Z) : list Z := take (Z.to_nat sizeof_frame) d.

Lemma length_cut d : Z.of_nat (length (cut d)) = Z.min sizeof_frame (Z.of_nat (length d)).
Proof. unfold cut. rewrite length_take. unfold sizeof_frame. lia. Qed.

#[local] Opaque cut.

(** The system of a server that is given one datagram. *)
Definition delivered_to_server (d : list Z) : rmsg :=
  RMsg (cut d) (m_name example_datagram) (m_ctl example_datagram).

#[local] Instance inbox : Kernel :=
  {| kst := list Z;
     kstep c d :=
       match c with
       | CRecvmsg _ _ _ _ _ =>
           (Reply (Z.of_nat (length (cut d))) 0 (Timespec 0 0) [delivered_to_server d], d)
       | CInetNtop _ _ => (Reply 1 0 (Timespec 0 0) [RMsg [49] [] []], d)
       | _ => (reply_of 0, d)
       end |}.

(** The server before a round: the buffers of its [main]. *)
Definition server_world (d : list Z) : @world inbox UdpEcho.statics :=
  w_alloc (replicate (Z.to_nat sizeof_frame) None)
    (w_alloc (replicate (Z.to_nat sizeof_cbuf) None)
       (w_alloc (replicate (Z.to_nat sizeof_sockaddr_storage) None)
          (@World inbox UdpEcho.statics d ∅ 1 [] [] 0 UdpEcho.initial_statics))).

Definition sent_payload (e : call * reply) : option (list mbyte) :=
  match e.1 with CSendmsg _ data _ _ _ => Some data | _ => None end.

(** The payload of the answer that a round of the server sends. *)
Definition answer_from (w : @world inbox UdpEcho.statics) : option (list mbyte) :=
  match Echo.echo_round 3 (Ptr 2 0) (Ptr 3 0) (Ptr 1 0) 1 w with
  | Ret _ w' => head (omap sent_payload (w_log w'))
  | _ => None
  end.

Definition server_reply (d : list Z) : option (list mbyte) := answer_from (server_world d).

Lemma inbox_receives : @receives inbox sizeof_sockaddr_storage contactable.
Proof.
  intros fd d. right. exists example_info. split_and!.
  - split; try done.
    + cbn [r_ret kstep inbox recv_of fst]. rewrite length_cut. lia.
    + exists (replicate 4 0), []. by split_and!.
    + repeat constructor; vm_compute; by try discriminate.
  - repeat constructor; vm_compute; by try discriminate.
  - left. split; [reflexivity|]. vm_compute. lia.
Qed.

Lemma answer_spec (w : @world inbox UdpEcho.statics) :
  server_buffers w 1 2 3 sizeof_sockaddr_storage ->
  answer_from w = Some (Some <$> cut (w_k w)).
Proof.
  intros Hb. assert (Hntop : ntop_works inbox) by (intros f s k _; discriminate).
  pose proof (echo_round_serves Hntop 3 1 2 3 inbox_receives 1 w Hb ltac:(lia)) as H.
  unfold answer_from. unfold wpg in H.
  destruct (Echo.echo_round 3 (Ptr 2 0) (Ptr 3 0) (Ptr 1 0) 1 w) as [out w'|? ?|? ?|]; [|destruct H..].
  destruct H as [(log & _ & (s & ntops & r & -> & _ & _) & -> & _)|(_ & Hr & _)]; [reflexivity|].
  exfalso. cbn [kstep inbox recv_of fst r_ret] in Hr. lia.
Qed.

Lemma server_buffers_ready d : server_buffers (server_world d) 1 2 3 sizeof_sockaddr_storage.
Proof.
  apply (new_buffers (@World inbox UdpEcho.statics d ∅ 1 [] [] 0 UdpEcho.initial_statics)); [|done].
  split; [done|]. intros b _. apply lookup_empty.
Qed.

Lemma server_reply_spec d : server_reply d = Some (Some <$> cut d).
Proof. apply (answer_spec (server_world d)), server_buffers_ready. Qed.

#[local] Opaque server_reply.

(** The system of a client whose packets reach the server: what it sends
    (bytes never written are sent as 0), the server answers; the answer is cut
    to the length asked for. *)
Definition via_echo : Kernel :=
  {| kst := option (list mbyte);
     kstep c answer :=
       match c with
       | CSendto _ data _ _ _ => (reply_of (Z.of_nat (length data)), server_reply (default 0 <$> data))
       | CRecvfrom _ cap _ _ =>
           match answer with
           | Some d =>
               let got := default 0 <$> take (Z.to_nat cap) d in
               (Reply (Z.of_nat (length got)) 0 (Timespec 0 0) [RMsg got [] []], None)
           | None => (reply_of (-1), None)
           end
       | _ => (reply_of 0, answer)
       end |}.

(** ** The properties *)

(** C32: the exchange of [udp_client_echo], for every size, every system and a
    destination of family AF_INET or AF_INET6: it
    sends the first [size mod 65536] bytes of its buffer to the destination, asks
    for as many bytes as were sent, and terminates without undefined behaviour;
    it returns exactly when as many bytes came back as were sent, exits with 1
    when the lengths differ, and with 5 when a call fails.  The contents are not
    compared. *)
Theorem client_echo_verdict (K : Kernel) (fd : Z) (dest : list Z) (bs br size : Z) (ls lr : list mbyte)
  (w : world statics) :
  known_family dest -> w_mem w !! bs = Some ls -> w_mem w !! br = Some lr ->
  Z.of_nat (length ls) = sizeof_buf -> Z.of_nat (length lr) = sizeof_buf ->
  wp (exchange fd dest (Ptr bs 0) (Ptr br 0) size) (fun _ => accepted fd dest size w ls)
    (rejected fd dest size w ls) w.
Proof. intros. by apply (exchange_spec fd dest bs br size w ls lr). Qed.

(** C31: the client against the server: a packet that goes through a round of
    [udp_echo] comes back, and the client accepts, exactly when its size (as 16
    bits) is at most 8192, the frame of the server; a longer packet comes back
    cut, and the client exits with 1. *)
Theorem client_echo_roundtrip (fd : Z) (dest : list Z) (bs br size : Z) (ls lr : list mbyte)
  (w : @world via_echo statics) :
  known_family dest -> w_mem w !! bs = Some ls -> w_mem w !! br = Some lr ->
  Z.of_nat (length ls) = sizeof_buf -> Z.of_nat (length lr) = sizeof_buf ->
  wp (exchange fd dest (Ptr bs 0) (Ptr br 0) size) (fun _ _ => u16 size <= sizeof_frame)
    (fun code _ => code = 1 /\ sizeof_frame < u16 size) w.
Proof.
  intros Hd Hs Hr Hls Hlr. apply (exchange_steps fd dest bs br size w ls lr); try done.
  pose proof (sent_length size ls lr Hls) as Hsent. pose proof (u16_range size) as Hsz.
  intros s k c E. cbn [kstep via_echo c] in E. rewrite server_reply_spec in E. injection E as <- <-. cbn [r_ret reply_of]. split; [lia|]. intros _ r k2. rewrite Hsent, u16_id by lia.
  cbn [kstep via_echo]. intros [= <- _] w' _. cbn [r_ret].
  rewrite length_fmap, length_take, length_fmap.
  pose proof (length_cut (default 0 <$> sent_bytes size ls)) as Hcut. rewrite length_fmap in Hcut.
  unfold sizeof_frame in *. split_and!; lia.
Qed.

(** C33: the whole program [udp_client_echo]: for every command line whose
    options have their arguments, every destination and every system, [main]
    terminates without undefined behaviour: it returns 0, and then there was a
    destination, or exits with one of the documented codes. *)
Theorem udp_client_echo_main_safe (K : Kernel) (evs : list optev) (dest_ip : option string) (w : world statics) :
  Forall sane_client_echo_option evs ->
  wp (main evs dest_ip) (fun code _ => code = 0 /\ is_Some dest_ip)
    (fun code _ => In code client_echo_codes) w.
Proof. apply client_main_spec. Qed.

(** *** Witnesses *)
Definition example_buffers : gmap Z (list mbyte) :=
  {[1 := replicate (Z.to_nat sizeof_buf) None; 2 := replicate (Z.to_nat sizeof_buf) None]}.

Lemma example_buffer_2 : example_buffers !! 2 = Some (replicate (Z.to_nat sizeof_buf) None).
Proof. unfold example_buffers. by rewrite lookup_insert_ne, lookup_singleton_eq. Qed.

Lemma example_buffer_length : Z.of_nat (length (replicate (Z.to_nat sizeof_buf) (None : mbyte))) = sizeof_buf.
Proof. rewrite length_replicate. apply Z2Nat.id. discriminate. Qed.

Lemma client_echo_verdict_witness :
  let w := @World scripted statics [reply_of 3000; reply_of 2999] example_buffers 3 [] [] 0 initial_statics in
  let ls := replicate (Z.to_nat sizeof_buf) None in
  wp (exchange 3 example_dest (Ptr 1 0) (Ptr 2 0) 3000) (fun _ => accepted 3 example_dest 3000 w ls)
    (rejected 3 example_dest 3000 w ls) w.
Proof.
  intros w ls. apply (client_echo_verdict scripted 3 example_dest 1 2 3000 ls ls w).
  - left. reflexivity.
  - apply lookup_insert_eq.
  - apply example_buffer_2.
  - apply example_buffer_length.
  - apply example_buffer_length.
Defined.

Lemma client_echo_roundtrip_witness :
  let w := @World via_echo statics None example_buffers 3 [] [] 0 initial_statics in
  wp (exchange 3 example_dest (Ptr 1 0) (Ptr 2 0) 3000) (fun _ _ => u16 3000 <= sizeof_frame)
    (fun code _ => code = 1 /\ sizeof_frame < u16 3000) w.
Proof.
  intros w. apply (client_echo_roundtrip 3 example_dest 1 2 3000
    (replicate (Z.to_nat sizeof_buf) None) (replicate (Z.to_nat sizeof_buf) None) w).
  - left. reflexivity.
  - apply lookup_insert_eq.
  - apply example_buffer_2.
  - apply example_buffer_length.
  - apply example_buffer_length.
Defined.

Lemma udp_client_echo_main_safe_witness :
  wp (main [Optev (ch "s") 0 (Some "9000"); Optev (ch "6") 0 None] (Some "::1"))
    (fun code _ => code = 0 /\ is_Some (Some "::1")) (fun code _ => In code client_echo_codes)
    (start [] initial_statics).
Proof.
  apply (udp_client_echo_main_safe scripted [Optev (ch "s") 0 (Some "9000"); Optev (ch "6") 0 None] (Some "::1")
    (start [] initial_statics)).
  constructor; [|constructor; [|constructor]].
  - intros _. by eexists.
  - intros [H|[H|[H|[]]]]; discriminate H.
Defined.
