(* ===== verification/NicDriver.v ===== *)
(** * get_nic_driver.c: the driver of a network interface

    The name of the interface is in a buffer of [main], [ifname_buf], a block
    of 16 bytes: reading it as a string finds its terminating NUL there, or runs
    beyond the buffer. *)
From stdpp Require Import base list gmap strings.
From Stdlib Require Import ZArith Lia Ascii.
From S2P Require Import Prelude.
From S2P Require Import CLang.
From S2P Require Import Wp.
From S2P Require Import Libc.
From S2P Require Import Getopt.
From S2P Require Import Common.

#[local] Open Scope Z_scope.
#[local] Open Scope c_scope.

Definition EXIT_FAIL : Z := 1.
Definition SIOCETHTOOL : Z := 0x8946.
Definition ETHTOOL_GDRVINFO : Z := 3.
Definition IF_NAMESIZE : Z := 16.

(** [struct ioctl_context]: the socket, and the name in the [ifreq]. *)
Record ioctl_context := IoctlContext { fd : Z; ifr_name : list Z }.

(** [struct ethtool_drvinfo], as far as the program reads it. *)
Record ethtool_drvinfo := Drvinfo { cmd : Z; driver : list Z }.

Definition zero_drvinfo : ethtool_drvinfo := Drvinfo 0 (replicate 32 0).

Definition long_options : list option_ :=
  [Option_ "help" no_argument (ch "h"); Option_ "dev" required_argument (ch "d")].

Definition doc : string := "Extract NIC driver name (example in C-code)\n".

(** Reading a C string: the bytes up to the NUL, which has to be there. *)
Fixpoint scan_string (l : list mbyte) : ub + list Z :=
  match l with
  | [] => inl OutOfBounds
  | None :: _ => inl Indeterminate
  | Some c :: l' =>
      if c =? 0 then inr []
      else match scan_string l' with
           | inl u => inl u
           | inr cs => inr (c :: cs)
           end
  end.

Section NicDriver.
Context {K : Kernel}.
(** The program has no static variables. *)
#[local] Abbreviation M := (M unit).

Definition usage (argv0 : string) : M unit :=
  printf "\nDOCUMENTATION:\n%s\n" [AStr doc] ;;
  printf " Usage: %s (options-see-below)\n" [AStr argv0] ;;
  printf " Listing options:\n" [] ;;
  forM long_options (fun o =>
    printf " --%-12s" [AStr (opt_name o)] ;;
    printf " short-option: -%c" [AInt (opt_val o)] ;;
    printf "\n" []) ;;
  printf "\n" [].

Definition load_string (p : ptr) : M (list Z) :=
  fun w =>
    match w_mem w !! p_block p with
    | None => Undef OutOfBounds w
    | Some l =>
        if p_off p <? 0 then Undef OutOfBounds w
        else match scan_string (drop (Z.to_nat (p_off p)) l) with
             | inl u => Undef u w
             | inr cs => Ret cs w
             end
    end.

(** The context when it is set up, or the error.  [ifr_name] is filled by
    [strncpy] of the name into 16 zero bytes. *)
Definition ioctl_init (devname : ptr) : M (ioctl_context + Z) :=
  cs <- load_string devname ;;
  if IFNAMSIZ <=? Z.of_nat (length cs) then
    eprintf "Device name longer than %u characters\n" [AInt (IFNAMSIZ - 1)] ;;
    ret (inr 1)
  else
    let name := resize (Z.to_nat IFNAMSIZ) 0 cs in
    s <- ask (CSocket AF_INET SOCK_DGRAM 0) ;;
    if r_ret s <? 0 then perror "Cannot get control socket" ;; ret (inr 70)
    else ret (inl (IoctlContext (r_ret s) name)).

(** The request is at the start of the structure that [ifr_data] points to,
    which the system fills when it succeeds. *)
Definition ioctl_send (ctx : ioctl_context) (drvinfo : ethtool_drvinfo) : M (Z * ethtool_drvinfo) :=
  r <- ask (CIoctl (fd ctx) SIOCETHTOOL (ifr_name ctx) (cmd drvinfo)) ;;
  ret (r_ret r, if r_ret r <? 0 then drvinfo else Drvinfo (cmd drvinfo) (resize 32 0 (m_data (r_msg r)))).

Definition get_driver_info (devname : ptr) (drvinfo : ethtool_drvinfo) : M (Z * ethtool_drvinfo) :=
  ctx <- ioctl_init devname ;;
  match ctx with
  | inr err => perror "Cannot init ioctl fd\n" ;; ret (err, drvinfo)
  | inl ctx =>
      out <- ioctl_send ctx (Drvinfo ETHTOOL_GDRVINFO (driver drvinfo)) ;;
      let '(err, drvinfo) := out in
      if err <? 0 then perror "Cannot get driver information" ;; ret (71, drvinfo)
      else ask (CClose (fd ctx)) ;; ret (0, drvinfo)
  end.

(** The local variables of [main] that the options set: the pointer [ifname],
    uninitialised at first, and the index. *)
Record main_opts := MainOpts { ifname : option ptr; ifindex : Z }.

Definition default_opts : main_opts := MainOpts None (-1).

(** [error: default: usage(argv); return EXIT_FAIL_OPTION;] *)
Definition option_error (argv0 : string) : M (main_opts + Z) :=
  usage argv0 ;; ret (inr EXIT_FAIL_OPTION).

Definition main_option (argv0 : string) (ifname_buf : ptr) (o : main_opts) (e : optev) : M (main_opts + Z) :=
  if o_c e =? ch "d" then
    match o_arg e with
    | None => undefined NullDeref
    | Some optarg =>
        if IF_NAMESIZE <=? strlen optarg then
          eprintf "ERR: --dev name too long\n" [] ;;
          option_error argv0
        else
          store ifname_buf (strncpy_bytes optarg (Z.to_nat IF_NAMESIZE)) ;;
          name <- load_string ifname_buf ;;
          r <- ask (CIfNametoindex name) ;;
          let ifindex := i32 (r_ret r) in
          if ifindex =? 0 then
            eprintf "ERR: --dev name unknown err(%d):%s\n" [AInt (r_errno r)] ;;
            option_error argv0
          else ret (inl (MainOpts (Some ifname_buf) ifindex))
    end
  else option_error argv0.

Definition main (argv0 : string) (evs : list optev) : M Z :=
  ifname_buf <- new_block IF_NAMESIZE ;;
  r <- getopt_loop (main_option argv0 ifname_buf) default_opts evs ;;
  match r with
  | inr code => ret code
  | inl o =>
      if ifindex o =? -1 then
        eprintf "ERR: required option --dev missing\n" [] ;;
        usage argv0 ;;
        ret EXIT_FAIL_OPTION
      else
        match ifname o with
        | None => undefined Indeterminate
        | Some ifname =>
            out <- get_driver_info ifname zero_drvinfo ;;
            name <- load_string ifname_buf ;;
            printf "net_device: %s (ifindex: %d) use driver: %s\n"
              [AStr (string_of_bytes name); AInt (ifindex o); AStr (string_of_bytes (c_string (driver out.2)))] ;;
            ret EXIT_OK
        end
  end.
End NicDriver.
