(* ===== verification/NicDriverProps.v ===== *)
(** * get_nic_driver: the properties *)
From stdpp Require Import base list gmap strings.
From Stdlib Require Import ZArith Lia Ascii.
From S2P Require Import Prelude.
From S2P Require Import CLang.
From S2P Require Import Wp.
From S2P Require Import Libc.
From S2P Require Import Getopt.
From S2P Require Import Common.
From S2P Require Import CommonSocket.
From S2P Require Import Scripted.
From S2P Require Import NicDriver.

#[local] Open Scope Z_scope.
#[local] Open Scope c_scope.

(** ** Strings in a buffer *)

(** An argument of a program is a C string: no NUL in it. *)
Definition c_arg (s : string) : Prop := Forall (fun c => c <> 0) (bytes_of_string s).

Lemma length_bytes_of_string s : length (bytes_of_string s) = String.length s.
Proof. induction s as [|a s IH]; [done|]. cbn. by rewrite IH. Qed.

Lemma scan_terminated cs l : Forall (fun c => c <> 0) cs -> scan_string ((Some <$> cs) ++ Some 0 :: l) = inr cs.
Proof.
  induction 1 as [|c cs Hc _ IH]; [done|]. cbn [fmap list_fmap app scan_string].
  rewrite (proj2 (Z.eqb_neq _ _)) by done. by rewrite IH.
Qed.

(** What [strncpy] leaves in a buffer that the string does not fill. *)
Lemma scan_strncpy s n :
  c_arg s -> (String.length s < n)%nat -> scan_string (Some <$> strncpy_bytes s n) = inr (bytes_of_string s).
Proof.
  intros Hs Hn. unfold strncpy_bytes. rewrite <- length_bytes_of_string in Hn.
  rewrite resize_ge by lia. destruct (n - length (bytes_of_string s))%nat as [|k] eqn:E; [lia|].
  cbn [replicate]. rewrite fmap_app. cbn [fmap list_fmap]. by apply scan_terminated.
Qed.

Section Driver.
Context {K : Kernel}.
#[local] Abbreviation W := (world unit).

(** The buffer [b] holds the string [name]. *)
Definition named (b : Z) (name : list Z) (w : W) : Prop :=
  exists l, w_mem w !! b = Some l /\ scan_string l = inr name.

Lemma load_string_spec F b name (w : W) (Q : list Z -> W -> Prop) X :
  named b name w -> Q name w -> wpg F (load_string (Ptr b 0)) Q X w.
Proof.
  intros (l & Hl & Hn) HQ. unfold wpg, load_string. cbn [p_block p_off]. rewrite Hl.
  change (0 <? 0) with false. cbv iota. rewrite drop_0, Hn. exact HQ.
Qed.

(** The calls of [get_driver_info], its result and the driver it leaves, in
    the order in which things can go wrong. *)
Inductive driver_info (name : list Z) (d : ethtool_drvinfo) :
  list (call * reply) -> Z -> ethtool_drvinfo -> Prop :=
| name_too_long : IFNAMSIZ <= Z.of_nat (length name) -> driver_info name d [] 1 d
| no_socket s : Z.of_nat (length name) < IFNAMSIZ -> r_ret s < 0 ->
    driver_info name d [(CSocket AF_INET SOCK_DGRAM 0, s)] 70 d
| ioctl_failed s i : Z.of_nat (length name) < IFNAMSIZ -> 0 <= r_ret s -> r_ret i < 0 ->
    driver_info name d
      [(CIoctl (r_ret s) SIOCETHTOOL (resize 16 0 name) ETHTOOL_GDRVINFO, i);
       (CSocket AF_INET SOCK_DGRAM 0, s)] 71 (Drvinfo ETHTOOL_GDRVINFO (driver d))
| driver_found s i c : Z.of_nat (length name) < IFNAMSIZ -> 0 <= r_ret s -> 0 <= r_ret i ->
    driver_info name d
      [(CClose (r_ret s), c);
       (CIoctl (r_ret s) SIOCETHTOOL (resize 16 0 name) ETHTOOL_GDRVINFO, i);
       (CSocket AF_INET SOCK_DGRAM 0, s)] 0
      (Drvinfo ETHTOOL_GDRVINFO (resize 32 0 (m_data (r_msg i)))).

Lemma get_driver_info_spec F b name d (w : W) X :
  named b name w ->
  wpg F (get_driver_info (Ptr b 0) d)
    (fun out w' => w_mem w' = w_mem w /\ exists log, w_log w' = log ++ w_log w /\ driver_info name d log out.1 out.2) X w.
Proof.
  intros Hn. unfold get_driver_info, ioctl_init, ioctl_send. change (Z.to_nat IFNAMSIZ) with 16%nat.
  do 2 wp_step. eapply load_string_spec; [exact Hn|].
  destruct (Z.leb_spec IFNAMSIZ (Z.of_nat (length name))).
  { wp_steps. split; [done|]. exists []. split; [done|by constructor]. }
  cbv zeta. wp_step. wp_ask s k E. destruct (Z.ltb_spec (r_ret s) 0).
  { wp_steps. split; [done|]. exists [(CSocket AF_INET SOCK_DGRAM 0, s)]. split; [done|by constructor]. }
  wp_steps. wp_ask i k2 E2. wp_step. cbv beta iota zeta. destruct (Z.ltb_spec (r_ret i) 0); cbv beta iota.
  { wp_steps. split; [done|]. eexists [_; _]. split; [done|by constructor]. }
  wp_steps. wp_ask c k3 E3. wp_steps. split; [done|]. eexists [_; _; _]. split; [done|by constructor].
Qed.

(** ** The options

    [scanned evs log cur]: the options [evs] were taken, with the calls [log]
    (newest first), and leave the interface [cur]: name and index. *)
Inductive scanned : list optev -> list (call * reply) -> option (string * Z) -> Prop :=
| scanned_none : scanned [] [] None
| scanned_dev evs log cur e s r :
    scanned evs log cur -> o_c e = ch "d" -> o_arg e = Some s -> strlen s < IFNAMSIZ -> i32 (r_ret r) <> 0 ->
    scanned (evs ++ [e]) ((CIfNametoindex (bytes_of_string s), r) :: log) (Some (s, i32 (r_ret r))).

(** An option that ends the program: not [--dev], a name that is too long, or
    no interface of that name. *)
Definition refused (e : optev) (log : list (call * reply)) : Prop :=
  (o_c e <> ch "d" /\ log = []) \/
  (exists s, o_c e = ch "d" /\ o_arg e = Some s /\ IFNAMSIZ <= strlen s /\ log = []) \/
  (exists s r, o_c e = ch "d" /\ o_arg e = Some s /\ strlen s < IFNAMSIZ /\ i32 (r_ret r) = 0 /\
     log = [(CIfNametoindex (bytes_of_string s), r)]).

Definition rejected (evs : list optev) (log : list (call * reply)) : Prop :=
  exists ok e rest cur l1 l2, evs = ok ++ e :: rest /\ scanned ok l1 cur /\ refused e l2 /\ log = l2 ++ l1.

Lemma usage_spec F argv0 (w : W) (Q : unit -> W -> Prop) X :
  (forall w', w_log w' = w_log w -> Q tt w') -> wpg F (usage argv0) Q X w.
Proof. intros HQ. unfold usage, long_options. cbn [forM]. wp_steps. by apply HQ. Qed.

Lemma option_error_spec F argv0 (w : W) (Q : main_opts + Z -> W -> Prop) X :
  (forall w', w_log w' = w_log w -> Q (inr EXIT_FAIL_OPTION) w') -> wpg F (option_error argv0) Q X w.
Proof. intros HQ. unfold option_error. wp_step. apply usage_spec. intros w' Hw. wp_step. by apply HQ. Qed.

(** An answer of [getopt_long]: [--dev] has its argument. *)
Definition sane_dev_option (e : optev) : Prop := o_c e = ch "d" -> exists s, o_arg e = Some s /\ c_arg s.

(** The local variables for the interface [cur], with the buffer [b]. *)
Definition vars_of (b : Z) (cur : option (string * Z)) : main_opts :=
  match cur with
  | None => default_opts
  | Some (_, i) => MainOpts (Some (Ptr b 0)) i
  end.

Definition buffered (b : Z) (cur : option (string * Z)) (w : W) : Prop :=
  (exists l, w_mem w !! b = Some l /\ length l = 16%nat) /\
  match cur with
  | None => True
  | Some (s, _) => named b (bytes_of_string s) w /\ strlen s < IFNAMSIZ
  end.

(** The options so far, in the world [w]. *)
Definition options_at (b : Z) (w0 : W) (evs : list optev) (cur : option (string * Z)) (w : W) : Prop :=
  buffered b cur w /\ exists log, w_log w = log ++ w_log w0 /\ scanned evs log cur.

Lemma main_option_spec F argv0 b w0 evs cur e (w : W) X :
  options_at b w0 evs cur w -> sane_dev_option e ->
  wpg F (main_option argv0 (Ptr b 0) (vars_of b cur) e)
    (fun r w' => match r with
                 | inl o => exists cur', o = vars_of b cur' /\ options_at b w0 (evs ++ [e]) cur' w'
                 | inr code => code = EXIT_FAIL_OPTION /\ exists l1 l2,
                     w_log w' = l2 ++ l1 ++ w_log w0 /\ scanned evs l1 cur /\ refused e l2
                 end) X w.
Proof.
  intros ([(l & Hl & Hlen) _] & log & Hlog & Hsc) He. unfold main_option.
  destruct (Z.eqb_spec (o_c e) (ch "d")) as [E|E].
  2: { apply option_error_spec. intros w' Hw. split; [done|]. exists log, []. split; [by rewrite Hw|]. split; [done|by left]. }
  destruct (He E) as (s & Hs & Hc). rewrite Hs. change IF_NAMESIZE with IFNAMSIZ.
  destruct (Z.leb_spec IFNAMSIZ (strlen s)) as [Hle|Hlt].
  { do 2 wp_step. apply option_error_spec. intros w' Hw. split; [done|]. exists log, [].
    split; [by rewrite Hw|]. split; [done|]. right. left. by exists s. }
  change (Z.to_nat IFNAMSIZ) with 16%nat. unfold strlen, IFNAMSIZ in Hlt.
  assert (Hn16 : length (strncpy_bytes s 16) = 16%nat) by apply length_resize.
  wp_step. eapply store_spec; [exact Hl|done|rewrite Hn16, Hlen; change (Z.to_nat 0) with 0%nat; lia|].
  rewrite put_bytes_all by (rewrite length_fmap; congruence). set (w1 := w_set_mem _ w).
  assert (Hn1 : named b (bytes_of_string s) w1).
  { eexists. split; [apply lookup_insert_eq|]. apply scan_strncpy; [done|lia]. }
  wp_step. eapply load_string_spec; [exact Hn1|]. wp_step. wp_ask r k E2. cbv zeta.
  destruct (Z.eqb_spec (i32 (r_ret r)) 0) as [H0|H0].
  - do 2 wp_step. apply option_error_spec. intros w' Hw. split; [done|].
    exists log, [(CIfNametoindex (bytes_of_string s), r)]. split; [rewrite Hw; cbn; by rewrite Hlog|].
    split; [done|]. right. right. exists s, r. by split_and!.
  - wp_step. exists (Some (s, i32 (r_ret r))). split; [done|]. split; [split; [|split; [exact Hn1|done]]|].
    + eexists. split; [apply lookup_insert_eq|]. by rewrite length_fmap.
    + eexists (_ :: log). split; [cbn; by rewrite Hlog|]. by apply (scanned_dev _ _ cur).
Qed.

Lemma getopt_spec F argv0 b w0 evs (w : W) X :
  options_at b w0 [] None w -> Forall sane_dev_option evs ->
  wpg F (getopt_loop (main_option argv0 (Ptr b 0)) default_opts evs)
    (fun r w' => match r with
                 | inl o => exists cur, o = vars_of b cur /\ options_at b w0 evs cur w'
                 | inr code => code = EXIT_FAIL_OPTION /\ exists log, w_log w' = log ++ w_log w0 /\ rejected evs log
                 end) X w.
Proof.
  intros Hw Hevs. change default_opts with (vars_of b None).
  cut (forall ok cur w', options_at b w0 ok cur w' -> wpg F (getopt_loop (main_option argv0 (Ptr b 0)) (vars_of b cur) evs)
    (fun r w' => match r with
                 | inl o => exists cur, o = vars_of b cur /\ options_at b w0 (ok ++ evs) cur w'
                 | inr code => code = EXIT_FAIL_OPTION /\ exists log, w_log w' = log ++ w_log w0 /\ rejected (ok ++ evs) log
                 end) X w').
  { intros H. by apply (H []). }
  clear Hw. induction Hevs as [|e evs He _ IH]; intros ok cur w' Hat; cbn [getopt_loop].
  - wp_step. exists cur. by rewrite app_nil_r.
  - wp_step. eapply wp_post; [by apply main_option_spec|]. intros [o|code] w2.
    + intros (cur' & -> & Hat'). change (ok ++ e :: evs) with (ok ++ [e] ++ evs). rewrite app_assoc. by apply IH.
    + intros [-> (l1 & l2 & Hlog & Hsc & Href)]. wp_step. split; [done|]. exists (l2 ++ l1).
      split; [by rewrite Hlog, app_assoc|]. by exists ok, e, evs, cur, l1, l2.
Qed.

(** ** The whole program *)

(** The line that is printed at the end. *)
Definition driver_line (name : string) (ifindex : Z) (d : ethtool_drvinfo) : out :=
  Out false "net_device: %s (ifindex: %d) use driver: %s\n"
    [AStr name; AInt ifindex; AStr (string_of_bytes (c_string (driver d)))].

(** The options were refused, or named no interface (an index of -1 counts as
    none). *)
Definition options_failed (evs : list optev) (w w' : W) : Prop :=
  exists log, w_log w' = log ++ w_log w /\
    (rejected evs log \/ scanned evs log None \/ exists name, scanned evs log (Some (name, -1))).

(** A run that got as far as asking for the driver. *)
Definition asked_driver (evs : list optev) (w w' : W) : Prop :=
  exists name ifindex log info err d, scanned evs log (Some (name, ifindex)) /\ ifindex <> -1 /\
    w_log w' = info ++ log ++ w_log w /\ driver_info (bytes_of_string name) zero_drvinfo info err d /\
    last (w_out w') = Some (driver_line name ifindex d) /\
    (err <> 0 -> string_of_bytes (c_string (driver d)) = ""%string).

Lemma string_of_bytes_of_string s : string_of_bytes (bytes_of_string s) = s.
Proof.
  induction s as [|a s IH]; [done|]. cbn. rewrite IH, Nat2Z.id. by rewrite ascii_nat_embedding.
Qed.

Lemma main_spec F argv0 evs (w : W) X :
  Forall sane_dev_option evs ->
  wpg F (main argv0 evs)
    (fun code w' => (code = EXIT_FAIL_OPTION /\ options_failed evs w w') \/ (code = EXIT_OK /\ asked_driver evs w w')) X w.
Proof.
  intros Hevs. unfold main. do 2 wp_step. set (w1 := w_alloc _ w).
  assert (Hat : options_at (w_next w) w [] None w1).
  { split; [split; [|done]|].
    - eexists. split; [apply lookup_insert_eq|]. by rewrite length_replicate.
    - exists []. split; [done|constructor]. }
  wp_step. eapply wp_post; [by apply (getopt_spec F argv0 _ _ evs _ X Hat)|].
  intros [o|code] w2; [|intros [-> (log & Hlog & Hrej)]; wp_step; left; split; [done|by exists log; auto]].
  intros (cur & -> & [Hbuf (log & Hlog & Hsc)]).
  assert (Hmiss : ifindex (vars_of (w_next w) cur) = -1 -> options_failed evs w w2).
  { intros H. exists log. split; [done|]. right. destruct cur as [[name i]|]; [right|by left].
    cbn in H. subst i. by exists name. }
  destruct (Z.eqb_spec (ifindex (vars_of (w_next w) cur)) (-1)) as [Ei|Ei].
  { do 3 wp_step. apply usage_spec. intros w' Hw'. wp_step. left. split; [done|].
    destruct (Hmiss Ei) as (log' & Hl & H). exists log'. by rewrite Hw'. }
  destruct cur as [[name i]|]; [|done]. cbn [vars_of ifname ifindex] in *. destruct Hbuf as [_ [Hn Hlen]].
  wp_step. eapply wp_post; [by apply get_driver_info_spec|]. intros [err d] w3 (Hm3 & info & Hlog3 & Hd).
  cbn [fst snd] in *. wp_step. eapply load_string_spec; [by unfold named; rewrite Hm3|].
  do 3 wp_step. right. split; [done|]. exists name, i, log, info, err, d.
  split_and!; [done|done|cbn; by rewrite Hlog3, Hlog|done| |].
  - cbn. by rewrite last_snoc, string_of_bytes_of_string.
  - intros Hne. by destruct Hd.
Qed.
End Driver.

(** ** The properties *)

(** [get_driver_info], on every branch: a name of 16 characters or more is
    refused before anything is called (1); without a socket it answers 70; when
    the ioctl fails 71, and the driver is left as it was; otherwise 0, with the 32
    bytes the system gave as the driver.  The socket is closed in the last case
    only. *)
Theorem get_driver_info_branches (K : Kernel) (b : Z) (name : list Z) (d : ethtool_drvinfo) (w : world unit) :
  named b name w ->
  wp (get_driver_info (Ptr b 0) d)
    (fun out w' => w_mem w' = w_mem w /\ exists log, w_log w' = log ++ w_log w /\ driver_info name d log out.1 out.2)
    (fun _ _ => False) w.
Proof. apply get_driver_info_spec. Qed.

Lemma get_driver_info_branches_witness :
  let w := @World scripted unit [reply_of (-1)] {[5 := Some <$> [101; 116; 104; 48; 0]]} 6 [] [] 0 tt in
  wp (get_driver_info (Ptr 5 0) zero_drvinfo)
    (fun out w' => w_mem w' = w_mem w /\ exists log, w_log w' = log ++ [] /\
       driver_info [101; 116; 104; 48] zero_drvinfo log out.1 out.2)
    (fun _ _ => False) w.
Proof.
  intros w. apply (get_driver_info_branches scripted 5 [101; 116; 104; 48] zero_drvinfo w).
  eexists. split; reflexivity.
Defined.

(** C36: the whole program [get_nic_driver]: for every command line whose
    [--dev] has its argument (a C string) and for every system, [main]
    terminates without undefined behaviour: the name, copied into the 16 bytes
    of [ifname_buf], is always terminated there when it is read.  It returns
    EXIT_FAIL_OPTION exactly when an option is not [--dev], a name has 16
    characters or more, there is no interface of that name, or no interface was
    named (or its index is -1); before that, each name was looked up in turn,
    and nothing else was called.  Otherwise it asks for the driver of the last
    name, prints name, index and driver, and returns EXIT_OK - also when
    [get_driver_info] failed, with an empty driver name. *)
Theorem nic_driver_main (K : Kernel) (argv0 : string) (evs : list optev) (w : world unit) :
  Forall sane_dev_option evs ->
  wp (main argv0 evs)
    (fun code w' => (code = EXIT_FAIL_OPTION /\ options_failed evs w w') \/ (code = EXIT_OK /\ asked_driver evs w w'))
    (fun _ _ => False) w.
Proof. apply main_spec. Qed.

Lemma nic_driver_main_witness :
  let w := start [reply_of 2; reply_of 3; reply_of (-1)] tt in
  wp (main "get_nic_driver" [Optev (ch "d") 1 (Some "eth0")])
    (fun code w' => (code = EXIT_FAIL_OPTION /\ options_failed [Optev (ch "d") 1 (Some "eth0")] w w') \/
       (code = EXIT_OK /\ asked_driver [Optev (ch "d") 1 (Some "eth0")] w w')) (fun _ _ => False) w.
Proof.
  intros w. apply (nic_driver_main scripted "get_nic_driver" [Optev (ch "d") 1 (Some "eth0")] w).
  constructor; [|constructor]. intros _. exists "eth0". split; [reflexivity|].
  repeat constructor; discriminate.
Defined.

(** The error that [main] ignores: the ioctl fails, the socket stays open, and
    the program succeeds. *)
Example nic_driver_ignores_error :
  match main "get_nic_driver" [Optev (ch "d") 1 (Some "eth0")] (start [reply_of 2; reply_of 3; reply_of (-1)] tt) with
  | Ret code w' => code = EXIT_OK /\ last (w_out w') = Some (driver_line "eth0" 2 zero_drvinfo) /\
                   head (w_log w') = Some (CIoctl 3 SIOCETHTOOL (strncpy_bytes "eth0" 16) ETHTOOL_GDRVINFO, reply_of (-1))
  | _ => False
  end.
Proof. vm_compute. split_and!; reflexivity. Qed.
