(* ===== verification/MicroBench.v ===== *)
(** * The micro benchmarks

    overhead_cmpxchg.c with asm_x86.h, syscall_overhead.c, compiler_test01.c
    and burn_cpu.c: one Module per program.  They have no static variables. *)
From stdpp Require Import base list gmap strings.
From Stdlib Require Import ZArith Lia Ascii.
From S2P Require Import Prelude.
From S2P Require Import CLang.
From S2P Require Import Wp.
From S2P Require Import Libc.
From S2P Require Import Getopt.
From S2P Require Import Common.

#[local] Open Scope Z_scope.
#[local] Open Scope c_scope.

Module Cmpxchg.
Definition LOOPS : Z := 100000000 * 10.

(** ** asm_x86.h

    The instructions on 32-bit words: the register result, and the new value
    of the memory operand.  [cmpxchgl] compares EAX, which holds [old], with the
    memory. *)
Definition cmpxchgl (dst old new : Z) : Z * Z := if dst =? old then (old, new) else (dst, dst).
Definition xchgl (dst val : Z) : Z * Z := (dst, val).

Definition locked_cmpxchg (dst old new : Z) : Z * Z := cmpxchgl dst old new.
Definition unlocked_cmpxchg (dst old new : Z) : Z * Z := cmpxchgl dst old new.
Definition implicit_locked_xchg (dst val : Z) : Z * Z := xchgl dst (u32 val).

Section Cmpxchg.
Context {K : Kernel}.
#[local] Abbreviation M := (M unit).

(** The local variables [data] and [res]; [res] is [None] until it is
    written. *)
Record vars := Vars { data : Z; res : option Z }.

(** A loop over an instruction on [data], whose value at first is whatever
    the variable holds; [data = res;] at the end reads [res]. *)
Definition loop_on (op : Z -> Z * Z) (data0 loops : Z) : M (Z * markers) :=
  out <- timed_loop loops
           (fun _ v => let '(r, d) := op (data v) in ret (Vars d (Some r))) (Vars data0 None) ;;
  match res out.1.2 with
  | None => undefined Indeterminate
  | Some _ => ret (out.1.1, out.2)
  end.

Definition loop_cmpxchg (data0 loops : Z) : M (Z * markers) :=
  loop_on (fun data => unlocked_cmpxchg data 0 0) data0 loops.
Definition loop_cmpxchg_locked (data0 loops : Z) : M (Z * markers) :=
  loop_on (fun data => locked_cmpxchg data 0 0) data0 loops.
Definition loop_xchg (data0 loops : Z) : M (Z * markers) :=
  loop_on (fun data => implicit_locked_xchg data 0) data0 loops.

(** [main]; [d1], [d2] and [d3] are what the three variables [data] hold. *)
Definition main (d1 d2 d3 : Z) : M Z :=
  printf "Measuring unlocked cmpxchg:\n" [] ;;
  time_func LOOPS (loop_cmpxchg d1) ;;
  printf "Measuring locked cmpxchg:\n" [] ;;
  time_func LOOPS (loop_cmpxchg_locked d2) ;;
  printf "Measuring implicit locked xchg:\n" [] ;;
  time_func LOOPS (loop_xchg d3) ;;
  ret 0.
End Cmpxchg.
End Cmpxchg.

Module Syscall.
Definition LOOPS : Z := 100000000.

Section Syscall.
Context {K : Kernel}.
#[local] Abbreviation M := (M unit).

Definition loop_syscall_getuid (loops : Z) : M (Z * markers) :=
  out <- timed_loop loops (fun _ _ => ask CGetuid ;; ret tt) tt ;;
  ret (out.1.1, out.2).

Definition main : M Z :=
  printf "Measuring syscall getuid:\n" [] ;;
  time_func LOOPS loop_syscall_getuid ;;
  ret 0.
End Syscall.
End Syscall.

Module CompilerTest.
Section CompilerTest.
Context {K : Kernel}.
#[local] Abbreviation M := (M unit).

(** [void *object = p[i];]: the element must be in the array; its value is
    not used. *)
Definition read_object (p : ptr) (i : Z) : M (list mbyte) := peek (ptr_add p (sizeof_ptr * i)) sizeof_ptr.

Definition empty_func (object : list mbyte) : M unit := ret tt.

(** [for (i = 0; i < n; i++)] where [test i] is the comparison in the type
    the two operands have, and [next] the increment. *)
Definition object_round (p : ptr) (test : Z -> bool) (next : Z -> M Z) (i : Z) : M (Z + unit) :=
  if test i then
    object <- read_object p i ;;
    empty_func object ;;
    i' <- next i ;;
    ret (inl i')
  else ret (inr tt).

Definition object_loop (rounds : nat) (test : Z -> bool) (next : Z -> M Z) (p : ptr) : M unit :=
  iter (Datatypes.S rounds) (object_round p test next) 0.

Definition empty_for_loop01 (n : Z) (p : ptr) : M unit := ret tt.

(** [int i, n]. *)
Definition empty_for_loop02 (n : Z) (p : ptr) : M unit :=
  object_loop (Z.to_nat n) (fun i => i <? n) (fun i => int_check (i + 1)) p.

(** [int i] is converted to the 64-bit type of [n]. *)
Definition empty_for_loop03 (n : Z) (p : ptr) : M unit :=
  object_loop (Z.to_nat (u64 n)) (fun i => u64 i <? u64 n) (fun i => int_check (i + 1)) p.

Definition empty_for_loop04 (n : Z) (p : ptr) : M unit :=
  object_loop (Z.to_nat (u64 n)) (fun i => u64 i <? u64 n) (fun i => int_check (i + 1)) p.

(** [size_t i, n]. *)
Definition empty_for_loop05 (n : Z) (p : ptr) : M unit :=
  object_loop (Z.to_nat (u64 n)) (fun i => i <? u64 n) (fun i => ret (u64 (i + 1))) p.

Definition my_func (n : Z) : M unit :=
  array <- new_block (42 * sizeof_ptr) ;;
  printf "Run: %s\n" [AStr "my_func"] ;;
  empty_for_loop02 n array ;;
  empty_for_loop03 n array ;;
  empty_for_loop04 n array.

(** [1<<31] is INT_MIN for the compilers of the Makefile. *)
Definition main : M Z :=
  printf "Compiler test01\n" [] ;;
  my_func (i32 (Z.shiftl 1 31)) ;;
  ret 0.
End CompilerTest.
End CompilerTest.

Module BurnCpu.
Definition long_options : list option_ := [Option_ "help" no_argument (ch "h")].

Section BurnCpu.
Context {K : Kernel}.
#[local] Abbreviation M := (M unit).

(** [for (;;) {}] *)
Definition burn_cpu (fuel : nat) : M Z := iter fuel (fun _ => ret (inl tt)) tt.

Definition usage (argv0 : string) : M Z :=
  printf "-= ERROR: Parameter problems =-\n" [] ;;
  printf " Usage: %s (options-see-below)\n" [AStr argv0] ;;
  printf " Listing options:\n" [] ;;
  forM long_options (fun o =>
    printf " --%s" [AStr (opt_name o)] ;;
    printf "\t\t short-option: -%c" [AInt (opt_val o)] ;;
    printf "\n" []) ;;
  printf "\n" [] ;;
  ret EXIT_FAIL_OPTION.

Definition main_option (argv0 : string) (o : unit) (e : optev) : M (unit + Z) :=
  if (o_c e =? ch "h") || (o_c e =? ch "?") then u <- usage argv0 ;; ret (inr u) else ret (inl tt).

Definition main (fuel : nat) (argv0 : string) (evs : list optev) : M Z :=
  r <- getopt_loop (main_option argv0) tt evs ;;
  match r with
  | inr code => ret code
  | inl _ => burn_cpu fuel
  end.
End BurnCpu.
End BurnCpu.
