(* ===== verification/MicroBenchProps.v ===== *)
(** * The micro benchmarks: the properties *)
From stdpp Require Import base list gmap strings.
From Stdlib Require Import ZArith Lia Ascii.
From S2P Require Import Prelude.
From S2P Require Import CLang.
From S2P Require Import Wp.
From S2P Require Import Libc.
From S2P Require Import Getopt.
From S2P Require Import Common.
From S2P Require Import CommonSocket.
From S2P Require Import Tame.
From S2P Require Import Scripted.
From S2P Require Import MicroBench.

#[local] Open Scope Z_scope.
#[local] Open Scope c_scope.

(** ** compiler_test01.c *)
Section Compiler.
Import CompilerTest.
Context {K : Kernel}.
#[local] Abbreviation W := (world unit).

(** One round inside the array, and one just beyond it. *)
Lemma read_object_in (p : ptr) i (w : W) l :
  w_mem w !! p_block p = Some l -> 0 <= p_off p -> 0 <= i -> p_off p + 8 * i + 8 <= Z.of_nat (length l) ->
  exists obj, read_object p i w = Ret obj w.
Proof.
  intros Hl Ho Hi Hlen. unfold read_object, peek, ptr_add, sizeof_ptr. cbn [p_block p_off]. unfold load_block.
  rewrite (proj2 (Z.ltb_ge _ _)) by lia. rewrite Hl, load_range_get by lia. by eexists.
Qed.

Lemma read_object_out (p : ptr) i (w : W) l :
  w_mem w !! p_block p = Some l -> 0 <= p_off p -> 0 <= i -> Z.of_nat (length l) < p_off p + 8 * i + 8 ->
  read_object p i w = Undef OutOfBounds w.
Proof.
  intros Hl Ho Hi Hlen. unfold read_object, peek, ptr_add, sizeof_ptr. cbn [p_block p_off]. unfold load_block.
  rewrite (proj2 (Z.ltb_ge _ _)) by lia. rewrite Hl. unfold load_range.
  by rewrite (proj2 (Nat.leb_gt _ _)) by lia.
Qed.

(** [k] rounds of a loop that increments, all inside the array. *)
Lemma object_rounds (p : ptr) test next (w : W) l (n : Z) k : forall fuel i,
  w_mem w !! p_block p = Some l -> 0 <= p_off p -> 0 <= i -> i + Z.of_nat k <= n ->
  p_off p + 8 * n <= Z.of_nat (length l) ->
  (forall j, 0 <= j < n -> test j = true) -> (forall j w', 0 <= j < n -> next j w' = Ret (j + 1) w') ->
  iter (k + fuel) (object_round p test next) i w = iter fuel (object_round p test next) (i + Z.of_nat k) w.
Proof.
  induction k as [|k IH]; intros fuel i Hl Ho Hi Hk Hn Ht Hx; [by rewrite Z.add_0_r|].
  cbn [Nat.add]. rewrite iter_S. unfold bind at 1, object_round at 1. rewrite Ht by lia.
  destruct (read_object_in p i w l) as [obj Hobj]; [done|done|lia|lia|].
  unfold bind at 1. rewrite Hobj. unfold empty_func, ret at 1, bind at 1. unfold bind at 1.
  rewrite Hx by lia. unfold ret at 1. rewrite IH by (done || lia). f_equal. lia.
Qed.

(** A loop that stays in the array changes nothing. *)
Lemma object_loop_spec (n : Z) (p : ptr) (test : Z -> bool) (next : Z -> M unit Z) (w : W) l :
  w_mem w !! p_block p = Some l -> 0 <= p_off p -> 0 <= n ->
  p_off p + sizeof_ptr * n <= Z.of_nat (length l) ->
  (forall i, 0 <= i <= n -> test i = (i <? n)) ->
  (forall i w', 0 <= i < n -> next i w' = Ret (i + 1) w') ->
  object_loop (Z.to_nat n) test next p w = Ret tt w.
Proof.
  intros Hl Ho Hn Hlen Htest Hnext. unfold object_loop, sizeof_ptr in *.
  replace (Datatypes.S (Z.to_nat n)) with (Z.to_nat n + 1)%nat by lia.
  rewrite (object_rounds p test next w l n (Z.to_nat n) 1 0); try done; try lia.
  2: { intros j Hj. rewrite Htest by lia. lia. }
  rewrite Z2Nat.id, Z.add_0_l by lia. cbn [iter]. unfold bind at 1, object_round. rewrite Htest by lia.
  by rewrite Z.ltb_irrefl.
Qed.

(** A loop that goes on past the [m] elements of the array. *)
Lemma object_loop_out (m : Z) rounds (p : ptr) test next (w : W) l :
  w_mem w !! p_block p = Some l -> 0 <= p_off p -> 0 <= m ->
  p_off p + sizeof_ptr * m = Z.of_nat (length l) -> m < Z.of_nat rounds ->
  (forall i, 0 <= i <= m -> test i = true) ->
  (forall i w', 0 <= i < m -> next i w' = Ret (i + 1) w') ->
  object_loop rounds test next p w = Undef OutOfBounds w.
Proof.
  intros Hl Ho Hm Hlen Hr Htest Hnext. unfold object_loop, sizeof_ptr in *.
  replace (Datatypes.S rounds) with (Z.to_nat m + Datatypes.S (rounds - Z.to_nat m))%nat by lia.
  rewrite (object_rounds p test next w l m (Z.to_nat m) _ 0); try done; try lia.
  2: { intros j Hj. apply Htest. lia. }
  rewrite Z2Nat.id, Z.add_0_l by lia. rewrite iter_S. unfold bind at 1, object_round at 1.
  rewrite Htest by lia. unfold bind at 1. by rewrite (read_object_out p m w l) by (done || lia).
Qed.

Lemma int_next n i (w : W) : n < 2 ^ 31 -> 0 <= i < n -> int_check (i + 1) w = Ret (i + 1) w.
Proof.
  intros Hn Hi. unfold int_check, INT_MIN, INT_MAX.
  by rewrite (proj2 (Z.leb_le _ _)), (proj2 (Z.leb_le _ _)) by lia.
Qed.
(** The four loops. *)
Lemma loop02_spec n p (w : W) l :
  w_mem w !! p_block p = Some l -> 0 <= p_off p -> 0 <= n < 2 ^ 31 ->
  p_off p + sizeof_ptr * n <= Z.of_nat (length l) -> empty_for_loop02 n p w = Ret tt w.
Proof. intros. eapply object_loop_spec; try done; [lia|]. intros. apply (int_next n); lia. Qed.

Lemma loop03_spec n p (w : W) l :
  w_mem w !! p_block p = Some l -> 0 <= p_off p -> 0 <= n < 2 ^ 31 ->
  p_off p + sizeof_ptr * n <= Z.of_nat (length l) -> empty_for_loop03 n p w = Ret tt w.
Proof.
  intros Hl Ho Hn Hlen. unfold empty_for_loop03. rewrite (u64_id n) by lia.
  eapply object_loop_spec; try done; [lia| |].
  - intros i Hi. by rewrite u64_id by lia.
  - intros. apply (int_next n); lia.
Qed.

Lemma loop05_spec n p (w : W) l :
  w_mem w !! p_block p = Some l -> 0 <= p_off p -> 0 <= n < 2 ^ 31 ->
  p_off p + sizeof_ptr * n <= Z.of_nat (length l) -> empty_for_loop05 n p w = Ret tt w.
Proof.
  intros Hl Ho Hn Hlen. unfold empty_for_loop05. rewrite (u64_id n) by lia.
  eapply object_loop_spec; try done; [lia|]. intros i w' Hi. unfold ret. by rewrite u64_id by lia.
Qed.

(** The loops past the end of an array of [m] elements. *)
Lemma loop02_out n m p (w : W) l :
  w_mem w !! p_block p = Some l -> 0 <= p_off p -> 0 <= m < n -> n < 2 ^ 31 ->
  p_off p + sizeof_ptr * m = Z.of_nat (length l) -> empty_for_loop02 n p w = Undef OutOfBounds w.
Proof.
  intros Hl Ho Hm Hn Hlen. eapply (object_loop_out m); try done; [lia|lia| |].
  - intros i Hi. lia.
  - intros. apply (int_next m); lia.
Qed.

Lemma loop03_out n m p (w : W) l :
  w_mem w !! p_block p = Some l -> 0 <= p_off p -> 0 <= m < 2 ^ 31 -> m < u64 n ->
  p_off p + sizeof_ptr * m = Z.of_nat (length l) -> empty_for_loop03 n p w = Undef OutOfBounds w.
Proof.
  intros Hl Ho Hm Hn Hlen. eapply (object_loop_out m); try done; [lia|lia| |].
  - intros i Hi. rewrite u64_id by lia. lia.
  - intros. apply (int_next m); lia.
Qed.
End Compiler.

(** ** syscall_overhead.c *)
Section Getuid.
Import Syscall.
Context {K : Kernel}.
#[local] Abbreviation W := (world unit).

Definition is_getuid (e : call * reply) : Prop := e.1 = CGetuid.

(** The calls of the measurement, newest first: the clocks, the calls that
    are measured, and the clocks. *)
Definition measured (loops : Z) (log : list (call * reply)) : Prop :=
  exists t0 c0 uids c1 t1, log = (CClockGettime CLOCK_MONOTONIC, t1) :: (CRdtsc, c1) :: uids ++
      [(CRdtsc, c0); (CClockGettime CLOCK_MONOTONIC, t0)] /\
    Z.of_nat (length uids) = loops /\ Forall is_getuid uids.
Lemma gettime_spec (Q : Z -> W -> Prop) w :
  (forall r k v, Q v (w_call (CClockGettime CLOCK_MONOTONIC) r k w)) ->
  wpg False gettime Q (fun code _ => code = EXIT_FAIL_TIME) w.
Proof.
  intros HQ. unfold gettime. wp_step. wp_ask r k E. destruct (r_ret r <? 0); wp_steps; [done|apply HQ].
Qed.

Lemma rdtsc_spec (Q : Z -> W -> Prop) X w :
  (forall r k v, Q v (w_call CRdtsc r k w)) -> wpg False rdtsc Q X w.
Proof. intros HQ. unfold rdtsc. wp_step. wp_ask r k E. wp_step. apply HQ. Qed.

Lemma getuid_spec loops w :
  0 <= loops ->
  wpg False (loop_syscall_getuid loops)
    (fun out w' => out.1 = loops /\ exists log, w_log w' = log ++ w_log w /\ measured loops log)
    (fun code _ => code = EXIT_FAIL_TIME) w.
Proof.
  intros Hl. unfold loop_syscall_getuid, timed_loop. do 2 wp_step. apply gettime_spec. intros t0 k1 v1.
  wp_step. apply rdtsc_spec. intros c0 k2 v2. wp_step. set (w2 := w_call CRdtsc _ _ _).
  eapply wp_mono; [apply (wp_iter (fun k '(j, _) w' => exists uids, w_log w' = uids ++ w_log w2 /\
      Z.of_nat (length uids) = j /\ Forall is_getuid uids /\ j <= loops /\ k = Datatypes.S (Z.to_nat (loops - j)))
      _ _ (0, tt) (fun out w' => out.1 = loops /\ exists uids, w_log w' = uids ++ w_log w2 /\
        Z.of_nat (length uids) = loops /\ Forall is_getuid uids) (fun _ _ => False))| |].
  - exists []. split_and!; try done. lia.
  - intros [j []] w' (_ & _ & _ & _ & _ & ?). lia.
  - intros k [j []] w' (uids & Hlog & Hj & Hall & Hle & Hk). destruct (Z.ltb_spec j loops).
    + do 2 wp_step. wp_ask r k3 E. do 2 wp_step. exists ((CGetuid, r) :: uids). split_and!.
      * cbn. by rewrite Hlog.
      * cbn [length]. lia.
      * by constructor.
      * lia.
      * lia.
    + wp_step. split; [cbn; lia|]. exists uids. split_and!; [done|lia|done].
  - intros [j []] w3 (Hj & uids & Hlog & Hn & Hall). cbn in Hj. subst j.
    wp_step. apply rdtsc_spec. intros c1 k3 v3. wp_step. apply gettime_spec. intros t1 k4 v4. do 2 wp_step.
    split; [done|]. eexists. split; [|exists t0, c0, uids, c1, t1; by split_and!].
    cbn. rewrite Hlog. cbn. by rewrite <- app_assoc.
  - done.
Qed.
End Getuid.

(** ** overhead_cmpxchg.c *)
Section Exchange.
Import Cmpxchg.
Context {K : Kernel}.
#[local] Abbreviation W := (world unit).

(** An exchange of 0 for 0 reads the variable and leaves it as it is. *)
Lemma cmpxchg_zero data : cmpxchgl data 0 0 = (data, data).
Proof. unfold cmpxchgl. by destruct (Z.eqb_spec data 0) as [->|]. Qed.

#[local] Instance trivial_stable : Stable (fun _ : W => True).
Proof. by split. Qed.

#[local] Abbreviation tame := (tame False (fun _ : W => True) [EXIT_FAIL_TIME]).

Lemma tame_loop_on op data0 loops : 0 < loops -> tame (loop_on op data0 loops) (fun out => out.1 = loops).
Proof.
  intros Hl. unfold loop_on.
  eapply (tame_bind _ _ _ _ _ (fun out => out.1.1 = loops /\ is_Some (res out.1.2))).
  - (* at least one round is made, and every round writes [res] *)
    unfold timed_loop. eapply tame_seq; [eapply tame_any, tame_gettime; auto with tame typeclass_instances|]. intros t0.
    tame_step. eapply (tame_bind _ _ _ _ _ (fun out => out.1 = loops /\ is_Some (res out.2))).
    { apply (tame_iter _ _ _ (fun '(j, v) => 0 <= j <= loops /\ (0 < j -> is_Some (res v))) (fun '(j, _) => Z.to_nat (loops - j)));
        [split; [lia|lia]|lia|].
      intros [j v] [Hj Hv]. destruct (Z.ltb_spec j loops); [|apply tame_ret; cbn; split; [lia|apply Hv; lia]].
      destruct (op (data v)) as [r d] eqn:Eop. eapply (tame_bind _ _ _ _ _ (fun v => is_Some (res v))); [by apply tame_ret|].
      intros v' Hv'. apply tame_ret. split_and!; [lia|lia|done|lia]. }
    intros out Hout. tame_step.
    eapply tame_seq; [eapply tame_any, tame_gettime; auto with tame typeclass_instances|]. intros t1. by apply tame_ret.
  - intros [[j v] m] [Hj [r Hr]]. cbn in *. rewrite Hr. by apply tame_ret.
Qed.

Lemma tame_benchmark loops op d :
  0 < loops < 2 ^ 64 -> tame (time_func loops (loop_on op d)) (fun _ => True).
Proof.
  intros Hl. apply tame_time_func; [apply trivial_stable|done|]. apply tame_loop_on. lia.
Qed.

Lemma LOOPS_range : 0 < LOOPS < 2 ^ 64.
Proof. by vm_compute. Qed.

Lemma tame_cmpxchg_main d1 d2 d3 : tame (main d1 d2 d3) (fun code => code = 0).
Proof.
  unfold main. repeat (eapply tame_seq; [apply tame_printf, trivial_stable|intros _; eapply tame_seq;
    [apply (tame_benchmark _ _ _ LOOPS_range)|intros _]]). by apply tame_ret.
Qed.
End Exchange.

(** ** The properties *)

(** C37: the loops of compiler_test01.c are empty: over an array of at least
    [n] pointers, for every [n] from 0 to INT_MAX, each of the four loops returns
    and leaves the machine exactly as the reference [empty_for_loop01] does,
    whatever the types of the index and of the bound. *)
Theorem compiler_loops_empty (K : Kernel) (n : Z) (p : ptr) (l : list mbyte) (w : world unit) :
  w_mem w !! p_block p = Some l -> 0 <= p_off p -> 0 <= n < 2 ^ 31 ->
  p_off p + sizeof_ptr * n <= Z.of_nat (length l) ->
  CompilerTest.empty_for_loop02 n p w = CompilerTest.empty_for_loop01 n p w /\
  CompilerTest.empty_for_loop03 n p w = CompilerTest.empty_for_loop01 n p w /\
  CompilerTest.empty_for_loop04 n p w = CompilerTest.empty_for_loop01 n p w /\
  CompilerTest.empty_for_loop05 n p w = CompilerTest.empty_for_loop01 n p w.
Proof.
  intros. split_and!; [by eapply loop02_spec|by eapply loop03_spec|by eapply loop03_spec|by eapply loop05_spec].
Qed.

Lemma compiler_loops_empty_witness :
  let w := @World scripted unit [] {[1 := replicate 336 None]} 2 [] [] 0 tt in
  CompilerTest.empty_for_loop02 42 (Ptr 1 0) w = CompilerTest.empty_for_loop01 42 (Ptr 1 0) w /\
  CompilerTest.empty_for_loop03 42 (Ptr 1 0) w = CompilerTest.empty_for_loop01 42 (Ptr 1 0) w /\
  CompilerTest.empty_for_loop04 42 (Ptr 1 0) w = CompilerTest.empty_for_loop01 42 (Ptr 1 0) w /\
  CompilerTest.empty_for_loop05 42 (Ptr 1 0) w = CompilerTest.empty_for_loop01 42 (Ptr 1 0) w.
Proof.
  intros w. apply (compiler_loops_empty scripted 42 (Ptr 1 0) (replicate 336 None) w).
  - reflexivity.
  - discriminate.
  - vm_compute. split; [discriminate|reflexivity].
  - vm_compute. discriminate.
Defined.

(** [my_func] of compiler_test01.c, for every [int]: it returns having
    changed nothing but the output when [n] is from 0 to 42, the size of its
    array, and for every other [n] it reads beyond the array; for a negative
    [n], as the INT_MIN that [main] passes, because the loops with an unsigned
    bound take it for a huge number. *)
Theorem my_func_bounds (K : Kernel) (n : Z) (w : world unit) :
  is_i32 n ->
  let w' := w_print (Out false "Run: %s\n" [AStr "my_func"]) (w_alloc (replicate 336 None) w) in
  CompilerTest.my_func n w =
    if (0 <=? n) && (n <=? 42) then Ret tt w' else Undef OutOfBounds w'.
Proof.
  intros Hn w'. unfold is_i32 in Hn.
  assert (Hl : w_mem w' !! w_next w = Some (replicate 336 None)) by apply lookup_insert_eq.
  assert (Hlen : length (replicate 336 (None : mbyte)) = 336%nat) by apply length_replicate.
  set (l := replicate 336 _) in *. unfold CompilerTest.my_func, bind at 1, new_block.
  change (Z.to_nat (42 * sizeof_ptr)) with 336%nat. fold l. unfold bind at 1, printf, print.
  fold w'. unfold bind at 1.
  destruct (Z.leb_spec 0 n); cbn [andb]; [destruct (Z.leb_spec n 42)|].
  - rewrite (loop02_spec n _ w' l) by (cbn [p_block p_off]; unfold sizeof_ptr; done || lia).
    unfold bind. rewrite (loop03_spec n _ w' l) by (cbn [p_block p_off]; unfold sizeof_ptr; done || lia).
    apply (loop03_spec n _ w' l); cbn [p_block p_off]; unfold sizeof_ptr; done || lia.
  - by rewrite (loop02_out n 42 _ w' l) by (cbn [p_block p_off]; unfold sizeof_ptr; done || lia).
  - assert (CompilerTest.empty_for_loop02 n (Ptr (w_next w) 0) w' = Ret tt w') as ->.
    { unfold CompilerTest.empty_for_loop02, CompilerTest.object_loop. cbn [iter].
      unfold bind at 1, CompilerTest.object_round. by rewrite (proj2 (Z.ltb_ge _ _)) by lia. }
    unfold bind. rewrite (loop03_out n 42 _ w' l); [done|exact Hl|done|lia| |].
    + unfold u64. rewrite <- (Z_mod_plus_full n 1), Z.mod_small; lia.
    + unfold sizeof_ptr. cbn [p_off]. lia.
Qed.

Lemma my_func_bounds_witness :
  CompilerTest.my_func (i32 (Z.shiftl 1 31)) (start [] tt) =
    Undef OutOfBounds (w_print (Out false "Run: %s\n" [AStr "my_func"]) (w_alloc (replicate 336 None) (start [] tt))).
Proof.
  apply (my_func_bounds scripted (i32 (Z.shiftl 1 31)) (start [] tt)).
  vm_compute. split; [discriminate|reflexivity].
Defined.

(** C38: the measurement of syscall_overhead.c: for every number of loops, the
    calls between the two readings of the clocks are exactly that many calls of
    [getuid], and the function reports that number; it exits when the clock
    cannot be read. *)
Theorem syscall_overhead_measures (K : Kernel) (loops : Z) (w : world unit) :
  0 <= loops ->
  wp (Syscall.loop_syscall_getuid loops)
    (fun out w' => out.1 = loops /\ exists log, w_log w' = log ++ w_log w /\ measured loops log)
    (fun code _ => code = EXIT_FAIL_TIME) w.
Proof. apply getuid_spec. Qed.

Lemma syscall_overhead_measures_witness :
  wp (Syscall.loop_syscall_getuid 5)
    (fun out w' => out.1 = 5 /\ exists log, w_log w' = log ++ [] /\ measured 5 log)
    (fun code _ => code = EXIT_FAIL_TIME) (start [] tt).
Proof. apply (syscall_overhead_measures scripted 5 (start [] tt)). discriminate. Defined.

(** overhead_cmpxchg, whatever its uninitialised variables hold: it
    terminates without undefined behaviour. *)
Lemma overhead_cmpxchg_main_safe (K : Kernel) (d1 d2 d3 : Z) (w : world unit) :
  wp (Cmpxchg.main d1 d2 d3) (fun code _ => code = 0) (fun code _ => code = EXIT_FAIL_TIME) w.
Proof.
  eapply wp_mono; [by apply tame_cmpxchg_main| |].
  - by intros code w' [_ H].
  - by intros code w' [H|[]].
Qed.

(** burn_cpu never ends: whatever the fuel, its loop wants more. *)
Lemma burn_cpu_forever (K : Kernel) (fuel : nat) (w : world unit) : BurnCpu.burn_cpu fuel w = NoFuel.
Proof. unfold BurnCpu.burn_cpu. induction fuel as [|fuel IH]; [done|]. apply IH. Qed.
