(* ===== verification/SmallTools.v ===== *)
(** * The small examples

    udp_snd.c, qdisc_bypass_test.c, cpu_dma_latency.c and ipv6_example01.c: one
    Module per program.  They have no static variables; the buffer of udp_snd
    is a block. *)
From stdpp Require Import base list gmap strings.
From Stdlib Require Import ZArith Lia Ascii.
From S2P Require Import Prelude.
From S2P Require Import CLang.
From S2P Require Import Wp.
From S2P Require Import Libc.
From S2P Require Import Getopt.
From S2P Require Import Common.
From S2P Require Import CommonSocket.

#[local] Open Scope Z_scope.
#[local] Open Scope c_scope.

Module UdpSnd.
Definition ROUNDS : Z := 655360000.
Definition sizeof_buffer : Z := 1400.

Section UdpSnd.
Context {K : Kernel}.
#[local] Abbreviation M := (M unit).

(** The local variables of [main] that the options set. *)
Record main_opts := MainOpts { host : option string; family : Z; discover : Z }.

Definition default_opts : main_opts := MainOpts None AF_INET6 (-1).

Definition main_option (o : main_opts) (e : optev) : M (main_opts + Z) :=
  if o_c e =? ch "H" then ret (inl (MainOpts (o_arg e) (family o) (discover o)))
  else if o_c e =? ch "4" then ret (inl (MainOpts (host o) AF_INET (discover o)))
  else if o_c e =? ch "d" then v <- atoi_optarg e ;; ret (inl (MainOpts (host o) (family o) v))
  else ret (inl o).

(** The destination: port 9 of the host; [inet_pton] may fail. *)
Definition dest (family : Z) (host : string) : M (list Z) :=
  let addr := set_port (htons 9) (set_family family (replicate 28 0)) in
  res <- ask (CInetPton family host) ;;
  ret (if 0 <? r_ret res then
         if family =? AF_INET6 then set_sin6_addr (m_data (r_msg res)) addr
         else set_sin_addr (m_data (r_msg res)) addr
       else addr).

(** [memcpy(buffer, &i, sizeof(i)); send(fd, buffer, 100 + rand() % 200, 0);] *)
Definition send_round (fd : Z) (buffer : ptr) (i : Z) : M unit :=
  store buffer (le_bytes 4 i) ;;
  r <- ask CRand ;;
  data <- peek buffer (100 + Z.rem (r_ret r) 200) ;;
  ask (CSend fd data 0) ;;
  ret tt.

Definition send_loop (rounds : Z) (fd : Z) (buffer : ptr) : M unit :=
  iter (Datatypes.S (Z.to_nat rounds))
    (fun i => if i <? rounds then send_round fd buffer i ;; ret (inl (i + 1)) else ret (inr tt)) 0.

Definition main (argv0 : string) (evs : list optev) : M Z :=
  buffer <- new_block sizeof_buffer ;;
  r <- getopt_loop main_option default_opts evs ;;
  match r with
  | inr code => ret code
  | inl o =>
      match host o with
      | None =>
          eprintf "Please specify destination host\n" [] ;;
          eprintf "(Notice default uses IPv6)\n" [] ;;
          eprintf " Usage: %s -H host <-d pmtu> <-4>\n" [AStr argv0] ;;
          ret 2
      | Some host =>
          s <- ask (CSocket (family o) SOCK_DGRAM 0) ;;
          let fd := r_ret s in
          if fd <? 0 then
            eprintf "failed to create socket" [AInt (r_errno s)] ;;
            exit 1
          else
            when (negb (discover o =? -1))
              (ask (CSetsockopt fd SOL_IP IP_MTU_DISCOVER (le_bytes 4 (u32 (discover o)))) ;; ret tt) ;;
            addr <- dest (family o) host ;;
            ask (CConnect fd addr (if family o =? AF_INET6 then sizeof_sockaddr_in6 else sizeof_sockaddr_in)) ;;
            store buffer (replicate (Z.to_nat sizeof_buffer) 1) ;;
            send_loop ROUNDS fd buffer ;;
            ret 0
      end
  end.
End UdpSnd.
End UdpSnd.

Module QdiscBypass.
Definition PACKET_QDISC_BYPASS : Z := 20.

Section QdiscBypass.
Context {K : Kernel}.
#[local] Abbreviation M := (M unit).

Definition set_sock_qdisc_bypass (fd verbose : Z) : M unit :=
  r <- ask (CSetsockopt fd SOL_PACKET PACKET_QDISC_BYPASS (le_bytes 4 1)) ;;
  if r_ret r <? 0 then
    printf "[DEBUG] %s(): err:%d errno:%d\n" [AStr "set_sock_qdisc_bypass"; AInt (r_ret r); AInt (r_errno r)] ;;
    if r_errno r =? ENOPROTOOPT then
      when (truth verbose)
        (printf "No kernel support for PACKET_QDISC_BYPASS (kernel < 3.14?)\n" [])
    else perror "Cannot set PACKET_QDISC_BYPASS"
  else when (truth verbose) (printf "Enabled kernel qdisc bypass\n" []).

Definition pf_tx_socket (ver : Z) : M Z :=
  sock <- ask (CSocket PF_PACKET SOCK_RAW 0) ;;
  if r_ret sock =? -1 then
    perror "Creation of RAW PF_SOCKET failed!\n" ;;
    exit 1
  else
    Setsockopt (r_ret sock) SOL_PACKET PACKET_VERSION (le_bytes 4 (u32 ver)) ;;
    ret (r_ret sock).

Definition main : M Z :=
  printf "Lame test program for setting QDISC_BYPASS on RAW socket\n" [] ;;
  sock <- pf_tx_socket 0 ;;
  set_sock_qdisc_bypass sock 1 ;;
  ret 0.
End QdiscBypass.
End QdiscBypass.

Module DmaLatency.
Definition O_WRONLY : Z := 1.

Section DmaLatency.
Context {K : Kernel}.
#[local] Abbreviation M := (M unit).

Definition usage (argv0 : string) : M Z :=
  eprintf "Usage: %s <latency [us]>\n" [AStr argv0] ;;
  eprintf "\n" [] ;;
  eprintf "	latency: the maximum tolerable CPU DMA you\n" [] ;;
  eprintf "	         are willing to put up with [in microseconds]\n" [] ;;
  eprintf "\n" [] ;;
  eprintf "This program will block until you hit Ctrl-C, at which point\n" [] ;;
  eprintf "the file descriptor is closed and the latency requirement is\n" [] ;;
  eprintf "unregistered again.\n" [] ;;
  eprintf "Hint: if you have an platform with a buggy BIOS that has\n" [] ;;
  eprintf "issues with excessive C-state transition latencies try value 55\n" [] ;;
  ret 2.

(** [while (1) sleep(10);] *)
Definition sleep_forever (fuel : nat) : M unit := iter fuel (fun _ => ask (CSleep 10) ;; ret (inl tt)) tt.

(** [main] from its arguments after the name of the program. *)
Definition main (fuel : nat) (argv0 : string) (args : list string) : M Z :=
  match args with
  | [arg] =>
      let v := atoi arg in
      printf "setting latency to %d.%.6d seconds\n" [AInt (Z.quot v 1000000); AInt (Z.rem v 1000000)] ;;
      fd <- ask (COpen "/dev/cpu_dma_latency" O_WRONLY) ;;
      if r_ret fd <? 0 then
        perror "open /dev/cpu_dma_latency" ;;
        ret 1
      else
        r <- ask (CWrite (r_ret fd) (Some <$> le_bytes 4 (u32 v))) ;;
        if negb (r_ret r =? 4) then
          perror "write to /dev/cpu_dma_latency" ;;
          ret 1
        else
          sleep_forever fuel ;;
          ret 0
  | _ => usage argv0
  end.
End DmaLatency.
End DmaLatency.

Module Ipv6Example.
Definition portNr : Z := 5555.
Definition sizeof_buf : Z := 1024.

Section Ipv6Example.
Context {K : Kernel}.
#[local] Abbreviation M := (M unit).

Definition error {A} (msg : string) : M A := perror msg ;; exit 1.

(** One round: [fromlen] is the length of the address the last round got. *)
Definition answer_round (sock : Z) (buf from : ptr) (fromlen : Z) : M (Z + unit) :=
  printf "- Waiting on recvfrom()\n" [] ;;
  n <- ask (CRecvfrom sock 1024 0 true) ;;
  if r_ret n <? 0 then error "recvfrom"
  else
    store buf (take (Z.to_nat 1024) (m_data (r_msg n))) ;;
    store from (take (Z.to_nat fromlen) (m_name (r_msg n))) ;;
    let fromlen := Z.of_nat (length (m_name (r_msg n))) in
    addr <- load (ptr_add from 8) 16 ;;
    text <- ask (CInetNtop AF_INET6 addr) ;;
    (if r_ret text =? 0 then error "inet_ntop"
     else printf "From (from.sin6_addr) = %s\n" [AStr (string_of_bytes (c_string (m_data (r_msg text))))]) ;;
    ask (CWrite 1 (Some <$> bytes_of_string "- Received a datagram: ")) ;;
    data <- peek buf (r_ret n) ;;
    ask (CWrite 1 data) ;;
    to <- load from fromlen ;;
    s <- ask (CSendto sock (Some <$> (bytes_of_string "Got your message" ++ [10])) 0 to fromlen) ;;
    if r_ret s <? 0 then error "sendto" else ret (inl fromlen).

Definition main (fuel : nat) : M Z :=
  from <- new_block sizeof_sockaddr_in6 ;;
  buf <- new_block sizeof_buf ;;
  printf "Simple IPv6 UDP example (LISTEN'ing on UDP port %d)\n" [AInt portNr] ;;
  sock <- Socket AF_INET6 SOCK_DGRAM 0 ;;
  let server := set_port (htons portNr) (set_family AF_INET6 (replicate 28 0)) in
  any <- ask (CInetPton AF_INET6 "::") ;;
  let server := if 0 <? r_ret any then set_sin6_addr (m_data (r_msg any)) server else server in
  b <- ask (CBind sock server sizeof_sockaddr_in6) ;;
  if r_ret b <? 0 then error "binding"
  else
    iter fuel (answer_round sock buf from) sizeof_sockaddr_in6 ;;
    ret 0.
End Ipv6Example.
End Ipv6Example.
