(* ===== verification/SmallToolsProps.v ===== *)
(** * The small examples: what they send, and that nothing goes wrong *)
From stdpp Require Import base list gmap strings.
From Stdlib Require Import ZArith Lia Ascii.
From S2P Require Import Prelude.
From S2P Require Import CLang.
From S2P Require Import Wp.
From S2P Require Import Libc.
From S2P Require Import Getopt.
From S2P Require Import Common.
From S2P Require Import CommonSocket.
From S2P Require Import Tame.
From S2P Require Import Scripted.
From S2P Require Import SmallTools.

#[local] Open Scope Z_scope.
#[local] Open Scope c_scope.

(** ** udp_snd.c *)
Section Snd.
Import UdpSnd.
Context {K : Kernel}.
#[local] Abbreviation W := (world unit).

(** [rand] returns a number from 0 to RAND_MAX. *)
Definition rand_contract : Prop := forall k, 0 <= r_ret (kstep CRand k).1 < 2 ^ 31.
Hypothesis Hrand : rand_contract.

(** The calls of round [i], newest first: a packet of 100 to 299 bytes that
    starts with its number. *)
Definition packet_log (fd i : Z) (log : list (call * reply)) : Prop :=
  exists data s r, log = [(CSend fd data 0, s); (CRand, r)] /\
    100 <= Z.of_nat (length data) < 300 /\ take 4 data = Some <$> le_bytes 4 i.

(** The buffer holds [n] bytes. *)
Definition snd_buffer (b : Z) (w : W) : Prop :=
  exists l, w_mem w !! b = Some l /\ Z.of_nat (length l) = sizeof_buffer.

Lemma snd_round_spec fd b i w :
  snd_buffer b w ->
  wpg False (send_round fd (Ptr b 0) i)
    (fun _ w' => snd_buffer b w' /\ exists log, w_log w' = log ++ w_log w /\ packet_log fd i log)
    (fun _ _ => False) w.
Proof.
  intros (l & Hb & Hl). unfold sizeof_buffer in Hl. unfold send_round. wp_step.
  assert (H4 : length (Some <$> le_bytes 4 i) = 4%nat) by (by rewrite length_fmap, length_le_bytes).
  eapply store_spec; [exact Hb|done|rewrite length_le_bytes; lia|].
  change (Z.to_nat 0) with 0%nat. set (l' := put_bytes 0 (Some <$> le_bytes 4 i) l).
  assert (Hl' : length l' = length l) by (unfold l'; rewrite length_put_bytes; lia).
  assert (Htake : take 4 l' = Some <$> le_bytes 4 i).
  { change (take 4 l') with (get_bytes 0 4 l'). rewrite <- H4 at 1. apply get_put_same. lia. }
  set (w1 := w_set_mem _ w). assert (Hb1 : w_mem w1 !! b = Some l') by apply lookup_insert_eq.
  wp_step. wp_ask r k E. pose proof (Hrand (w_k w1)) as Hr. rewrite E in Hr. cbn [fst] in Hr.
  pose proof (Z.rem_bound_pos (r_ret r) 200) as Hm.
  wp_step. eapply peek_spec; [exact Hb1|done|lia|]. change (Z.to_nat 0) with 0%nat.
  wp_step. wp_ask s k2 E2. wp_step. split.
  - exists l'. split; [done|]. unfold sizeof_buffer. lia.
  - eexists [_; _]. split; [done|]. eexists _, s, r. split; [done|].
    assert (Hlen : length (get_bytes 0 (Z.to_nat (100 + Z.rem (r_ret r) 200)) l') = Z.to_nat (100 + Z.rem (r_ret r) 200))
      by (apply length_get_bytes; lia).
    split; [lia|]. unfold get_bytes. rewrite drop_0, take_take, Nat.min_l by lia. exact Htake.
Qed.

Lemma send_loop_spec rounds fd b w :
  snd_buffer b w ->
  wpg False (send_loop rounds fd (Ptr b 0))
    (fun _ w' => exists logs, w_log w' = concat (rev logs) ++ w_log w /\ length logs = Z.to_nat rounds /\
       forall i log, logs !! i = Some log -> packet_log fd (Z.of_nat i) log)
    (fun _ _ => False) w.
Proof.
  intros Hb. unfold send_loop.
  apply (wp_iter (fun k i w' => snd_buffer b w' /\ exists logs, w_log w' = concat (rev logs) ++ w_log w /\
    i = Z.of_nat (length logs) /\ (length logs <= Z.to_nat rounds)%nat /\
    (forall i log, logs !! i = Some log -> packet_log fd (Z.of_nat i) log) /\
    k = Datatypes.S (Z.to_nat rounds - length logs))).
  - split; [done|]. exists []. split_and!; try done; cbn [length]; lia.
  - intros i w' (_ & logs & _ & _ & _ & _ & ?). lia.
  - intros k i w' (Hb' & logs & Hlog & -> & Hle & Hall & Hk). destruct (Z.ltb_spec (Z.of_nat (length logs)) rounds).
    + wp_step. eapply wp_post; [by apply snd_round_spec|]. intros _ w2 (Hb2 & log & Hlog2 & Hp). wp_step.
      split; [done|]. exists (logs ++ [log]). rewrite length_app. cbn [length]. split_and!; [|lia|lia| |lia].
      * rewrite Hlog2, Hlog, rev_app_distr. cbn. by rewrite app_assoc.
      * intros i log' Hi. apply lookup_app_Some in Hi as [Hi|[Hi1 Hi2]]; [by apply Hall|].
        apply list_lookup_singleton_Some in Hi2 as [Hi2 ->]. by replace i with (length logs) by lia.
    + wp_step. exists logs. split_and!; [done|lia|done].
Qed.
End Snd.

(** The packets of udp_snd: [rounds] of them, numbered from 0, of 100 to 299
    bytes, whatever the buffer held. *)
Lemma udp_snd_packets (K : Kernel) (rounds fd b : Z) (w : world unit) :
  rand_contract -> snd_buffer b w ->
  wp (UdpSnd.send_loop rounds fd (Ptr b 0))
    (fun _ w' => exists logs, w_log w' = concat (rev logs) ++ w_log w /\ length logs = Z.to_nat rounds /\
       forall i log, logs !! i = Some log -> packet_log fd (Z.of_nat i) log)
    (fun _ _ => False) w.
Proof. intros H. by apply send_loop_spec. Qed.

Section Safety.
Context {K : Kernel}.
#[local] Abbreviation W := (world unit).
#[local] Instance always_stable : Stable (fun _ : W => True).
Proof. by split. Qed.
#[local] Abbreviation tame F codes := (tame F (fun _ : W => True) codes).

(** ** qdisc_bypass_test.c *)
Lemma tame_qdisc_main : tame False [1; EXIT_FAIL_SOCKOPT] QdiscBypass.main (fun code => code = 0).
Proof.
  unfold QdiscBypass.main. tame_step. eapply (tame_bind _ _ _ _ _ (fun _ => True)).
  - unfold QdiscBypass.pf_tx_socket. tame_step. apply tame_if; intros _; [by repeat tame_step|].
    eapply tame_seq; [by apply tame_Setsockopt; [apply always_stable|vm_compute; tauto]|]. intros _. by apply tame_ret.
  - intros sock _. unfold QdiscBypass.set_sock_qdisc_bypass.
    eapply (tame_bind _ _ _ _ _ (fun _ => True)); [|intros; by apply tame_ret].
    tame_step. apply tame_if; intros _; [|by repeat tame_step]. tame_step. apply tame_if; intros _; by repeat tame_step.
Qed.

(** ** cpu_dma_latency.c: it sleeps for as long as there is fuel. *)
Lemma tame_dma_main fuel argv0 args : tame True [] (DmaLatency.main fuel argv0 args) (fun code => In code [0; 1; 2]).
Proof.
  assert (Hu : tame True [] (DmaLatency.usage argv0) (fun code => In code [0; 1; 2])).
  { unfold DmaLatency.usage. repeat tame_step. vm_compute. tauto. }
  unfold DmaLatency.main. destruct args as [|arg [|]]; [exact Hu| |exact Hu]. tame_step. tame_step.
  apply tame_if; intros _; [repeat tame_step; vm_compute; tauto|]. tame_step.
  apply tame_if; intros _; [repeat tame_step; vm_compute; tauto|].
  eapply (tame_bind _ _ _ _ _ (fun _ => True)); [|intros; apply tame_ret; vm_compute; tauto].
  unfold DmaLatency.sleep_forever. intros w _. apply (wp_iter (fun _ _ _ => True)); [done|done|].
  intros n [] w' _. wp_step. wp_ask r k E. by wp_step.
Qed.
End Safety.
