(* ===== verification/Pcap.v ===== *)
(** * The examples over libpcap

    pcap_timeread.c, pcap_read.c, pcap_dump.c and pcap_write_sample.c: one
    Module per program.  The functions of libpcap are calls to a library; the
    reply to [pcap_loop] carries the packets for which it calls the handler, in
    order. *)
From stdpp Require Import base list gmap strings.
From Stdlib Require Import ZArith Lia Ascii SpecFloat.
From S2P Require Import Prelude.
From S2P Require Import CLang.
From S2P Require Import Wp.
From S2P Require Import Libc.
From S2P Require Import Common.

#[local] Open Scope Z_scope.
#[local] Open Scope c_scope.

(** [struct pcap_pkthdr], and the packets of a reply: the fields of each
    header as the control data of a message. *)
Record pcap_pkthdr := PcapPkthdr { tv_sec : Z; tv_usec : Z; caplen : Z; len : Z }.

Definition header_of (m : rmsg) : pcap_pkthdr :=
  match m_ctl m with
  | [s; u; c; l] => PcapPkthdr s u c l
  | _ => PcapPkthdr 0 0 0 0
  end.

Definition packets_of (r : reply) : list pcap_pkthdr := header_of <$> r_msgs r.

Section Common.
Context {K : Kernel} {S : Type}.

Definition library (func : string) (args : list Z) : M S reply := ask (CLib func args).

(** [fprintf(stderr, "Error from f(): %s\n", ...); exit(1);] *)
Definition pcap_error {A} (fmt : string) : M S A := eprintf fmt [] ;; exit 1.

(** The argument [hdr->len] of a ["%ld"]: 32 bits where [printf] expects a
    [long], which is undefined in C.  What the implementation makes of it is the
    parameter [ld]: [Some f] prints [f len], [None] is undefined behaviour. *)
Definition ld_arg (ld : option (Z -> Z)) (len : Z) : M S arg :=
  match ld with
  | Some f => ret (AInt (f len))
  | None => undefined BadFormat
  end.

(** Opening: the handle, unless it is NULL. *)
Definition pcap_open (func fmt : string) (args : list Z) : M S Z :=
  r <- library func args ;;
  if r_ret r =? 0 then pcap_error fmt else ret (r_ret r).

(** [pcap_loop]: the handler sees each packet, then the result is checked. *)
Definition pcap_loop (pcap count : Z) (handler : pcap_pkthdr -> M S unit) : M S unit :=
  r <- library "pcap_loop" [pcap; count] ;;
  forM (packets_of r) handler ;;
  if negb (r_ret r =? 0) then pcap_error "Error from pcap_loop(): %s\n" else ret tt.

(** The statistics that pcap_read and pcap_dump print. *)
Definition print_pcap_stats (pcap : Z) : M S unit :=
  r <- library "pcap_stats" [pcap] ;;
  if negb (r_ret r =? 0) then pcap_error "Error from pcap_stats(): %s\n"
  else
    let stat := m_ctl (r_msg r) in
    printf "Statistik from pcap\n" [] ;;
    printf " packets received  : %d\n" [AInt (nth 0 stat 0)] ;;
    printf " packets dropped   : %d\n" [AInt (nth 1 stat 0)] ;;
    printf " drops by interface: %d\n" [AInt (nth 2 stat 0)].
End Common.

Module Timeread.
Definition RESOLUTION_DEFAULT : Z := 300.

(** The static variables: [resolution], and those of [pkt_handler]. *)
Record statics := Statics { resolution : Z; cnt : Z; size : Z; prev : Z * Z; thresh : Z }.

Definition initial_statics : statics := Statics RESOLUTION_DEFAULT 0 0 (0, 0) 0.

(** [(float)resolution / 1000]: IEEE binary32, then a [double]. *)
Definition resolution_ms (resolution : Z) : double :=
  SFdiv 24 128 (binary_normalize 24 128 resolution 0 false) (binary_normalize 24 128 1000 0 false).

Section Timeread.
Context {K : Kernel} (ld : option (Z -> Z)).
#[local] Abbreviation M := (M statics).

(** Division of a [long] by an [int]. *)
Definition long_div (x y : Z) : M Z :=
  if y =? 0 then undefined DivByZero else long_check (Z.quot x y).

Definition pkt_handler (hdr : pcap_pkthdr) : M unit :=
  s <- get_st ;;
  cnt <- int_check (cnt s + 1) ;;
  let size := i32 (u32 (size s) + len hdr) in
  window <- long_div (tv_usec hdr) (resolution s) ;;
  cs <- (if thresh s =? window then printf "+" [] ;; ret (cnt, size)
         else
           shown <- ld_arg ld (len hdr) ;;
           printf "cnt[%d] sz:[%d]\n %ld:%ld\t(len:%ld) "
             [AInt cnt; AInt size; AInt (tv_sec hdr); AInt (tv_usec hdr); shown] ;;
           ret (0, 0)) ;;
  put_st (Statics (resolution s) cs.1 cs.2 (tv_sec hdr, tv_usec hdr) (u32 window)).

Definition packet_count : Z := 10000.

(** [resolution = atoi(argv[2]); if (!resolution) resolution = RESOLUTION_DEFAULT;] *)
Definition set_resolution (arg : option string) : M unit :=
  match arg with
  | None => ret tt
  | Some a =>
      s <- get_st ;;
      let v := atoi a in
      put_st (Statics (if v =? 0 then RESOLUTION_DEFAULT else v) (cnt s) (size s) (prev s) (thresh s))
  end.

(** [main], from [argv[1]] and [argv[2]]. *)
Definition main (filename resolution_arg : option string) : M Z :=
  match filename with
  | None => eprintf "ERROR: Need dumpfile input as argv[1]\n" [] ;; exit 1
  | Some filename =>
      set_resolution resolution_arg ;;
      s <- get_st ;;
      printf "\nNumber of packets within X ms (libpcap version %s)\n" [] ;;
      printf "-------------------------\n" [] ;;
      printf "READING %d packets with pcap\n" [AInt packet_count] ;;
      printf " from a pcap dumpfile: %s\n" [AStr filename] ;;
      printf "Resolution: %3.3f ms\n" [ADbl (resolution_ms (resolution s))] ;;
      printf "\n" [] ;;
      pcap <- pcap_open "pcap_open_offline" "Error from pcap_open_offline(): %s\n" (bytes_of_string filename) ;;
      pcap_loop pcap packet_count pkt_handler ;;
      printf "\n" [] ;;
      printf "Packes within resolution: %1.3f ms\n" [ADbl (resolution_ms (resolution s))] ;;
      library "pcap_close" [pcap] ;;
      ret 0
  end.
End Timeread.
End Timeread.

Module Read.
Section Read.
Context {K : Kernel} (ld : option (Z -> Z)).
#[local] Abbreviation M := (M unit).

Definition pkt_handler (hdr : pcap_pkthdr) : M unit :=
  shown <- ld_arg ld (len hdr) ;;
  printf "%ld:%ld (%ld)\n" [AInt (tv_sec hdr); AInt (tv_usec hdr); shown].

Definition packet_count : Z := 10.

Definition main (filename : option string) : M Z :=
  match filename with
  | None => eprintf "ERROR: Need dumpfile input as argv[1]\n" [] ;; exit 1
  | Some filename =>
      printf "\nExample usage of libpcap. (version %s)\n" [] ;;
      printf "-------------------------\n" [] ;;
      printf "READING %d packets with pcap\n" [AInt packet_count] ;;
      printf " from a pcap dumpfile: %s\n" [AStr filename] ;;
      printf "\n" [] ;;
      pcap <- pcap_open "pcap_open_offline" "Error from pcap_open_offline(): %s\n" (bytes_of_string filename) ;;
      pcap_loop pcap packet_count pkt_handler ;;
      print_pcap_stats pcap ;;
      library "pcap_close" [pcap] ;;
      ret 0
  end.
End Read.
End Read.

Module Dump.
Section Dump.
Context {K : Kernel}.
#[local] Abbreviation M := (M unit).

Definition filename : string := "/tmp/dumpfile.pcap".
Definition packet_count : Z := 10000.
Definition device : string := "eth0".
Definition snaplen : Z := 2000.
Definition promisc : Z := 0.
Definition timeout : Z := 1000.

(** The handler is [pcap_dump] of the library itself. *)
Definition main : M Z :=
  printf "\nExample usage of libpcap. (version %s)\n" [] ;;
  printf "-------------------------\n" [] ;;
  printf "Collection %d packets with pcap\n" [AInt packet_count] ;;
  printf " and writing a pcap dumpfile: %s\n" [AStr filename] ;;
  printf "\n" [] ;;
  pcap <- pcap_open "pcap_open_live" "Error from pcap_open_live(): %s\n"
            (snaplen :: promisc :: timeout :: bytes_of_string device) ;;
  pcapfile <- pcap_open "pcap_dump_open" "Error from pcap_dump_open(): %s\n" (pcap :: bytes_of_string filename) ;;
  r <- library "pcap_loop" [pcap; packet_count; pcapfile] ;;
  (if negb (r_ret r =? 0) then pcap_error "Error from pcap_loop(): %s\n" else ret tt) ;;
  print_pcap_stats pcap ;;
  library "pcap_dump_close" [pcapfile] ;;
  library "pcap_close" [pcap] ;;
  ret 0.
End Dump.
End Dump.

Module WriteSample.
(** An Ethernet, IP and SCTP INIT chunk. *)
Definition pkt1 : list Z := [
  0x00; 0x11; 0x22; 0x33; 0x44; 0x55; 0x00; 0x00;
  0x00; 0x00; 0x00; 0x00; 0x08; 0x00; 0x45; 0x00;
  0x00; 0x44; 0x55; 0xb1; 0x00; 0x00; 0x40; 0x84;
  0x26; 0x83; 0x7f; 0x00; 0x00; 0x01; 0x7f; 0x00;
  0x00; 0x01; 0x00; 0x01; 0x1f; 0x90; 0x00; 0x00;
  0x00; 0x00; 0x68; 0xe5; 0x88; 0x1b; 0x01; 0x00;
  0x00; 0x24; 0x00; 0x00; 0x00; 0x00; 0x00; 0x0f;
  0xa0; 0x00; 0x00; 0x04; 0xff; 0xff; 0x00; 0x00;
  0x16; 0x2e; 0x80; 0x00; 0x00; 0x04; 0xc0; 0x00;
  0x00; 0x04; 0x00; 0x0c; 0x00; 0x06; 0x00; 0x05;
  0x00; 0x00].

Definition DLT_EN10MB : Z := 1.
Definition sizeof_pcap_pkthdr : Z := 24.

Section WriteSample.
Context {K : Kernel}.
#[local] Abbreviation M := (M unit).

(** The header is a local variable of 24 bytes: a time stamp of 16, [caplen]
    and [len].  [pcap_dump] is given its address; the call here carries the two
    lengths. *)
Definition main : M Z :=
  handle <- library "pcap_open_dead" [DLT_EN10MB; Z.shiftl 1 16] ;;
  dumper <- library "pcap_dump_open" (r_ret handle :: bytes_of_string "pcap_write_sample.pcap") ;;
  pcap_hdr <- new_block sizeof_pcap_pkthdr ;;
  store (ptr_add pcap_hdr 16) (le_bytes 4 (Z.of_nat (length pkt1))) ;;
  caplen <- load (ptr_add pcap_hdr 16) 4 ;;
  store (ptr_add pcap_hdr 20) caplen ;;
  library "pcap_dump" (r_ret dumper :: le_val caplen :: le_val caplen :: pkt1) ;;
  library "pcap_dump_close" [r_ret dumper] ;;
  ret 0.
End WriteSample.
End WriteSample.
