(* ===== verification/PcapProps.v ===== *)
(** * The examples over libpcap: the properties *)
From stdpp Require Import base list gmap strings.
From Stdlib Require Import ZArith Lia Ascii.
From S2P Require Import Prelude.
From S2P Require Import CLang.
From S2P Require Import Wp.
From S2P Require Import Libc.
From S2P Require Import Common.
From S2P Require Import Scripted.
From S2P Require Import Pcap.

#[local] Open Scope Z_scope.
#[local] Open Scope c_scope.

(** ** pcap_timeread: windows of time *)
Section Timeread.
Import Timeread.
Context {K : Kernel}.
#[local] Abbreviation W := (world statics).

(** The fields of a header have their types: the microseconds are any [long]
    but the least one, whose quotient by -1 is no [long] (a capture file has 32
    bits for them), and the length is an unsigned [int]. *)
Definition typed_hdr (h : pcap_pkthdr) : Prop := Z.abs (tv_usec h) < 2 ^ 63 /\ is_u32 (len h).

(** What a line of output counts: packets, and their bytes. *)
Definition line_count (o : out) : Z := match o_args o with AInt c :: AInt _ :: _ => c | _ => 0 end.
Definition line_size (o : out) : Z := match o_args o with AInt _ :: AInt s :: _ => s | _ => 0 end.

(** What ["%ld"] shows for a length (nothing depends on it where it is
    undefined). *)
Definition shows (ld : option (Z -> Z)) : Z -> Z := default id ld.

(** Does the packet fall into the window of the one before? *)
Definition same_window (s : statics) (h : pcap_pkthdr) : bool := thresh s =? Z.quot (tv_usec h) (resolution s).

(** The line for a packet: ["+"] while the window is the same.  [f] is what
    ["%ld"] shows for the length. *)
Definition packet_line (f : Z -> Z) (s : statics) (h : pcap_pkthdr) : out :=
  if same_window s h then Out false "+" []
  else Out false "cnt[%d] sz:[%d]\n %ld:%ld\t(len:%ld) "
         [AInt (cnt s + 1); AInt (i32 (u32 (size s) + len h)); AInt (tv_sec h); AInt (tv_usec h); AInt (f (len h))].

Definition after_packet (s : statics) (h : pcap_pkthdr) : statics :=
  let same := same_window s h in
  Statics (resolution s) (if same then cnt s + 1 else 0) (if same then i32 (u32 (size s) + len h) else 0)
    (tv_sec h, tv_usec h) (u32 (Z.quot (tv_usec h) (resolution s))).

(** Reference: the lines for a list of packets, and the statics after it. *)
Fixpoint lines (f : Z -> Z) (s : statics) (l : list pcap_pkthdr) : list out :=
  match l with
  | [] => []
  | h :: l' => packet_line f s h :: lines f (after_packet s h) l'
  end.

Definition after (s : statics) (l : list pcap_pkthdr) : statics := foldl after_packet s l.

Lemma resolution_after s l : resolution (after s l) = resolution s.
Proof. revert s. induction l as [|h l IH]; intros s; [done|]. cbn. fold (after (after_packet s h) l). by rewrite IH. Qed.

Lemma quot_small r u : r <> 0 -> Z.abs (Z.quot u r) <= Z.abs u.
Proof.
  intros Hr. rewrite <- Z.quot_abs by done. apply Z.quot_le_upper_bound; [lia|].
  assert (0 <= Z.abs u) by lia. assert (1 <= Z.abs r) by lia. nia.
Qed.

(** A packet that stays in the window, and one that asks for a report. *)
Lemma pkt_handler_runs ld h w (Q : unit -> W -> Prop) X U :
  typed_hdr h -> resolution (w_st w) <> 0 -> 0 <= cnt (w_st w) < 2 ^ 31 - 1 ->
  (ld <> None \/ same_window (w_st w) h = true ->
     Q tt (w_set_st (after_packet (w_st w) h) (w_print (packet_line (shows ld) (w_st w) h) w))) ->
  (ld = None -> same_window (w_st w) h = false -> U BadFormat w) ->
  ends U (pkt_handler ld h) Q X w.
Proof.
  intros [Hu Hlen] Hr Hc HQ HU. unfold pkt_handler.
  apply ends_seq. wp_step. apply ends_seq. apply wp_int_check; [unfold is_i32; lia|].
  cbv zeta. apply ends_seq. unfold long_div. rewrite (proj2 (Z.eqb_neq _ _)) by done.
  pose proof (quot_small _ (tv_usec h) Hr). apply wp_long_check; [lia|].
  unfold packet_line, after_packet in HQ. fold (same_window (w_st w) h).
  destruct (same_window (w_st w) h); cbv zeta in HQ.
  - apply ends_wp. do 5 wp_step. apply HQ. by right.
  - unfold ld_arg. destruct ld as [f|]; [|by apply HU].
    apply ends_wp. do 7 wp_step. apply HQ. by left.
Qed.

Lemma cnt_after s h : 0 <= cnt s -> 0 <= cnt (after_packet s h) <= cnt s + 1.
Proof. intros H. unfold after_packet. cbv zeta. cbn. destruct (same_window s h); lia. Qed.

(** The first [k] packets of [l] were handled, the next one is due a
    report. *)
Definition report_due (l : list pcap_pkthdr) (w w' : W) : Prop :=
  exists k h, l !! k = Some h /\ w_st w' = after (w_st w) (take k l) /\
    w_out w' = w_out w ++ replicate k (Out false "+" []) /\ w_log w' = w_log w /\
    same_window (w_st w') h = false.

Definition handled (f : Z -> Z) (l : list pcap_pkthdr) (w w' : W) : Prop :=
  w_st w' = after (w_st w) l /\ w_out w' = w_out w ++ lines f (w_st w) l /\ w_log w' = w_log w.

Lemma handlers_run ld l w (Q : list unit -> W -> Prop) X (U : ub -> W -> Prop) :
  Forall typed_hdr l -> resolution (w_st w) <> 0 ->
  0 <= cnt (w_st w) -> cnt (w_st w) + Z.of_nat (length l) < 2 ^ 31 ->
  (forall us w', handled (shows ld) l w w' -> Q us w') ->
  (forall w', ld = None -> report_due l w w' -> U BadFormat w') ->
  ends U (forM l (pkt_handler ld)) Q X w.
Proof.
  revert w Q U. induction l as [|h l IH]; intros w Q U Hl Hr Hc Hn HQ HU; cbn [forM].
  - apply ends_wp. wp_step. apply HQ. split; [done|]. split; [|done]. cbn. by rewrite app_nil_r.
  - apply Forall_cons in Hl as [Hh Hl]. cbn [length] in Hn. apply ends_bind.
    apply pkt_handler_runs; [done|done|lia| |].
    + intros Hcase. apply ends_bind. pose proof (cnt_after (w_st w) h Hc) as Hc2.
      apply IH; [done|done|cbn [w_st w_set_st]; lia|cbn [w_st w_set_st]; lia| |].
      * intros us w' (Hst & Hout & Hlog). apply ends_wp. wp_step. apply HQ. split; [done|]. split; [|done].
        rewrite Hout. cbn. by rewrite <- app_assoc.
      * intros w' Hld (k & h' & Hk & Hst & Hout & Hlog & Hdue). apply HU; [done|].
        destruct Hcase as [?|Hsame]; [done|]. exists (S k), h'. split_and!; [done|done| |done|done].
        rewrite Hout. cbn. unfold packet_line. rewrite Hsame. by rewrite <- app_assoc.
    + intros Hld Hdue. apply HU; [done|]. exists 0%nat, h. split_and!; [done|done| |done|done].
      cbn. by rewrite app_nil_r.
Qed.

(** Every packet is counted once: in a line, or in the count that is left. *)
Lemma counts_add_up f s l :
  sumZ (line_count <$> lines f s l) + cnt (after s l) = cnt s + Z.of_nat (length l).
Proof.
  revert s. induction l as [|h l IH]; intros s; [cbn; lia|]. cbn [lines after foldl fmap list_fmap sumZ length].
  fold (after (after_packet s h) l). specialize (IH (after_packet s h)).
  assert (line_count (packet_line f s h) + cnt (after_packet s h) = cnt s + 1); [|lia].
  unfold packet_line, after_packet. cbv zeta. cbn [cnt]. destruct (same_window s h); cbn; lia.
Qed.

(** The bytes add up as well, modulo the width of the counter. *)
Lemma sizes_add_up f s l :
  u32 (sumZ (line_size <$> lines f s l) + size (after s l)) = u32 (size s + sumZ (len <$> l)).
Proof.
  revert s. induction l as [|h l IH]; intros s; [cbn; f_equal; lia|].
  cbn [lines after foldl fmap list_fmap sumZ]. fold (after (after_packet s h) l). specialize (IH (after_packet s h)).
  assert (u32 (line_size (packet_line f s h) + size (after_packet s h)) = u32 (size s + len h)) as He.
  { unfold packet_line, after_packet. cbv zeta. cbn [size]. destruct (same_window s h); cbn; mach. }
  clear - IH He. mach.
Qed.
(** The statics when the packets are read: the resolution is that of the
    second argument, unless it is 0. *)
Definition resolution_of (arg : option string) : Z :=
  match arg with
  | None => RESOLUTION_DEFAULT
  | Some a => if atoi a =? 0 then RESOLUTION_DEFAULT else atoi a
  end.

Definition at_start (arg : option string) : statics := Statics (resolution_of arg) 0 0 (0, 0) 0.

(** libpcap hands over no more packets than it is asked for, with headers of
    the declared types. *)
Definition loop_contract : Prop :=
  forall pcap k, let l := packets_of (kstep (CLib "pcap_loop" [pcap; packet_count]) k).1 in
    Forall typed_hdr l /\ Z.of_nat (length l) <= packet_count.

(** The calls that open the file and read it. *)
Definition open_call (f : string) : call := CLib "pcap_open_offline" (bytes_of_string f).
Definition loop_call (o : reply) : call := CLib "pcap_loop" [r_ret o; packet_count].

(** The run failed: there is no file name, the file cannot be opened, or
    libpcap fails to read it. *)
Definition read_failed (filename : option string) (w w' : W) : Prop :=
  match filename with
  | None => w_log w' = w_log w
  | Some f => exists o,
      (r_ret o = 0 /\ w_log w' = (open_call f, o) :: w_log w) \/
      (r_ret o <> 0 /\ exists r, r_ret r <> 0 /\ w_log w' = (loop_call o, r) :: (open_call f, o) :: w_log w)
  end.

(** The whole file was read: the output has the lines of the packets that
    libpcap handed over, and they add up. *)
Definition file_read (ld : option (Z -> Z)) (filename arg : option string) (w w' : W) : Prop :=
  exists f o r c before behind, let l := packets_of r in let out := lines (shows ld) (at_start arg) l in
    filename = Some f /\ r_ret o <> 0 /\ r_ret r = 0 /\
    w_log w' = (CLib "pcap_close" [r_ret o], c) :: (loop_call o, r) :: (open_call f, o) :: w_log w /\
    w_out w' = before ++ out ++ behind /\
    sumZ (line_count <$> out) + cnt (w_st w') = Z.of_nat (length l) /\
    u32 (sumZ (line_size <$> out) + size (w_st w')) = u32 (sumZ (len <$> l)).

(** The run stopped at the first packet that is due a report. *)
Definition report_undefined (filename arg : option string) (w w' : W) : Prop :=
  exists f o r w1, filename = Some f /\ r_ret o <> 0 /\
    w_log w1 = (loop_call o, r) :: (open_call f, o) :: w_log w /\ w_st w1 = at_start arg /\
    report_due (packets_of r) w1 w'.

Lemma set_resolution_spec arg (w : W) X :
  w_st w = initial_statics ->
  wpg False (set_resolution arg) (fun _ w' => w_st w' = at_start arg /\ w_log w' = w_log w) X w.
Proof.
  intros Hst. unfold set_resolution, at_start, resolution_of. destruct arg as [a|]; [|by wp_step].
  do 2 wp_step. cbv zeta. wp_step. by rewrite Hst.
Qed.

Lemma resolution_nonzero arg : resolution_of arg <> 0.
Proof. unfold resolution_of. destruct arg as [a|]; [|done]. by destruct (Z.eqb_spec (atoi a) 0). Qed.

Lemma pcap_open_spec func fmt args (w : W) (Q : Z -> W -> Prop) (X : Z -> W -> Prop) :
  (forall o k, r_ret o <> 0 -> Q (r_ret o) (w_call (CLib func args) o k w)) ->
  (forall o w', r_ret o = 0 -> w_log w' = (CLib func args, o) :: w_log w -> X 1 w') ->
  wpg False (pcap_open func fmt args) Q X w.
Proof.
  intros HQ HX. unfold pcap_open, library, pcap_error. wp_step. wp_ask o k E.
  destruct (Z.eqb_spec (r_ret o) 0); [do 3 wp_step; by apply (HX o)|]. wp_step. by apply HQ.
Qed.

Lemma timeread_main_ends ld filename arg w :
  loop_contract -> w_st w = initial_statics ->
  ends (fun u w' => u = BadFormat /\ ld = None /\ report_undefined filename arg w w') (main ld filename arg)
    (fun code w' => code = 0 /\ file_read ld filename arg w w') (fun code w' => code = 1 /\ read_failed filename w w') w.
Proof.
  intros Hloop Hst. unfold main. destruct filename as [f|]; [|by apply ends_wp; do 3 wp_step].
  apply ends_seq. eapply wp_mono; [by apply (set_resolution_spec arg w (fun _ _ => False))| |done]. intros _ w1 [Hw1 Hlog1].
  do 7 (apply ends_seq; wp_step). apply ends_seq. apply pcap_open_spec.
  2: { intros o w' Ho Hlog. split; [done|]. exists o. left. split; [done|]. by rewrite Hlog; cbn; rewrite Hlog1. }
  intros o k Ho. unfold pcap_loop, library. apply ends_bind, ends_seq. wp_ask r k2 E2.
  match type of E2 with kstep _ ?k0 = _ => destruct (Hloop (r_ret o) k0) as [Hl Hn]; rewrite E2 in Hl, Hn end.
  cbn [fst] in Hl, Hn. unfold packet_count in Hn.
  match goal with |- ends _ _ _ _ ?w0 => set (w2 := w0) end.
  assert (Hw2 : w_st w2 = at_start arg) by exact Hw1.
  assert (Hlog2 : w_log w2 = (loop_call o, r) :: (open_call f, o) :: w_log w) by (cbn; by rewrite Hlog1).
  pose proof (resolution_nonzero arg) as Hres. apply ends_bind, handlers_run; rewrite ?Hw2; [done|done|done|cbn; lia| |].
  - intros us w3 (Hst3 & Hout3 & Hlog3). rewrite Hw2 in Hst3, Hout3. apply ends_wp.
    destruct (Z.eqb_spec (r_ret r) 0) as [Hr|Hr]; cbn [negb]; cbv iota.
    + wp_step. apply ends_wp. do 4 wp_step. wp_step. wp_ask c k4 E4. wp_step. split; [done|].
      exists f, o, r, c, (w_out w2).
      eexists [Out false "\n" []; Out false "Packes within resolution: %1.3f ms\n" _].
      cbv zeta. cbn [w_out w_st w_log w_call w_print]. rewrite Hout3, Hst3, Hlog3, Hlog2.
      split_and!; [done|done|done|done|by rewrite <- !app_assoc|by rewrite counts_add_up|by rewrite sizes_add_up].
    + unfold pcap_error. do 3 wp_step. split; [done|]. exists o. right. split; [done|]. exists r.
      split; [done|]. cbn. by rewrite Hlog3.
  - intros w3 Hld Hdue. split; [done|]. split; [done|]. by exists f, o, r, w2.
Qed.
End Timeread.

(** ** The properties *)

(** C35: the whole program [pcap_timeread], for every file name, every
    resolution (negative ones included) and at most 10000 packets with headers
    of the declared types (the microseconds not the least [long]): it exits with
    1 only when there is no file name, the file cannot be opened, or [pcap_loop]
    fails, and returns 0 only when none of this happened.  Then it printed for
    each packet handed over the line of the reference [lines] - ["+"] while the
    microseconds stay in the same window, a report when the window changes -,
    and closed the file; every packet is counted exactly once, in a report or in
    the count that is left at the end, and so are its bytes, modulo 2^32.  The reports print a
    32-bit length with ["%ld"]: where the implementation ([ld]) gives that no
    meaning, the run is undefined at exactly the first packet that is due a
    report, with ["+"] printed for those before; nothing else is undefined. *)
Theorem pcap_timeread_counts (K : Kernel) (ld : option (Z -> Z)) (filename arg : option string)
  (w : world Timeread.statics) :
  loop_contract -> w_st w = Timeread.initial_statics ->
  match Timeread.main ld filename arg w with
  | Ret code w' => code = 0 /\ file_read ld filename arg w w'
  | Exit code w' => code = 1 /\ read_failed filename w w'
  | Undef u w' => u = BadFormat /\ ld = None /\ report_undefined filename arg w w'
  | NoFuel => False
  end.
Proof. apply timeread_main_ends. Qed.

(** A library that reads a file of three packets. *)
Definition capture : Kernel :=
  {| kst := unit;
     kstep c k :=
       match c with
       | CLib "pcap_loop" _ =>
           (Reply 0 0 (Timespec 0 0)
              [RMsg [] [] [7; 100; 60; 60]; RMsg [] [] [7; 250; 60; 60]; RMsg [] [] [8; 900; 1500; 1500]], k)
       | _ => (reply_of 1, k)
       end |}.

Definition capture_world : @world capture Timeread.statics :=
  @World capture Timeread.statics tt ∅ 1 [] [] 0 Timeread.initial_statics.

Lemma pcap_timeread_counts_witness :
  match Timeread.main (Some (@id Z)) (Some "dump.pcap") (Some "-300") capture_world with
  | Ret code w' => code = 0 /\ file_read (Some (@id Z)) (Some "dump.pcap") (Some "-300") capture_world w'
  | Exit code w' => code = 1 /\ read_failed (Some "dump.pcap") capture_world w'
  | Undef u w' => u = BadFormat /\ Some (@id Z) = None /\ report_undefined (Some "dump.pcap") (Some "-300") capture_world w'
  | NoFuel => False
  end.
Proof.
  apply (pcap_timeread_counts capture (Some (@id Z)) (Some "dump.pcap") (Some "-300") capture_world); [|reflexivity].
  intros pcap k. split; [|vm_compute; discriminate].
  repeat constructor; vm_compute; by try discriminate.
Defined.

(** The file above, at the default resolution: its third packet is due the
    first report. *)
Example report_needs_a_format :
  match Timeread.main None (Some "dump.pcap") None capture_world with
  | Undef BadFormat w' => last (w_out w') = Some (Out false "+" [])
  | _ => False
  end.
Proof. vm_compute. reflexivity. Qed.

(** The seconds are not looked at: two packets a minute apart are in the same
    window when their microseconds are. *)
Example same_window_a_minute_apart :
  Timeread.packet_count = 10000 /\
  lines id (Timeread.Statics 300 1 60 (7, 100) 0) [PcapPkthdr 67 100 60 60] = [Out false "+" []].
Proof. split; reflexivity. Qed.

(** pcap_write_sample: the time stamp of the header is never written. *)
Example write_sample_no_timestamp :
  match @WriteSample.main capture (@World capture unit tt ∅ 1 [] [] 0 tt) with
  | Ret code w' => code = 0 /\ w_mem w' !! 1 =
      Some (replicate 16 None ++ (Some <$> (le_bytes 4 82 ++ le_bytes 4 82)))
  | _ => False
  end.
Proof. vm_compute. split; reflexivity. Qed.
