(* ===== verification/MpRq.v ===== *)
(** * mp_rq.c: a ring of receive buffers over libibverbs

    The functions of the library are calls by name.  The buffers of the ring
    are parts of one allocation; an address is given by its offset in it. *)
From stdpp Require Import base list gmap strings.
From Stdlib Require Import ZArith Lia.
From S2P Require Import Prelude.
From S2P Require Import CLang.
From S2P Require Import Wp.
From S2P Require Import Libc.

#[local] Open Scope Z_scope.
#[local] Open Scope c_scope.

Definition PORT_NUM : Z := 1.
Definition ENTRY_SIZE : Z := 9000.
Definition RQ_NUM_DESC : Z := 512.
Definition DEST_MAC : list Z := [0x00; 0x01; 0x02; 0x03; 0x04; 0x05].
Definition IBV_QPS_INIT : Z := 1.
Definition IBV_QPS_RTR : Z := 2.
Definition buf_size : Z := ENTRY_SIZE * RQ_NUM_DESC.

(** The parts of [sg_entry] and [wr] that a post uses: the address, the size
    and key of the buffer, and the index of the descriptor. *)
Record recv_wr := RecvWr { sg_addr : Z; sg_length : Z; sg_lkey : Z; wr_id : Z }.

Section MpRq.
Context {K : Kernel}.
#[local] Abbreviation M := (M unit).

Definition verbs (func : string) (args : list Z) : M reply := ask (CLib func args).

Definition fail {A} (fmt : string) (args : list arg) : M A := eprintf fmt args ;; exit 1.

(** A function of the library that answers a pointer; [failed] gets the reply
    when that is NULL. *)
Definition verbs_ptr (func : string) (args : list Z) (failed : reply -> M Z) : M Z :=
  r <- verbs func args ;;
  if r_ret r =? 0 then failed r else ret (r_ret r).

(** The name in the message is carried by the reply. *)
Definition no_context (ib_dev : Z) : M Z :=
  r <- verbs "ibv_get_device_name" [ib_dev] ;;
  fail "Couldn't get context for %s\n" [AStr (string_of_bytes (m_ctl (r_msg r)))].

(** The search of the device list; [None] is a variable not written. *)
Definition find_device (num_devices : Z) (dev_list : list Z) : M (option Z) :=
  iter (Datatypes.S (Z.to_nat num_devices))
    (fun '(i, ib_dev) =>
       if i <? num_devices then
         match dev_list !! Z.to_nat i with
         | None => undefined OutOfBounds
         | Some dev =>
             if negb (dev =? 0) then ret (inr (Some dev))
             else printf "IB skipping dev_list[%d]\n" [AInt i] ;; ret (inl (i + 1, Some dev))
         end
       else ret (inr ib_dev))
    (0, None).

Definition get_device : M Z :=
  r <- verbs "ibv_get_device_list" [] ;;
  if r_ret r =? 0 then perror "Failed to get IB devices list" ;; exit 1
  else
    (* the reply carries the number of devices and the list *)
    let num_devices := nth 0 (m_ctl (r_msg r)) 0 in
    printf "INFO: num_devices:%d\n" [AInt num_devices] ;;
    if num_devices =? 0 then fail "Zero IB devices found\n" []
    else
      ib_dev <- find_device num_devices (tail (m_ctl (r_msg r))) ;;
      match ib_dev with
      | None => undefined Indeterminate
      | Some dev => if dev =? 0 then fail "IB device not found\n" [] else ret dev
      end.

Definition modify_qp (qp : Z) (attr : list Z) (fmt : string) : M unit :=
  r <- verbs "ibv_modify_qp" (qp :: attr) ;;
  if r_ret r <? 0 then fail fmt [] else ret tt.

(** [ibv_post_recv(qp, &wr, &bad_wr)]; its result is not used. *)
Definition post_call (qp : Z) (w : recv_wr) : call :=
  CLib "ibv_post_recv" [qp; sg_addr w; sg_length w; sg_lkey w; wr_id w].

Definition ibv_post_recv (qp : Z) (w : recv_wr) : M unit := ask (post_call qp w) ;; ret tt.

(** Filling the ring. *)
Definition fill_ring (qp lkey : Z) : M unit :=
  iter (Datatypes.S (Z.to_nat RQ_NUM_DESC))
    (fun n =>
       if n <? RQ_NUM_DESC then
         ibv_post_recv qp (RecvWr (ENTRY_SIZE * n) ENTRY_SIZE lkey n) ;;
         ret (inl (n + 1))
       else ret (inr tt))
    0.

(** One round of the polling loop.  A completion carries the index of the
    descriptor and the size of the packet. *)
Definition poll_call (cq : Z) : call := CLib "ibv_poll_cq" [cq; 1].
Definition wc_wr_id (r : reply) : Z := nth 0 (m_ctl (r_msg r)) 0.
Definition wc_byte_len (r : reply) : Z := nth 1 (m_ctl (r_msg r)) 0.

Definition poll_round (cq qp lkey : Z) : M unit :=
  r <- ask (poll_call cq) ;;
  let msgs_completed := r_ret r in
  if 0 <? msgs_completed then
    printf "message %ld received size %d\n" [AInt (wc_wr_id r); AInt (wc_byte_len r)] ;;
    ibv_post_recv qp (RecvWr (u64 (wc_wr_id r * ENTRY_SIZE)) ENTRY_SIZE lkey (wc_wr_id r))
  else if msgs_completed <? 0 then
    printf "Polling error\n" [] ;;
    exit 1
  else ret tt.

(** [while (1)]: [fuel] bounds the number of rounds. *)
Definition poll_loop (fuel : nat) (cq qp lkey : Z) : M unit :=
  iter fuel (fun _ => poll_round cq qp lkey ;; ret (inl tt)) tt.

(** The steering rule: packets to DEST_MAC, from anywhere. *)
Definition flow_attr : list Z :=
  PORT_NUM :: DEST_MAC ++ replicate 6 0x00 ++ replicate 6 0xFF ++ replicate 6 0xFF.

(** The completion queue, the ring and the key of its buffers. *)
Definition setup : M (Z * Z * Z) :=
  ib_dev <- get_device ;;
  context <- verbs_ptr "ibv_open_device" [ib_dev] (fun _ => no_context ib_dev) ;;
  pd <- verbs_ptr "ibv_alloc_pd" [context] (fun _ => fail "Couldn't allocate PD\n" []) ;;
  cq <- verbs_ptr "ibv_create_cq" [context; RQ_NUM_DESC]
          (fun r => fail "Couldn't create CQ %d\n" [AInt (r_errno r)]) ;;
  qp <- verbs_ptr "ibv_create_qp" [pd; cq; cq; RQ_NUM_DESC] (fun _ => fail "Couldn't create RSS QP\n" []) ;;
  modify_qp qp [IBV_QPS_INIT; PORT_NUM] "failed modify qp to init\n" ;;
  modify_qp qp [IBV_QPS_RTR] "failed modify qp to recevie\n" ;;
  buf <- malloc buf_size ;;
  if is_null buf then fail "Coudln't allocate memory\n" []
  else
    mr <- verbs "ibv_reg_mr" [pd; buf_size] ;;
    if r_ret mr =? 0 then fail "Couldn't register mr\n" []
    else ret (cq, qp, nth 0 (m_ctl (r_msg mr)) 0).

Definition main (fuel : nat) : M Z :=
  s <- setup ;;
  let '(cq, qp, lkey) := s in
  fill_ring qp lkey ;;
  verbs_ptr "ibv_create_flow" (qp :: flow_attr) (fun _ => fail "Couldn't attach steering flow\n" []) ;;
  poll_loop fuel cq qp lkey ;;
  printf "We are done\n" [] ;;
  ret 0.
End MpRq.
