(* ===== verification/MpRqProps.v ===== *)
(** * mp_rq: the ring

    The library keeps the set of the descriptors that are posted.  A
    descriptor of the ring is posted again after it completed, at its own part
    of the buffer: no two posted descriptors share memory, and a descriptor
    leaves the ring for good only when posting it fails. *)
From stdpp Require Import base list gmap sets strings.
From Stdlib Require Import ZArith Lia.
From S2P Require Import Prelude.
From S2P Require Import CLang.
From S2P Require Import Wp.
From S2P Require Import Libc.
From S2P Require Import Scripted.
From S2P Require Import MpRq.

#[local] Open Scope Z_scope.
#[local] Open Scope c_scope.

(** The calls that post and complete descriptors. *)
Definition ring_call (c : call) : bool :=
  match c with
  | CLib func _ => bool_decide (func = "ibv_post_recv"%string) || bool_decide (func = "ibv_poll_cq"%string)
  | _ => false
  end.

(** What the program relies on: a post answers 0 when it adds the descriptor,
    and something else when it fails, adding nothing; only a posted descriptor
    completes; nothing else changes what is posted; and the device list has as
    many entries as the library says. *)
Class Ring (K : Kernel) := {
  posted : kst -> gset Z;
  post_adds qp wr k r k' :
    kstep (post_call qp wr) k = (r, k') ->
    posted k' = if r_ret r =? 0 then posted k ∪ {[wr_id wr]} else posted k;
  poll_takes cq k r k' :
    kstep (poll_call cq) k = (r, k') ->
    if 0 <? r_ret r then wc_wr_id r ∈ posted k /\ posted k' = posted k ∖ {[wc_wr_id r]}
    else posted k' = posted k;
  other_keeps c k r k' : ring_call c = false -> kstep c k = (r, k') -> posted k' = posted k;
  devices_listed k r k' :
    kstep (CLib "ibv_get_device_list" []) k = (r, k') ->
    Z.of_nat (length (tail (m_ctl (r_msg r)))) = nth 0 (m_ctl (r_msg r)) 0
}.

(** ** The ring as a state machine

    The state is the posted descriptors with the offsets of their buffers.  A
    descriptor is posted when it is not in the ring, with a buffer of its own in
    the allocation. *)
Definition may_post (s : gmap Z Z) (wr : recv_wr) : Prop :=
  s !! wr_id wr = None /\ sg_length wr = ENTRY_SIZE /\ 0 <= sg_addr wr /\ sg_addr wr + ENTRY_SIZE <= buf_size /\
  forall n a, s !! n = Some a -> sg_addr wr + ENTRY_SIZE <= a \/ a + ENTRY_SIZE <= sg_addr wr.

Inductive ring_step : gmap Z Z -> call * reply -> gmap Z Z -> Prop :=
| ring_post s qp wr r :
    may_post s wr -> r_ret r = 0 -> ring_step s (post_call qp wr, r) (<[wr_id wr := sg_addr wr]> s)
| ring_post_fails s qp wr r :
    may_post s wr -> r_ret r <> 0 -> ring_step s (post_call qp wr, r) s
| ring_completion s cq n r :
    0 < r_ret r -> wc_wr_id r = n -> is_Some (s !! n) -> ring_step s (poll_call cq, r) (delete n s)
| ring_idle s cq r : r_ret r <= 0 -> ring_step s (poll_call cq, r) s
| ring_other s c r : ring_call c = false -> ring_step s (c, r) s.

(** A run over a log, newest call first. *)
Inductive ring_run (s0 : gmap Z Z) : list (call * reply) -> gmap Z Z -> Prop :=
| run_start : ring_run s0 [] s0
| run_step l s e s' : ring_run s0 l s -> ring_step s e s' -> ring_run s0 (e :: l) s'.

(** Posting descriptor [n] failed. *)
Definition post_failed (log : list (call * reply)) (n : Z) : Prop :=
  exists qp wr r, In (post_call qp wr, r) log /\ wr_id wr = n /\ r_ret r <> 0.

(** Each posted descriptor is at its own entry. *)
Definition own_entries (s : gmap Z Z) : Prop := forall n a, s !! n = Some a -> a = ENTRY_SIZE * n.

(** The descriptors of [want] are in the ring, but for those whose post
    failed. *)
Definition in_ring (want : Z -> Prop) (log : list (call * reply)) (s : gmap Z Z) : Prop :=
  (forall n, is_Some (s !! n) -> want n) /\ (forall n, want n -> s !! n = None -> post_failed log n).

Lemma post_failed_cons e log n : post_failed log n -> post_failed (e :: log) n.
Proof. intros (qp & wr & r & H & ?). exists qp, wr, r. split; [by right|done]. Qed.

(** The request for descriptor [n]. *)
Definition request (lkey n : Z) : recv_wr := RecvWr (ENTRY_SIZE * n) ENTRY_SIZE lkey n.

Lemma may_post_own s lkey n :
  own_entries s -> s !! n = None -> 0 <= n < RQ_NUM_DESC -> may_post s (request lkey n).
Proof.
  intros Hs Hn Hr. unfold may_post, request. cbn [wr_id sg_addr sg_length].
  unfold buf_size, ENTRY_SIZE, RQ_NUM_DESC in *. split_and!; [done|done|lia|lia|].
  intros m a Hm. pose proof (Hs m a Hm) as ->. unfold ENTRY_SIZE. assert (m <> n) by congruence. lia.
Qed.

Lemma own_entries_insert s n : own_entries s -> own_entries (<[n := ENTRY_SIZE * n]> s).
Proof.
  intros Hs m a. destruct (decide (m = n)) as [->|Hne].
  - rewrite lookup_insert_eq. by intros [= <-].
  - rewrite lookup_insert_ne by done. apply Hs.
Qed.

Lemma own_entries_delete s n : own_entries s -> own_entries (delete n s).
Proof. intros Hs m a [_ Hm]%lookup_delete_Some. by apply Hs. Qed.

Section RingProps.
Context {K : Kernel} `{!Ring K}.
#[local] Abbreviation W := (world unit).

(** The calls since [w0] take the ring to [s], which the library agrees
    with. *)
Definition ring_with (w0 : W) (log : list (call * reply)) (s : gmap Z Z) (w : W) : Prop :=
  w_log w = log ++ w_log w0 /\ ring_run ∅ log s /\ own_entries s /\
  forall n, n ∈ posted (w_k w) <-> is_Some (s !! n).

(** The first [i] descriptors are in the ring, but for those whose post
    failed. *)
Definition ring_at (w0 : W) (i : Z) (w : W) : Prop :=
  exists log s, ring_with w0 log s w /\ in_ring (fun n => 0 <= n < i) log s.

(** Posting descriptor [n], which is not there. *)
Lemma post_spec F w0 log s (want want' : Z -> Prop) n qp lkey w (Q : unit -> W -> Prop) X :
  ring_with w0 log s w -> in_ring want log s -> ~ want n -> 0 <= n < RQ_NUM_DESC ->
  (forall m, want' m <-> want m \/ m = n) ->
  (forall log' s' w', ring_with w0 log' s' w' -> in_ring want' log' s' -> Q tt w') ->
  wpg F (ibv_post_recv qp (request lkey n)) Q X w.
Proof.
  intros (Hlog & Hrun & Hs & Hp) [Hin Hout] Hn Hr Hwant HQ. unfold ibv_post_recv. wp_step. wp_ask r k E. wp_step.
  pose proof (post_adds _ _ _ _ _ E) as Hk. cbn [wr_id request] in Hk.
  assert (Hnone : s !! n = None) by (apply eq_None_not_Some; auto).
  pose proof (may_post_own s lkey n Hs Hnone Hr) as Hmay. destruct (Z.eqb_spec (r_ret r) 0) as [H0|H0].
  - apply (HQ ((post_call qp (request lkey n), r) :: log) (<[n := ENTRY_SIZE * n]> s)).
    + split; [cbn; by rewrite Hlog|]. split; [eapply run_step; [done|exact (ring_post _ qp _ r Hmay H0)]|].
      split; [by apply own_entries_insert|]. intros m. cbn [w_k w_call].
      rewrite Hk, elem_of_union, elem_of_singleton, Hp, lookup_insert_is_Some.
      split; [intros [?| ->]; [destruct (Z.eq_dec n m); auto|by left]|intros [->|[_ ?]]; auto].
    + split; intros m.
      * rewrite lookup_insert_is_Some, Hwant. intros [->|[_ H]]; auto.
      * rewrite Hwant, lookup_insert_None. intros [Hm| ->] [Hm1 ?]; [by apply post_failed_cons, Hout|done].
  - apply (HQ ((post_call qp (request lkey n), r) :: log) s).
    + split; [cbn; by rewrite Hlog|]. split; [eapply run_step; [done|exact (ring_post_fails _ qp _ r Hmay H0)]|].
      split; [done|]. intros m. cbn [w_k w_call]. by rewrite Hk.
    + split; intros m.
      * rewrite Hwant. auto.
      * rewrite Hwant. intros [Hm| ->] ?; [by apply post_failed_cons, Hout|].
        exists qp, (request lkey n), r. split; [by left|done].
Qed.

Lemma ring_at_start w : posted (w_k w) = ∅ -> ring_at w 0 w.
Proof.
  intros Hp. exists [], ∅. split.
  - split; [done|]. split; [constructor|]. split; [done|]. intros n. rewrite Hp, lookup_empty. split; [set_solver|by intros []].
  - split; intros n; [rewrite lookup_empty; by intros []|lia].
Qed.

Lemma ring_at_same w0 i w w' : w_log w' = w_log w -> w_k w' = w_k w -> ring_at w0 i w -> ring_at w0 i w'.
Proof. unfold ring_at, ring_with. by intros -> ->. Qed.

(** A call that does not touch the ring. *)
Lemma ring_at_call w0 i w c r k :
  ring_call c = false -> kstep c (w_k w) = (r, k) -> ring_at w0 i w -> ring_at w0 i (w_call c r k w).
Proof.
  intros Hc E (log & s & (Hlog & Hrun & Hs & Hp) & Hin & Hout). exists ((c, r) :: log), s. split.
  - split; [cbn; by rewrite Hlog|]. split; [eapply run_step; [done|by apply ring_other]|]. split; [done|].
    cbn [w_k w_call]. by rewrite (other_keeps _ _ _ _ Hc E).
  - split; [done|]. intros n Hn H. by apply post_failed_cons, Hout.
Qed.

Lemma fill_ring_spec qp lkey w0 w :
  ring_at w0 0 w ->
  wpg False (fill_ring qp lkey) (fun _ w' => ring_at w0 RQ_NUM_DESC w') (fun _ _ => False) w.
Proof.
  intros Hw. unfold fill_ring.
  apply (wp_iter (fun k n w' => ring_at w0 n w' /\ 0 <= n <= RQ_NUM_DESC /\
    k = Datatypes.S (Z.to_nat (RQ_NUM_DESC - n)))).
  - split; [done|]. unfold RQ_NUM_DESC. lia.
  - intros n w' (_ & _ & ?). lia.
  - intros k n w' ((log & s & Hw' & Hin) & Hn & Hk). destruct (Z.ltb_spec n RQ_NUM_DESC).
    + wp_step. eapply (post_spec False w0 log s _ (fun m => 0 <= m < n + 1) n); [exact Hw'|exact Hin|cbn beta; lia|lia|intros m; cbn beta; lia|].
      intros log2 s2 w2 Hw2 Hin2. wp_step. split; [by exists log2, s2|]. lia.
    + wp_step. assert (n = RQ_NUM_DESC) as -> by lia. by exists log, s.
Qed.

Lemma poll_round_spec w0 cq qp lkey w :
  ring_at w0 RQ_NUM_DESC w ->
  wpg False (poll_round cq qp lkey) (fun _ w' => ring_at w0 RQ_NUM_DESC w')
    (fun code w' => code = 1 /\ ring_at w0 RQ_NUM_DESC w') w.
Proof.
  intros (log & s & (Hlog & Hrun & Hs & Hp) & Hin & Hout). unfold poll_round. wp_step. wp_ask r k E.
  pose proof (poll_takes _ _ _ _ E) as Hk. cbv zeta. destruct (Z.ltb_spec 0 (r_ret r)) as [Hr|Hr].
  - destruct Hk as [Hmem Hk]. apply Hp in Hmem. set (n := wc_wr_id r) in *. do 2 wp_step.
    pose proof (Hin n Hmem) as Hn.
    replace (u64 (n * ENTRY_SIZE)) with (ENTRY_SIZE * n).
    2: { rewrite u64_id; unfold ENTRY_SIZE, RQ_NUM_DESC in *; lia. }
    apply (post_spec False w0 ((poll_call cq, r) :: log) (delete n s)
      (fun m => 0 <= m < RQ_NUM_DESC /\ m <> n) (fun m => 0 <= m < RQ_NUM_DESC)); [| |lia|lia|intros m; cbn beta; lia|].
    + split; [cbn; by rewrite Hlog|]. split; [eapply run_step; [done|by apply ring_completion]|].
      split; [by apply own_entries_delete|]. intros m. cbn [w_k w_print w_call].
      rewrite Hk, elem_of_difference, elem_of_singleton, Hp, lookup_delete_is_Some.
      split; [intros [? ?]; auto|intros [? ?]; auto].
    + split; intros m.
      * intros [Hne Hm]%lookup_delete_is_Some. split; [by apply Hin|done].
      * intros [Hm Hne]. rewrite lookup_delete_ne by done. intros H. by apply post_failed_cons, Hout.
    + intros log2 s2 w2 Hw2 Hin2. by exists log2, s2.
  - assert (Hsame : forall w', w_k w' = k -> w_log w' = (poll_call cq, r) :: w_log w -> ring_at w0 RQ_NUM_DESC w').
    { intros w' Hk' Hl'. exists ((poll_call cq, r) :: log), s. split.
      - split; [rewrite Hl', Hlog; done|]. split; [eapply run_step; [done|by apply ring_idle]|]. split; [done|].
        intros n. by rewrite Hk', Hk.
      - split; [done|]. intros n Hn H. by apply post_failed_cons, Hout. }
    destruct (r_ret r <? 0).
    + do 3 wp_step. split; [done|]. by apply Hsame.
    + wp_step. by apply Hsame.
Qed.

(** The first [n] rounds of the polling loop. *)
Definition poll_rounds (n : nat) (cq qp lkey : Z) : M unit (list unit) :=
  forM (replicate n tt) (fun _ => poll_round cq qp lkey).

Lemma poll_rounds_spec n cq qp lkey w0 w :
  ring_at w0 RQ_NUM_DESC w ->
  wpg False (poll_rounds n cq qp lkey) (fun _ w' => ring_at w0 RQ_NUM_DESC w')
    (fun code w' => code = 1 /\ ring_at w0 RQ_NUM_DESC w') w.
Proof.
  intros Hw. unfold poll_rounds. apply (wp_forM (fun _ _ w' => ring_at w0 RQ_NUM_DESC w')); [done| |done].
  intros done x rest ys w' _ Hw'. by apply poll_round_spec.
Qed.

(** ** The set-up

    The calls of it do not touch the ring, and every failure ends the program. *)
#[local] Abbreviation kept w0 i := (fun _ w' => ring_at w0 i w').
#[local] Abbreviation failed w0 i := (fun code w' => code = 1 /\ ring_at w0 i w').

Lemma verbs_spec w0 i func args w (Q : reply -> W -> Prop) X :
  ring_call (CLib func args) = false -> ring_at w0 i w ->
  (forall r k, kstep (CLib func args) (w_k w) = (r, k) ->
     ring_at w0 i (w_call (CLib func args) r k w) -> Q r (w_call (CLib func args) r k w)) ->
  wpg False (verbs func args) Q X w.
Proof.
  intros Hc Hw HQ. unfold verbs. wp_ask r k E. apply HQ; [done|]. by apply ring_at_call.
Qed.

Lemma verbs_fail_spec {A} w0 i fmt args w (Q : A -> W -> Prop) :
  ring_at w0 i w -> wpg False (MpRq.fail fmt args) Q (failed w0 i) w.
Proof. intros Hw. unfold MpRq.fail. do 3 wp_step. split; [done|]. by apply (ring_at_same _ _ w). Qed.

Lemma verbs_ptr_spec w0 i func args err w :
  ring_call (CLib func args) = false -> ring_at w0 i w ->
  (forall r w', ring_at w0 i w' -> wpg False (err r) (kept w0 i) (failed w0 i) w') ->
  wpg False (verbs_ptr func args err) (kept w0 i) (failed w0 i) w.
Proof.
  intros Hc Hw Herr. unfold verbs_ptr. wp_step. apply (verbs_spec w0 i); [done..|]. intros r k _ Hk.
  wp_step; [by apply Herr|by wp_step].
Qed.

Lemma find_device_spec w0 n l w :
  Z.of_nat (length l) = n -> ring_at w0 0 w ->
  wpg False (find_device n l) (fun dev w' => (0 < n -> is_Some dev) /\ ring_at w0 0 w') (failed w0 0) w.
Proof.
  intros Hl Hw. unfold find_device.
  apply (wp_iter (fun k '(i, dev) w' => ring_at w0 0 w' /\ 0 <= i <= n /\ (0 < i -> is_Some dev) /\
    k = Datatypes.S (Z.to_nat (n - i)))).
  - split_and!; [done|lia..].
  - intros [i dev] w' (_ & _ & _ & ?). lia.
  - intros k [i dev] w' (Hw' & Hi & Hdev & Hk). destruct (Z.ltb_spec i n).
    + destruct (lookup_lt_is_Some_2 l (Z.to_nat i)) as [d Hd]; [lia|]. rewrite Hd. wp_step; [by wp_step|].
      do 3 wp_step. split_and!; [by apply (ring_at_same _ _ w')|lia|lia|done|lia].
    + wp_step. split; [|done]. intros ?. apply Hdev. lia.
Qed.

Lemma get_device_spec w0 w : ring_at w0 0 w -> wpg False get_device (kept w0 0) (failed w0 0) w.
Proof.
  intros Hw. unfold get_device. wp_step. apply (verbs_spec w0 0); [done..|]. intros r k E Hk.
  pose proof (devices_listed _ _ _ E) as Hn. wp_step.
  { do 3 wp_step. split; [done|]. by eapply ring_at_same; [| |exact Hk]. }
  cbv zeta. do 2 wp_step. wp_step; [by apply verbs_fail_spec; eapply ring_at_same; [| |exact Hk]|]. wp_step.
  eapply wp_mono; [apply (find_device_spec w0)| |done]; [exact Hn|by eapply ring_at_same; [| |exact Hk]|].
  intros dev w' [Hdev Hw']. destruct Hdev as [d ->]; [lia|]. wp_step; [by apply verbs_fail_spec|by wp_step].
Qed.

Lemma modify_qp_spec w0 qp attr fmt w :
  ring_at w0 0 w -> wpg False (modify_qp qp attr fmt) (kept w0 0) (failed w0 0) w.
Proof.
  intros Hw. unfold modify_qp. wp_step. apply (verbs_spec w0 0); [done..|]. intros r k _ Hk.
  wp_step; [by apply verbs_fail_spec|by wp_step].
Qed.

Lemma no_context_spec w0 dev w : ring_at w0 0 w -> wpg False (no_context dev) (kept w0 0) (failed w0 0) w.
Proof.
  intros Hw. unfold no_context. wp_step. apply (verbs_spec w0 0); [done..|]. intros r k _ Hk. by apply verbs_fail_spec.
Qed.

Ltac setup_step rule :=
  wp_step; eapply wp_mono; [apply rule| |done]; [try done..|].

Lemma setup_spec w0 w : ring_at w0 0 w -> wpg False setup (kept w0 0) (failed w0 0) w.
Proof.
  intros Hw. unfold setup. setup_step (get_device_spec w0). intros dev w1 H1; cbn beta in H1.
  setup_step (verbs_ptr_spec w0 0). { intros. by apply no_context_spec. } intros context w2 H2; cbn beta in H2.
  setup_step (verbs_ptr_spec w0 0). intros pd w3 H3; cbn beta in H3.
  setup_step (verbs_ptr_spec w0 0). intros cq w4 H4; cbn beta in H4.
  setup_step (verbs_ptr_spec w0 0). intros qp w5 H5; cbn beta in H5.
  setup_step (modify_qp_spec w0). intros u6 w6 H6; cbn beta in H6.
  setup_step (modify_qp_spec w0). intros u7 w7 H7; cbn beta in H7. wp_step.
  wp_ask r k E. pose proof (ring_at_call w0 0 _ (CMalloc buf_size) r k eq_refl E H7) as H8. split; intros Hr.
  - by apply verbs_fail_spec.
  - wp_step. 1: by destruct (w_next w7 =? 0); [|done].
    wp_step. apply (verbs_spec w0 0); [done|by eapply ring_at_same; [| |exact H8]|]. intros mr k2 _ H9.
    wp_step; [by apply verbs_fail_spec|by wp_step].
Qed.

(** The program up to the [n]-th round of the polling loop. *)
Definition main_rounds (n : nat) : M unit (list unit) :=
  s <- setup ;;
  let '(cq, qp, lkey) := s in
  fill_ring qp lkey ;;
  verbs_ptr "ibv_create_flow" (qp :: flow_attr) (fun _ => MpRq.fail "Couldn't attach steering flow\n" []) ;;
  poll_rounds n cq qp lkey.

Lemma main_rounds_spec n w0 w :
  ring_at w0 0 w ->
  wpg False (main_rounds n) (fun _ w' => ring_at w0 RQ_NUM_DESC w')
    (fun code w' => code = 1 /\ (ring_at w0 0 w' \/ ring_at w0 RQ_NUM_DESC w')) w.
Proof.
  intros Hw. unfold main_rounds. wp_step.
  eapply wp_mono; [by apply (setup_spec w0)| |by intros code w' []; auto]. intros [[cq qp] lkey] w1 H1. cbn beta in H1.
  wp_step. eapply wp_mono; [by apply (fill_ring_spec qp lkey w0)| |done]. intros u2 w2 H2. cbn beta in H2.
  wp_step. eapply wp_mono; [apply (verbs_ptr_spec w0 RQ_NUM_DESC)| |by intros code w' []; auto]; [done..|].
  intros flow w3 H3. cbn beta in H3.
  eapply wp_mono; [by apply (poll_rounds_spec n cq qp lkey w0)|done|by intros code w' []; auto].
Qed.
End RingProps.

(** A program cut before it ends. *)
Definition unfinished {W A B} (o : outcome W A) : outcome W B :=
  match o with
  | Ret _ _ | NoFuel => NoFuel
  | Exit c w => Exit c w
  | Undef u w => Undef u w
  end.

(** The loop is its rounds, for as long as there is fuel. *)
Lemma poll_loop_rounds {K : Kernel} n cq qp lkey (w : world unit) :
  poll_loop n cq qp lkey w = unfinished (poll_rounds n cq qp lkey w).
Proof.
  unfold poll_loop, poll_rounds. revert w. induction n as [|n IH]; intros w; [done|]. rewrite iter_S.
  cbn [replicate forM]. unfold bind. destruct (poll_round cq qp lkey w) as [[] w'|? ?|? ?|]; try reflexivity.
  unfold ret at 1. rewrite IH. by destruct (forM (replicate n tt) _ w').
Qed.

Lemma unfinished_bind {K : Kernel} {A B C} (m : M unit A) (f : A -> M unit B) (g : A -> M unit C) w :
  (forall a w', f a w' = unfinished (g a w')) -> bind m f w = unfinished (bind m g w).
Proof. intros H. unfold bind. by destruct (m w). Qed.

Lemma main_cut {K : Kernel} n (w : world unit) : main n w = unfinished (main_rounds n w).
Proof.
  apply unfinished_bind. intros [[cq qp] lkey] w1. do 2 (apply unfinished_bind; intros ? ?).
  unfold bind. rewrite poll_loop_rounds. by destruct (poll_rounds n cq qp lkey _).
Qed.

(** ** The properties *)

(** C34: the whole program [mp_rq], on a library where a post may fail, that
    completes only what was posted, and that lists as many devices as it says:
    for every number [n], [main] reaches the end of the [n]-th round of its
    polling loop without undefined behaviour, or exits with 1 before; and it
    never returns.  At that point the calls made are a run of the ring machine
    from the empty ring: no descriptor was ever posted while it was posted
    already, and every buffer posted lies in the allocation and overlaps no
    other posted buffer.  The library has, at their
    own entries, the descriptors 0 to 511 except for those a post of which
    failed (the program does not look at that result, and loses them); when no
    post fails the ring is full.  At an exit the same holds, or nothing has been
    posted. *)
Theorem ring_keeps_descriptors (K : Kernel) `{!Ring K} (n : nat) (w : world unit) :
  posted (w_k w) = ∅ ->
  main n w = unfinished (main_rounds n w) /\
  wp (main_rounds n) (fun _ w' => ring_at w RQ_NUM_DESC w')
    (fun code w' => code = 1 /\ (ring_at w 0 w' \/ ring_at w RQ_NUM_DESC w')) w.
Proof. intros Hp. split; [apply main_cut|]. by apply main_rounds_spec, ring_at_start. Qed.

(** A library that completes the descriptors in the order of its set, and on
    which every post of descriptor 3 fails (with ENOMEM). *)
Definition complete_one (k : gset Z) : reply * gset Z :=
  match elements k with
  | [] => (reply_of 0, k)
  | n :: _ => (Reply 1 0 (Timespec 0 0) [RMsg [] [] [n; 60]], k ∖ {[n]})
  end.

Lemma complete_one_takes k r k' :
  complete_one k = (r, k') ->
  if 0 <? r_ret r then wc_wr_id r ∈ k /\ k' = k ∖ {[wc_wr_id r]} else k' = k.
Proof.
  unfold complete_one. destruct (elements k) as [|n l] eqn:El; intros [= <- <-]; [done|].
  cbn. split; [|done]. apply elem_of_elements. rewrite El. by constructor.
Qed.

Definition ring_library : Kernel :=
  {| kst := gset Z;
     kstep c k :=
       match c with
       | CLib func args =>
           if decide (func = "ibv_post_recv"%string) then
             if nth 4 args 0 =? 3 then (reply_of 12, k) else (reply_of 0, k ∪ {[nth 4 args 0]})
           else if decide (func = "ibv_poll_cq"%string) then
             complete_one k
           else if decide (func = "ibv_get_device_list"%string) then
             (Reply 1 0 (Timespec 0 0) [RMsg [] [] [1; 77]], k)
           else (reply_of 1, k)
       | _ => (reply_of 1, k)
       end |}.

#[local] Instance ring_library_ring : Ring ring_library.
Proof.
  refine {| posted := fun k : @kst ring_library => (k : gset Z) |}.
  - intros qp wr k r k' E. cbn in E. by destruct (wr_id wr =? 3); inversion E; subst.
  - intros cq k r k' E. by apply complete_one_takes.
  - intros c k r k'. destruct c; cbn [ring_call kstep ring_library]; [by intros _ [= _ <-]..| |by intros _ [= _ <-]].
    repeat case_decide; subst; try done; by intros _ [= _ <-].
  - intros k r k' E. cbn in E. by injection E as <- <-.
Defined.

Lemma ring_keeps_descriptors_witness :
  let w := @World ring_library unit ∅ ∅ 1 [] [] 0 tt in
  main 1000 w = unfinished (main_rounds 1000 w) /\
  wp (main_rounds 1000) (fun _ w' => ring_at w RQ_NUM_DESC w')
    (fun code w' => code = 1 /\ (ring_at w 0 w' \/ ring_at w RQ_NUM_DESC w')) w.
Proof.
  intros w. apply (ring_keeps_descriptors ring_library 1000 w). reflexivity.
Defined.
